(* ===== verification/_CoqProject ===== *)
-Q . S2P
Prelude.v
Mem.v
Frames.v
Pmm.v
Vmm.v
Heap.v
Slab.v
Proc.v
Sched.v
Process.v
Context.v
CString.v
Ipc.v
Vfs.v
Syscall.v
Devices.v
Console.v
Keyboard.v
Traps.v
Cpu.v
Network.v
Smp.v
Gui.v
Script.v
Shell.v
Commands.v
ProcCommands.v
SysCommands.v
UserPrograms.v
DriverConfig.v
Benchmark.v
Entry.v
Boot.v
Kmain.v
