(* ===== verification/Prelude.v ===== *)
(** * OpenOS, a 32-bit x86 kernel: verification library

    OpenOS boots from a Multiboot loader into [kmain] (src/kernel/kernel.c), which sets up
    the console, the descriptor tables, the interrupt controller and timer, the in-memory
    file system, the memory managers, the heap, IPC and the process system, starts a shell
    process and then becomes the idle process. From there everything is driven by the timer
    interrupt (scheduling), the keyboard interrupt (line input) and [int 0x80] (system
    calls). This library models those parts in Rocq, function by function, and proves what
    each promises to the others.

    ** Representation

    A C integer is a [Z]; results the source stores at a width go through [u8], [u16],
    [u32], [u64] or [s32], so overflow is visible. The file-scope variables of a C file are
    the fields of one record, and a function that changes them takes and returns it. Raw
    memory (page tables, heap blocks, stacks, C strings) is a finite map from addresses to
    words or bytes ([Mem]). Pointers into fixed arrays (process control blocks, file-system
    nodes, pipes) are indices. Undefined behaviour and loops out of fuel are [None].

    ** Files

    - [Prelude]: widths, bit lemmas, counted loops, searches, fixed arrays.
    - [Mem]: word- and byte-addressed memory.
    - [Frames]: [FrameAllocator], the class through which the virtual memory manager uses
      the physical one.
    - [Pmm]: memory/pmm.c, the bitmap of physical pages, from the loader's memory map.
      Instance of [FrameAllocator].
    - [Vmm]: memory/vmm.c, two-level page tables in memory, and the TLB.
    - [Heap]: memory/heap.c, the first-fit allocator, as linked blocks in memory refining a
      list of blocks. [Slab]: memory/slab.c, free lists of objects on top of it.
    - [Proc]: the process table of process/process.c. [Sched]: process/scheduler.c, the
      linked multilevel queues refining three lists, aging, and the timer interrupt.
      [Process]: creation, exit, kill, wait and sleep, on [Sched] and [Heap].
    - [Context]: arch/x86/context.S, instruction by instruction, on registers and stacks.
    - [CString]: kernel/string.c on byte memory.
    - [Ipc]: kernel/ipc.c, pipes and message queues. [Vfs]: fs/vfs.c, the file system.
    - [Syscall]: kernel/syscall.c, the dispatcher and [fork].
    - [Devices]: arch/x86/pic.c, drivers/timer.c and drivers/serial.c, with the chips they
      program. [Console]: drivers/console.c. [Keyboard]: drivers/keyboard.c.
    - [Traps]: arch/x86/gdt.c, arch/x86/idt.c, arch/x86/exceptions.c, kernel/panic.c and
      the interrupt gates installed by kernel.c and syscall.c.
    - [Cpu]: the pipelined and single-cycle processors of kernel/cpu, and the cache and bus
      simulators memory/cache.c and memory/bus.c. [Benchmark]: the program
      benchmarks/pipeline_vs_single.c that runs them.
    - [Network]: kernel/network.c. [Smp]: kernel/smp.c. [Gui]: kernel/gui.c on the frame
      buffer and the heap. [Script]: kernel/script.c.
    - [Shell]: kernel/shell.c, the registry, the parser and the dispatch. The commands are
      [Commands] (files and directories), [SysCommands] (reports and component tests), both
      from kernel/commands.c, and [ProcCommands] (kernel/proc_commands.c).
    - [UserPrograms]: kernel/user_programs.c and include/usyscall.h, the ring-3 programs as
      the calls they make, run on the dispatcher of [Syscall].
    - [DriverConfig]: drivers/config/src and drivers/driver_config.h, the Rust library of
      driver settings and its C interface.
    - [Entry]: arch/x86/isr.S, syscall.S, exceptions.S and boot.S, on the machine of
      [Context] with the processor's own pushes on an interrupt.
    - [Boot] and [Kmain]: kernel/kernel.c, [kmain] step by step over the states of all
      components, and the loop of the shell process.

    ** Theorems

    - Start. [kmain] returns from every initialisation it calls and leaves each component
      in the state its own theorems start from: tables and gates in place, the timer at
      100 Hz with its line unmasked, the file-system tree built, the heap on pages that are
      mapped and are no page table's, and the shell ready to run at the first tick
      ([Kmain.kmain_correct]). A turn of the
      shell's loop reads the edited line, shows it and finds its command
      ([Boot.shell_turn_correct]).

    - Memory. Page frames are never handed out twice ([Pmm.pmm_client_safe]); page tables
      never share frames and the processor translates as [vmm_get_physical] says, TLB
      included, after any interleaving ([Vmm.vmm_trace_coherent]); heap blocks in use are
      disjoint, and freeing them all leaves one block ([Heap.heap_trace_safe]); slab
      objects likewise. The single operations have functional theorems.
    - Processes. The queues refine lists ([Sched.ready_queues_refine]); [schedule] picks
      the head of the best queue; a ready process runs within 722 ticks
      ([Sched.no_starvation]); any trace of process operations keeps table, queues and
      stack ownership consistent ([Process.process_trace_safe]); each operation has a
      functional theorem; switching away and back restores a thread
      ([Context.context_switch_roundtrip]); a forked child returns to user mode with EAX 0
      on its own stack ([Syscall.sys_fork_child_returns], from fork through the scheduler's
      frame to the assembly). An interrupt leaves the interrupted registers and stack as
      they were ([Entry.irq_transparent]) and [int 0x80] changes what the dispatcher's frame
      says and nothing else ([Entry.int80_correct]). The user programs print, sleep, fork
      and end as written ([UserPrograms.forktest_correct] and its like), and the process
      commands keep the process invariant ([ProcCommands.proc_commands_safe]).
    - Data services. Pipes and queues are FIFO ([Ipc.ipc_fifo]); the file system stays a
      tree, resolves paths as specified, and returns what was written; the string library
      splits, copies and converts exactly. What [write] stores [cat] prints
      ([Commands.write_cat_roundtrip]), [cd] and [pwd] agree, scripts assign as specified,
      the network's packets and sockets stay well typed, windows refine a list, and driver
      settings are read back as they were set ([DriverConfig.config_set_get]).
    - Simulators. The pipeline retires a program in order, each instruction once, in a
      known number of cycles, and on the immediate loads its write-back supports it
      computes what the single-cycle processor computes
      ([Cpu.pipeline_equals_single_cycle]); the cache is a direct-mapped one; the counters
      the benchmark prints are known ([Benchmark.benchmark_correct]).
    - Devices. The interrupt controllers, timer, segments and interrupt gates are programmed
      as intended, judged by what the hardware decodes; the screen shows the last 25 lines
      of what was printed; a typed line reaches its reader edited and is what the screen
      shows.

    A theorem with hypotheses has a [_witness] that applies it at a concrete input. Lemmas
    that show a defect of the code (a leaked page, an overflow, a stale message) state it
    at the function concerned, for instance [Vmm.vmm_destroy_directory_leak],
    [Heap.kmalloc_overflow], [Syscall.fork_create_same_pid], [Keyboard.keyboard_late_key].

    ** Fuel and bounds

    Loops with a fixed count are folds. Walks of linked lists take fuel equal to the size of
    the table they thread (64 processes; the heap's size in bytes for its blocks, each at
    least 16), and the theorems show that the fuel is never exhausted on states that
    satisfy the invariant. String functions take fuel from the caller; their theorems ask
    for one more than the length of the strings. The polling loop of the serial driver is
    given the transmitter's remaining busy time. The boot's walk of the loader's memory map
    has the map's length as fuel. A user program is run for as many steps as its phase has
    calls, a number the theorem gives.

    ** Not modelled

    The boot loader's side: what it hands over is a record [kmain] takes. Preemption inside
    kernel code: the commands and the boot sequence run as single steps, and interleaving
    is at the granularity of whole operations, as the traces of [Process], [Vmm], [Heap],
    [Vfs] and [Ipc] have it. The life of a user program after a fork is followed up to the
    parent's wait: [fork] can leave two processes with one pid ([fork_create_same_pid]), so
    the invariant the later steps rest on does not hold from there. [gui_draw_line] and the
    ratios of the simulators' reports, which compute in floating point. The linker and
    image scripts. *)
From Stdlib Require Export ZArith Lia Bool.
From stdpp Require Export base numbers list gmap option.

#[global] Open Scope Z_scope.

(** [lia] with division and modulo by constants. *)
Ltac dlia := Z.to_euclidean_division_equations; lia.

(** ** Machine-width integers

    A C unsigned integer of width [w] is a [Z]; every arithmetic result the
    source stores or compares at width [w] goes through the wrap function. *)

Definition u8 (z : Z) : Z := z mod 2 ^ 8.
Definition u16 (z : Z) : Z := z mod 2 ^ 16.
Definition u32 (z : Z) : Z := z mod 2 ^ 32.
Definition u64 (z : Z) : Z := z mod 2 ^ 64.

(** Two's complement reading of a 32-bit pattern, for [int]. *)
Definition s32 (z : Z) : Z := (z + 2 ^ 31) mod 2 ^ 32 - 2 ^ 31.

Definition is_u8 (z : Z) : Prop := 0 <= z < 2 ^ 8.
Definition is_u16 (z : Z) : Prop := 0 <= z < 2 ^ 16.
Definition is_u32 (z : Z) : Prop := 0 <= z < 2 ^ 32.
Definition is_u64 (z : Z) : Prop := 0 <= z < 2 ^ 64.

Create HintDb openos discriminated.

(** Unfold the width predicates and constants, then decide linear facts. *)
Ltac widths :=
  unfold is_u8, is_u16, is_u32, is_u64 in *;
  change (2 ^ 8) with 256 in *; change (2 ^ 16) with 65536 in *;
  change (2 ^ 31) with 2147483648 in *;
  change (2 ^ 32) with 4294967296 in *;
  change (2 ^ 64) with 18446744073709551616 in *.

Ltac wsolve := widths; first [lia | dlia].

(** Case analysis on every integer comparison of the goal. *)
Ltac zcases :=
  repeat match goal with
  | |- context [Z.ltb ?a ?b] => destruct (Z.ltb_spec a b)
  | |- context [Z.leb ?a ?b] => destruct (Z.leb_spec a b)
  | |- context [Z.eqb ?a ?b] => destruct (Z.eqb_spec a b)
  end.

(** The same on the comparisons of a hypothesis. *)
Ltac zcases_in H :=
  repeat match type of H with
  | context [Z.ltb ?a ?b] => destruct (Z.ltb_spec a b)
  | context [Z.leb ?a ?b] => destruct (Z.leb_spec a b)
  | context [Z.eqb ?a ?b] => destruct (Z.eqb_spec a b)
  end.

Lemma u8_range z : is_u8 (u8 z).
Proof. apply Z.mod_pos_bound; lia. Qed.
Lemma u16_range z : is_u16 (u16 z).
Proof. apply Z.mod_pos_bound; lia. Qed.
Lemma u32_range z : is_u32 (u32 z).
Proof. apply Z.mod_pos_bound; lia. Qed.
Lemma u64_range z : is_u64 (u64 z).
Proof. apply Z.mod_pos_bound; lia. Qed.
#[export] Hint Resolve u8_range u16_range u32_range u64_range : openos.

Lemma u8_small z : is_u8 z -> u8 z = z.
Proof. apply Z.mod_small. Qed.
Lemma u16_small z : is_u16 z -> u16 z = z.
Proof. apply Z.mod_small. Qed.
Lemma u32_small z : is_u32 z -> u32 z = z.
Proof. apply Z.mod_small. Qed.
Lemma u64_small z : is_u64 z -> u64 z = z.
Proof. apply Z.mod_small. Qed.

Lemma u32_u32 z : u32 (u32 z) = u32 z.
Proof. apply u32_small, u32_range. Qed.
Lemma u32_add_l a b : u32 (u32 a + b) = u32 (a + b).
Proof. unfold u32. rewrite Zplus_mod_idemp_l. done. Qed.
Lemma u32_add_r a b : u32 (a + u32 b) = u32 (a + b).
Proof. unfold u32. rewrite Zplus_mod_idemp_r. done. Qed.
Lemma s32_small z : - 2 ^ 31 <= z < 2 ^ 31 -> s32 z = z.
Proof. intros H. unfold s32. rewrite Z.mod_small by wsolve. lia. Qed.

(** ** Bit-level lemmas *)

Lemma testbit_high n w i : 0 <= n < 2 ^ w -> w <= i -> Z.testbit n i = false.
Proof.
  intros Hn Hi. destruct (Z.eq_dec n 0) as [->|]; [apply Z.testbit_0_l|].
  apply Z.bits_above_log2; [lia|].
  destruct (Z.le_gt_cases 0 w).
  - assert (Z.log2 n < w) by (apply Z.log2_lt_pow2; lia). lia.
  - rewrite Z.pow_neg_r in Hn by lia. lia.
Qed.

(** Masking with [0xFFFFF000] clears the page offset of a 32-bit word. *)
Lemma land_page_mask x : is_u32 x -> Z.land x 0xFFFFF000 = 4096 * (x / 4096).
Proof.
  intros Hx. change 0xFFFFF000 with (Z.shiftl (Z.ones 20) 12).
  change 4096 with (2 ^ 12). rewrite (Z.mul_comm _ (x / _)).
  rewrite <- Z.shiftl_mul_pow2, <- Z.shiftr_div_pow2 by lia.
  apply Z.bits_inj'. intros i Hi.
  rewrite Z.land_spec, !Z.shiftl_spec by lia.
  destruct (Z.lt_ge_cases i 12).
  - rewrite !(Z.testbit_neg_r _ (i - 12)) by lia. apply andb_false_r.
  - rewrite Z.shiftr_spec by lia. replace (i - 12 + 12) with i by lia.
    destruct (Z.lt_ge_cases i 32).
    + rewrite Z.ones_spec_low by lia. apply andb_true_r.
    + rewrite (testbit_high x 32 i) by (unfold is_u32 in Hx; lia). done.
Qed.

Lemma land_ones_mod x n : 0 <= n -> Z.land x (Z.ones n) = x mod 2 ^ n.
Proof. apply Z.land_ones. Qed.

(** A page base and a page offset or-ed together add up. *)
Lemma lor_page_offset a b :
  0 <= a -> 0 <= b < 4096 -> Z.lor (4096 * a) b = 4096 * a + b.
Proof.
  intros Ha Hb.
  assert (Z.land (4096 * a) b = 0) as Hz.
  { apply Z.bits_inj'. intros i Hi. rewrite Z.land_spec, Z.bits_0.
    destruct (Z.lt_ge_cases i 12).
    - change 4096 with (2 ^ 12). rewrite (Z.mul_comm _ a), Z.mul_pow2_bits_low by lia. done.
    - rewrite (testbit_high b 12 i) by lia. apply andb_false_r. }
  rewrite Z.add_nocarry_lxor by done. symmetry. by apply Z.lxor_lor.
Qed.

(** Clearing the bits of a mask subtracts them. *)
Lemma ldiff_sub x c : Z.ldiff x c = x - Z.land x c.
Proof.
  rewrite Z.sub_nocarry_ldiff.
  - apply Z.bits_inj'. intros i Hi. rewrite !Z.ldiff_spec, Z.land_spec.
    by destruct (Z.testbit x i), (Z.testbit c i).
  - apply Z.bits_inj'. intros i Hi. rewrite Z.ldiff_spec, Z.land_spec, Z.bits_0.
    by destruct (Z.testbit x i), (Z.testbit c i).
Qed.
Lemma land_le_r x c : 0 <= c -> 0 <= Z.land x c <= c.
Proof.
  intros Hc. split; [apply Z.land_nonneg; by right|].
  assert (0 <= Z.ldiff c x) as H by (apply Z.ldiff_nonneg; by left).
  rewrite ldiff_sub, Z.land_comm in H. lia.
Qed.

(** ** Counted loops

    [for_range lo hi body s] is [for (i = lo; i < hi; i++) s = body(i, s)] for a
    loop whose bound the body does not change. *)
Definition for_range {S : Type} (lo hi : Z) (body : Z -> S -> S) (s : S) : S :=
  foldl (fun s i => body i s) s (seqZ lo (hi - lo)).

(** Loop invariant rule: [P i s] holds before iteration [i]. *)
Lemma for_range_ind {S : Type} (P : Z -> S -> Prop) lo hi body s :
  lo <= hi -> P lo s ->
  (forall i s, lo <= i < hi -> P i s -> P (i + 1) (body i s)) ->
  P hi (for_range lo hi body s).
Proof.
  intros Hle H0 Hstep. unfold for_range.
  assert (forall n, 0 <= n <= hi - lo ->
    P (lo + n) (foldl (fun s i => body i s) s (seqZ lo n))) as Hall.
  { intros n Hn. generalize (proj1 Hn). intros Hn0. revert Hn.
    pattern n. apply natlike_ind; [| |done].
    - intros _. by rewrite Z.add_0_r.
    - intros x Hx IH Hb. unfold Z.succ. rewrite seqZ_app by lia. rewrite foldl_app.
      change (seqZ (lo + x) 1) with [lo + x]. simpl.
      rewrite Z.add_assoc. apply Hstep; [lia|]. apply IH. lia. }
  replace hi with (lo + (hi - lo)) at 1 by lia. apply Hall. lia.
Qed.

Lemma for_range_nil {S : Type} lo hi (body : Z -> S -> S) s :
  hi <= lo -> for_range lo hi body s = s.
Proof. intros H. unfold for_range. rewrite seqZ_nil by lia. done. Qed.

Lemma for_range_cons {S : Type} lo hi (body : Z -> S -> S) s :
  lo < hi -> for_range lo hi body s = for_range (lo + 1) hi body (body lo s).
Proof.
  intros H. unfold for_range. rewrite seqZ_cons by lia. simpl. repeat f_equal; lia.
Qed.

Lemma for_range_ext {S : Type} lo hi (f g : Z -> S -> S) s :
  (forall i s, lo <= i < hi -> f i s = g i s) -> for_range lo hi f s = for_range lo hi g s.
Proof.
  intros H. unfold for_range.
  assert (forall i, i ∈ seqZ lo (hi - lo) -> forall s, f i s = g i s) as Hl.
  { intros i Hi s'. apply H. apply elem_of_seqZ in Hi. lia. }
  clear H. revert s Hl. induction (seqZ lo (hi - lo)) as [|i l IH]; intros s Hl; simpl; [done|].
  rewrite Hl by left. apply IH. intros j Hj. apply Hl. by right.
Qed.

(** First index of [lo, hi) that satisfies [f]: a search loop with an early
    return. *)
Definition zfind (f : Z -> bool) (lo hi : Z) : option Z :=
  List.find f (seqZ lo (hi - lo)).

Lemma zfind_Some f lo hi i :
  zfind f lo hi = Some i <->
  lo <= i < hi /\ f i = true /\ forall j, lo <= j < i -> f j = false.
Proof.
  unfold zfind. remember (Z.to_nat (hi - lo)) as n eqn:Hn.
  revert lo Hn. induction n as [|n IH]; intros lo Hn.
  - rewrite seqZ_nil by lia. simpl. split; [done|lia].
  - rewrite seqZ_cons by lia. simpl. replace (Z.pred (hi - lo)) with (hi - Z.succ lo) by lia.
    destruct (f lo) eqn:Hf.
    + split.
      * intros [= <-]. repeat split; [lia|lia|done|lia].
      * intros (Hr & Hi & Hmin). destruct (Z.eq_dec i lo) as [->|]; [done|].
        rewrite Hmin in Hf by lia. done.
    + rewrite IH by lia. split.
      * intros (Hr & Hi & Hmin). repeat split; [lia|lia|done|].
        intros j Hj. destruct (Z.eq_dec j lo) as [->|]; [done|]. apply Hmin. lia.
      * intros (Hr & Hi & Hmin). destruct (Z.eq_dec i lo) as [->|]; [congruence|].
        repeat split; [lia|lia|done|]. intros j Hj. apply Hmin. lia.
Qed.

Lemma zfind_None f lo hi :
  zfind f lo hi = None <-> forall j, lo <= j < hi -> f j = false.
Proof.
  split.
  - intros H j Hj. apply (find_none _ _ H). apply list_elem_of_In, elem_of_seqZ. lia.
  - intros H. destruct (zfind f lo hi) as [i|] eqn:E; [|done].
    apply zfind_Some in E as (Hr & Hi & _). rewrite H in Hi by lia. done.
Qed.

(** How many indices of [0, n) satisfy [f]. *)
Definition zcount (f : Z -> bool) (n : Z) : Z :=
  Z.of_nat (length (List.filter f (seqZ 0 n))).

Lemma zcount_ext f g n :
  (forall i, 0 <= i < n -> f i = g i) -> zcount f n = zcount g n.
Proof.
  intros H. unfold zcount. do 2 f_equal. apply List.filter_ext_in.
  intros i Hi. apply H. apply list_elem_of_In, elem_of_seqZ in Hi. lia.
Qed.

Lemma zcount_bounds f n : 0 <= n -> 0 <= zcount f n <= n.
Proof.
  intros Hn. unfold zcount.
  pose proof (List.filter_length_le f (seqZ 0 n)) as H.
  rewrite length_seqZ in H. lia.
Qed.

Lemma seqZ_split n k : 0 <= k < n ->
  seqZ 0 n = seqZ 0 k ++ k :: seqZ (k + 1) (n - k - 1).
Proof.
  intros Hk. replace n with (k + (1 + (n - k - 1))) at 1 by lia.
  rewrite seqZ_app by lia. f_equal. rewrite seqZ_cons by lia.
  repeat f_equal; lia.
Qed.

Lemma zcount_split f n k : 0 <= k < n ->
  zcount f n = zcount (fun i => negb (i =? k) && f i) n + (if f k then 1 else 0).
Proof.
  intros Hk. unfold zcount. rewrite !(seqZ_split n k Hk), !List.filter_app, !length_app.
  simpl. rewrite Z.eqb_refl. simpl.
  rewrite (List.filter_ext_in (fun i => negb (i =? k) && f i) f (seqZ 0 k)),
    (List.filter_ext_in (fun i => negb (i =? k) && f i) f (seqZ (k + 1) _)).
  - destruct (f k); simpl; lia.
  - intros i Hi. apply list_elem_of_In, elem_of_seqZ in Hi.
    destruct (Z.eqb_spec i k); [lia|done].
  - intros i Hi. apply list_elem_of_In, elem_of_seqZ in Hi.
    destruct (Z.eqb_spec i k); [lia|done].
Qed.

(** Changing the predicate at one index moves the count by one. *)
Lemma zcount_flip f g n k : 0 <= k < n ->
  (forall i, 0 <= i < n -> i <> k -> f i = g i) ->
  f k = false -> g k = true -> zcount g n = zcount f n + 1.
Proof.
  intros Hk Hext Hf Hg. rewrite (zcount_split f n k), (zcount_split g n k), Hf, Hg by done.
  rewrite (zcount_ext (fun i => negb (i =? k) && f i) (fun i => negb (i =? k) && g i)); [lia|].
  intros i Hi. destruct (Z.eqb_spec i k); [done|]. simpl. auto.
Qed.

(** The counting loop of the source computes [zcount]. *)
Lemma for_range_count (f : Z -> bool) n : 0 <= n < 2 ^ 32 ->
  for_range 0 n (fun i c => if f i then u32 (c + 1) else c) 0 = zcount f n.
Proof.
  intros Hn.
  apply (for_range_ind (fun i c => c = zcount f i)); [lia|done|].
  intros i c Hi ->. pose proof (zcount_bounds f i ltac:(lia)) as Hb.
  assert (zcount f (i + 1) = zcount f i + if f i then 1 else 0) as ->.
  { unfold zcount. rewrite seqZ_app by lia. rewrite List.filter_app, length_app.
    rewrite Z.add_0_l. change (seqZ i 1) with [i]. simpl. destruct (f i); simpl; lia. }
  destruct (f i); [rewrite u32_small by wsolve|]; lia.
Qed.

(** ** Fixed-size C arrays

    Reads and writes of an array at an index the code has bounds-checked. *)
Definition aget (l : list Z) (i : Z) : Z := default 0 (l !! Z.to_nat i).
Definition aset (l : list Z) (i v : Z) : list Z := <[Z.to_nat i := v]> l.

Lemma aget_aset_eq l i v : 0 <= i < Z.of_nat (length l) -> aget (aset l i v) i = v.
Proof. intros H. unfold aget, aset. rewrite list_lookup_insert_eq by lia. done. Qed.
Lemma aget_aset_ne l i j v : 0 <= i -> 0 <= j -> i <> j -> aget (aset l i v) j = aget l j.
Proof. intros Hi Hj Hne. unfold aget, aset. rewrite list_lookup_insert_ne by lia. done. Qed.
Lemma length_aset l i v : length (aset l i v) = length l.
Proof. apply length_insert. Qed.
Lemma aget_replicate n v i : 0 <= i < Z.of_nat n -> aget (replicate n v) i = v.
Proof. intros H. unfold aget. rewrite lookup_replicate_2 by lia. done. Qed.

(** The C idiom [x & (1 << n)] tests bit [n]. *)
Lemma land_bit_test x n : 0 <= n -> negb (Z.land x (Z.shiftl 1 n) =? 0) = Z.testbit x n.
Proof.
  intros Hn. rewrite Z.shiftl_1_l. destruct (Z.testbit x n) eqn:Hb.
  - destruct (Z.eqb_spec (Z.land x (2 ^ n)) 0) as [H|]; [|done].
    apply (f_equal (fun z => Z.testbit z n)) in H.
    rewrite Z.land_spec, Hb, Z.pow2_bits_true, Z.bits_0 in H by lia. done.
  - destruct (Z.eqb_spec (Z.land x (2 ^ n)) 0) as [|H]; [done|]. destruct H.
    apply Z.bits_inj'. intros i Hi. rewrite Z.land_spec, Z.bits_0.
    destruct (Z.eq_dec i n) as [->|]; [by rewrite Hb|].
    rewrite Z.pow2_bits_false by lia. apply andb_false_r.
Qed.

Lemma u8_testbit x i : 0 <= i < 8 -> Z.testbit (u8 x) i = Z.testbit x i.
Proof. intros H. unfold u8. apply Z.mod_pow2_bits_low. lia. Qed.

(** Setting and clearing one bit of a byte. *)
Lemma testbit_set_bit x k i : 0 <= k < 8 -> 0 <= i < 8 ->
  Z.testbit (u8 (Z.lor x (Z.shiftl 1 k))) i = (i =? k) || Z.testbit x i.
Proof.
  intros Hk Hi. rewrite u8_testbit, Z.lor_spec, Z.shiftl_1_l, Z.pow2_bits_eqb by lia.
  rewrite (Z.eqb_sym k i). apply orb_comm.
Qed.
Lemma testbit_clear_bit x k i : 0 <= k < 8 -> 0 <= i < 8 ->
  Z.testbit (u8 (Z.land x (Z.lnot (Z.shiftl 1 k)))) i = negb (i =? k) && Z.testbit x i.
Proof.
  intros Hk Hi.
  rewrite u8_testbit, Z.land_spec, Z.lnot_spec, Z.shiftl_1_l, Z.pow2_bits_eqb by lia.
  rewrite (Z.eqb_sym k i). apply andb_comm.
Qed.

#[global] Opaque for_range.
