(* ===== verification/Mem.v ===== *)
(** * Flat word-addressed memory

    Memory is a finite map from byte addresses to the words stored there; the
    components that place C structures in raw memory (page tables, heap blocks,
    slab free lists) read and write their fields at computed addresses. *)
From S2P Require Import Prelude.

Abbreviation mem := (gmap Z Z).

Definition ld (m : mem) (a : Z) : Z := default 0 (m !! a).
Definition st (m : mem) (a v : Z) : mem := <[a := v]> m.

Lemma ld_st_eq m a v : ld (st m a v) a = v.
Proof. unfold ld, st. by rewrite lookup_insert_eq. Qed.
Lemma ld_st_ne m a b v : a <> b -> ld (st m a v) b = ld m b.
Proof. intros. unfold ld, st. by rewrite lookup_insert_ne. Qed.

(** Resolve reads over writes, deciding the addresses with [lia]. *)
Ltac ldst := repeat first [rewrite ld_st_eq | rewrite ld_st_ne by lia].

(** Two memories that agree on the [n] bytes at [a]. *)
Definition same_on (m m' : mem) (a n : Z) : Prop :=
  forall i, 0 <= i < n -> ld m' (a + i) = ld m (a + i).

Lemma same_on_refl m a n : same_on m m a n.
Proof. done. Qed.
Lemma same_on_trans m1 m2 m3 a n :
  same_on m1 m2 a n -> same_on m2 m3 a n -> same_on m1 m3 a n.
Proof. intros H1 H2 i Hi. by rewrite H2, H1. Qed.
Lemma same_on_st m b v a n : ~ (a <= b < a + n) -> same_on m (st m b v) a n.
Proof. intros H i Hi. apply ld_st_ne. lia. Qed.
#[export] Hint Resolve same_on_refl same_on_st : openos.

(** The loop that zeroes [n] consecutive words at [a]. *)
Definition clear_words (a n : Z) (m : mem) : mem :=
  for_range 0 n (fun i m => st m (a + 4 * i) 0) m.

Lemma clear_words_in a n m i : 0 <= i < n -> ld (clear_words a n m) (a + 4 * i) = 0.
Proof.
  intros Hi. unfold clear_words.
  apply (for_range_ind (fun k m => forall j, 0 <= j < k -> ld m (a + 4 * j) = 0)); [lia|lia| |done].
  intros k m' Hk IH j Hj. destruct (Z.eq_dec j k) as [->|].
  - by ldst.
  - ldst. apply IH. lia.
Qed.

Lemma clear_words_out a n m b : 0 <= n -> ~ (a <= b < a + 4 * n) ->
  ld (clear_words a n m) b = ld m b.
Proof.
  intros Hn Hb. unfold clear_words.
  apply (for_range_ind (fun _ m' => ld m' b = ld m b)); [lia|done|].
  intros k m' Hk IH. by ldst.
Qed.
Lemma clear_words_eq a n m : clear_words a n m = for_range 0 n (fun i m => st m (a + 4 * i) 0) m.
Proof. done. Qed.
#[global] Opaque ld st clear_words.
