(* ===== verification/Frames.v ===== *)
(** * Interface between the page-frame allocator and its clients

    The class [FrameAllocator] states what memory/pmm.c promises to memory/vmm.c,
    kernel/kernel.c and the heap: addresses of whole frames, never one that is in use.
    The client trace at the end is proved for every implementation of the class. *)
From S2P Require Import Prelude.

(** The address of a 4 KiB frame. *)
Definition is_frame (a : Z) : Prop := is_u32 a /\ a mod 4096 = 0.

Class FrameAllocator (S : Type) := {
  fa_alloc : S -> Z * S;
  fa_free : Z -> S -> S;
  fa_max_address : S -> Z;
  fa_inv : S -> Prop;
  (* frames the allocator governs, and those of them it may hand out *)
  fa_managed : S -> Z -> Prop;
  fa_avail : S -> Z -> Prop;
  fa_avail_managed : forall s a, fa_avail s a -> fa_managed s a;
  fa_alloc_inv : forall s, fa_inv s -> fa_inv (snd (fa_alloc s));
  fa_alloc_null : forall s, fa_inv s -> fst (fa_alloc s) = 0 -> snd (fa_alloc s) = s;
  fa_alloc_frame : forall s, fa_inv s -> fst (fa_alloc s) <> 0 ->
    is_frame (fst (fa_alloc s)) /\ fa_avail s (fst (fa_alloc s));
  fa_alloc_avail : forall s b, fa_inv s -> fst (fa_alloc s) <> 0 -> is_frame b ->
    fa_avail (snd (fa_alloc s)) b <-> fa_avail s b /\ b <> fst (fa_alloc s);
  fa_alloc_managed : forall s b, fa_inv s ->
    fa_managed (snd (fa_alloc s)) b <-> fa_managed s b;
  fa_free_inv : forall s a, fa_inv s -> is_frame a -> a <> 0 -> fa_inv (fa_free a s);
  fa_free_avail : forall s a b, fa_inv s -> is_frame a -> is_frame b -> a <> 0 ->
    fa_managed s a -> fa_avail (fa_free a s) b <-> fa_avail s b \/ b = a;
  fa_free_managed : forall s a b, fa_inv s -> is_frame a ->
    fa_managed (fa_free a s) b <-> fa_managed s b;
  fa_max_address_u32 : forall s, is_u32 (fa_max_address s)
}.

#[export] Hint Resolve fa_avail_managed fa_alloc_inv fa_free_inv : openos.

(** ** Clients that free only what they hold *)

Section Client.
Context {S : Type} {FA : FrameAllocator S}.

(** One call of a client that owns the frames [held]. *)
Inductive client_step : S * gset Z -> S * gset Z -> Prop :=
| client_alloc s held :
    fst (fa_alloc s) <> 0 ->
    client_step (s, held) (snd (fa_alloc s), {[fst (fa_alloc s)]} ∪ held)
| client_alloc_fail s held :
    fst (fa_alloc s) = 0 ->
    client_step (s, held) (snd (fa_alloc s), held)
| client_free s held a :
    a ∈ held ->
    client_step (s, held) (fa_free a s, held ∖ {[a]}).

(** Accounting: what is available is what was at the start less what is held. *)
Record client_inv (s0 : S) (st : S * gset Z) : Prop := {
  ci_inv : fa_inv st.1;
  ci_held : forall a, a ∈ st.2 -> is_frame a /\ a <> 0 /\ fa_managed st.1 a /\ fa_avail s0 a;
  ci_avail : forall b, is_frame b -> fa_avail st.1 b <-> fa_avail s0 b /\ b ∉ st.2
}.

Lemma client_step_inv s0 st st' :
  client_inv s0 st -> client_step st st' -> client_inv s0 st'.
Proof.
  intros [Hinv Hheld Havail] Hstep.
  destruct Hstep as [s held Hnz|s held Hz|s held a Ha]; simpl in *.
  - destruct (fa_alloc_frame s Hinv Hnz) as [Hfr Hav].
    split; simpl; [auto with openos| |].
    + intros a [->%elem_of_singleton|Ha]%elem_of_union.
      * split; [done|]. split; [done|]. split.
        -- apply fa_alloc_managed; auto with openos.
        -- by apply Havail.
      * destruct (Hheld a Ha) as (? & ? & ? & ?).
        split_and!; try done. by apply fa_alloc_managed.
    + intros b Hb. rewrite fa_alloc_avail, Havail, elem_of_union, elem_of_singleton by done. tauto.
  - rewrite (fa_alloc_null s Hinv Hz). by split.
  - destruct (Hheld a Ha) as (Hfr & Hnz & Hman & Hav0).
    split; simpl; [auto with openos| |].
    + intros b [Hb _]%elem_of_difference. destruct (Hheld b Hb) as (? & ? & ? & ?).
      split_and!; try done. by apply fa_free_managed.
    + intros b Hb. rewrite fa_free_avail, Havail by done.
      rewrite elem_of_difference, elem_of_singleton.
      destruct (decide (b = a)) as [->|]; tauto.
Qed.

Lemma client_reachable_inv s0 st :
  fa_inv s0 -> rtc client_step (s0, ∅) st -> client_inv s0 st.
Proof.
  intros Hinv Hrtc. remember (s0, ∅) as st0 eqn:E.
  assert (client_inv s0 st0) as H0.
  { subst. split; simpl; [done| |].
    - intros a Ha. by apply elem_of_empty in Ha.
    - intros b _. split; [|by intros [? _]]. split; [done|apply not_elem_of_empty]. }
  clear E. induction Hrtc as [|x y z Hxy _ IH]; [done|].
  apply IH. by eapply client_step_inv.
Qed.
End Client.

(** ** A reference allocator

    A stack of free frames over a fixed set: the simplest implementation of the
    class. *)
Record pool := Pool { pool_all : gset Z; pool_free : list Z; pool_max : Z }.

Definition pool_alloc (p : pool) : Z * pool :=
  match pool_free p with
  | [] => (0, p)
  | a :: l => (a, Pool (pool_all p) l (pool_max p))
  end.
Definition pool_give (a : Z) (p : pool) : pool :=
  if decide (a ∈ pool_all p /\ (a ∉ pool_free p))
  then Pool (pool_all p) (a :: pool_free p) (pool_max p) else p.

Record pool_inv (p : pool) : Prop := {
  pool_nodup : NoDup (pool_free p);
  pool_sub : forall a, a ∈ pool_free p -> a ∈ pool_all p;
  pool_frame : forall a, a ∈ pool_all p -> is_frame a /\ a <> 0
}.

#[export] Instance pool_frames : FrameAllocator pool.
Proof.
  unshelve refine {|
    fa_alloc := pool_alloc; fa_free := pool_give; fa_max_address p := u32 (pool_max p);
    fa_inv := pool_inv; fa_managed p a := a ∈ pool_all p;
    fa_avail p a := a ∈ pool_free p /\ a ∈ pool_all p |};
    unfold pool_alloc, pool_give.
  - by intros p a [_ ?].
  - intros [al [|a l] mx] [Hn Hs Hf]; simpl in *; [done|]. apply list.NoDup_cons in Hn as [_ Hn].
    split; simpl; auto. intros b Hb. apply Hs. by right.
  - intros [al [|a l] mx] [Hn Hs Hf] H; simpl in *; [done|]. destruct (Hf a); [apply Hs; left|done].
  - intros [al [|a l] mx] [Hn Hs Hf] H; simpl in *; [done|].
    assert (a ∈ al) by (apply Hs; left). split; [by apply Hf|]. split; [left|done].
  - intros [al [|a l] mx] b [Hn Hs Hf] H Hb; simpl in *; [done|]. apply list.NoDup_cons in Hn as [Hn _].
    rewrite elem_of_cons. split; [|tauto]. intros [Hl Hal]. split; [tauto|]. congruence.
  - by intros [al [|a l] mx] b Hp.
  - intros p a [Hn Hs Hf] Ha Hnz. case_decide as Hd; [|by split]. destruct Hd. split; simpl; auto.
    + by apply list.NoDup_cons.
    + intros b [->|]%elem_of_cons; auto.
  - intros p a b [Hn Hs Hf] Ha Hb Hnz Hm. case_decide as Hd; simpl.
    + rewrite elem_of_cons. split; [tauto|]. intros [[? ?]| ->]; tauto.
    + split; [tauto|]. intros [?| ->]; [done|]. split; [|done].
      destruct (decide (a ∈ pool_free p)); [done|]. tauto.
  - intros p a b Hp Ha. by case_decide.
  - intros p. apply u32_range.
Defined.
