(* ===== verification/Pmm.v ===== *)
(** * Physical memory manager (src/memory/pmm.c)

    The bitmap page-frame allocator: its static state as a record, one
    definition per function, the multiboot memory-map walk with fuel, and the
    theorems on initialisation, allocation, release and statistics. *)
From S2P Require Import Prelude Frames.

(** ** Constants (memory/pmm.h, include/multiboot.h) *)

Definition PMM_PAGE_SIZE : Z := 4096.
Definition PMM_BITMAP_SIZE : Z := 1024 * 1024.
Definition PMM_LOW_MEMORY : Z := 0x100000.
Definition MULTIBOOT_MEMORY_AVAILABLE : Z := 1.

Record multiboot_mmap_entry := MmapEntry {
  mmap_size : Z;   (* uint32_t size *)
  mmap_base : Z;   (* uint64_t addr *)
  mmap_len  : Z;   (* uint64_t len  *)
  mmap_type : Z    (* uint32_t type *)
}.

Record multiboot_info := MultibootInfo {
  mb_flags : Z;
  mb_mem_lower : Z;
  mb_mem_upper : Z;
  mb_mmap_length : Z;
  mb_mmap_addr : Z
}.

Record pmm_stats := PmmStats {
  st_total_pages : Z;
  st_used_pages : Z;
  st_free_pages : Z;
  st_total_memory_kb : Z;
  st_used_memory_kb : Z;
  st_free_memory_kb : Z
}.

(** The file-scope variables of pmm.c. *)
Record pmm := Pmm {
  pmm_bitmap : list Z;
  total_pages : Z;
  used_pages : Z;
  max_physical_address : Z
}.

Definition with_bitmap (p : pmm) (bm : list Z) : pmm :=
  Pmm bm (total_pages p) (used_pages p) (max_physical_address p).
Definition with_used (p : pmm) (u : Z) : pmm :=
  Pmm (pmm_bitmap p) (total_pages p) u (max_physical_address p).
Definition with_total (p : pmm) (t : Z) : pmm :=
  Pmm (pmm_bitmap p) t (used_pages p) (max_physical_address p).
Definition with_max (p : pmm) (m : Z) : pmm :=
  Pmm (pmm_bitmap p) (total_pages p) (used_pages p) m.

(** ** Bitmap primitives *)

Definition bitmap_set (page : Z) (p : pmm) : pmm :=
  let byte := page / 8 in
  let bit := page mod 8 in
  if byte <? PMM_BITMAP_SIZE then
    with_bitmap p (aset (pmm_bitmap p) byte
      (u8 (Z.lor (aget (pmm_bitmap p) byte) (Z.shiftl 1 bit))))
  else p.

Definition bitmap_clear (page : Z) (p : pmm) : pmm :=
  let byte := page / 8 in
  let bit := page mod 8 in
  if byte <? PMM_BITMAP_SIZE then
    with_bitmap p (aset (pmm_bitmap p) byte
      (u8 (Z.land (aget (pmm_bitmap p) byte) (Z.lnot (Z.shiftl 1 bit)))))
  else p.

Definition bitmap_test (p : pmm) (page : Z) : bool :=
  let byte := page / 8 in
  let bit := page mod 8 in
  if byte <? PMM_BITMAP_SIZE then
    negb (Z.land (aget (pmm_bitmap p) byte) (Z.shiftl 1 bit) =? 0)
  else true.

Definition reserve_range (start end_ : Z) (p : pmm) : pmm :=
  if end_ <=? start then p else
  let first := u32 (start / PMM_PAGE_SIZE) in
  let last := u32 (u64 (end_ + PMM_PAGE_SIZE - 1) / PMM_PAGE_SIZE) in
  for_range first (Z.min last (total_pages p))
    (fun page p => if bitmap_test p page then p else bitmap_set page p) p.

(** ** Initialisation *)

(** [while (mmap < mmap_end) { body; mmap = mmap + size + 4 }]: the memory map
    is boot-loader data read through [rd]; the pointer is a [uint32_t]. [None]
    means that [fuel] iterations did not reach the end. *)
Fixpoint mmap_walk {S : Type} (rd : Z -> multiboot_mmap_entry)
    (body : multiboot_mmap_entry -> S -> S) (fuel : nat) (mmap mmap_end : Z) (s : S)
    : option S :=
  if mmap <? mmap_end then
    match fuel with
    | O => None
    | S fuel =>
        mmap_walk rd body fuel (u32 (mmap + mmap_size (rd mmap) + 4)) mmap_end
          (body (rd mmap) s)
    end
  else Some s.

(** First pass: highest end address of an available region. *)
Definition scan_entry (e : multiboot_mmap_entry) (p : pmm) : pmm :=
  if mmap_type e =? MULTIBOOT_MEMORY_AVAILABLE then
    let region_end := u64 (mmap_base e + mmap_len e) in
    if max_physical_address p <? region_end then with_max p region_end else p
  else p.

(** Second pass: mark the pages of an available region free. *)
Definition free_entry (e : multiboot_mmap_entry) (p : pmm) : pmm :=
  if (mmap_type e =? MULTIBOOT_MEMORY_AVAILABLE) && (PMM_LOW_MEMORY <=? mmap_base e) then
    let start_page := u32 (mmap_base e / PMM_PAGE_SIZE) in
    let end_page := u32 (u64 (mmap_base e + mmap_len e) / PMM_PAGE_SIZE) in
    for_range start_page (Z.min end_page (total_pages p)) bitmap_clear p
  else p.

(** Recount the used pages below [total_pages]. *)
Definition count_used (p : pmm) : pmm :=
  with_used p (for_range 0 (total_pages p)
    (fun i u => if bitmap_test p i then u32 (u + 1) else u) 0).

(** Page 0 and the kernel image are never handed out. *)
Definition reserve_kernel (kernel_start kernel_end : Z) (p : pmm) : pmm :=
  reserve_range kernel_start kernel_end (reserve_range 0 PMM_PAGE_SIZE p).

(** No memory map: use the basic memory sizes. *)
Definition pmm_init_basic (mboot : multiboot_info) (kernel_start kernel_end : Z)
    (p : pmm) : pmm :=
  let mem_kb := u32 (mb_mem_lower mboot + mb_mem_upper mboot) in
  let p := with_total p (u32 (mem_kb * 1024) / PMM_PAGE_SIZE) in
  let p := with_max p (u32 (mem_kb * 1024)) in
  let start_page := PMM_LOW_MEMORY / PMM_PAGE_SIZE in
  let p := for_range start_page (total_pages p) bitmap_clear p in
  count_used (reserve_kernel kernel_start kernel_end p).

(** Clamp of the page count to what the bitmap can hold. *)
Definition set_total (p : pmm) : pmm :=
  let t := u32 (max_physical_address p / PMM_PAGE_SIZE) in
  with_total p (if PMM_BITMAP_SIZE * 8 <? t then PMM_BITMAP_SIZE * 8 else t).

(** [for (i = 0; i < PMM_BITMAP_SIZE; i++) pmm_bitmap[i] = 0xFF]. *)
Definition full_bitmap : list Z := replicate (Z.to_nat PMM_BITMAP_SIZE) 0xFF.

Definition pmm_init (rd : Z -> multiboot_mmap_entry) (kernel_start kernel_end : Z)
    (fuel : nat) (mboot : multiboot_info) (p : pmm) : option pmm :=
  let p := with_bitmap p full_bitmap in
  if Z.land (mb_flags mboot) 0x40 =? 0 then
    Some (pmm_init_basic mboot kernel_start kernel_end p)
  else
    let mmap := mb_mmap_addr mboot in
    let mmap_end := u32 (mb_mmap_addr mboot + mb_mmap_length mboot) in
    p ← mmap_walk rd scan_entry fuel mmap mmap_end p;
    let p := set_total p in
    p ← mmap_walk rd free_entry fuel mmap mmap_end p;
    Some (count_used (reserve_kernel kernel_start kernel_end p)).

(** ** Allocation and release *)

(** The lowest page the bitmap shows free. *)
Definition first_free (p : pmm) : option Z :=
  zfind (fun page => negb (bitmap_test p page)) 0 (total_pages p).

(** [NULL] is 0; the address is computed in [uint32_t]. *)
Definition pmm_alloc_page (p : pmm) : Z * pmm :=
  match first_free p with
  | Some page =>
      let p := bitmap_set page p in
      let p := with_used p (u32 (used_pages p + 1)) in
      (u32 (page * PMM_PAGE_SIZE), p)
  | None => (0, p)
  end.

Definition pmm_free_page (page : Z) (p : pmm) : pmm :=
  let page_num := page / PMM_PAGE_SIZE in
  if (page_num <? total_pages p) && bitmap_test p page_num then
    let p := bitmap_clear page_num p in
    with_used p (u32 (used_pages p - 1))
  else p.

Definition pmm_mark_used (page : Z) (p : pmm) : pmm :=
  let page_num := page / PMM_PAGE_SIZE in
  if (page_num <? total_pages p) && negb (bitmap_test p page_num) then
    let p := bitmap_set page_num p in
    with_used p (u32 (used_pages p + 1))
  else p.

Definition pmm_mark_free (page : Z) (p : pmm) : pmm := pmm_free_page page p.

Definition pmm_is_page_free (p : pmm) (page : Z) : bool :=
  let page_num := page / PMM_PAGE_SIZE in
  if total_pages p <=? page_num then false else negb (bitmap_test p page_num).

Definition pmm_get_stats (p : pmm) : pmm_stats :=
  let total_kb := u32 (total_pages p * PMM_PAGE_SIZE) / 1024 in
  let used_kb := u32 (used_pages p * PMM_PAGE_SIZE) / 1024 in
  PmmStats (total_pages p) (used_pages p) (u32 (total_pages p - used_pages p))
    total_kb used_kb (u32 (total_kb - used_kb)).

Definition pmm_get_total_pages (p : pmm) : Z := total_pages p.

Definition pmm_get_max_address (p : pmm) : Z :=
  let max_bytes := u64 (total_pages p * PMM_PAGE_SIZE) in
  if max_physical_address p <? max_bytes then u32 (max_physical_address p)
  else u32 max_bytes.

(** ** Bitmap lemmas *)

(** Pages the bitmap can represent. *)
Definition in_bitmap (page : Z) : Prop := 0 <= page < 8 * PMM_BITMAP_SIZE.

Definition bitmap_ok (p : pmm) : Prop :=
  length (pmm_bitmap p) = Z.to_nat PMM_BITMAP_SIZE.

Lemma PMM_BITMAP_SIZE_val : PMM_BITMAP_SIZE = 1048576.
Proof. reflexivity. Qed.

(** Page arithmetic with the literal constants. *)
Ltac plia :=
  unfold in_bitmap, bitmap_ok, PMM_PAGE_SIZE, PMM_LOW_MEMORY in *;
  rewrite ?PMM_BITMAP_SIZE_val in *; wsolve.

Lemma bitmap_test_spec p page : in_bitmap page ->
  bitmap_test p page = Z.testbit (aget (pmm_bitmap p) (page / 8)) (page mod 8).
Proof.
  intros H. unfold bitmap_test.
  destruct (Z.ltb_spec (page / 8) PMM_BITMAP_SIZE); [|plia].
  apply land_bit_test. plia.
Qed.

Lemma bitmap_set_ok p page : bitmap_ok p -> bitmap_ok (bitmap_set page p).
Proof. intros H. unfold bitmap_set. case_match; [|done]. unfold bitmap_ok. simpl. by rewrite length_aset. Qed.
Lemma bitmap_clear_ok p page : bitmap_ok p -> bitmap_ok (bitmap_clear page p).
Proof. intros H. unfold bitmap_clear. case_match; [|done]. unfold bitmap_ok. simpl. by rewrite length_aset. Qed.
#[export] Hint Resolve bitmap_set_ok bitmap_clear_ok : openos.

Lemma bitmap_set_total p page : total_pages (bitmap_set page p) = total_pages p.
Proof. unfold bitmap_set. by case_match. Qed.
Lemma bitmap_clear_total p page : total_pages (bitmap_clear page p) = total_pages p.
Proof. unfold bitmap_clear. by case_match. Qed.
Lemma bitmap_set_used p page : used_pages (bitmap_set page p) = used_pages p.
Proof. unfold bitmap_set. by case_match. Qed.
Lemma bitmap_clear_used p page : used_pages (bitmap_clear page p) = used_pages p.
Proof. unfold bitmap_clear. by case_match. Qed.

(** Two pages of one byte with the same bit are the same page. *)
Lemma same_page i k : i / 8 = k / 8 -> (i mod 8 =? k mod 8) = (i =? k).
Proof. intros H. zcases; dlia. Qed.

Lemma bitmap_test_set p k i : bitmap_ok p -> in_bitmap k -> in_bitmap i ->
  bitmap_test (bitmap_set k p) i = (i =? k) || bitmap_test p i.
Proof.
  intros Hok Hk Hi. rewrite !bitmap_test_spec by done. unfold bitmap_set.
  destruct (Z.ltb_spec (k / 8) PMM_BITMAP_SIZE); [|plia]. simpl.
  destruct (Z.eq_dec (i / 8) (k / 8)) as [E|E].
  - rewrite E, aget_aset_eq, testbit_set_bit, same_page by plia. done.
  - rewrite aget_aset_ne by plia. zcases; [subst; lia|done].
Qed.

Lemma bitmap_test_clear p k i : bitmap_ok p -> in_bitmap k -> in_bitmap i ->
  bitmap_test (bitmap_clear k p) i = negb (i =? k) && bitmap_test p i.
Proof.
  intros Hok Hk Hi. rewrite !bitmap_test_spec by done. unfold bitmap_clear.
  destruct (Z.ltb_spec (k / 8) PMM_BITMAP_SIZE); [|plia]. simpl.
  destruct (Z.eq_dec (i / 8) (k / 8)) as [E|E].
  - rewrite E, aget_aset_eq, testbit_clear_bit, same_page by plia. done.
  - rewrite aget_aset_ne by plia. zcases; [subst; lia|done].
Qed.

(** The tests do not look at the counters. *)
Lemma bitmap_test_ext p q i : pmm_bitmap p = pmm_bitmap q -> bitmap_test p i = bitmap_test q i.
Proof. intros H. unfold bitmap_test. by rewrite H. Qed.

(** ** Invariant *)

(** The bitmap has its full length, the page count fits it, and [used_pages]
    is the number of set bits below the page count. *)
Record pmm_wf (p : pmm) : Prop := {
  wf_bitmap : bitmap_ok p;
  wf_total : 0 <= total_pages p <= 8 * PMM_BITMAP_SIZE;
  wf_used : used_pages p = zcount (bitmap_test p) (total_pages p)
}.

Lemma wf_page p i : pmm_wf p -> 0 <= i < total_pages p -> in_bitmap i.
Proof. intros [_ ? _] ?. plia. Qed.

Lemma wf_used_bounds p : pmm_wf p -> 0 <= used_pages p <= total_pages p.
Proof. intros [_ ? ->]. apply zcount_bounds. lia. Qed.

(** Marking a free page used, with the counter. *)
Lemma wf_take p k : pmm_wf p -> 0 <= k < total_pages p -> bitmap_test p k = false ->
  let p' := with_used (bitmap_set k p) (u32 (used_pages (bitmap_set k p) + 1)) in
  pmm_wf p' /\ total_pages p' = total_pages p /\ used_pages p' = used_pages p + 1 /\
  forall i, in_bitmap i -> bitmap_test p' i = (i =? k) || bitmap_test p i.
Proof.
  intros Hwf Hk Hfree p'. pose proof (wf_page _ _ Hwf Hk) as Hkb.
  pose proof (wf_used_bounds _ Hwf) as Hub. destruct Hwf as [Hok Ht Hu].
  assert (Htest : forall i, in_bitmap i -> bitmap_test p' i = (i =? k) || bitmap_test p i)
    by (intros i Hi; rewrite <- bitmap_test_set by done; by apply bitmap_test_ext).
  assert (Hcnt : zcount (bitmap_test p') (total_pages p) = used_pages p + 1).
  { rewrite Hu. apply (zcount_flip _ _ _ k); [done| |done|].
    - intros i Hi Hne. rewrite Htest by plia. zcases; [lia|done].
    - rewrite Htest by done. by rewrite Z.eqb_refl. }
  assert (Hu' : used_pages p' = used_pages p + 1)
    by (simpl; rewrite bitmap_set_used; apply u32_small; plia).
  repeat split; simpl; rewrite ?bitmap_set_total; try done; try lia.
  - by apply bitmap_set_ok.
  - by rewrite Hcnt.
Qed.

(** Marking a used page free, with the counter. *)
Lemma wf_give p k : pmm_wf p -> 0 <= k < total_pages p -> bitmap_test p k = true ->
  let p' := with_used (bitmap_clear k p) (u32 (used_pages (bitmap_clear k p) - 1)) in
  pmm_wf p' /\ total_pages p' = total_pages p /\ used_pages p' = used_pages p - 1 /\
  forall i, in_bitmap i -> bitmap_test p' i = negb (i =? k) && bitmap_test p i.
Proof.
  intros Hwf Hk Hfree p'. pose proof (wf_page _ _ Hwf Hk) as Hkb.
  pose proof (wf_used_bounds _ Hwf) as Hub. destruct Hwf as [Hok Ht Hu].
  assert (Htest : forall i, in_bitmap i -> bitmap_test p' i = negb (i =? k) && bitmap_test p i)
    by (intros i Hi; rewrite <- bitmap_test_clear by done; by apply bitmap_test_ext).
  assert (Hcnt : used_pages p = zcount (bitmap_test p') (total_pages p) + 1).
  { rewrite Hu. apply (zcount_flip _ _ _ k); [done| | |done].
    - intros i Hi Hne. rewrite Htest by plia. zcases; [lia|done].
    - rewrite Htest by done. by rewrite Z.eqb_refl. }
  pose proof (zcount_bounds (bitmap_test p') (total_pages p) ltac:(lia)).
  assert (Hu' : used_pages p' = used_pages p - 1)
    by (simpl; rewrite bitmap_clear_used; apply u32_small; plia).
  repeat split; simpl; rewrite ?bitmap_clear_total; try done; try lia.
  - by apply bitmap_clear_ok.
  - fold p'. simpl in Hu'. lia.
Qed.

(** ** Loops over the bitmap *)

(** Boolean equations between range tests and bitmap tests. *)
Ltac blia :=
  repeat match goal with
  | |- context [bitmap_test ?p ?i] => destruct (bitmap_test p i)
  end; lia.

Lemma for_clear lo hi p : bitmap_ok p -> 0 <= lo -> hi <= 8 * PMM_BITMAP_SIZE ->
  let p' := for_range lo hi bitmap_clear p in
  bitmap_ok p' /\ total_pages p' = total_pages p /\
  max_physical_address p' = max_physical_address p /\
  forall i, in_bitmap i ->
    bitmap_test p' i = negb ((lo <=? i) && (i <? hi)) && bitmap_test p i.
Proof.
  intros Hok Hlo Hhi p'. subst p'. destruct (Z.le_gt_cases hi lo) as [Hle|Hgt].
  - rewrite for_range_nil by lia. repeat split; [done|].
    intros i _. blia.
  - apply (for_range_ind (fun n p' => bitmap_ok p' /\ total_pages p' = total_pages p /\
      max_physical_address p' = max_physical_address p /\
      forall i, in_bitmap i ->
        bitmap_test p' i = negb ((lo <=? i) && (i <? n)) && bitmap_test p i)); [lia| |].
    + repeat split; [done|]. intros i _. blia.
    + intros k q Hk (Hq & Ht & Hm & Hi). repeat split.
      * by apply bitmap_clear_ok.
      * by rewrite bitmap_clear_total.
      * unfold bitmap_clear. by case_match.
      * intros i Hib. rewrite bitmap_test_clear by first [done | plia]. rewrite Hi by done.
        blia.
Qed.

Lemma reserve_range_spec start end_ p :
  bitmap_ok p -> total_pages p <= 8 * PMM_BITMAP_SIZE -> is_u32 start -> is_u32 end_ ->
  let p' := reserve_range start end_ p in
  bitmap_ok p' /\ total_pages p' = total_pages p /\
  forall i, 0 <= i < total_pages p ->
    bitmap_test p' i =
      (start <? end_) && (start / 4096 <=? i) && (i <? (end_ + 4095) / 4096)
      || bitmap_test p i.
Proof.
  intros Hok Ht Hs He p'. subst p'. unfold reserve_range.
  destruct (Z.leb_spec end_ start) as [Hle|Hgt].
  { repeat split; [done|]. intros i _. blia. }
  rewrite (u64_small (end_ + PMM_PAGE_SIZE - 1)) by plia.
  rewrite !u32_small by plia.
  replace ((end_ + PMM_PAGE_SIZE - 1) / PMM_PAGE_SIZE) with ((end_ + 4095) / 4096)
    by (unfold PMM_PAGE_SIZE; f_equal; lia).
  change (start / PMM_PAGE_SIZE) with (start / 4096).
  set (lo := start / 4096). set (hi := (end_ + 4095) / 4096).
  assert (0 <= lo) by (subst lo; plia).
  assert (Hend : (start <? end_) = true) by (apply Z.ltb_lt; lia). rewrite Hend. simpl.
  destruct (Z.le_gt_cases (Z.min hi (total_pages p)) lo) as [Hle'|Hgt'].
  { rewrite for_range_nil by lia. repeat split; [done|].
    intros i Hi. blia. }
  assert (Hind : let q := for_range lo (Z.min hi (total_pages p))
      (fun page q => if bitmap_test q page then q else bitmap_set page q) p in
    bitmap_ok q /\ total_pages q = total_pages p /\
    forall i, in_bitmap i ->
      bitmap_test q i = (lo <=? i) && (i <? Z.min hi (total_pages p)) || bitmap_test p i).
  { apply (for_range_ind (fun n q => bitmap_ok q /\ total_pages q = total_pages p /\
      forall i, in_bitmap i -> bitmap_test q i = (lo <=? i) && (i <? n) || bitmap_test p i));
      [lia| |].
    - repeat split; [done|]. intros i _. blia.
    - intros k q Hk (Hq & Htq & Hi). assert (in_bitmap k) by plia.
      destruct (bitmap_test q k) eqn:Hqk.
      + repeat split; [done|done|]. intros i Hib. rewrite Hi by done.
        destruct (Z.eq_dec i k) as [->|]; [rewrite <- Hi, Hqk by done|];
          blia.
      + repeat split; [by apply bitmap_set_ok|by rewrite bitmap_set_total|].
        intros i Hib. rewrite bitmap_test_set, Hi by done.
        blia. }
  destruct Hind as (Hq & Htq & Hi). repeat split; [done|done|].
  intros i Hib. rewrite Hi by plia. blia.
Qed.

Lemma count_used_wf p : bitmap_ok p -> 0 <= total_pages p <= 8 * PMM_BITMAP_SIZE ->
  pmm_wf (count_used p) /\ total_pages (count_used p) = total_pages p /\
  forall i, bitmap_test (count_used p) i = bitmap_test p i.
Proof.
  intros Hok Ht.
  assert (Htest : forall i, bitmap_test (count_used p) i = bitmap_test p i)
    by (intros i; by apply bitmap_test_ext).
  repeat split; try done; try (simpl; lia). simpl.
  rewrite for_range_count by plia. apply zcount_ext. intros i _. by rewrite Htest.
Qed.

(** ** The memory-map walk *)

(** The entries a walk from [mmap] to [mmap_end] visits, in order. *)
Inductive mmap_chain (rd : Z -> multiboot_mmap_entry) (mmap_end : Z)
    : Z -> list multiboot_mmap_entry -> Prop :=
| chain_end mmap : mmap_end <= mmap -> mmap_chain rd mmap_end mmap []
| chain_next mmap es : mmap < mmap_end ->
    mmap_chain rd mmap_end (u32 (mmap + mmap_size (rd mmap) + 4)) es ->
    mmap_chain rd mmap_end mmap (rd mmap :: es).

Lemma mmap_walk_chain {S : Type} rd (body : multiboot_mmap_entry -> S -> S)
    fuel mmap mmap_end es s :
  mmap_chain rd mmap_end mmap es -> (length es <= fuel)%nat ->
  mmap_walk rd body fuel mmap mmap_end s = Some (foldl (fun s e => body e s) s es).
Proof.
  intros Hc. revert fuel s. induction Hc as [mmap Hle|mmap es Hlt _ IH]; intros fuel s Hf.
  - destruct fuel; simpl; destruct (Z.ltb_spec mmap mmap_end); [lia|done|lia|done].
  - destruct fuel as [|fuel]; simpl in Hf; [lia|]. simpl.
    destruct (Z.ltb_spec mmap mmap_end); [|lia]. apply IH. lia.
Qed.

(** Entries whose size field does not wrap the pointer make a finite chain,
    shorter than the byte length of the map. *)
Lemma mmap_chain_exists rd mmap mmap_end :
  (forall q, mmap <= q < mmap_end -> 0 <= mmap_size (rd q) < 2 ^ 32 - q - 4) ->
  is_u32 mmap ->
  exists es, mmap_chain rd mmap_end mmap es /\
    (length es <= Z.to_nat (mmap_end - mmap))%nat.
Proof.
  remember (Z.to_nat (mmap_end - mmap)) as n eqn:Hn.
  revert mmap Hn. induction n as [n IH] using lt_wf_ind. intros mmap Hn Hsz Hm.
  destruct (Z.lt_ge_cases mmap mmap_end) as [Hlt|Hge].
  - pose proof (Hsz mmap ltac:(lia)) as Hs.
    assert (Hnext : u32 (mmap + mmap_size (rd mmap) + 4) = mmap + mmap_size (rd mmap) + 4)
      by (apply u32_small; wsolve).
    destruct (IH (Z.to_nat (mmap_end - u32 (mmap + mmap_size (rd mmap) + 4)))
      ltac:(rewrite Hnext; lia) _ eq_refl) as (es & Hes & Hlen).
    + intros q Hq. apply Hsz. lia.
    + apply u32_range.
    + exists (rd mmap :: es). split; [by constructor|]. simpl. rewrite Hnext in Hlen. lia.
  - exists []. split; [by constructor|]. simpl. lia.
Qed.

(** ** Initialisation theorem *)

(** Pages the second pass frees for one map entry. *)
Definition entry_covers (page : Z) (e : multiboot_mmap_entry) : bool :=
  (mmap_type e =? MULTIBOOT_MEMORY_AVAILABLE) && (PMM_LOW_MEMORY <=? mmap_base e)
  && (u32 (mmap_base e / 4096) <=? page) && (page <? u32 (u64 (mmap_base e + mmap_len e) / 4096)).

(** Pages that hold a byte of [kernel_start, kernel_end). *)
Definition kernel_page (kernel_start kernel_end page : Z) : bool :=
  (kernel_start <? kernel_end) && (kernel_start / 4096 <=? page)
  && (page <? (kernel_end + 4095) / 4096).

Lemma free_entry_spec e p :
  bitmap_ok p -> total_pages p <= 8 * PMM_BITMAP_SIZE ->
  bitmap_ok (free_entry e p) /\ total_pages (free_entry e p) = total_pages p /\
  forall i, 0 <= i < total_pages p ->
    bitmap_test (free_entry e p) i = negb (entry_covers i e) && bitmap_test p i.
Proof.
  intros Hok Ht. unfold free_entry, entry_covers.
  destruct ((mmap_type e =? MULTIBOOT_MEMORY_AVAILABLE) && (PMM_LOW_MEMORY <=? mmap_base e));
    simpl; [|done].
  change PMM_PAGE_SIZE with 4096.
  pose proof (u32_range (mmap_base e / 4096)).
  destruct (for_clear (u32 (mmap_base e / 4096))
    (Z.min (u32 (u64 (mmap_base e + mmap_len e) / 4096)) (total_pages p)) p)
    as (H1 & H2 & _ & H3); [done|wsolve|lia|].
  repeat split; [done|done|]. intros i Hi. rewrite H3 by plia. blia.
Qed.

Lemma free_entries_spec es p :
  bitmap_ok p -> total_pages p <= 8 * PMM_BITMAP_SIZE ->
  let p' := foldl (fun p e => free_entry e p) p es in
  bitmap_ok p' /\ total_pages p' = total_pages p /\
  forall i, 0 <= i < total_pages p ->
    bitmap_test p' i = negb (existsb (entry_covers i) es) && bitmap_test p i.
Proof.
  revert p. induction es as [|e es IH]; intros p Hok Ht p'; subst p'; simpl.
  - done.
  - destruct (free_entry_spec e p Hok Ht) as (H1 & H2 & H3).
    destruct (IH (free_entry e p) H1 ltac:(lia)) as (J1 & J2 & J3).
    rewrite H2 in J2, J3. repeat split; [done|done|].
    intros i Hi. rewrite J3, H3 by done. destruct (entry_covers i e), (existsb _ es); done.
Qed.

Lemma scan_entries_frame es p :
  pmm_bitmap (foldl (fun p e => scan_entry e p) p es) = pmm_bitmap p.
Proof.
  revert p. induction es as [|e es IH]; intros p; [done|]. simpl. rewrite IH.
  unfold scan_entry. by repeat case_match.
Qed.

Lemma reserve_kernel_spec ks ke p :
  bitmap_ok p -> 0 <= total_pages p <= 8 * PMM_BITMAP_SIZE -> is_u32 ks -> is_u32 ke ->
  bitmap_ok (reserve_kernel ks ke p) /\
  total_pages (reserve_kernel ks ke p) = total_pages p /\
  forall i, 0 <= i < total_pages p ->
    bitmap_test (reserve_kernel ks ke p) i = (i =? 0) || kernel_page ks ke i || bitmap_test p i.
Proof.
  intros Hok Ht Hs He. unfold reserve_kernel, kernel_page.
  destruct (reserve_range_spec 0 PMM_PAGE_SIZE p Hok ltac:(lia)) as (H1 & H2 & H3);
    [wsolve|plia|].
  destruct (reserve_range_spec ks ke (reserve_range 0 PMM_PAGE_SIZE p) H1 ltac:(lia) Hs He)
    as (J1 & J2 & J3).
  rewrite H2 in J2, J3. repeat split; [done|done|].
  intros i Hi. rewrite J3, H3 by done. change ((PMM_PAGE_SIZE + 4095) / 4096) with 1.
  change (0 <? PMM_PAGE_SIZE) with true. change (0 / 4096) with 0.
  destruct (bitmap_test p i); [by rewrite !orb_true_r|]. lia.
Qed.

(** All bits of the freshly filled bitmap are set. *)
Lemma full_bitmap_length : length full_bitmap = Z.to_nat PMM_BITMAP_SIZE.
Proof. unfold full_bitmap. by rewrite length_replicate. Qed.

Lemma bitmap_full p i : in_bitmap i ->
  pmm_bitmap p = full_bitmap -> bitmap_test p i = true.
Proof.
  intros Hi Hb. rewrite bitmap_test_spec, Hb by done. unfold full_bitmap.
  rewrite aget_replicate by plia.
  change 0xFF with (Z.ones 8). apply Z.ones_spec_low. plia.
Qed.

Lemma set_total_bound p : 0 <= total_pages (set_total p) <= 8 * PMM_BITMAP_SIZE.
Proof.
  unfold set_total. simpl. pose proof (u32_range (max_physical_address p / PMM_PAGE_SIZE)).
  zcases; plia.
Qed.

#[local] Opaque full_bitmap.

(** The pages an initialised allocator may hand out: with a memory map, those an
    available entry at or above 1 MiB covers; without one, all from 1 MiB up. *)
Definition init_available (mboot : multiboot_info) (es : list multiboot_mmap_entry)
    (page : Z) : bool :=
  if Z.land (mb_flags mboot) 0x40 =? 0 then PMM_LOW_MEMORY / PMM_PAGE_SIZE <=? page
  else existsb (entry_covers page) es.

(** Highest end of an available region, the first pass's result. *)
Definition region_max (m0 : Z) (es : list multiboot_mmap_entry) : Z :=
  foldl (fun m e => if mmap_type e =? MULTIBOOT_MEMORY_AVAILABLE
                    then Z.max m (u64 (mmap_base e + mmap_len e)) else m) m0 es.

(** The page count after initialisation. *)
Definition init_total (mboot : multiboot_info) (es : list multiboot_mmap_entry) (m0 : Z) : Z :=
  if Z.land (mb_flags mboot) 0x40 =? 0 then
    u32 (u32 (mb_mem_lower mboot + mb_mem_upper mboot) * 1024) / PMM_PAGE_SIZE
  else Z.min (PMM_BITMAP_SIZE * 8) (u32 (region_max m0 es / PMM_PAGE_SIZE)).

Lemma scan_entries_max es p :
  max_physical_address (foldl (fun p e => scan_entry e p) p es) =
  region_max (max_physical_address p) es.
Proof.
  unfold region_max. revert p. induction es as [|e es IH]; intros p; [done|]. simpl.
  rewrite IH. f_equal. unfold scan_entry. case_match; [|done].
  zcases; simpl; lia.
Qed.

(** Memory-map chain of a boot, when there is one. *)
Definition boot_chain (rd : Z -> multiboot_mmap_entry) (mboot : multiboot_info)
    (es : list multiboot_mmap_entry) : Prop :=
  Z.land (mb_flags mboot) 0x40 <> 0 ->
  mmap_chain rd (u32 (mb_mmap_addr mboot + mb_mmap_length mboot)) (mb_mmap_addr mboot) es.

(** What both branches end with: reserve, then recount. *)
Lemma finish_init ks ke p avail :
  bitmap_ok p -> 0 <= total_pages p <= 8 * PMM_BITMAP_SIZE -> is_u32 ks -> is_u32 ke ->
  (forall i, 0 <= i < total_pages p -> bitmap_test p i = negb (avail i)) ->
  let p' := count_used (reserve_kernel ks ke p) in
  pmm_wf p' /\ total_pages p' = total_pages p /\
  forall page, 0 <= page < total_pages p' ->
    bitmap_test p' page = (page =? 0) || kernel_page ks ke page || negb (avail page).
Proof.
  intros Hok Ht Hs He Hav p'. subst p'.
  destruct (reserve_kernel_spec ks ke p Hok Ht Hs He) as (R1 & R2 & R3).
  destruct (count_used_wf _ R1 ltac:(lia)) as (W1 & W2 & W3).
  split; [done|]. rewrite W2, R2. split; [done|]. intros page Hp.
  rewrite W3, R3, Hav by done. done.
Qed.

Lemma pmm_init_basic_ok mboot ks ke p :
  pmm_bitmap p = full_bitmap -> is_u32 ks -> is_u32 ke ->
  let p' := pmm_init_basic mboot ks ke p in
  pmm_wf p' /\
  total_pages p' = u32 (u32 (mb_mem_lower mboot + mb_mem_upper mboot) * 1024) / PMM_PAGE_SIZE /\
  forall page, 0 <= page < total_pages p' ->
    bitmap_test p' page =
      (page =? 0) || kernel_page ks ke page || negb (PMM_LOW_MEMORY / PMM_PAGE_SIZE <=? page).
Proof.
  intros Hb Hs He. unfold pmm_init_basic. cbv zeta.
  set (bytes := u32 (u32 (mb_mem_lower mboot + mb_mem_upper mboot) * 1024)).
  assert (Hbytes : is_u32 bytes) by apply u32_range.
  set (p2 := with_max (with_total p (bytes / PMM_PAGE_SIZE)) bytes).
  assert (Ht : total_pages p2 = bytes / 4096) by done.
  assert (Hok : bitmap_ok p2) by (unfold bitmap_ok; simpl; rewrite Hb; apply full_bitmap_length).
  destruct (for_clear (PMM_LOW_MEMORY / PMM_PAGE_SIZE) (total_pages p2) p2 Hok)
    as (C1 & C2 & _ & C3); [plia|rewrite Ht; plia|].
  destruct (finish_init ks ke _ (fun i => PMM_LOW_MEMORY / PMM_PAGE_SIZE <=? i) C1)
    as (F1 & F2 & F3); [rewrite C2, Ht; plia|done|done| |].
  2: { split; [done|]. split; [|done]. rewrite F2, C2. exact Ht. }
  rewrite C2. intros i Hi.
  rewrite C3, (bitmap_full p2) by first [done | rewrite Ht in Hi; plia].
  lia.
Qed.

(** The two passes over the memory map and the final reservations. *)
Lemma pmm_init_mmap_ok es ks ke p :
  pmm_bitmap p = full_bitmap -> is_u32 ks -> is_u32 ke ->
  let q := set_total (foldl (fun p e => scan_entry e p) p es) in
  let p' := count_used (reserve_kernel ks ke (foldl (fun p e => free_entry e p) q es)) in
  pmm_wf p' /\ total_pages p' = total_pages q /\
  forall page, 0 <= page < total_pages p' ->
    bitmap_test p' page =
      (page =? 0) || kernel_page ks ke page || negb (existsb (entry_covers page) es).
Proof.
  intros Hb Hs He q. cbv zeta.
  assert (Hbq : pmm_bitmap q = full_bitmap) by (subst q; simpl; by rewrite scan_entries_frame).
  assert (Hok : bitmap_ok q) by (unfold bitmap_ok; rewrite Hbq; apply full_bitmap_length).
  pose proof (set_total_bound (foldl (fun p e => scan_entry e p) p es) : 0 <= total_pages q <= _)
    as Ht.
  destruct (free_entries_spec es q Hok ltac:(lia)) as (C1 & C2 & C3).
  destruct (finish_init ks ke _ (fun i => existsb (entry_covers i) es) C1)
    as (F1 & F2 & F3); [by rewrite C2|done|done| |by rewrite <- C2].
  rewrite C2. intros i Hi. rewrite C3, (bitmap_full q) by first [done | plia].
  by rewrite andb_true_r.
Qed.

Lemma pmm_init_ok rd ks ke fuel mboot es p0 :
  boot_chain rd mboot es -> (length es <= fuel)%nat -> is_u32 ks -> is_u32 ke ->
  exists p, pmm_init rd ks ke fuel mboot p0 = Some p /\ pmm_wf p /\
    total_pages p = init_total mboot es (max_physical_address p0) /\
    forall page, 0 <= page < total_pages p ->
      bitmap_test p page =
        (page =? 0) || kernel_page ks ke page || negb (init_available mboot es page).
Proof.
  intros Hc Hf Hs He. unfold pmm_init, init_available, init_total. cbv zeta.
  destruct (Z.eqb_spec (Z.land (mb_flags mboot) 0x40) 0) as [Hz|Hnz].
  - eexists. split; [done|]. by apply pmm_init_basic_ok.
  - rewrite (mmap_walk_chain _ _ _ _ _ es) by auto. simpl.
    rewrite (mmap_walk_chain _ _ _ _ _ es) by auto. simpl.
    eexists. split; [done|].
    destruct (pmm_init_mmap_ok es ks ke (with_bitmap p0 full_bitmap) eq_refl Hs He)
      as (W & T & F). split; [done|]. split; [|done]. rewrite T. unfold set_total. simpl.
    rewrite scan_entries_max. simpl. zcases; lia.
Qed.

(** C12. [pmm_init] terminates on every boot-loader memory map whose size fields do
    not wrap the walk's pointer, with fuel equal to the map's byte length. It
    establishes the allocator invariant ([used_pages] counts exactly the set bits
    below [total_pages]) and leaves free exactly the available pages that are neither
    page 0 nor touched by the kernel image: the pages the available entries at or
    above 1 MiB cover or, without a memory map, every page from 1 MiB up. *)
Theorem pmm_init_correct rd ks ke fuel mboot p0 :
  let mmap := mb_mmap_addr mboot in
  let mmap_end := u32 (mmap + mb_mmap_length mboot) in
  is_u32 mmap -> is_u32 ks -> is_u32 ke ->
  (forall q, mmap <= q < mmap_end -> 0 <= mmap_size (rd q) < 2 ^ 32 - q - 4) ->
  (Z.to_nat (mmap_end - mmap) <= fuel)%nat ->
  exists es p, boot_chain rd mboot es /\ pmm_init rd ks ke fuel mboot p0 = Some p /\
    pmm_wf p /\ total_pages p = init_total mboot es (max_physical_address p0) /\
    forall page, 0 <= page < total_pages p ->
      bitmap_test p page =
        (page =? 0) || kernel_page ks ke page || negb (init_available mboot es page).
Proof.
  intros mmap mmap_end Hm Hs He Hsz Hf.
  destruct (mmap_chain_exists rd mmap mmap_end Hsz Hm) as (es & Hes & Hlen).
  destruct (pmm_init_ok rd ks ke fuel mboot es p0) as (p & Hp & Hwf & Hfree);
    [by intros _|lia|done|done|].
  exists es, p. split; [by intros _|done].
Qed.

(** ** Allocation *)

(** A page the allocator may hand out. *)
Definition page_free (p : pmm) (k : Z) : Prop :=
  0 <= k < total_pages p /\ bitmap_test p k = false.

Lemma first_free_Some p k :
  first_free p = Some k <-> page_free p k /\ forall j, 0 <= j < k -> bitmap_test p j = true.
Proof.
  unfold first_free, page_free. rewrite zfind_Some. split.
  - intros (Hk & Hf & Hmin). apply negb_true_iff in Hf. split; [done|].
    intros j Hj. by apply negb_false_iff, Hmin.
  - intros ((Hk & Hf) & Hmin). rewrite Hf. repeat split; [lia|lia|].
    intros j Hj. by rewrite Hmin.
Qed.

Lemma first_free_None p : pmm_wf p ->
  first_free p = None <-> used_pages p = total_pages p.
Proof.
  intros Hwf. pose proof (wf_total _ Hwf) as Ht. rewrite (wf_used _ Hwf).
  unfold first_free. rewrite zfind_None. split.
  - intros H. rewrite (zcount_ext _ (fun _ => true)).
    + unfold zcount. rewrite (List.forallb_filter_id _ (seqZ 0 (total_pages p))).
      * rewrite length_seqZ. lia.
      * by apply forallb_forall.
    + intros i Hi. by apply negb_false_iff, H.
  - intros H j Hj. destruct (bitmap_test p j) eqn:E; [done|exfalso].
    pose proof (zcount_flip (bitmap_test p) (fun i => (i =? j) || bitmap_test p i)
      (total_pages p) j Hj) as Hfl.
    rewrite H, Z.eqb_refl in Hfl.
    pose proof (zcount_bounds (fun i => (i =? j) || bitmap_test p i) (total_pages p)
      ltac:(lia)) as Hb.
    rewrite Hfl in Hb; [lia| |done|done]. intros i _ Hne.
    destruct (Z.eqb_spec i j); [done|]. done.
Qed.

(** What one allocation does, on both outcomes. *)
Lemma pmm_alloc_cases p : pmm_wf p ->
  (exists k p', pmm_alloc_page p = (u32 (k * 4096), p') /\ page_free p k /\
     (forall j, 0 <= j < k -> bitmap_test p j = true) /\
     pmm_wf p' /\ total_pages p' = total_pages p /\ used_pages p' = used_pages p + 1 /\
     forall i, in_bitmap i -> bitmap_test p' i = (i =? k) || bitmap_test p i) \/
  (pmm_alloc_page p = (0, p) /\ used_pages p = total_pages p).
Proof.
  intros Hwf. unfold pmm_alloc_page. destruct (first_free p) as [k|] eqn:E.
  - left. apply first_free_Some in E as ([Hk Hf] & Hmin).
    destruct (wf_take p k Hwf Hk Hf) as (W & T & U & B).
    exists k. eexists. split; [done|]. split; [by split|]. by split.
  - right. split; [done|]. by apply first_free_None.
Qed.

(** [pmm_alloc_page] hands out the lowest free page: it returns that page's
    address in 32 bits, marks exactly that page used, adds one to [used_pages] and
    keeps the invariant. It returns [NULL] and changes nothing exactly when every page
    is used. *)
Theorem pmm_alloc_page_correct p : pmm_wf p ->
  let '(a, p') := pmm_alloc_page p in
  (exists k, page_free p k /\ (forall j, 0 <= j < k -> bitmap_test p j = true) /\
     a = u32 (k * PMM_PAGE_SIZE) /\ pmm_wf p' /\
     total_pages p' = total_pages p /\ used_pages p' = used_pages p + 1 /\
     forall i, in_bitmap i -> bitmap_test p' i = (i =? k) || bitmap_test p i) \/
  (a = 0 /\ p' = p /\ used_pages p = total_pages p).
Proof.
  intros Hwf.
  destruct (pmm_alloc_cases p Hwf) as [(k & p' & -> & Hk & Hmin & W & T & U & B)|[-> U]].
  - left. by exists k.
  - by right.
Qed.

Lemma pmm_free_cases p a : pmm_wf p -> 0 <= a ->
  let k := a / 4096 in
  (page_free p k \/ total_pages p <= k) /\ pmm_free_page a p = p \/
  k < total_pages p /\ bitmap_test p k = true /\
  let p' := pmm_free_page a p in
  pmm_wf p' /\ total_pages p' = total_pages p /\ used_pages p' = used_pages p - 1 /\
  forall i, in_bitmap i -> bitmap_test p' i = negb (i =? k) && bitmap_test p i.
Proof.
  intros Hwf Ha k. unfold pmm_free_page. change (a / PMM_PAGE_SIZE) with k.
  assert (0 <= k) by (subst k; dlia).
  destruct (Z.ltb_spec k (total_pages p)) as [Hk|Hk]; simpl.
  - destruct (bitmap_test p k) eqn:E.
    + right. split; [done|]. split; [done|]. by apply wf_give.
    + left. by split; [left|].
  - left. by split; [right|].
Qed.

Lemma pmm_free_total p a : total_pages (pmm_free_page a p) = total_pages p.
Proof. unfold pmm_free_page. case_match; [apply bitmap_clear_total|done]. Qed.

(** Releasing a page that an allocation of a machine with at most 4 GiB of managed
    memory returned gives back the allocator's state page for page: the same pages are
    used, and the counters are the same. *)
Theorem pmm_free_alloc_roundtrip p a p' :
  pmm_wf p -> total_pages p <= 2 ^ 20 -> pmm_alloc_page p = (a, p') -> a <> 0 ->
  let q := pmm_free_page a p' in
  pmm_wf q /\ used_pages q = used_pages p /\ total_pages q = total_pages p /\
  forall i, in_bitmap i -> bitmap_test q i = bitmap_test p i.
Proof.
  intros Hwf Ht Ha Hnz.
  destruct (pmm_alloc_cases p Hwf) as [(k & p1 & E & [Hk Hf] & _ & W & T & U & B)|[E _]];
    rewrite Ha in E; injection E as -> ->; [|done].
  rewrite u32_small in * by wsolve.
  assert (Hdiv : k * 4096 / 4096 = k) by (apply Z.div_mul; lia).
  assert (Hkb : in_bitmap k) by exact (wf_page _ _ Hwf Hk).
  destruct (pmm_free_cases p1 (k * 4096) W ltac:(lia))
    as [[[[_ Hx]|Hx] _]|(_ & _ & W2 & T2 & U2 & B2)]; rewrite Hdiv in *.
  - rewrite B, Z.eqb_refl in Hx by done. done.
  - lia.
  - split; [done|]. split; [lia|]. split; [lia|].
    intros i Hi. rewrite B2, B by done.
    destruct (Z.eqb_spec i k) as [->|]; [|done]. by rewrite Hf.
Qed.

(** ** The allocator as a [FrameAllocator]

    The laws need every managed page to have a 32-bit address ([total_pages] at most
    2^20) and page 0 to be reserved, which [pmm_init] ensures. *)

Definition pmm_inv (p : pmm) : Prop :=
  pmm_wf p /\ total_pages p <= 2 ^ 20 /\ ~ page_free p 0.

Lemma frame_div a b : is_frame a -> is_frame b -> a / 4096 = b / 4096 -> a = b.
Proof. intros [_ Ha] [_ Hb] H. dlia. Qed.

Lemma page_frame k : 0 <= k < 2 ^ 20 -> is_frame (k * 4096).
Proof. intros H. split; [wsolve|]. apply Z.mod_mul. lia. Qed.

Lemma pmm_alloc_null p : pmm_inv p -> (pmm_alloc_page p).1 = 0 -> (pmm_alloc_page p).2 = p.
Proof.
  intros (Hwf & Ht & H0) Hz.
  destruct (pmm_alloc_cases p Hwf) as [(k & p' & E & Hk & _)|[E _]]; rewrite E in *; [|done].
  simpl in Hz. destruct H0. rewrite u32_small in Hz by (destruct Hk; wsolve).
  replace 0 with k by lia. done.
Qed.

Lemma pmm_alloc_take p : pmm_inv p -> (pmm_alloc_page p).1 <> 0 ->
  exists k, (pmm_alloc_page p).1 = k * 4096 /\ page_free p k /\
    pmm_inv (pmm_alloc_page p).2 /\
    total_pages (pmm_alloc_page p).2 = total_pages p /\
    forall i, 0 <= i -> page_free (pmm_alloc_page p).2 i <-> page_free p i /\ i <> k.
Proof.
  intros (Hwf & Ht & H0) Hz.
  destruct (pmm_alloc_cases p Hwf) as [(k & p' & E & Hk & _ & W & T & _ & B)|[E _]];
    rewrite E in *; simpl in *; [|done].
  assert (Hfree : forall i, 0 <= i -> page_free p' i <-> page_free p i /\ i <> k).
  { intros i Hi. unfold page_free. rewrite T.
    destruct (Z.lt_ge_cases i (total_pages p)) as [Hlt|]; [|split; lia].
    rewrite B by (apply (wf_page p); [done|lia]).
    destruct (Z.eqb_spec i k); simpl; intuition congruence. }
  exists k. rewrite u32_small by (destruct Hk; wsolve).
  split; [done|]. split; [done|]. split; [|by split].
  split; [done|]. split; [lia|]. rewrite Hfree by lia. tauto.
Qed.

Lemma pmm_free_give p a : pmm_inv p -> is_frame a -> a <> 0 ->
  pmm_inv (pmm_free_page a p) /\ total_pages (pmm_free_page a p) = total_pages p /\
  forall i, 0 <= i -> page_free (pmm_free_page a p) i <->
    page_free p i \/ (i = a / 4096 /\ i < total_pages p).
Proof.
  intros (Hwf & Ht & H0) [Ha Hal] Hz.
  destruct (pmm_free_cases p a Hwf ltac:(wsolve)) as [[Hc ->]|(Hlt & Hb & W & T & _ & B)].
  - split; [done|]. split; [done|]. intros i Hi. split; [tauto|].
    intros [?|[-> ?]]; [done|]. destruct Hc; [done|lia].
  - assert (Hfree : forall i, 0 <= i -> page_free (pmm_free_page a p) i <->
      page_free p i \/ (i = a / 4096 /\ i < total_pages p)).
    { intros i Hi. unfold page_free. rewrite T.
      destruct (Z.lt_ge_cases i (total_pages p)) as [Hi'|]; [|split; lia].
      rewrite B by (apply (wf_page p); [done|lia]).
      destruct (Z.eqb_spec i (a / 4096)); simpl; intuition (congruence || lia). }
    split; [|by split]. split; [done|]. split; [lia|].
    rewrite Hfree by lia. intros [?|[E _]]; [done|].
    assert (a = 0); [|done]. apply frame_div; [by split|by split; [wsolve|]|]. by rewrite <- E.
Qed.

#[export] Instance pmm_frames : FrameAllocator pmm.
Proof.
  unshelve refine {|
    fa_alloc := pmm_alloc_page;
    fa_free := pmm_free_page;
    fa_max_address := pmm_get_max_address;
    fa_inv := pmm_inv;
    fa_managed := fun p a => a / 4096 < total_pages p;
    fa_avail := fun p a => page_free p (a / 4096)
  |}; cbv beta.
  - by intros p a [[_ ?] _].
  - intros p Hp. destruct (Z.eq_dec (pmm_alloc_page p).1 0) as [Hz|Hz].
    + by rewrite (pmm_alloc_null p Hp Hz).
    + by destruct (pmm_alloc_take p Hp Hz) as (k & _ & _ & ? & _).
  - intros p Hp Hz. by apply pmm_alloc_null.
  - intros p Hp Hz. destruct (pmm_alloc_take p Hp Hz) as (k & -> & Hk & _ & _).
    destruct Hp as (_ & Ht & _). split; [apply page_frame; destruct Hk; lia|].
    by rewrite Z.div_mul by lia.
  - intros p b Hp Hz Hb. destruct (pmm_alloc_take p Hp Hz) as (k & E & Hk & _ & _ & F).
    destruct Hp as (_ & Ht & _).
    rewrite E, F by (destruct Hb; wsolve).
    assert (b / 4096 <> k <-> b <> k * 4096); [|tauto].
    destruct Hb as [? ?]. split; intros Hne ?; apply Hne; dlia.
  - intros p b Hp. destruct (Z.eq_dec (pmm_alloc_page p).1 0) as [Hz|Hz].
    + by rewrite (pmm_alloc_null p Hp Hz).
    + destruct (pmm_alloc_take p Hp Hz) as (k & _ & _ & _ & T & _). by rewrite T.
  - intros p a Hp Ha Hz. by apply pmm_free_give.
  - intros p a b Hp Ha Hb Hz Hm. destruct (pmm_free_give p a Hp Ha Hz) as (_ & _ & F).
    rewrite F by (destruct Hb; wsolve). split.
    + intros [?|[? _]]; [by left|right]. by apply frame_div.
    + intros [?| ->]; [by left|right]. done.
  - intros p a b _ _. by rewrite pmm_free_total.
  - intros p. unfold pmm_get_max_address. case_match; apply u32_range.
Defined.

(** C11. From an initialised allocator of at most 4 GiB, any sequence of allocations and
    of releases of held frames never hands out a frame twice: a frame returned next is
    page aligned, not currently held, above page 0 and disjoint from the kernel image. *)
Theorem pmm_client_safe rd ks ke fuel mboot es p0 p1 p held a p' :
  boot_chain rd mboot es -> (length es <= fuel)%nat -> is_u32 ks -> is_u32 ke ->
  pmm_init rd ks ke fuel mboot p0 = Some p1 -> total_pages p1 <= 2 ^ 20 ->
  rtc client_step (p1, (∅ : gset Z)) (p, held) ->
  pmm_alloc_page p = (a, p') -> a <> 0 ->
  is_frame a /\ (a ∉ held) /\ 4096 <= a /\ (a + 4096 <= ks \/ ke <= a \/ ke <= ks).
Proof.
  intros Hc Hf Hs He Hinit Ht Hrtc Ha Hz.
  destruct (pmm_init_ok rd ks ke fuel mboot es p0) as (q & Hq & Hwf & _ & Hfree); [done..|].
  rewrite Hinit in Hq. injection Hq as <-.
  assert (Hinv : pmm_inv p1).
  { split; [done|]. split; [done|]. intros [H0 H1]. rewrite Hfree in H1 by done. done. }
  destruct (client_reachable_inv (FA := pmm_frames) p1 _ Hinv Hrtc) as [Hi _ Hav]; simpl in *.
  pose proof (fa_alloc_frame (FrameAllocator := pmm_frames) p Hi) as Hfr. simpl in Hfr. rewrite Ha in Hfr. simpl in Hfr.
  destruct (Hfr Hz) as [Hfrm Havail]. apply Hav in Havail as [[Hr Hb] Hnh]; [|done].
  rewrite Hfree in Hb by done. apply orb_false_iff in Hb as [[H0 Hk]%orb_false_iff _].
  unfold kernel_page in Hk. split; [done|]. split; [done|]. destruct Hfrm as [Hu Hal].
  split; [wsolve|]. destruct (Z.lt_ge_cases ks ke); wsolve.
Qed.

(** The page count is clamped to the bitmap's 2^23 bits (32 GiB), not to the 2^20
    pages that have a 32-bit address: when the lowest free page lies at or above 4 GiB,
    [pmm_alloc_page] returns a truncated address. It is the address of a page that is
    already in use, or [NULL] although a page was taken. *)
Theorem pmm_alloc_truncates p k :
  pmm_wf p -> first_free p = Some k -> 2 ^ 20 <= k ->
  exists p' j, pmm_alloc_page p = (j * PMM_PAGE_SIZE, p') /\ 0 <= j < 2 ^ 20 /\
    bitmap_test p j = true /\ used_pages p' = used_pages p + 1.
Proof.
  intros Hwf Hk Hbig. pose proof Hk as Hk'. apply first_free_Some in Hk' as ([Hr Hf] & Hmin).
  destruct (wf_take p k Hwf Hr Hf) as (W & T & U & B).
  unfold pmm_alloc_page. rewrite Hk. eexists _, (k mod 2 ^ 20). split.
  - f_equal. unfold u32, PMM_PAGE_SIZE. change (2 ^ 32) with (2 ^ 20 * 4096).
    rewrite Z.mul_mod_distr_r by lia. done.
  - pose proof (Z.mod_pos_bound k (2 ^ 20) ltac:(lia)).
    split; [done|]. split; [apply Hmin; lia|done].
Qed.

(** ** Concrete instances *)

(** A fully used allocator of [t] pages, and one with a single free page. *)
Definition full_pmm (t : Z) : pmm := Pmm full_bitmap t t (t * 4096).
Definition one_free (t k : Z) : pmm :=
  with_used (bitmap_clear k (full_pmm t)) (u32 (used_pages (bitmap_clear k (full_pmm t)) - 1)).

Lemma full_pmm_test t i : in_bitmap i -> bitmap_test (full_pmm t) i = true.
Proof. intros Hi. by apply bitmap_full. Qed.

Lemma full_pmm_wf t : 0 <= t <= 8 * PMM_BITMAP_SIZE -> pmm_wf (full_pmm t).
Proof.
  intros Ht. split; [exact full_bitmap_length|done|]. simpl.
  rewrite (zcount_ext _ (fun _ => true)) by (intros i Hi; apply full_pmm_test; plia).
  unfold zcount. rewrite List.forallb_filter_id by (by apply forallb_forall).
  rewrite length_seqZ. lia.
Qed.

Lemma one_free_spec t k : 0 <= k < t -> t <= 8 * PMM_BITMAP_SIZE ->
  pmm_wf (one_free t k) /\ total_pages (one_free t k) = t /\
  first_free (one_free t k) = Some k.
Proof.
  intros Hk Ht.
  destruct (wf_give (full_pmm t) k) as (W & T & _ & B);
    [by apply full_pmm_wf; lia|done|apply full_pmm_test; plia|].
  fold (one_free t k) in W, T, B. change (total_pages (full_pmm t)) with t in T.
  split; [exact W|]. split; [exact T|]. apply first_free_Some.
  assert (Htest : forall i, 0 <= i < t -> bitmap_test (one_free t k) i = negb (i =? k)).
  { intros i Hi. rewrite B, full_pmm_test by plia. by rewrite andb_true_r. }
  split.
  - split; [by rewrite T|]. rewrite Htest, Z.eqb_refl by done. done.
  - intros j Hj. rewrite Htest by lia. zcases; [lia|done].
Qed.

(** A boot with two map entries, an available 16 MiB region and a reserved one. *)
Definition demo_rd (q : Z) : multiboot_mmap_entry :=
  if q =? 0x9000 then MmapEntry 20 0x100000 0x1000000 1 else MmapEntry 20 0xF0000000 0x1000 2.
Definition demo_mboot : multiboot_info := MultibootInfo 0x41 640 16384 48 0x9000.
Definition blank_pmm : pmm := Pmm [] 0 0 0.

Lemma demo_sizes q : 0x9000 <= q < u32 (0x9000 + 48) ->
  0 <= mmap_size (demo_rd q) < 2 ^ 32 - q - 4.
Proof.
  intros Hq. rewrite u32_small in Hq by wsolve. unfold demo_rd. case_match; simpl; wsolve.
Qed.

Lemma pmm_init_correct_witness :
  exists es p, boot_chain demo_rd demo_mboot es /\
    pmm_init demo_rd 0x100000 0x180000 48 demo_mboot blank_pmm = Some p /\ pmm_wf p /\
    total_pages p = init_total demo_mboot es 0 /\
    forall page, 0 <= page < total_pages p ->
      bitmap_test p page = (page =? 0) || kernel_page 0x100000 0x180000 page
        || negb (init_available demo_mboot es page).
Proof.
  apply (pmm_init_correct demo_rd 0x100000 0x180000 48 demo_mboot blank_pmm).
  - simpl; wsolve.
  - wsolve.
  - wsolve.
  - exact demo_sizes.
  - reflexivity.
Defined.

Lemma pmm_alloc_page_correct_witness :
  let '(a, p') := pmm_alloc_page (one_free 3 1) in
  (exists k, page_free (one_free 3 1) k /\
     (forall j, 0 <= j < k -> bitmap_test (one_free 3 1) j = true) /\
     a = u32 (k * PMM_PAGE_SIZE) /\ pmm_wf p' /\
     total_pages p' = total_pages (one_free 3 1) /\
     used_pages p' = used_pages (one_free 3 1) + 1 /\
     forall i, in_bitmap i -> bitmap_test p' i = (i =? k) || bitmap_test (one_free 3 1) i) \/
  (a = 0 /\ p' = one_free 3 1 /\ used_pages (one_free 3 1) = total_pages (one_free 3 1)).
Proof. apply (pmm_alloc_page_correct (one_free 3 1)). apply one_free_spec; plia. Defined.

Lemma one_free_alloc t k : 0 <= k < t -> t <= 8 * PMM_BITMAP_SIZE ->
  pmm_alloc_page (one_free t k) = (u32 (k * 4096), (pmm_alloc_page (one_free t k)).2).
Proof.
  intros Hk Ht. destruct (one_free_spec t k Hk Ht) as (_ & _ & F).
  unfold pmm_alloc_page. by rewrite F.
Qed.

Lemma pmm_free_alloc_roundtrip_witness :
  let q := pmm_free_page 4096 (pmm_alloc_page (one_free 3 1)).2 in
  pmm_wf q /\ used_pages q = used_pages (one_free 3 1) /\
  total_pages q = total_pages (one_free 3 1) /\
  forall i, in_bitmap i -> bitmap_test q i = bitmap_test (one_free 3 1) i.
Proof.
  apply (pmm_free_alloc_roundtrip (one_free 3 1)).
  - apply one_free_spec; plia.
  - destruct (one_free_spec 3 1) as (_ & -> & _); plia.
  - apply (one_free_alloc 3 1); plia.
  - lia.
Defined.

Lemma pmm_alloc_truncates_witness :
  exists p' j, pmm_alloc_page (one_free (2 ^ 20 + 2) (2 ^ 20 + 1)) = (j * PMM_PAGE_SIZE, p') /\
    0 <= j < 2 ^ 20 /\ bitmap_test (one_free (2 ^ 20 + 2) (2 ^ 20 + 1)) j = true /\
    used_pages p' = used_pages (one_free (2 ^ 20 + 2) (2 ^ 20 + 1)) + 1.
Proof.
  apply (pmm_alloc_truncates _ (2 ^ 20 + 1)).
  - apply one_free_spec; plia.
  - apply one_free_spec; plia.
  - lia.
Defined.

(** Without a memory map and with 1664 KiB, page 257 is the lowest free page after a
    kernel that occupies one page. *)
Definition small_mboot : multiboot_info := MultibootInfo 1 640 1024 0 0.

Lemma small_boot :
  exists p, pmm_init demo_rd 0x100000 0x101000 0 small_mboot blank_pmm = Some p /\
    pmm_wf p /\ total_pages p = 416 /\ pmm_alloc_page p = (0x101000, (pmm_alloc_page p).2).
Proof.
  destruct (pmm_init_ok demo_rd 0x100000 0x101000 0 small_mboot [] blank_pmm)
    as (p & E & W & T & F); [by intros []|done|wsolve|wsolve|].
  exists p. split; [done|]. split; [done|]. split; [done|].
  assert (first_free p = Some 257) as Hff.
  { apply first_free_Some. rewrite T in F. change (init_total _ _ _) with 416 in F.
    split; [split; [by rewrite T|]|].
    - by rewrite F by lia.
    - intros j Hj. rewrite F by lia. unfold kernel_page, init_available. simpl.
      change (PMM_LOW_MEMORY / PMM_PAGE_SIZE) with 256. change (0x100000 / 4096) with 256.
      change ((0x101000 + 4095) / 4096) with 257. lia. }
  unfold pmm_alloc_page. by rewrite Hff.
Qed.

Lemma pmm_client_safe_witness :
  exists p, pmm_init demo_rd 0x100000 0x101000 0 small_mboot blank_pmm = Some p /\
    (is_frame 0x101000 /\ (0x101000 ∉ (∅ : gset Z)) /\ 4096 <= 0x101000 /\
     (0x101000 + 4096 <= 0x100000 \/ 0x101000 <= 0x101000 \/ 0x101000 <= 0x100000)).
Proof.
  destruct small_boot as (p & E & W & T & A). exists p. split; [exact E|].
  apply (pmm_client_safe demo_rd 0x100000 0x101000 0 small_mboot [] blank_pmm p p ∅
    0x101000 (pmm_alloc_page p).2).
  - intros H. by destruct H.
  - reflexivity.
  - wsolve.
  - wsolve.
  - exact E.
  - rewrite T. lia.
  - reflexivity.
  - exact A.
  - lia.
Defined.
