(* ===== verification/Vmm.v ===== *)
(** * Virtual memory manager (memory/vmm.c, memory/vmm.h)

    Page directories and tables live in the flat memory of [Mem], at the frame
    addresses the allocator hands out ([FrameAllocator], so that nothing here
    depends on how pmm.c finds a frame). Physical memory is identity-mapped, as the
    source assumes, so a directory pointer is its physical address.

    [hw_walk] is the processor's two-level walk from CR3 (4 KiB pages, CR4.PSE and
    CR4.PGE clear) and the field [tlb] its translation cache; both are the hardware
    specification the code is proved against, not translations of code. *)
From S2P Require Import Prelude Mem Frames.

Definition PAGE_SIZE : Z := 4096.
Definition PAGE_TABLE_ENTRIES : Z := 1024.
Definition PAGE_DIR_ENTRIES : Z := 1024.
Definition PTE_PRESENT : Z := Z.shiftl 1 0.
Definition PTE_WRITABLE : Z := Z.shiftl 1 1.
Definition PTE_USER : Z := Z.shiftl 1 2.

Definition PD_INDEX (addr : Z) : Z := Z.land (Z.shiftr addr 22) 0x3FF.
Definition PT_INDEX (addr : Z) : Z := Z.land (Z.shiftr addr 12) 0x3FF.
Definition PAGE_ALIGN (addr : Z) : Z := Z.land addr 0xFFFFF000.

(** Field addresses of [struct page_directory] (entries, then table pointers) and
    [struct page_table]. *)
Definition dir_entry (dir i : Z) : Z := u32 (dir + 4 * i).
Definition dir_table (dir i : Z) : Z := u32 (dir + 4 * PAGE_DIR_ENTRIES + 4 * i).
Definition pt_entry (pt i : Z) : Z := u32 (pt + 4 * i).
Definition sizeof_page_directory : Z := 8 * PAGE_DIR_ENTRIES.

Record vmm (S : Type) := Vmm {
  vm_mem : mem;
  vm_pmm : S;
  current_directory : Z;
  kernel_directory : Z;
  cr3 : Z;
  tlb : gmap Z Z
}.
Arguments Vmm {S} _ _ _ _ _ _.
Arguments vm_mem {S} _.
Arguments vm_pmm {S} _.
Arguments current_directory {S} _.
Arguments kernel_directory {S} _.
Arguments cr3 {S} _.
Arguments tlb {S} _.

Section Operations.
Context {S : Type} {FA : FrameAllocator S}.
Implicit Types s : vmm S.

Definition set_mem (f : mem -> mem) s : vmm S :=
  Vmm (f (vm_mem s)) (vm_pmm s) (current_directory s) (kernel_directory s) (cr3 s) (tlb s).
Definition set_pmm (p : S) s : vmm S :=
  Vmm (vm_mem s) p (current_directory s) (kernel_directory s) (cr3 s) (tlb s).

Definition tlb_flush_page (virt : Z) s : vmm S :=
  Vmm (vm_mem s) (vm_pmm s) (current_directory s) (kernel_directory s) (cr3 s)
    (delete (virt / 4096) (tlb s)).

(** Loading CR3 drops every non-global translation. *)
Definition load_cr3 (v : Z) s : vmm S :=
  Vmm (vm_mem s) (vm_pmm s) (current_directory s) (kernel_directory s) v ∅.
Definition tlb_flush_all s : vmm S := load_cr3 (cr3 s) s.

Definition get_page_table (dir virt : Z) (create : bool) s : Z * vmm S :=
  let pd_index := PD_INDEX virt in
  let table := ld (vm_mem s) (dir_table dir pd_index) in
  if negb (table =? 0) then (table, s)
  else if create then
    let '(phys, p) := fa_alloc (vm_pmm s) in
    let s := set_pmm p s in
    if phys =? 0 then (0, s)
    else
      let pt := phys in
      let s := set_mem (for_range 0 PAGE_TABLE_ENTRIES (fun i m => st m (pt_entry pt i) 0)) s in
      let s := set_mem (fun m => st m (dir_table dir pd_index) pt) s in
      let s := set_mem (fun m => st m (dir_entry dir pd_index)
                 (Z.lor (Z.lor (Z.lor (Z.land phys 0xFFFFF000) PTE_PRESENT) PTE_WRITABLE) PTE_USER)) s in
      (pt, s)
  else (0, s).

Definition vmm_map_page (dir virt phys flags : Z) s : Z * vmm S :=
  let dir := if dir =? 0 then current_directory s else dir in
  let '(pt, s) := get_page_table dir virt true s in
  if pt =? 0 then (0, s)
  else
    let pt_index := PT_INDEX virt in
    let s := set_mem (fun m => st m (pt_entry pt pt_index)
               (Z.lor (Z.land phys 0xFFFFF000) (Z.land flags 0xFFF))) s in
    (1, tlb_flush_page virt s).

Definition vmm_unmap_page (dir virt : Z) s : vmm S :=
  let dir := if dir =? 0 then current_directory s else dir in
  let '(pt, s) := get_page_table dir virt false s in
  if pt =? 0 then s
  else
    let pt_index := PT_INDEX virt in
    let s := set_mem (fun m => st m (pt_entry pt pt_index) 0) s in
    tlb_flush_page virt s.

Definition vmm_get_physical (dir virt : Z) s : Z :=
  let dir := if dir =? 0 then current_directory s else dir in
  let '(pt, s) := get_page_table dir virt false s in
  if pt =? 0 then 0
  else
    let pt_index := PT_INDEX virt in
    let pte := ld (vm_mem s) (pt_entry pt pt_index) in
    if Z.land pte PTE_PRESENT =? 0 then 0
    else Z.lor (Z.land pte 0xFFFFF000) (Z.land virt 0xFFF).

(** [while (virt < end)] of the two region functions; [None] when the fuel runs
    out. The physical address advances with the virtual one. *)
Fixpoint map_loop (fuel : nat) (dir virt phys last flags : Z) s : option (vmm S) :=
  match fuel with
  | O => None
  | Datatypes.S fuel =>
      if virt <? last then
        let '(_, s) := vmm_map_page dir virt phys flags s in
        map_loop fuel dir (u32 (virt + PAGE_SIZE)) (u32 (phys + PAGE_SIZE)) last flags s
      else Some s
  end.

(** One iteration per page up to [last], and one for the final test. *)
Definition region_fuel (last : Z) : nat := Datatypes.S (Z.to_nat (last / PAGE_SIZE)).

Definition vmm_identity_map_region (dir start size flags : Z) s : option (vmm S) :=
  let dir := if dir =? 0 then current_directory s else dir in
  let virt := PAGE_ALIGN start in
  let last := Z.land (u32 (start + size + PAGE_SIZE - 1)) 0xFFFFF000 in
  map_loop (region_fuel last) dir virt virt last flags s.

Definition vmm_map_region (dir virt phys size flags : Z) s : option (vmm S) :=
  let dir := if dir =? 0 then current_directory s else dir in
  let virt_addr := PAGE_ALIGN virt in
  let phys_addr := PAGE_ALIGN phys in
  let last := Z.land (u32 (virt + size + PAGE_SIZE - 1)) 0xFFFFF000 in
  map_loop (region_fuel last) dir virt_addr phys_addr last flags s.

Definition vmm_switch_directory (dir : Z) s : vmm S :=
  if dir =? 0 then s
  else load_cr3 dir (Vmm (vm_mem s) (vm_pmm s) dir (kernel_directory s) (cr3 s) (tlb s)).

(** The contiguous run of frames for a directory: the first frame, or [None] when
    the allocator fails or the next frame is not the expected one. Frames taken
    before a failure stay taken. *)
Definition alloc_dir_pages (p : S) : option Z * S :=
  let dir_pages := (sizeof_page_directory + PAGE_SIZE - 1) / PAGE_SIZE in
  let '(dir_phys, p) := fa_alloc p in
  if dir_phys =? 0 then (None, p)
  else
    let body (i : Z) (r : option Z * S) :=
      let '(expect, p) := r in
      match expect with
      | None => (None, p)
      | Some expect =>
          let '(q, p) := fa_alloc p in
          if q =? expect then (Some (u32 (q + PAGE_SIZE)), p) else (None, p)
      end in
    let '(r, p) := for_range 1 dir_pages body (Some (u32 (dir_phys + PAGE_SIZE)), p) in
    (match r with None => None | Some _ => Some dir_phys end, p).

Definition clear_directory (dir : Z) (m : mem) : mem :=
  for_range 0 PAGE_DIR_ENTRIES
    (fun i m => st (st m (dir_entry dir i) 0) (dir_table dir i) 0) m.

Definition vmm_create_directory s : Z * vmm S :=
  let '(r, p) := alloc_dir_pages (vm_pmm s) in
  let s := set_pmm p s in
  match r with
  | None => (0, s)
  | Some dir => (dir, set_mem (clear_directory dir) s)
  end.

Definition vmm_destroy_directory (dir : Z) s : vmm S :=
  if dir =? 0 then s
  else
    let s := for_range 0 PAGE_DIR_ENTRIES
      (fun i s =>
         let table := ld (vm_mem s) (dir_table dir i) in
         if negb (table =? 0) then set_pmm (fa_free table (vm_pmm s)) s else s) s in
    set_pmm (fa_free dir (vm_pmm s)) s.

Definition vmm_init s : option (vmm S) :=
  let '(r, p) := alloc_dir_pages (vm_pmm s) in
  let s := set_pmm p s in
  match r with
  | None => Some s
  | Some dir_phys =>
      let s := Vmm (vm_mem s) (vm_pmm s) (current_directory s) dir_phys (cr3 s) (tlb s) in
      let s := set_mem (clear_directory (kernel_directory s)) s in
      let ram_end := fa_max_address (vm_pmm s) in
      let ram_end := if ram_end <? 0x400000 then 0x400000 else ram_end in
      let ram_end := if 0x4000000 <? ram_end then 0x4000000 else ram_end in
      match vmm_identity_map_region (kernel_directory s) 0 ram_end
              (Z.lor (Z.lor PTE_PRESENT PTE_WRITABLE) PTE_USER) s with
      | None => None
      | Some s =>
          let s := Vmm (vm_mem s) (vm_pmm s) (kernel_directory s) (kernel_directory s)
                     (cr3 s) (tlb s) in
          Some (vmm_switch_directory (kernel_directory s) s)
      end
  end.
End Operations.

(** ** Indices and addresses *)

Lemma PD_INDEX_div v : is_u32 v -> PD_INDEX v = v / 2 ^ 22.
Proof.
  intros Hv. unfold PD_INDEX. change 0x3FF with (Z.ones 10).
  rewrite land_ones_mod, Z.shiftr_div_pow2 by lia. apply Z.mod_small.
  change (2 ^ 22) with 4194304. change (2 ^ 10) with 1024. wsolve.
Qed.
Lemma PT_INDEX_div v : PT_INDEX v = v / 4096 mod 1024.
Proof.
  unfold PT_INDEX. change 0x3FF with (Z.ones 10).
  rewrite land_ones_mod, Z.shiftr_div_pow2 by lia. done.
Qed.
Lemma PD_INDEX_range v : 0 <= PD_INDEX v < 1024.
Proof. unfold PD_INDEX. change 0x3FF with (Z.ones 10). rewrite land_ones_mod by lia. apply Z.mod_pos_bound. lia. Qed.
Lemma PT_INDEX_range v : 0 <= PT_INDEX v < 1024.
Proof. rewrite PT_INDEX_div. apply Z.mod_pos_bound. lia. Qed.
#[local] Hint Resolve PD_INDEX_range PT_INDEX_range : core.

(** A 32-bit address is in the page its two indices name. *)
Lemma indices_page v w : is_u32 v -> is_u32 w ->
  PD_INDEX v = PD_INDEX w -> PT_INDEX v = PT_INDEX w -> v / 4096 = w / 4096.
Proof.
  intros Hv Hw. rewrite !PD_INDEX_div, !PT_INDEX_div by done.
  change (2 ^ 22) with 4194304. dlia.
Qed.
Lemma page_indices v w : is_u32 v -> is_u32 w ->
  v / 4096 = w / 4096 -> PD_INDEX v = PD_INDEX w /\ PT_INDEX v = PT_INDEX w.
Proof.
  intros Hv Hw Heq. rewrite !PD_INDEX_div, !PT_INDEX_div by done. rewrite Heq.
  change (2 ^ 22) with 4194304. split; [dlia|done].
Qed.

Lemma frame_word a i : is_frame a -> 0 <= i < 1024 -> u32 (a + 4 * i) = a + 4 * i.
Proof. intros [Ha Hm] Hi. apply u32_small. wsolve. Qed.

(** Offsets in different frames are different addresses. *)
Lemma frames_apart a b i j : is_frame a -> is_frame b -> a <> b ->
  0 <= i < 4096 -> 0 <= j < 4096 -> a + i <> b + j.
Proof. intros [_ Ha] [_ Hb] Hne Hi Hj. dlia. Qed.

Lemma frame_mask a : is_frame a -> Z.land a 0xFFFFF000 = a.
Proof. intros [Ha Hm]. rewrite land_page_mask by done. dlia. Qed.

Definition pte_of (phys flags : Z) : Z := 4096 * (phys / 4096) + flags mod 4096.

Lemma pte_of_lor phys flags : is_u32 phys ->
  Z.lor (Z.land phys 0xFFFFF000) (Z.land flags 0xFFF) = pte_of phys flags.
Proof.
  intros Hp. rewrite land_page_mask by done. change 0xFFF with (Z.ones 12).
  rewrite land_ones_mod by lia. change (2 ^ 12) with 4096.
  apply lor_page_offset; [wsolve|]. apply Z.mod_pos_bound. lia.
Qed.

Lemma pde_of_lor a : is_frame a ->
  Z.lor (Z.lor (Z.lor (Z.land a 0xFFFFF000) PTE_PRESENT) PTE_WRITABLE) PTE_USER = a + 7.
Proof.
  intros Ha. rewrite frame_mask by done. rewrite <- !Z.lor_assoc.
  change (Z.lor PTE_PRESENT (Z.lor PTE_WRITABLE PTE_USER)) with 7.
  destruct Ha as [Ha Hm]. replace a with (4096 * (a / 4096)) by dlia.
  apply lor_page_offset; wsolve.
Qed.

(** ** The processor's page walk *)

(** The page-table entry that translates [virt] under the directory at [root]. *)
Definition hw_walk (m : mem) (root virt : Z) : option Z :=
  let pde := ld m (u32 (Z.land root 0xFFFFF000 + 4 * PD_INDEX virt)) in
  if Z.testbit pde 0 then
    let pte := ld m (u32 (Z.land pde 0xFFFFF000 + 4 * PT_INDEX virt)) in
    if Z.testbit pte 0 then Some pte else None
  else None.

(** The physical address a leaf entry gives. *)
Definition pte_phys (pte virt : Z) : Z := Z.lor (Z.land pte 0xFFFFF000) (Z.land virt 0xFFF).

(** ** Well-formed directories *)

Definition tbl (m : mem) (d i : Z) : Z := ld m (d + 4096 + 4 * i).
Definition ent (m : mem) (d i : Z) : Z := ld m (d + 4 * i).

Record dir_wf (m : mem) (d : Z) : Prop := {
  dw_nonnull : d <> 0;
  dw_frame : is_frame d;
  dw_frame2 : is_frame (d + 4096);
  dw_empty : forall i, 0 <= i < 1024 -> tbl m d i = 0 -> ent m d i = 0;
  dw_slot : forall i, 0 <= i < 1024 -> tbl m d i <> 0 ->
    is_frame (tbl m d i) /\ ent m d i = tbl m d i + 7;
  dw_inj : forall i j, 0 <= i < 1024 -> 0 <= j < 1024 -> tbl m d i <> 0 ->
    tbl m d i = tbl m d j -> i = j;
  dw_sep : forall i, 0 <= i < 1024 -> tbl m d i <> d /\ tbl m d i <> d + 4096
}.

(** The frames of a directory: its own two pages and its tables. *)
Definition owns (m : mem) (d a : Z) : Prop :=
  a = d \/ a = d + 4096 \/ exists i, 0 <= i < 1024 /\ a = tbl m d i /\ a <> 0.

Lemma dir_entry_at m d i : dir_wf m d -> 0 <= i < 1024 -> dir_entry d i = d + 4 * i.
Proof. intros Hd Hi. unfold dir_entry. by rewrite frame_word by eauto using dw_frame. Qed.
Lemma dir_table_at m d i : dir_wf m d -> 0 <= i < 1024 -> dir_table d i = d + 4096 + 4 * i.
Proof.
  intros Hd Hi. unfold dir_table, PAGE_DIR_ENTRIES. change (4 * 1024) with 4096.
  by rewrite frame_word by eauto using dw_frame2.
Qed.

Lemma owns_frame m d a : dir_wf m d -> owns m d a -> is_frame a /\ a <> 0.
Proof.
  intros Hd [->|[->|(i & Hi & -> & Hnz)]].
  - split; [apply (dw_frame _ _ Hd)|apply (dw_nonnull _ _ Hd)].
  - split; [apply (dw_frame2 _ _ Hd)|]. destruct (dw_frame _ _ Hd) as [Hu _]. wsolve.
  - split; [|done]. by apply (dw_slot _ _ Hd).
Qed.

Lemma owns_tbl m d i : 0 <= i < 1024 -> tbl m d i <> 0 -> owns m d (tbl m d i).
Proof. intros Hi Hnz. right. right. by exists i. Qed.
#[local] Hint Resolve owns_tbl : core.

(** Only the two directory pages decide well-formedness and ownership. *)
Lemma tbl_same m m' d i : same_on m m' (d + 4096) 4096 -> 0 <= i < 1024 -> tbl m' d i = tbl m d i.
Proof. intros H Hi. unfold tbl. apply H. lia. Qed.
Lemma ent_same m m' d i : same_on m m' d 4096 -> 0 <= i < 1024 -> ent m' d i = ent m d i.
Proof. intros H Hi. unfold ent. apply H. lia. Qed.

Lemma dir_wf_same m m' d : same_on m m' d 4096 -> same_on m m' (d + 4096) 4096 ->
  dir_wf m d -> dir_wf m' d.
Proof.
  intros H1 H2 [? ? ? Hemp Hslot Hinj Hsep].
  split; try done; intros i; intros; rewrite ?(tbl_same m m'), ?(ent_same m m') in * by done; auto.
Qed.

Lemma owns_same m m' d a : same_on m m' (d + 4096) 4096 -> owns m' d a <-> owns m d a.
Proof.
  intros H. unfold owns. split; (intros [?|[?|(i & Hi & Ha & Hnz)]]; [tauto|tauto|right; right; exists i]).
  - by rewrite <- (tbl_same m m').
  - by rewrite (tbl_same m m').
Qed.

(** The walk of a well-formed directory, through its table pointers. *)
Lemma hw_walk_tbl m d v : dir_wf m d ->
  hw_walk m d v =
  let t := tbl m d (PD_INDEX v) in
  if t =? 0 then None
  else let pte := ld m (t + 4 * PT_INDEX v) in if Z.testbit pte 0 then Some pte else None.
Proof.
  intros Hd. unfold hw_walk. cbv zeta. rewrite (frame_mask d) by eauto using dw_frame.
  rewrite frame_word by eauto using dw_frame.
  fold (ent m d (PD_INDEX v)). destruct (Z.eqb_spec (tbl m d (PD_INDEX v)) 0) as [Hz|Hnz].
  - by rewrite (dw_empty _ _ Hd).
  - destruct (dw_slot _ _ Hd (PD_INDEX v)) as [Hf He]; [done|done|]. rewrite He.
    destruct Hf as [Hu Hm].
    assert (Z.testbit (tbl m d (PD_INDEX v) + 7) 0 = true) as ->.
    { rewrite Z.bit0_odd. apply Zodd_bool_iff, Zodd_ex_iff.
      exists (tbl m d (PD_INDEX v) / 4096 * 2048 + 3). dlia. }
    rewrite land_page_mask by wsolve.
    replace (4096 * _) with (tbl m d (PD_INDEX v)) by dlia.
    by rewrite frame_word.
Qed.

(** A walk reads only frames the directory owns. *)
Lemma hw_walk_same m m' d v : dir_wf m d ->
  (forall a, owns m d a -> same_on m m' a 4096) -> hw_walk m' d v = hw_walk m d v.
Proof.
  intros Hd Hs.
  assert (same_on m m' d 4096) as S1 by (apply Hs; by left).
  assert (same_on m m' (d + 4096) 4096) as S2 by (apply Hs; right; by left).
  rewrite !hw_walk_tbl by eauto using dir_wf_same. cbv zeta.
  rewrite (tbl_same m m') by done.
  destruct (Z.eqb_spec (tbl m d (PD_INDEX v)) 0) as [|Hnz]; [done|].
  rewrite (Hs _ (owns_tbl _ _ _ (PD_INDEX_range v) Hnz)); [done|].
  pose proof (PT_INDEX_range v). lia.
Qed.

(** ** Invariant over the live directories *)

Section Invariant.
Context {S : Type} {FA : FrameAllocator S}.
Implicit Types (s : vmm S) (ds : gset Z).

Record vmm_inv ds s : Prop := {
  vi_pmm : fa_inv (vm_pmm s);
  vi_dir : forall d, d ∈ ds -> dir_wf (vm_mem s) d;
  vi_apart : forall d d' a, d ∈ ds -> d' ∈ ds -> owns (vm_mem s) d a -> owns (vm_mem s) d' a -> d = d';
  vi_taken : forall d a, d ∈ ds -> owns (vm_mem s) d a ->
    fa_managed (vm_pmm s) a /\ ~ fa_avail (vm_pmm s) a
}.

(** The processor runs on [current_directory], and caches only what a walk of it
    would give. *)
Definition tlb_ok s : Prop :=
  forall page pte, 0 <= page < 2 ^ 20 -> tlb s !! page = Some pte ->
    hw_walk (vm_mem s) (cr3 s) (4096 * page) = Some pte.

(** What an operation that leaves all translations alone may change. *)
Record walks_kept ds s s' : Prop := {
  wk_walk : forall d v, d ∈ ds -> hw_walk (vm_mem s') d v = hw_walk (vm_mem s) d v;
  wk_cur : current_directory s' = current_directory s;
  wk_kernel : kernel_directory s' = kernel_directory s;
  wk_cr3 : cr3 s' = cr3 s;
  wk_tlb : tlb s' = tlb s
}.

(** Writes outside a directory's frames do not disturb it. *)
Lemma store_elsewhere m d a i v : dir_wf m d -> is_frame a -> ~ owns m d a -> 0 <= i < 4096 ->
  forall b, owns m d b -> same_on m (st m (a + i) v) b 4096.
Proof.
  intros Hd Ha Hn Hi b Hb j Hj. apply ld_st_ne.
  apply frames_apart; try done; [by eapply owns_frame|congruence].
Qed.

(** Page of a fresh table: cleared, then linked into slot [k] of [d]. *)
Definition link_table (d k t : Z) (m : mem) : mem :=
  st (st (clear_words t 1024 m) (d + 4096 + 4 * k) t) (d + 4 * k) (t + 7).

Lemma link_table_other d k t m a i : is_frame d -> is_frame (d + 4096) -> is_frame t -> is_frame a ->
  a <> t -> a + i <> d + 4096 + 4 * k -> a + i <> d + 4 * k -> 0 <= i < 4096 ->
  ld (link_table d k t m) (a + i) = ld m (a + i).
Proof.
  intros Hd Hd2 Ht Ha Hat H1 H2 Hi. unfold link_table. rewrite !ld_st_ne by lia.
  apply clear_words_out; [lia|]. intros Hr.
  apply (frames_apart a t i (a + i - t)); try done; lia.
Qed.

Lemma link_table_new d k t m i : is_frame d -> is_frame (d + 4096) -> is_frame t -> t <> d ->
  t <> d + 4096 -> 0 <= k < 1024 -> 0 <= i < 1024 -> ld (link_table d k t m) (t + 4 * i) = 0.
Proof.
  intros Hd Hd2 Ht Htd Htd2 Hk Hi. unfold link_table.
  rewrite !ld_st_ne.
  - by apply clear_words_in.
  - intros E. apply (frames_apart (d + 4096) t (4 * k) (4 * i)); try done; lia.
  - intros E. apply (frames_apart d t (4 * k) (4 * i)); try done; lia.
Qed.

Section Link.
Variables (m : mem) (d k t : Z).
Hypotheses (Hd : dir_wf m d) (Hk : 0 <= k < 1024) (Ht : is_frame t) (Htnz : t <> 0)
  (Hnew : ~ owns m d t) (Hempty : tbl m d k = 0).

Let Hdf : is_frame d := dw_frame _ _ Hd.
Let Hdf2 : is_frame (d + 4096) := dw_frame2 _ _ Hd.

Lemma link_apart : t <> d /\ t <> d + 4096.
Proof. split; intros ->; apply Hnew; [by left|right; by left]. Qed.

Lemma link_tbl i : 0 <= i < 1024 -> tbl (link_table d k t m) d i = if i =? k then t else tbl m d i.
Proof.
  intros Hi. unfold tbl. destruct (Z.eqb_spec i k) as [->|].
  - unfold link_table. rewrite ld_st_ne by lia. apply ld_st_eq.
  - destruct link_apart. apply link_table_other; try done; lia.
Qed.
Lemma link_ent i : 0 <= i < 1024 -> ent (link_table d k t m) d i = if i =? k then t + 7 else ent m d i.
Proof.
  intros Hi. unfold ent. destruct (Z.eqb_spec i k) as [->|].
  - apply ld_st_eq.
  - destruct link_apart. apply link_table_other; try done; lia.
Qed.

#[local] Opaque link_table.

Lemma link_dir_wf : dir_wf (link_table d k t m) d.
Proof.
  destruct link_apart as [Htd Htd2].
  assert (forall i, 0 <= i < 1024 -> tbl m d i <> t) as Hfresh.
  { intros i Hi E. apply Hnew. rewrite <- E. apply owns_tbl; congruence. }
  pose proof Hd as [? ? ? Hemp Hslot Hinj Hsep]. split; [done|done|done|..].
  - intros i Hi. rewrite link_tbl, link_ent by done. destruct (i =? k); [done|auto].
  - intros i Hi. rewrite link_tbl, link_ent by done. destruct (i =? k); [done|auto].
  - intros i j Hi Hj. rewrite !link_tbl by done.
    destruct (Z.eqb_spec i k), (Z.eqb_spec j k); intros Hnz E; subst; try done.
    + by destruct (Hfresh j).
    + by destruct (Hfresh i).
    + by apply Hinj.
  - intros i Hi. rewrite link_tbl by done. destruct (i =? k); [done|auto].
Qed.

Lemma link_owns a : owns (link_table d k t m) d a <-> owns m d a \/ a = t.
Proof.
  unfold owns. split.
  - intros [?|[?|(i & Hi & Ha & Hnz)]]; [tauto|tauto|].
    rewrite link_tbl in Ha by done. destruct (i =? k); [by right|].
    left. right. right. by exists i.
  - intros [[?|[?|(i & Hi & Ha & Hnz)]]|Ha]; [tauto|tauto| |].
    + right. right. exists i. rewrite link_tbl by done.
      destruct (Z.eqb_spec i k) as [->|]; [congruence|done].
    + right. right. exists k. rewrite link_tbl, Z.eqb_refl by done. subst. done.
Qed.

(** A fresh, cleared table translates nothing, as the missing one did. *)
Lemma link_walk v : hw_walk (link_table d k t m) d v = hw_walk m d v.
Proof.
  destruct link_apart as [Htd Htd2].
  rewrite (hw_walk_tbl _ _ _ link_dir_wf), (hw_walk_tbl _ _ _ Hd). cbv zeta. rewrite link_tbl by done.
  destruct (Z.eqb_spec (PD_INDEX v) k) as [->|Hne].
  - rewrite Hempty. simpl. rewrite link_table_new by done.
    destruct (t =? 0); done.
  - destruct (Z.eqb_spec (tbl m d (PD_INDEX v)) 0) as [|Hnz]; [done|].
    pose proof (PT_INDEX_range v). pose proof (PD_INDEX_range v).
    destruct (dw_slot _ _ Hd (PD_INDEX v)) as [Hf _]; [done|done|].
    destruct (dw_sep _ _ Hd (PD_INDEX v)) as [Hs1 Hs2]; [done|].
    rewrite link_table_other; try done; try lia.
    + intros E. apply Hnew. rewrite <- E. by apply owns_tbl.
    + apply frames_apart; try done; lia.
    + apply frames_apart; try done; lia.
Qed.

(** Directories that own neither [t] nor [d]'s pages see no change. *)
Lemma link_elsewhere a : is_frame a -> a <> t -> a <> d -> a <> d + 4096 ->
  same_on m (link_table d k t m) a 4096.
Proof.
  intros Ha H1 H2 H3 i Hi. destruct link_apart.
  apply link_table_other; try done; apply frames_apart; try done; lia.
Qed.
End Link.

(** ** Page-table lookup and creation *)

Lemma clear_table_eq t m : is_frame t ->
  for_range 0 PAGE_TABLE_ENTRIES (fun i m => st m (pt_entry t i) 0) m = clear_words t 1024 m.
Proof.
  intros Ht. rewrite clear_words_eq. apply for_range_ext. intros i m' Hi.
  unfold pt_entry. by rewrite frame_word.
Qed.

Lemma set_pmm_id s : set_pmm (vm_pmm s) s = s.
Proof. by destruct s. Qed.

(** The state after a table for slot [k] was allocated and linked. *)
Definition with_table (d k : Z) s : vmm S :=
  set_mem (link_table d k (fst (fa_alloc (vm_pmm s)))) (set_pmm (snd (fa_alloc (vm_pmm s))) s).

Lemma get_page_table_true ds s d v : vmm_inv ds s -> d ∈ ds ->
  get_page_table d v true s =
  if negb (tbl (vm_mem s) d (PD_INDEX v) =? 0) then (tbl (vm_mem s) d (PD_INDEX v), s)
  else if fst (fa_alloc (vm_pmm s)) =? 0 then (0, s)
  else (fst (fa_alloc (vm_pmm s)), with_table d (PD_INDEX v) s).
Proof.
  intros Hs Hd. pose proof (vi_dir _ _ Hs d Hd) as Hw. unfold get_page_table. cbv zeta.
  rewrite (dir_table_at _ _ _ Hw), (dir_entry_at _ _ _ Hw) by done. fold (tbl (vm_mem s) d (PD_INDEX v)).
  destruct (negb (tbl (vm_mem s) d (PD_INDEX v) =? 0)); [done|].
  pose proof (fa_alloc_null (vm_pmm s) (vi_pmm _ _ Hs)) as Hnull.
  pose proof (fa_alloc_frame (vm_pmm s) (vi_pmm _ _ Hs)) as Hfr. unfold with_table.
  destruct (fa_alloc (vm_pmm s)) as [t p]; simpl in *.
  destruct (Z.eqb_spec t 0) as [->|Ht].
  - rewrite Hnull by done. by rewrite set_pmm_id.
  - destruct (Hfr Ht) as [Hf _]. rewrite pde_of_lor by done. unfold set_mem; simpl.
    by rewrite clear_table_eq.
Qed.

Lemma get_page_table_false ds s d v : vmm_inv ds s -> d ∈ ds ->
  get_page_table d v false s = (tbl (vm_mem s) d (PD_INDEX v), s).
Proof.
  intros Hs Hd. pose proof (vi_dir _ _ Hs d Hd) as Hw. unfold get_page_table. cbv zeta.
  rewrite (dir_table_at _ _ _ Hw) by done. fold (tbl (vm_mem s) d (PD_INDEX v)).
  by destruct (Z.eqb_spec (tbl (vm_mem s) d (PD_INDEX v)) 0) as [->|].
Qed.

Lemma owns_self m d : owns m d d.
Proof. by left. Qed.
Lemma owns_second m d : owns m d (d + 4096).
Proof. right. by left. Qed.
#[local] Hint Resolve owns_self owns_second : core.

(** Frames of one directory are not frames of another. *)
Lemma owns_other ds s d d' a b : vmm_inv ds s -> d ∈ ds -> d' ∈ ds -> d <> d' ->
  owns (vm_mem s) d a -> owns (vm_mem s) d' b -> b <> a.
Proof. intros Hs Hd Hd' Hne Ha Hb ->. apply Hne. by apply (vi_apart _ _ Hs d d' a). Qed.

Section WithTable.
Variables (ds : gset Z) (s : vmm S) (d v : Z).
Hypotheses (Hs : vmm_inv ds s) (Hin : d ∈ ds) (Hempty : tbl (vm_mem s) d (PD_INDEX v) = 0)
  (Hnz : fst (fa_alloc (vm_pmm s)) <> 0).

Let t := fst (fa_alloc (vm_pmm s)).
Let s' := with_table d (PD_INDEX v) s.

Lemma new_table : is_frame t /\ fa_avail (vm_pmm s) t.
Proof. apply fa_alloc_frame; [apply (vi_pmm _ _ Hs)|done]. Qed.

Lemma new_table_unowned d' : d' ∈ ds -> ~ owns (vm_mem s) d' t.
Proof. intros Hd' Ho. destruct (vi_taken _ _ Hs d' t Hd' Ho) as [_ []]. apply new_table. Qed.

Lemma with_table_same d' a : d' ∈ ds -> d' <> d -> owns (vm_mem s) d' a ->
  same_on (vm_mem s) (vm_mem s') a 4096.
Proof.
  intros Hd' Hne Ho.
  pose proof (owns_frame _ _ _ (vi_dir _ _ Hs d' Hd') Ho) as [Hf _].
  apply (link_elsewhere (vm_mem s) d (PD_INDEX v) t (vi_dir _ _ Hs d Hin)); try done; try apply new_table.
  - apply (new_table_unowned d Hin).
  - intros ->. by apply (new_table_unowned d' Hd').
  - apply (owns_other ds s d d'); auto.
  - apply (owns_other ds s d d'); auto.
Qed.

Lemma with_table_owns d' a : d' ∈ ds ->
  owns (vm_mem s') d' a <-> owns (vm_mem s) d' a \/ (d' = d /\ a = t).
Proof.
  intros Hd'. destruct (decide (d' = d)) as [->|Hne].
  - unfold s', with_table; simpl.
    rewrite link_owns; [tauto|by apply (vi_dir _ _ Hs)|done|apply new_table|done| |done].
    by apply new_table_unowned.
  - rewrite (owns_same (vm_mem s) (vm_mem s')); [tauto|].
    apply (with_table_same d'); auto.
Qed.

Lemma with_table_inv : vmm_inv ds s'.
Proof.
  pose proof new_table as [Htf Hta]. pose proof (vi_pmm _ _ Hs) as Hp.
  split.
  - by apply fa_alloc_inv.
  - intros d' Hd'. destruct (decide (d' = d)) as [->|Hne].
    + apply link_dir_wf; try done; [by apply (vi_dir _ _ Hs)|by apply new_table_unowned].
    + apply (dir_wf_same (vm_mem s)); [| |by apply (vi_dir _ _ Hs)]; apply (with_table_same d'); auto.
  - intros d1 d2 a H1 H2. rewrite !with_table_owns by done.
    intros [O1|[-> ->]] [O2|[-> E]]; try done.
    + by apply (vi_apart _ _ Hs d1 d2 a).
    + subst a. by destruct (new_table_unowned d1 H1).
    + by destruct (new_table_unowned d2 H2).
  - intros d' a Hd'. rewrite with_table_owns by done. unfold s', with_table; simpl.
    intros [Ho|[-> ->]].
    + destruct (vi_taken _ _ Hs d' a Hd' Ho) as [Hm Hn].
      split; [by apply fa_alloc_managed|]. intros Ha. apply Hn.
      apply (fa_alloc_avail (vm_pmm s) a) in Ha; try done; [tauto|].
      by apply (owns_frame _ _ _ (vi_dir _ _ Hs d' Hd') Ho).
    + split; [apply fa_alloc_managed; auto with openos|].
      intros Ha. apply (fa_alloc_avail (vm_pmm s) t) in Ha; tauto.
Qed.

Lemma with_table_walks : walks_kept ds s s'.
Proof.
  split; try done. intros d' w Hd'. destruct (decide (d' = d)) as [->|Hne].
  - apply link_walk; try done; [by apply (vi_dir _ _ Hs)|apply new_table|by apply new_table_unowned].
  - apply hw_walk_same; [by apply (vi_dir _ _ Hs)|]. intros a Ha. by apply (with_table_same d').
Qed.

Lemma with_table_tbl : tbl (vm_mem s') d (PD_INDEX v) = t.
Proof.
  unfold s', with_table; simpl.
  rewrite link_tbl, Z.eqb_refl; try done; [by apply (vi_dir _ _ Hs)|apply new_table|by apply new_table_unowned].
Qed.
End WithTable.
End Invariant.

(** ** Operations on one page *)

#[local] Opaque link_table.

Section Pages.
Context {S : Type} {FA : FrameAllocator S}.
Implicit Types (s : vmm S) (ds : gset Z).

(** Writes that spare the directory pages keep the invariant. *)
Lemma inv_set_mem ds s f : vmm_inv ds s ->
  (forall d, d ∈ ds -> same_on (vm_mem s) (f (vm_mem s)) d 4096 /\
                       same_on (vm_mem s) (f (vm_mem s)) (d + 4096) 4096) ->
  vmm_inv ds (set_mem f s).
Proof.
  intros Hs Hsame.
  assert (forall d a, d ∈ ds -> owns (f (vm_mem s)) d a <-> owns (vm_mem s) d a) as Ho.
  { intros d a Hd. apply owns_same. by apply Hsame. }
  split; simpl.
  - apply (vi_pmm _ _ Hs).
  - intros d Hd. destruct (Hsame d Hd). apply (dir_wf_same (vm_mem s)); [done|done|by apply (vi_dir _ _ Hs)].
  - intros d d' a Hd Hd'. rewrite !Ho by done. by apply (vi_apart _ _ Hs).
  - intros d a Hd. rewrite Ho by done. by apply (vi_taken _ _ Hs).
Qed.

Lemma inv_tlb ds s v : vmm_inv ds s -> vmm_inv ds (tlb_flush_page v s).
Proof. intros [? ? ? ?]. by split. Qed.

(** Whether an entry is used by the walk. *)
Definition leaf (x : Z) : option Z := if Z.testbit x 0 then Some x else None.

Definition set_pte (t v x : Z) (m : mem) : mem := st m (t + 4 * PT_INDEX v) x.

Section SetPte.
Variables (ds : gset Z) (s : vmm S) (d v x : Z).
Hypotheses (Hs : vmm_inv ds s) (Hin : d ∈ ds) (Hv : is_u32 v)
  (Hnz : tbl (vm_mem s) d (PD_INDEX v) <> 0).
Let t := tbl (vm_mem s) d (PD_INDEX v).

Lemma table_frame : is_frame t.
Proof. apply (dw_slot _ _ (vi_dir _ _ Hs d Hin)); auto using PD_INDEX_range. Qed.

Lemma set_pte_same a : is_frame a -> a <> t -> same_on (vm_mem s) (set_pte t v x (vm_mem s)) a 4096.
Proof.
  intros Ha Hne i Hi. unfold set_pte. apply ld_st_ne. pose proof (PT_INDEX_range v).
  apply frames_apart; auto using table_frame; lia.
Qed.

Lemma table_of_other d' a : d' ∈ ds -> d' <> d -> owns (vm_mem s) d' a -> a <> t.
Proof.
  intros Hd' Hne Ho. apply (owns_other ds s d d'); auto.
  apply owns_tbl; auto using PD_INDEX_range.
Qed.

Lemma set_pte_dir d' : d' ∈ ds ->
  same_on (vm_mem s) (set_pte t v x (vm_mem s)) d' 4096 /\
  same_on (vm_mem s) (set_pte t v x (vm_mem s)) (d' + 4096) 4096.
Proof.
  intros Hd'. pose proof (vi_dir _ _ Hs d' Hd') as Hw.
  assert (d' <> t /\ d' + 4096 <> t) as [H1 H2].
  { destruct (decide (d' = d)) as [->|Hne].
    - destruct (dw_sep _ _ Hw (PD_INDEX v)); [apply PD_INDEX_range|]. split; by apply not_eq_sym.
    - split; apply (table_of_other d'); auto using owns_self, owns_second. }
  split; apply set_pte_same; eauto using dw_frame, dw_frame2.
Qed.

Lemma set_pte_inv : vmm_inv ds (set_mem (set_pte t v x) s).
Proof. apply inv_set_mem; [done|]. apply set_pte_dir. Qed.

Lemma set_pte_walk d' w : d' ∈ ds -> is_u32 w ->
  hw_walk (set_pte t v x (vm_mem s)) d' w =
  if (d' =? d) && (w / 4096 =? v / 4096) then leaf x else hw_walk (vm_mem s) d' w.
Proof.
  intros Hd' Hw. destruct (Z.eqb_spec d' d) as [->|Hne]; simpl.
  2: { apply hw_walk_same; [by apply (vi_dir _ _ Hs)|]. intros a Ha. apply set_pte_same.
       - by apply (owns_frame _ _ _ (vi_dir _ _ Hs d' Hd') Ha).
       - by apply (table_of_other d'). }
  pose proof (vi_dir _ _ Hs d Hin) as Hwf. destruct (set_pte_dir d Hin) as [D1 D2].
  rewrite (hw_walk_tbl _ _ _ (dir_wf_same _ _ _ D1 D2 Hwf)), (hw_walk_tbl _ _ _ Hwf). cbv zeta.
  rewrite (tbl_same _ _ _ _ D2) by apply PD_INDEX_range. fold (leaf x).
  pose proof (PT_INDEX_range v). pose proof (PT_INDEX_range w).
  destruct (Z.eqb_spec (w / 4096) (v / 4096)) as [Hp|Hp].
  - destruct (page_indices w v Hw Hv Hp) as [-> ->].
    destruct (Z.eqb_spec (tbl (vm_mem s) d (PD_INDEX v)) 0); [done|].
    unfold set_pte. rewrite ld_st_eq. done.
  - destruct (Z.eqb_spec (tbl (vm_mem s) d (PD_INDEX w)) 0) as [|Hwnz]; [done|].
    destruct (decide (PD_INDEX w = PD_INDEX v)) as [E|E].
    + rewrite E. unfold set_pte. rewrite ld_st_ne; [done|]. unfold t.
      intros Ha. apply Hp. apply indices_page; try done. lia.
    + rewrite set_pte_same; [done| | |lia].
      * apply (dw_slot _ _ Hwf); auto using PD_INDEX_range.
      * intros Ha. apply E. apply (dw_inj _ _ Hwf); auto using PD_INDEX_range.
Qed.
End SetPte.

(** The directory an operation works on: NULL stands for the current one. *)
Definition the_dir (dir : Z) s : Z := if dir =? 0 then current_directory s else dir.

Lemma pte_of_bit0 phys flags : Z.testbit (pte_of phys flags) 0 = Z.testbit flags 0.
Proof.
  unfold pte_of. rewrite !Z.bit0_odd. rewrite (Z.div_mod flags 4096) at 2 by lia.
  by rewrite !Z.odd_add, !Z.odd_mul.
Qed.

Lemma map_page_eq ds s dir v phys flags : vmm_inv ds s -> the_dir dir s ∈ ds -> is_u32 phys ->
  let d := the_dir dir s in
  vmm_map_page dir v phys flags s =
  if negb (tbl (vm_mem s) d (PD_INDEX v) =? 0) then
    (1, tlb_flush_page v (set_mem (set_pte (tbl (vm_mem s) d (PD_INDEX v)) v (pte_of phys flags)) s))
  else if fst (fa_alloc (vm_pmm s)) =? 0 then (0, s)
  else (1, tlb_flush_page v (set_mem (set_pte (fst (fa_alloc (vm_pmm s))) v (pte_of phys flags))
             (with_table d (PD_INDEX v) s))).
Proof.
  intros Hs Hd Hp d. unfold vmm_map_page. fold (the_dir dir s). fold d.
  rewrite (get_page_table_true ds) by done. rewrite pte_of_lor by done.
  pose proof (PD_INDEX_range v) as Hr. pose proof (PT_INDEX_range v) as Hr'.
  destruct (Z.eqb_spec (tbl (vm_mem s) d (PD_INDEX v)) 0) as [Hz|Hnz]; simpl.
  - pose proof (fa_alloc_frame (vm_pmm s) (vi_pmm _ _ Hs)) as Hf.
    destruct (Z.eqb_spec (fst (fa_alloc (vm_pmm s))) 0) as [|Hnz]; [done|].
    rewrite (proj2 (Z.eqb_neq _ _) Hnz). unfold set_pte, pt_entry.
    rewrite frame_word; [done|by apply Hf|done].
  - rewrite (proj2 (Z.eqb_neq _ _) Hnz). unfold set_pte, pt_entry.
    rewrite frame_word; [done| |done]. by apply (dw_slot _ _ (vi_dir _ _ Hs d Hd)).
Qed.

(** What a successful [vmm_map_page] of [d] at [v] does to the translations. *)
Record page_set ds d v (r : option Z) s s' : Prop := {
  ps_inv : vmm_inv ds s';
  ps_walk : forall d' w, d' ∈ ds -> is_u32 w ->
    hw_walk (vm_mem s') d' w =
    if (d' =? d) && (w / 4096 =? v / 4096) then r else hw_walk (vm_mem s) d' w;
  ps_cur : current_directory s' = current_directory s;
  ps_kernel : kernel_directory s' = kernel_directory s;
  ps_cr3 : cr3 s' = cr3 s;
  ps_tlb : tlb s' = delete (v / 4096) (tlb s)
}.

Lemma set_pte_page ds s d v x : vmm_inv ds s -> d ∈ ds -> is_u32 v ->
  tbl (vm_mem s) d (PD_INDEX v) <> 0 ->
  page_set ds d v (leaf x) s
    (tlb_flush_page v (set_mem (set_pte (tbl (vm_mem s) d (PD_INDEX v)) v x) s)).
Proof.
  intros Hs Hd Hv Hnz. split; try done.
  - by apply inv_tlb, set_pte_inv.
  - intros d' w Hd' Hw. by apply (set_pte_walk ds).
Qed.

Lemma map_page_spec ds s dir v phys flags : vmm_inv ds s -> the_dir dir s ∈ ds ->
  is_u32 v -> is_u32 phys ->
  let d := the_dir dir s in
  let '(r, s') := vmm_map_page dir v phys flags s in
  (r = 1 /\ page_set ds d v (leaf (pte_of phys flags)) s s') \/
  (r = 0 /\ s' = s /\ tbl (vm_mem s) d (PD_INDEX v) = 0 /\ fst (fa_alloc (vm_pmm s)) = 0).
Proof.
  intros Hs Hd Hv Hp d. rewrite (map_page_eq ds) by done. cbv zeta. fold d. fold d in Hd. clearbody d.
  destruct (Z.eqb_spec (tbl (vm_mem s) d (PD_INDEX v)) 0) as [Hz|Hnz]; simpl.
  2: { left. split; [done|]. by apply set_pte_page. }
  destruct (Z.eqb_spec (fst (fa_alloc (vm_pmm s))) 0) as [Ha|Ha]; [by right|].
  left. split; [done|].
  pose proof (with_table_inv ds s d v Hs Hd Hz Ha) as Hs1.
  pose proof (with_table_walks ds s d v Hs Hd Hz Ha) as [Hk ? ? ? ?].
  pose proof (with_table_tbl ds s d v Hs Hd Ha) as Ht.
  assert (tbl (vm_mem (with_table d (PD_INDEX v) s)) d (PD_INDEX v) <> 0) as Hnz by congruence.
  destruct (set_pte_page ds _ d v (pte_of phys flags) Hs1 Hd Hv Hnz) as [Hi Hw ? ? ? ?].
  rewrite Ht in Hi, Hw. split; [exact Hi| |reflexivity..].
  intros d' w Hd' Hww. rewrite Hw by done. by rewrite Hk.
Qed.

Lemma unmap_page_spec ds s dir v : vmm_inv ds s -> the_dir dir s ∈ ds -> is_u32 v ->
  let d := the_dir dir s in
  let s' := vmm_unmap_page dir v s in
  page_set ds d v None s s' \/ (s' = s /\ hw_walk (vm_mem s) d v = None).
Proof.
  intros Hs Hd Hv d. unfold vmm_unmap_page. fold (the_dir dir s). fold d.
  rewrite (get_page_table_false ds) by done. cbv zeta.
  destruct (Z.eqb_spec (tbl (vm_mem s) d (PD_INDEX v)) 0) as [Hz|Hnz].
  - right. split; [done|]. rewrite hw_walk_tbl by by apply (vi_dir _ _ Hs). cbv zeta. by rewrite Hz.
  - left. unfold pt_entry. rewrite frame_word; [|by apply table_frame with ds|apply PT_INDEX_range].
    by apply (set_pte_page ds s d v 0).
Qed.

(** [vmm_get_physical] reads the address the processor's walk gives. *)
Lemma get_physical_walk ds s dir v : vmm_inv ds s -> the_dir dir s ∈ ds ->
  vmm_get_physical dir v s =
  match hw_walk (vm_mem s) (the_dir dir s) v with Some pte => pte_phys pte v | None => 0 end.
Proof.
  intros Hs Hd. unfold vmm_get_physical. fold (the_dir dir s).
  pose proof (vi_dir _ _ Hs _ Hd) as Hw.
  rewrite (get_page_table_false ds), (hw_walk_tbl _ _ _ Hw) by done. cbv zeta.
  destruct (Z.eqb_spec (tbl (vm_mem s) (the_dir dir s) (PD_INDEX v)) 0) as [|Hnz]; [done|].
  unfold pt_entry. rewrite frame_word; [|by apply table_frame with ds|apply PT_INDEX_range].
  unfold PTE_PRESENT. rewrite <- (negb_involutive (_ =? 0)), land_bit_test by lia.
  by destruct (Z.testbit _ 0).
Qed.
End Pages.

(** ** Regions *)

Section Regions.
Context {S : Type} {FA : FrameAllocator S}.
Implicit Types (s : vmm S) (ds : gset Z).

Lemma the_dir_nonnull dir s : dir <> 0 -> the_dir dir s = dir.
Proof. intros H. unfold the_dir. by rewrite (proj2 (Z.eqb_neq _ _) H). Qed.

(** An exhausted allocator stays as it is. *)
Lemma map_page_full ds s dir v phys flags : vmm_inv ds s -> the_dir dir s ∈ ds -> is_u32 phys ->
  fst (fa_alloc (vm_pmm s)) = 0 -> vm_pmm (snd (vmm_map_page dir v phys flags s)) = vm_pmm s.
Proof.
  intros Hs Hd Hp Hf. rewrite (map_page_eq ds) by done. cbv zeta. rewrite Hf.
  by destruct (negb _).
Qed.

(** What mapping the pages from [virt] up to [last] leaves behind. *)
Record region_set ds d virt phys last flags s s' : Prop := {
  rs_inv : vmm_inv ds s';
  rs_cur : current_directory s' = current_directory s;
  rs_kernel : kernel_directory s' = kernel_directory s;
  rs_cr3 : cr3 s' = cr3 s;
  rs_full : fst (fa_alloc (vm_pmm s)) = 0 -> vm_pmm s' = vm_pmm s;
  rs_out : forall d' w, d' ∈ ds -> is_u32 w -> ~ (d' = d /\ virt <= w < last) ->
    hw_walk (vm_mem s') d' w = hw_walk (vm_mem s) d' w;
  rs_in : fst (fa_alloc (vm_pmm s')) <> 0 -> forall w, virt <= w < last ->
    hw_walk (vm_mem s') d w = leaf (pte_of (u32 (phys + (w - virt))) flags)
}.

Lemma pte_of_page a b flags : a / 4096 = b / 4096 -> pte_of a flags = pte_of b flags.
Proof. intros H. unfold pte_of. by rewrite H. Qed.

Lemma map_loop_spec ds d last flags : d ∈ ds -> is_frame last ->
  forall fuel virt phys s, vmm_inv ds s -> is_frame virt -> is_frame phys ->
  (last - virt) / 4096 < Z.of_nat fuel -> (0 < fuel)%nat ->
  exists s', map_loop fuel d virt phys last flags s = Some s' /\
    region_set ds d virt phys last flags s s'.
Proof.
  intros Hd [Hl Hlm]. induction fuel as [|fuel IH]; intros virt phys s Hs Hv Hp Hfuel Hpos; [lia|].
  assert (d <> 0) as Hdnz by apply (dw_nonnull _ _ (vi_dir _ _ Hs d Hd)).
  simpl. destruct (Z.ltb_spec virt last) as [Hlt|Hge].
  2: { exists s. split; [done|]. split; try done; lia. }
  destruct Hv as [Hvu Hvm]. destruct Hp as [Hpu Hpm].
  assert (the_dir d s ∈ ds) as Hd' by by rewrite the_dir_nonnull.
  pose proof (map_page_spec ds s d virt phys flags Hs Hd' Hvu Hpu) as Hspec. cbv zeta in Hspec.
  rewrite the_dir_nonnull in Hspec by done.
  pose proof (map_page_full ds s d virt phys flags Hs Hd' Hpu) as Hfull.
  destruct (vmm_map_page d virt phys flags s) as [r s1]. simpl in Hfull. unfold PAGE_SIZE.
  rewrite (u32_small (virt + 4096)) by wsolve.
  assert (vmm_inv ds s1) as Hs1 by (destruct Hspec as [[_ []]|(_ & -> & _)]; done).
  destruct (IH (virt + 4096) (u32 (phys + 4096)) s1) as (s' & Hrun & Hrs); try done.
  { split; wsolve. }
  { split; [apply u32_range|]. unfold u32. wsolve. }
  { dlia. }
  { dlia. }
  exists s'. split; [done|]. destruct Hrs as [Hi Hc Hkd Hcr Hfl Hout Hin].
  destruct Hspec as [[_ [_ Hw Hcu Hk Hcr3 _]]|(_ & -> & _ & Hno)].
  - split; try done; try congruence.
    + intros Hf. rewrite Hfl by (rewrite Hfull; done). by apply Hfull.
    + intros d' w Hdd Hww Hn. rewrite Hout by (done || lia). rewrite Hw by done.
      destruct (Z.eqb_spec d' d) as [->|]; [|done]. simpl.
      destruct (Z.eqb_spec (w / 4096) (virt / 4096)); [|done]. dlia.
    + intros Hnz w Hr. destruct (Z.lt_ge_cases w (virt + 4096)) as [Hlo|Hhi].
      * rewrite Hout; [|done|wsolve|lia]. rewrite Hw by (done || wsolve). rewrite Z.eqb_refl. simpl.
        destruct (Z.eqb_spec (w / 4096) (virt / 4096)); [|dlia].
        f_equal. apply pte_of_page. rewrite u32_small by wsolve. dlia.
      * rewrite Hin by (done || lia). do 2 f_equal. rewrite u32_add_l. f_equal. lia.
  - split; try done.
    + intros d' w Hdd Hww Hn. apply Hout; [done|done|lia].
    + intros Hnz. destruct Hnz. by rewrite Hfl.
Qed.

Lemma page_align_frame a : is_u32 a -> PAGE_ALIGN a = 4096 * (a / 4096) /\ is_frame (PAGE_ALIGN a).
Proof.
  intros Ha. unfold PAGE_ALIGN. rewrite land_page_mask by done. split; [done|].
  split; [wsolve|]. dlia.
Qed.

Lemma pte_phys_of phys flags v :
  is_u32 phys -> pte_phys (pte_of phys flags) v = 4096 * (phys / 4096) + v mod 4096.
Proof.
  intros Hp. unfold pte_phys, pte_of.
  pose proof (Z.mod_pos_bound flags 4096 ltac:(lia)). pose proof (Z.mod_pos_bound v 4096 ltac:(lia)).
  rewrite land_page_mask by wsolve. change 0xFFF with (Z.ones 12). rewrite land_ones_mod by lia.
  change (2 ^ 12) with 4096. rewrite lor_page_offset; [|wsolve|done].
  f_equal. f_equal. dlia.
Qed.

Lemma identity_map_region_spec ds s dir start size flags :
  vmm_inv ds s -> the_dir dir s ∈ ds -> is_u32 start -> 0 <= size -> start + size + 4095 < 2 ^ 32 ->
  let last := 4096 * ((start + size + 4095) / 4096) in
  exists s', vmm_identity_map_region dir start size flags s = Some s' /\
    region_set ds (the_dir dir s) (PAGE_ALIGN start) (PAGE_ALIGN start) last flags s s'.
Proof.
  intros Hs Hd Hst Hsz Hend last. unfold vmm_identity_map_region. fold (the_dir dir s).
  unfold PAGE_SIZE. replace (start + size + 4096 - 1) with (start + size + 4095) by lia.
  rewrite u32_small by wsolve. rewrite land_page_mask by wsolve. cbv zeta. fold last.
  destruct (page_align_frame start Hst) as [Ha Hf].
  apply map_loop_spec; try done.
  - unfold last. split; wsolve.
  - unfold region_fuel, PAGE_SIZE, last. rewrite Ha, Nat2Z.inj_succ, Z2Nat.id by wsolve. wsolve.
  - unfold region_fuel. lia.
Qed.
End Regions.

(** ** Creating and destroying directories *)

Section Directories.
Context {S : Type} {FA : FrameAllocator S}.
Implicit Types (s : vmm S) (ds : gset Z) (p : S).

(** The last frame below 4 GiB, whose successor wraps to NULL. *)
Definition top_frame : Z := 0xFFFFF000.

Lemma alloc_dir_pages_two p :
  alloc_dir_pages p =
  let '(d, p1) := fa_alloc p in
  if d =? 0 then (None, p1)
  else let '(q, p2) := fa_alloc p1 in
       (if q =? u32 (d + PAGE_SIZE) then Some d else None, p2).
Proof.
  unfold alloc_dir_pages. destruct (fa_alloc p) as [d p1]. destruct (d =? 0); [done|].
  change ((sizeof_page_directory + PAGE_SIZE - 1) / PAGE_SIZE) with 2.
  rewrite for_range_cons, for_range_nil by lia.
  destruct (fa_alloc p1) as [q p2]. by destruct (q =? u32 (d + PAGE_SIZE)).
Qed.

(** What the allocation of a directory leaves of the allocator. *)
Lemma alloc_dir_pages_spec p : fa_inv p -> fst (fa_alloc p) <> top_frame ->
  let '(r, p') := alloc_dir_pages p in
  fa_inv p' /\ (forall a, fa_managed p' a <-> fa_managed p a) /\
  (forall a, is_frame a -> fa_avail p' a -> fa_avail p a) /\
  forall d, r = Some d ->
    d <> 0 /\ is_frame d /\ is_frame (d + 4096) /\ fa_avail p d /\ fa_avail p (d + 4096) /\
    forall a, is_frame a -> fa_avail p' a <-> fa_avail p a /\ a <> d /\ a <> d + 4096.
Proof.
  intros Hp Htop. rewrite alloc_dir_pages_two.
  pose proof (fa_alloc_null p Hp) as Hn1. pose proof (fa_alloc_frame p Hp) as Hf1.
  pose proof (fa_alloc_inv p Hp) as Hi1. pose proof (fun b => fa_alloc_avail p b Hp) as Ha1.
  pose proof (fun b => fa_alloc_managed p b Hp) as Hm1.
  destruct (fa_alloc p) as [d p1]; simpl in *. destruct (Z.eqb_spec d 0) as [->|Hd].
  { rewrite Hn1 by done. by split_and!. }
  pose proof (fa_alloc_null p1 Hi1) as Hn2. pose proof (fa_alloc_frame p1 Hi1) as Hf2.
  pose proof (fa_alloc_inv p1 Hi1) as Hi2. pose proof (fun b => fa_alloc_avail p1 b Hi1) as Ha2.
  pose proof (fun b => fa_alloc_managed p1 b Hi1) as Hm2.
  destruct (fa_alloc p1) as [q p2]; simpl in *. destruct (Hf1 Hd) as [Hdf Hda].
  assert (forall a, is_frame a -> fa_avail p2 a -> fa_avail p1 a) as Hsub.
  { intros a Ha. destruct (Z.eq_dec q 0) as [->|Hq]; [by rewrite Hn2|].
    intros H. by apply (Ha2 a Hq Ha) in H as [? _]. }
  split; [done|]. split; [intros a; by rewrite Hm2, Hm1|]. split.
  { intros a Ha H. by apply (Ha1 a Hd Ha), Hsub. }
  intros d'. destruct (Z.eqb_spec q (u32 (d + PAGE_SIZE))) as [Hq|]; [|done]. intros [= <-].
  assert (u32 (d + PAGE_SIZE) = d + 4096) as Hw.
  { apply u32_small. unfold top_frame, PAGE_SIZE in *. destruct Hdf. wsolve. }
  rewrite Hw in Hq. assert (q <> 0) as Hqnz by (destruct Hdf; wsolve).
  destruct (Hf2 Hqnz) as [Hqf Hqa]. rewrite Hq in Hqf, Hqa.
  assert (fa_avail p (d + 4096)) as Hqa' by by apply Ha1.
  split_and!; try done. intros a Ha. rewrite Ha2, Ha1 by done. rewrite Hq. tauto.
Qed.

Lemma clear_directory_spec d m : is_frame d -> is_frame (d + 4096) ->
  (forall i, 0 <= i < 1024 -> ent (clear_directory d m) d i = 0 /\ tbl (clear_directory d m) d i = 0) /\
  (forall a, is_frame a -> a <> d -> a <> d + 4096 -> same_on m (clear_directory d m) a 4096).
Proof.
  intros Hd Hd2. unfold clear_directory, PAGE_DIR_ENTRIES.
  assert (forall i, 0 <= i < 1024 -> dir_entry d i = d + 4 * i /\ dir_table d i = d + 4096 + 4 * i) as Hat.
  { intros i Hi. unfold dir_entry, dir_table, PAGE_DIR_ENTRIES. change (4 * 1024) with 4096.
    by rewrite !frame_word. }
  split.
  - apply (for_range_ind (fun n m => forall i, 0 <= i < n -> ent m d i = 0 /\ tbl m d i = 0)); [lia|lia|].
    intros n m' Hn IH i Hi. destruct (Hat n Hn) as [-> ->]. unfold ent, tbl in *.
    destruct (Z.eq_dec i n) as [->|].
    + by ldst.
    + ldst. apply IH. lia.
  - intros a Ha H1 H2.
    apply (for_range_ind (fun _ m' => same_on m m' a 4096)); [lia|apply same_on_refl|].
    intros n m' Hn IH i Hi. destruct (Hat n Hn) as [-> ->].
    rewrite !ld_st_ne; [by apply IH| |]; apply not_eq_sym, frames_apart; try done; lia.
Qed.

(** A cleared directory owns its two pages and translates nothing. *)
Lemma cleared_dir d m : d <> 0 -> is_frame d -> is_frame (d + 4096) ->
  dir_wf (clear_directory d m) d /\
  (forall a, owns (clear_directory d m) d a <-> a = d \/ a = d + 4096) /\
  forall v, hw_walk (clear_directory d m) d v = None.
Proof.
  intros Hnz Hd Hd2. destruct (clear_directory_spec d m Hd Hd2) as [Hz _].
  assert (dir_wf (clear_directory d m) d) as Hw.
  { split; [exact Hnz|exact Hd|exact Hd2|..].
    - intros i Hi _. apply (Hz i Hi).
    - intros i Hi Hn. destruct (Hz i Hi). contradiction.
    - intros i j Hi _ Hn. destruct (Hz i Hi). contradiction.
    - intros i Hi. destruct (Hz i Hi) as [_ ->]. destruct Hd. wsolve. }
  split; [done|]. split.
  - intros a. unfold owns. split; [|tauto]. intros [?|[?|(i & Hi & -> & Hne)]]; [tauto|tauto|].
    destruct (Hz i Hi). congruence.
  - intros v. rewrite (hw_walk_tbl _ _ _ Hw). cbv zeta.
    destruct (Hz _ (PD_INDEX_range v)) as [_ ->]. done.
Qed.

(** Adding a fresh directory to the live ones. *)
Lemma inv_add_dir ds s d p' : vmm_inv ds s -> d <> 0 -> is_frame d -> is_frame (d + 4096) ->
  fa_inv p' -> (forall a, fa_managed p' a <-> fa_managed (vm_pmm s) a) ->
  fa_avail (vm_pmm s) d -> fa_avail (vm_pmm s) (d + 4096) ->
  (forall a, is_frame a -> fa_avail p' a <-> fa_avail (vm_pmm s) a /\ a <> d /\ a <> d + 4096) ->
  let s' := set_mem (clear_directory d) (set_pmm p' s) in
  vmm_inv ({[d]} ∪ ds) s' /\
  (forall d' w, d' ∈ ds -> hw_walk (vm_mem s') d' w = hw_walk (vm_mem s) d' w) /\
  (forall w, hw_walk (vm_mem s') d w = None).
Proof.
  intros Hs Hnz Hf Hf2 Hp' Hman Hav Hav2 Hav' s'.
  destruct (cleared_dir d (vm_mem s) Hnz Hf Hf2) as (Hw & Ho & Hnone).
  destruct (clear_directory_spec d (vm_mem s) Hf Hf2) as [_ Hsame].
  assert (forall d' a, d' ∈ ds -> owns (vm_mem s) d' a -> a <> d /\ a <> d + 4096) as Hapart.
  { intros d' a Hd' Ha. destruct (vi_taken _ _ Hs d' a Hd' Ha) as [_ Hn]. split; congruence. }
  assert (forall d' a, d' ∈ ds -> owns (vm_mem s) d' a -> same_on (vm_mem s) (vm_mem s') a 4096) as Hkeep.
  { intros d' a Hd' Ha. destruct (Hapart d' a Hd' Ha). apply Hsame; [|done|done].
    by apply (owns_frame _ _ _ (vi_dir _ _ Hs d' Hd') Ha). }
  assert (forall d' a, d' ∈ ds -> owns (vm_mem s') d' a <-> owns (vm_mem s) d' a) as Hown.
  { intros d' a Hd'. apply owns_same. apply (Hkeep d'); auto using owns_second. }
  assert (forall a, owns (vm_mem s') d a <-> a = d \/ a = d + 4096) as Hod by apply Ho.
  split; [split|split; [|exact Hnone]].
  - done.
  - intros d' [->%elem_of_singleton|Hd']%elem_of_union; [done|].
    apply (dir_wf_same (vm_mem s)); [| |by apply (vi_dir _ _ Hs)]; apply (Hkeep d'); auto using owns_self, owns_second.
  - intros d1 d2 a [->%elem_of_singleton|H1]%elem_of_union [->%elem_of_singleton|H2]%elem_of_union.
    + done.
    + rewrite Hod, Hown by done. intros Ha Hb. destruct (Hapart d2 a H2 Hb). tauto.
    + rewrite Hod, Hown by done. intros Hb Ha. destruct (Hapart d1 a H1 Hb). tauto.
    + rewrite !Hown by done. by apply (vi_apart _ _ Hs).
  - change (vm_pmm s') with p'. intros d' a [->%elem_of_singleton|Hd']%elem_of_union.
    + rewrite Hod. rewrite Hman. intros [->| ->]; (split; [by apply fa_avail_managed|rewrite Hav' by done; tauto]).
    + rewrite Hown by done. intros Ha. destruct (vi_taken _ _ Hs d' a Hd' Ha) as [Hm Hn].
      rewrite Hman, Hav'; [tauto|]. by apply (owns_frame _ _ _ (vi_dir _ _ Hs d' Hd') Ha).
  - intros d' w Hd'. apply hw_walk_same; [by apply (vi_dir _ _ Hs)|]. intros a Ha. by apply (Hkeep d').
Qed.

(** Frames leaving the allocator never hurt the live directories. *)
Lemma inv_set_pmm ds s p' : vmm_inv ds s -> fa_inv p' ->
  (forall a, fa_managed p' a <-> fa_managed (vm_pmm s) a) ->
  (forall d a, d ∈ ds -> owns (vm_mem s) d a -> fa_avail p' a -> fa_avail (vm_pmm s) a) ->
  vmm_inv ds (set_pmm p' s).
Proof.
  intros [? ? ? Ht] Hp Hm Ha. split; try done. simpl. intros d a Hd Ho.
  destruct (Ht d a Hd Ho) as [H1 H2]. rewrite Hm. eauto.
Qed.
End Directories.

Section Lifecycle.
Context {S : Type} {FA : FrameAllocator S}.
Implicit Types (s : vmm S) (ds : gset Z) (p : S).

Lemma vmm_inv_empty s : fa_inv (vm_pmm s) -> vmm_inv ∅ s.
Proof.
  intros Hp. split; [done|..].
  - intros d Hd. by apply elem_of_empty in Hd.
  - intros d d' a Hd. by apply elem_of_empty in Hd.
  - intros d a Hd. by apply elem_of_empty in Hd.
Qed.

(** The table frames among the first [n] slots. *)
Definition table_upto (m : mem) (d n b : Z) : Prop :=
  exists i, 0 <= i < n /\ b = tbl m d i /\ b <> 0.

Lemma destroy_loop ds s d n : vmm_inv ds s -> d ∈ ds -> 0 <= n <= 1024 ->
  let s' := for_range 0 n
      (fun i s =>
         let table := ld (vm_mem s) (dir_table d i) in
         if negb (table =? 0) then set_pmm (fa_free table (vm_pmm s)) s else s) s in
  exists p', s' = set_pmm p' s /\ fa_inv p' /\
    (forall a, fa_managed p' a <-> fa_managed (vm_pmm s) a) /\
    (forall b, is_frame b -> fa_avail p' b <-> fa_avail (vm_pmm s) b \/ table_upto (vm_mem s) d n b).
Proof.
  intros Hs Hd Hn. cbv zeta. pose proof (vi_dir _ _ Hs d Hd) as Hw.
  apply (for_range_ind (fun n s' => exists p', s' = set_pmm p' s /\ fa_inv p' /\
    (forall a, fa_managed p' a <-> fa_managed (vm_pmm s) a) /\
    (forall b, is_frame b ->
       fa_avail p' b <-> fa_avail (vm_pmm s) b \/ table_upto (vm_mem s) d n b))); [lia| |].
  - exists (vm_pmm s). rewrite set_pmm_id. split; [done|]. split; [apply (vi_pmm _ _ Hs)|].
    split; [done|]. intros b _. split; [tauto|]. intros [?|(i & ? & _)]; [done|lia].
  - intros i s1 Hi (p1 & -> & Hp1 & Hm1 & Ha1).
    assert (0 <= i < 1024) as Hi' by lia.
    rewrite (dir_table_at _ _ _ Hw) by done. change (vm_mem (set_pmm p1 s)) with (vm_mem s).
    fold (tbl (vm_mem s) d i).
    assert (forall b, table_upto (vm_mem s) d (i + 1) b <->
              table_upto (vm_mem s) d i b \/ (b = tbl (vm_mem s) d i /\ b <> 0)) as Hup.
    { intros b. unfold table_upto. split.
      - intros (j & Hj & Hb). destruct (Z.eq_dec j i) as [->|]; [by right|].
        left. exists j. split; [lia|done].
      - intros [(j & Hj & Hb)|Hb]; [exists j|exists i]; (split; [lia|done]). }
    destruct (Z.eqb_spec (tbl (vm_mem s) d i) 0) as [Hz|Hnz]; simpl.
    + exists p1. split_and!; try done. intros b Hb. rewrite Ha1, Hup by done.
      rewrite Hz. split; [tauto|]. intros [?|[?|[-> []]]]; tauto.
    + destruct (dw_slot _ _ Hw i Hi' Hnz) as [Hf _].
      destruct (vi_taken _ _ Hs d _ Hd (owns_tbl _ _ _ Hi' Hnz)) as [Hmi _].
      exists (fa_free (tbl (vm_mem s) d i) p1). split; [done|]. split; [by apply fa_free_inv|].
      split; [intros a; by rewrite fa_free_managed|].
      intros b Hb. rewrite fa_free_avail, Ha1, Hup; try done; [|by apply Hm1].
      split; [|tauto]. intros [?|Hbt]; [tauto|]. rewrite <- Hbt in Hnz. tauto.
Qed.

Lemma destroy_spec ds s d : vmm_inv ds s -> d ∈ ds ->
  exists p', vmm_destroy_directory d s = set_pmm p' s /\
    vmm_inv (ds ∖ {[d]}) (set_pmm p' s) /\
    forall b, is_frame b ->
      fa_avail p' b <-> fa_avail (vm_pmm s) b \/ b = d \/ table_upto (vm_mem s) d 1024 b.
Proof.
  intros Hs Hd. pose proof (vi_dir _ _ Hs d Hd) as Hw. unfold vmm_destroy_directory.
  rewrite (proj2 (Z.eqb_neq d 0)) by apply (dw_nonnull _ _ Hw).
  destruct (destroy_loop ds s d 1024 Hs Hd ltac:(lia)) as (p1 & Heq & Hp1 & Hm1 & Ha1).
  cbv zeta in Heq |- *. unfold PAGE_DIR_ENTRIES. rewrite Heq.
  pose proof (dw_frame _ _ Hw) as Hf. pose proof (dw_nonnull _ _ Hw) as Hnz.
  destruct (vi_taken _ _ Hs d d Hd (owns_self _ _)) as [Hmd _].
  assert (forall b, is_frame b -> fa_avail (fa_free d p1) b <->
    fa_avail (vm_pmm s) b \/ b = d \/ table_upto (vm_mem s) d 1024 b) as Hav.
  { intros b Hb. rewrite (fa_free_avail p1 d b Hp1 Hf Hb Hnz (proj2 (Hm1 d) Hmd)), (Ha1 b Hb). tauto. }
  exists (fa_free d p1). split; [done|]. split; [|exact Hav].
  apply inv_set_pmm.
  - destruct Hs as [? Hdir Hapart Htaken]. split; [done|..].
    + intros d' [? _]%elem_of_difference. by apply Hdir.
    + intros d1 d2 a [? _]%elem_of_difference [? _]%elem_of_difference. by apply Hapart.
    + intros d' a [? _]%elem_of_difference. by apply Htaken.
  - by apply fa_free_inv.
  - intros a. by rewrite fa_free_managed.
  - intros d' a [Hd' Hne]%elem_of_difference Ho Ha. rewrite elem_of_singleton in Hne.
    apply Hav in Ha; [|by apply (owns_frame _ _ _ (vi_dir _ _ Hs d' Hd') Ho)].
    destruct Ha as [?|Hown]; [done|].
    assert (owns (vm_mem s) d a) as Hown' by (unfold owns; destruct Hown as [?|(i & Hi)]; [tauto|right; right; by exists i]).
    destruct Hne. by apply (vi_apart _ _ Hs d' d a).
Qed.

Lemma create_dir_spec ds s : vmm_inv ds s -> fst (fa_alloc (vm_pmm s)) <> top_frame ->
  let '(r, s') := vmm_create_directory s in
  if r =? 0 then vmm_inv ds s' /\ (exists p', s' = set_pmm p' s)
  else (r ∉ ds) /\ vmm_inv ({[r]} ∪ ds) s' /\
    (forall d w, d ∈ ds -> hw_walk (vm_mem s') d w = hw_walk (vm_mem s) d w) /\
    (forall w, hw_walk (vm_mem s') r w = None) /\
    (exists p' f, s' = set_mem f (set_pmm p' s)).
Proof.
  intros Hs Htop. unfold vmm_create_directory.
  pose proof (alloc_dir_pages_spec (vm_pmm s) (vi_pmm _ _ Hs) Htop) as Hsp.
  destruct (alloc_dir_pages (vm_pmm s)) as [[d|] p']; destruct Hsp as (Hp & Hm & Hsub & Hd).
  - destruct (Hd d eq_refl) as (Hnz & Hf & Hf2 & Ha & Ha2 & Hav).
    rewrite (proj2 (Z.eqb_neq d 0) Hnz).
    destruct (inv_add_dir ds s d p' Hs Hnz Hf Hf2 Hp Hm Ha Ha2 Hav) as (Hi & Hk & Hn).
    split; [|split; [exact Hi|split; [exact Hk|split; [exact Hn|by eexists _, _]]]].
    intros Hin. by destruct (vi_taken _ _ Hs d d Hin (owns_self _ _)).
  - simpl. split; [|by eexists]. apply inv_set_pmm; try done.
    intros d a Hd' Ho Hav. apply Hsub; [|done].
    by apply (owns_frame _ _ _ (vi_dir _ _ Hs d Hd') Ho).
Qed.
End Lifecycle.

(** ** Running the memory manager *)

Section Traces.
Context {S : Type} {FA : FrameAllocator S}.
Implicit Types (s : vmm S) (ds : gset Z) (p : S).

(** The entry the processor uses for [v]: the cached one, or a walk from CR3. *)
Definition hw_translate s (v : Z) : option Z :=
  match tlb s !! (v / 4096) with Some pte => Some pte | None => hw_walk (vm_mem s) (cr3 s) v end.

Record coherent ds s : Prop := {
  co_inv : vmm_inv ds s;
  co_cur : current_directory s ∈ ds;
  co_cr3 : cr3 s = current_directory s;
  co_tlb : tlb_ok s
}.

(** One event of a running kernel with the live directories [ds]. *)
Inductive vmm_step : gset Z * vmm S -> gset Z * vmm S -> Prop :=
| step_map ds s dir v phys flags :
    dir = 0 \/ dir ∈ ds -> is_u32 v -> is_u32 phys ->
    vmm_step (ds, s) (ds, snd (vmm_map_page dir v phys flags s))
| step_unmap ds s dir v :
    dir = 0 \/ dir ∈ ds -> is_u32 v ->
    vmm_step (ds, s) (ds, vmm_unmap_page dir v s)
| step_switch ds s dir :
    dir = 0 \/ dir ∈ ds ->
    vmm_step (ds, s) (ds, vmm_switch_directory dir s)
| step_create ds s r s' :
    fst (fa_alloc (vm_pmm s)) <> top_frame ->
    vmm_create_directory s = (r, s') ->
    vmm_step (ds, s) (if r =? 0 then ds else {[r]} ∪ ds, s')
| step_destroy ds s d :
    d ∈ ds -> d <> current_directory s ->
    vmm_step (ds, s) (ds ∖ {[d]}, vmm_destroy_directory d s)
(* the rest of the machine: a store outside the page tables, a frame taken or given
   back by another client, the processor caching a translation *)
| step_store ds s a i x :
    is_frame a -> 0 <= i < 4096 -> (forall d, d ∈ ds -> ~ owns (vm_mem s) d a) ->
    vmm_step (ds, s) (ds, set_mem (fun m => st m (a + i) x) s)
| step_alloc ds s :
    vmm_step (ds, s) (ds, set_pmm (snd (fa_alloc (vm_pmm s))) s)
| step_free ds s a :
    is_frame a -> a <> 0 -> fa_managed (vm_pmm s) a ->
    (forall d, d ∈ ds -> ~ owns (vm_mem s) d a) ->
    vmm_step (ds, s) (ds, set_pmm (fa_free a (vm_pmm s)) s)
| step_fill ds s v pte :
    is_u32 v -> hw_walk (vm_mem s) (cr3 s) v = Some pte ->
    vmm_step (ds, s) (ds, Vmm (vm_mem s) (vm_pmm s) (current_directory s)
                            (kernel_directory s) (cr3 s) (<[v / 4096 := pte]> (tlb s))).

Lemma page_of_base page : 4096 * page / 4096 = page.
Proof. rewrite Z.mul_comm. by apply Z.div_mul. Qed.
Lemma base_u32 page : 0 <= page < 2 ^ 20 -> is_u32 (4096 * page).
Proof. change (2 ^ 20) with 1048576. wsolve. Qed.

Lemma page_set_coherent ds d v r s s' : coherent ds s -> page_set ds d v r s s' -> coherent ds s'.
Proof.
  intros [Hi Hc Hr Ht] [Hi' Hw Hc' Hk' Hr' Ht']. split; [done|by rewrite Hc'|congruence|].
  intros page pte Hp. rewrite Ht', Hr'. intros Hl.
  apply lookup_delete_Some in Hl as [Hne Hl].
  rewrite Hw; [|by rewrite Hr|by apply base_u32]. rewrite page_of_base.
  rewrite (proj2 (Z.eqb_neq page (v / 4096))), andb_false_r by congruence. by apply Ht.
Qed.

Lemma walks_coherent ds s s' : coherent ds s -> vmm_inv ds s' ->
  (forall w, hw_walk (vm_mem s') (cr3 s) w = hw_walk (vm_mem s) (cr3 s) w) ->
  current_directory s' = current_directory s -> cr3 s' = cr3 s -> tlb s' = tlb s -> coherent ds s'.
Proof.
  intros [Hi Hc Hr Ht] Hi' Hw Hc' Hr' Ht'. split; [done|by rewrite Hc'|congruence|].
  intros page pte Hp. rewrite Ht', Hr', Hw. by apply Ht.
Qed.

Lemma the_dir_live dir s ds : dir = 0 \/ dir ∈ ds -> coherent ds s -> the_dir dir s ∈ ds.
Proof. intros Hd Hc. unfold the_dir. case_match; [apply (co_cur _ _ Hc)|]. destruct Hd; [lia|done]. Qed.

Lemma switch_coherent ds s dir : dir = 0 \/ dir ∈ ds -> coherent ds s ->
  coherent ds (vmm_switch_directory dir s).
Proof.
  intros Hd Hc. unfold vmm_switch_directory. destruct (Z.eqb_spec dir 0) as [|Hnz]; [done|].
  destruct Hd as [|Hd]; [done|]. destruct Hc as [[? ? ? ?] ? ? ?].
  split; [by split|done|done|]. by intros page pte.
Qed.

Lemma switch_live ds s d : vmm_inv ds s -> d ∈ ds -> coherent ds (vmm_switch_directory d s).
Proof.
  intros Hs Hd. unfold vmm_switch_directory.
  rewrite (proj2 (Z.eqb_neq d 0)) by apply (dw_nonnull _ _ (vi_dir _ _ Hs d Hd)).
  destruct Hs. split; [by split|done|done|]. by intros page pte.
Qed.

Lemma create_coherent ds s r s' : coherent ds s -> fst (fa_alloc (vm_pmm s)) <> top_frame ->
  vmm_create_directory s = (r, s') -> coherent (if r =? 0 then ds else {[r]} ∪ ds) s'.
Proof.
  intros Hc Htop E. pose proof (create_dir_spec ds s (co_inv _ _ Hc) Htop) as Hsp. rewrite E in Hsp.
  destruct (r =? 0).
  - destruct Hsp as (Hi & p' & ->). by apply (walks_coherent ds s).
  - destruct Hsp as (Hn & Hi & Hk & _ & p' & f & ->). destruct Hc as [Hi0 Hcu Hr Ht].
    split; [done|by apply elem_of_union_r|done|].
    intros page pte Hp Hl. simpl. rewrite Hr. rewrite <- Hr at 1.
    pose proof (Ht page pte Hp Hl) as Hw. rewrite Hr in Hw |- *. by rewrite Hk.
Qed.

Lemma destroy_coherent ds s d : coherent ds s -> d ∈ ds -> d <> current_directory s ->
  coherent (ds ∖ {[d]}) (vmm_destroy_directory d s).
Proof.
  intros [Hi Hc Hr Ht] Hd Hne. destruct (destroy_spec ds s d Hi Hd) as (p' & -> & Hi' & _).
  split; [done| |done|done]. simpl. apply elem_of_difference. split; [done|].
  rewrite elem_of_singleton. congruence.
Qed.

Lemma store_coherent ds s a i x : coherent ds s -> is_frame a -> 0 <= i < 4096 ->
  (forall d, d ∈ ds -> ~ owns (vm_mem s) d a) -> coherent ds (set_mem (fun m => st m (a + i) x) s).
Proof.
  intros Hc Ha Hi Hn. pose proof (co_inv _ _ Hc) as Hv.
  assert (forall d b, d ∈ ds -> owns (vm_mem s) d b -> same_on (vm_mem s) (st (vm_mem s) (a + i) x) b 4096) as Hk.
  { intros d b Hd. apply store_elsewhere; auto. by apply (vi_dir _ _ Hv). }
  apply (walks_coherent ds s); try done.
  - apply inv_set_mem; [done|]. intros d Hd. split; apply (Hk d); auto using owns_self, owns_second.
  - intros w. assert (cr3 s ∈ ds) as Hcr by (rewrite (co_cr3 _ _ Hc); apply (co_cur _ _ Hc)).
    apply hw_walk_same; [by apply (vi_dir _ _ Hv)|]. intros b. by apply Hk.
Qed.

Lemma pmm_coherent ds s p' : coherent ds s -> vmm_inv ds (set_pmm p' s) -> coherent ds (set_pmm p' s).
Proof. intros Hc Hi. by apply (walks_coherent ds s). Qed.

Lemma step_coherent x y : vmm_step x y -> coherent x.1 x.2 -> coherent y.1 y.2.
Proof.
  intros Hstep. destruct Hstep as
    [ds s dir v phys flags Hd Hv Hp|ds s dir v Hd Hv|ds s dir Hd|ds s r s' Htop E|ds s d Hd Hne
    |ds s a i x Ha Hi Hn|ds s|ds s a Ha Hnz Hm Hn|ds s v pte Hv Hw]; simpl; intros Hc.
  - pose proof (map_page_spec ds s dir v phys flags (co_inv _ _ Hc) (the_dir_live _ _ _ Hd Hc) Hv Hp) as Hs.
    cbv zeta in Hs. destruct (vmm_map_page dir v phys flags s) as [r s'].
    destruct Hs as [[_ Hs]|(_ & -> & _)]; [by eapply page_set_coherent|done].
  - destruct (unmap_page_spec ds s dir v (co_inv _ _ Hc) (the_dir_live _ _ _ Hd Hc) Hv) as [Hs|[-> _]];
      [by eapply page_set_coherent|done].
  - by apply switch_coherent.
  - by eapply create_coherent.
  - by apply destroy_coherent.
  - by apply store_coherent.
  - pose proof (co_inv _ _ Hc) as Hv. pose proof (vi_pmm _ _ Hv) as Hp.
    apply pmm_coherent, inv_set_pmm; try done; [by apply fa_alloc_inv|intros; by apply fa_alloc_managed|].
    intros d b Hd Ho Hav. destruct (Z.eq_dec (fst (fa_alloc (vm_pmm s))) 0) as [Hz|Hz].
    + by rewrite fa_alloc_null in Hav.
    + apply fa_alloc_avail in Hav; [tauto|done|done|].
      by apply (owns_frame _ _ _ (vi_dir _ _ Hv d Hd) Ho).
  - pose proof (co_inv _ _ Hc) as Hv. pose proof (vi_pmm _ _ Hv) as Hp.
    apply pmm_coherent, inv_set_pmm; try done; [by apply fa_free_inv|intros; by apply fa_free_managed|].
    intros d b Hd Ho Hav. apply fa_free_avail in Hav; try done.
    + destruct Hav as [?| ->]; [done|]. by destruct (Hn d Hd).
    + by apply (owns_frame _ _ _ (vi_dir _ _ Hv d Hd) Ho).
  - destruct Hc as [[? ? ? ?] ? ? Ht]. split; [by split|done|done|].
    intros page pte' Hp Hl. simpl in *.
    apply lookup_insert_Some in Hl as [[<- <-]|[_ Hl]]; [|by apply Ht].
    rewrite <- Hw. unfold hw_walk.
    destruct (page_indices (4096 * (v / 4096)) v) as [-> ->]; try done; [by apply base_u32|].
    apply page_of_base.
Qed.

Lemma trace_coherent x y : rtc vmm_step x y -> coherent x.1 x.2 -> coherent y.1 y.2.
Proof. induction 1 as [|x y z Hxy _ IH]; [done|]. intros Hc. apply IH. by eapply step_coherent. Qed.

Lemma translate_walk ds s v : coherent ds s -> is_u32 v ->
  hw_translate s v = hw_walk (vm_mem s) (current_directory s) v.
Proof.
  intros [_ _ Hr Ht] Hv. unfold hw_translate. rewrite <- Hr.
  destruct (tlb s !! (v / 4096)) as [pte|] eqn:E; [|done].
  rewrite <- (Ht (v / 4096) pte); [|change (2 ^ 20) with 1048576; wsolve|done].
  unfold hw_walk. destruct (page_indices (4096 * (v / 4096)) v) as [-> ->]; try done.
  - apply base_u32. change (2 ^ 20) with 1048576. wsolve.
  - apply page_of_base.
Qed.
End Traces.

(** ** Properties *)

Section Properties.
Context {S : Type} {FA : FrameAllocator S}.
Implicit Types (s : vmm S) (ds : gset Z).


(** [vmm_map_page] returns 0 exactly when the page table is missing and no frame is
    left, and then changes nothing; otherwise the page of [virt] translates to the given
    frame with the given flags in that directory, and every other page of every live
    directory keeps its translation. *)
Theorem vmm_map_page_correct ds s dir virt phys flags :
  vmm_inv ds s -> the_dir dir s ∈ ds -> is_u32 virt -> is_u32 phys ->
  let d := the_dir dir s in
  let '(r, s') := vmm_map_page dir virt phys flags s in
  (r = 0 <-> tbl (vm_mem s) d (PD_INDEX virt) = 0 /\ fst (fa_alloc (vm_pmm s)) = 0) /\
  (r = 0 -> s' = s) /\
  (r <> 0 -> vmm_inv ds s' /\ forall d' w, d' ∈ ds -> is_u32 w ->
     hw_walk (vm_mem s') d' w =
     if (d' =? d) && (w / 4096 =? virt / 4096)
     then (if Z.testbit flags 0 then Some (4096 * (phys / 4096) + flags mod 4096) else None)
     else hw_walk (vm_mem s) d' w).
Proof.
  intros Hs Hd Hv Hp d.
  pose proof (map_page_spec ds s dir virt phys flags Hs Hd Hv Hp) as Hsp. cbv zeta in Hsp.
  pose proof (map_page_eq ds s dir virt phys flags Hs Hd Hp) as Heq. cbv zeta in Heq.
  fold d in Hsp, Heq. clearbody d.
  destruct (vmm_map_page dir virt phys flags s) as [r s'].
  assert (r = 0 <-> tbl (vm_mem s) d (PD_INDEX virt) = 0 /\ fst (fa_alloc (vm_pmm s)) = 0) as Hr.
  { destruct (Z.eqb_spec (tbl (vm_mem s) d (PD_INDEX virt)) 0); simpl in Heq.
    - destruct (Z.eqb_spec (fst (fa_alloc (vm_pmm s))) 0); injection Heq; intros; split; intros; tauto || lia.
    - injection Heq; intros; split; intros; tauto || lia. }
  split; [exact Hr|]. destruct Hsp as [[-> [Hi Hw _ _ _ _]]|(-> & -> & _)].
  - split; [done|]. intros _. split; [exact Hi|]. intros d' w Hd' Hww. rewrite Hw by done.
    unfold leaf. rewrite pte_of_bit0. done.
  - by split.
Qed.

(** Unmapping a page makes it translate to nothing and touches no other page of any
    live directory. *)
Theorem vmm_unmap_page_correct ds s dir virt :
  vmm_inv ds s -> the_dir dir s ∈ ds -> is_u32 virt ->
  let s' := vmm_unmap_page dir virt s in
  vmm_inv ds s' /\ vmm_get_physical dir virt s' = 0 /\
  forall d' w, d' ∈ ds -> is_u32 w -> d' <> the_dir dir s \/ w / 4096 <> virt / 4096 ->
    hw_walk (vm_mem s') d' w = hw_walk (vm_mem s) d' w.
Proof.
  intros Hs Hd Hv s'.
  pose proof (unmap_page_spec ds s dir virt Hs Hd Hv) as Hsp. cbv zeta in Hsp. fold s' in Hsp.
  clearbody s'. destruct Hsp as [[Hi Hw Hc _ _ _]|[He Hn]].
  - assert (the_dir dir s' = the_dir dir s) as Hdir by (unfold the_dir; by rewrite Hc).
    split; [exact Hi|]. split.
    + rewrite (get_physical_walk ds) by (done || by rewrite Hdir). rewrite Hdir, Hw by done.
      by rewrite !Z.eqb_refl.
    + intros d' w Hd' Hww Hne. rewrite Hw by done.
      destruct (Z.eqb_spec d' (the_dir dir s)), (Z.eqb_spec (w / 4096) (virt / 4096)); tauto.
  - rewrite He. split; [done|]. split; [|done]. rewrite (get_physical_walk ds) by done. by rewrite Hn.
Qed.

(** Identity-mapping a region terminates and keeps the invariant; unless the frame
    allocator ran dry, every byte of the region then has its own address as physical
    address, and nothing outside the region's pages changed. *)
Theorem vmm_identity_map_region_correct ds s dir start size flags :
  vmm_inv ds s -> the_dir dir s ∈ ds -> is_u32 start -> 0 <= size ->
  start + size + 4095 < 2 ^ 32 -> Z.testbit flags 0 = true ->
  exists s', vmm_identity_map_region dir start size flags s = Some s' /\ vmm_inv ds s' /\
    (fst (fa_alloc (vm_pmm s')) <> 0 ->
     forall v, start <= v < start + size -> vmm_get_physical dir v s' = v) /\
    (forall d' w, d' ∈ ds -> is_u32 w ->
       d' <> the_dir dir s \/ w < 4096 * (start / 4096) \/ start + size + 4095 <= w ->
       hw_walk (vm_mem s') d' w = hw_walk (vm_mem s) d' w).
Proof.
  intros Hs Hd Hst Hsz Hend Hfl.
  destruct (identity_map_region_spec ds s dir start size flags Hs Hd Hst Hsz Hend)
    as (s' & Hrun & [Hi Hc _ _ _ Hout Hin]).
  destruct (page_align_frame start Hst) as [Ha Hf]. rewrite Ha in Hout, Hin.
  exists s'. split; [done|]. split; [done|]. split.
  - intros Hnz v Hv.
    assert (the_dir dir s' = the_dir dir s) as Hdir by (unfold the_dir; by rewrite Hc).
    rewrite (get_physical_walk ds) by (done || by rewrite Hdir). rewrite Hdir, Hin by (done || dlia).
    unfold leaf. rewrite pte_of_bit0, Hfl. replace (_ + (v - _)) with v by lia.
    rewrite u32_small, pte_phys_of by wsolve. dlia.
  - intros d' w Hd' Hw Hn. apply Hout; [done|done|]. intros [-> Hr]. dlia.
Qed.

(** Destroying a directory returns its page tables and its first page to the frame
    allocator and leaves the other directories intact, but the second page of the
    8 KiB directory structure is not returned: no sequence of later allocations can
    see it again. *)
Theorem vmm_destroy_directory_leak ds s d :
  vmm_inv ds s -> d ∈ ds ->
  let s' := vmm_destroy_directory d s in
  vmm_inv (ds ∖ {[d]}) s' /\ vm_mem s' = vm_mem s /\
  (forall b, is_frame b -> fa_avail (vm_pmm s') b <->
     fa_avail (vm_pmm s) b \/ b = d \/ table_upto (vm_mem s) d 1024 b) /\
  ~ fa_avail (vm_pmm s') (d + 4096).
Proof.
  intros Hs Hd. pose proof (vi_dir _ _ Hs d Hd) as Hw.
  destruct (destroy_spec ds s d Hs Hd) as (p' & -> & Hi & Hav). simpl.
  split; [exact Hi|]. split; [done|]. split; [exact Hav|].
  rewrite Hav by apply (dw_frame2 _ _ Hw). intros [Ha|[Ha|(i & Hir & Ha & _)]].
  - by destruct (vi_taken _ _ Hs d _ Hd (owns_second _ _)).
  - lia.
  - destruct (dw_sep _ _ Hw i Hir) as [_ []]. congruence.
Qed.

(** The physical memory [vmm_init] maps: at least 4 MiB, at most 64 MiB. *)
Definition init_ram_end (p : S) : Z := Z.min 0x4000000 (Z.max 0x400000 (fa_max_address p)).

Lemma vmm_init_spec s :
  fa_inv (vm_pmm s) -> fst (fa_alloc (vm_pmm s)) <> top_frame ->
  exists s', vmm_init s = Some s' /\
  match alloc_dir_pages (vm_pmm s) with
  | (None, p) => s' = set_pmm p s
  | (Some d, p) =>
      kernel_directory s' = d /\ current_directory s' = d /\ coherent {[d]} s' /\
      (fst (fa_alloc (vm_pmm s')) <> 0 ->
       forall v, 0 <= v < init_ram_end p -> vmm_get_physical 0 v s' = v) /\
      (forall v, is_u32 v -> init_ram_end p + 4095 <= v -> hw_translate s' v = None)
  end.
Proof.
  intros Hp Htop. unfold vmm_init.
  pose proof (alloc_dir_pages_spec (vm_pmm s) Hp Htop) as Hsp.
  destruct (alloc_dir_pages (vm_pmm s)) as [[d|] p]; [|by eexists].
  destruct Hsp as (Hp' & Hm & _ & Hd). destruct (Hd d eq_refl) as (Hnz & Hf & Hf2 & Ha & Ha2 & Hav).
  assert (vmm_inv ∅ s) as Hempty.
  { by apply vmm_inv_empty. }
  destruct (inv_add_dir ∅ s d p Hempty Hnz Hf Hf2 Hp' Hm Ha Ha2 Hav) as (Hi & _ & Hnone).
  replace ({[d]} ∪ ∅ : gset Z) with ({[d]} : gset Z) in Hi by by rewrite union_empty_r_L.
  cbv zeta. unfold set_mem at 1. simpl (kernel_directory _).
  match goal with |- context [vmm_identity_map_region _ _ _ _ ?x] => set (s1 := x) end.
  assert (vmm_inv {[d]} s1) as Hi1 by (destruct Hi as [? ? ? ?]; by split).
  assert (forall w, hw_walk (vm_mem s1) d w = None) as Hnone1 by exact Hnone.
  set (re := if 0x4000000 <? _ then _ else _).
  assert (re = init_ram_end p) as Hre.
  { unfold re, init_ram_end. change (vm_pmm s1) with p. simpl.
    destruct (Z.ltb_spec (fa_max_address p) 0x400000); zcases; lia. }
  clearbody re. subst re.
  assert (0x400000 <= init_ram_end p <= 0x4000000) as Hb by (unfold init_ram_end; lia).
  assert (the_dir d s1 = d) as Hdd by by apply the_dir_nonnull.
  destruct (identity_map_region_spec {[d]} s1 d 0 (init_ram_end p)
    (Z.lor (Z.lor PTE_PRESENT PTE_WRITABLE) PTE_USER)) as (s2 & -> & [Hi2 Hc2 Hk2 _ _ Hout Hin]);
    [done|by rewrite Hdd, elem_of_singleton|wsolve|lia|wsolve|].
  rewrite Hdd in Hout, Hin. change (kernel_directory s1) with d in Hk2.
  unfold vmm_switch_directory. simpl (kernel_directory _). rewrite Hk2.
  rewrite (proj2 (Z.eqb_neq d 0) Hnz). eexists. split; [reflexivity|].
  match goal with |- context [coherent _ ?x] => set (s3 := x) end.
  assert (coherent {[d]} s3) as Hco.
  { split; [destruct Hi2; by split|by apply elem_of_singleton|done|by intros page pte]. }
  split; [done|]. split; [done|]. split; [exact Hco|]. split.
  - intros Hal v Hv. rewrite (get_physical_walk _ _ _ _ (co_inv _ _ Hco)) by by apply elem_of_singleton.
    change (the_dir 0 s3) with d. change (vm_mem s3) with (vm_mem s2).
    rewrite Hin; [|done|change (PAGE_ALIGN 0) with 0; dlia].
    change (PAGE_ALIGN 0) with 0. unfold leaf. rewrite pte_of_bit0.
    change (Z.testbit _ 0) with true. cbv iota.
    replace (0 + (v - 0)) with v by lia. rewrite u32_small, pte_phys_of by wsolve. dlia.
  - intros v Hv Hge. rewrite (translate_walk _ _ _ Hco Hv).
    change (current_directory s3) with d. change (vm_mem s3) with (vm_mem s2).
    rewrite Hout; [apply Hnone1|by apply elem_of_singleton|done|].
    change (PAGE_ALIGN 0) with 0. intros [_ ?]. dlia.
Qed.

(** [vmm_init] always returns. If two adjacent frames were to be had it leaves the
    processor on a well-formed kernel directory with an empty TLB, in which (unless
    frames ran out) exactly the RAM up to the clamped top of memory is mapped, each
    address to itself; otherwise it leaves paging as it was. *)
Theorem vmm_init_correct s :
  fa_inv (vm_pmm s) -> fst (fa_alloc (vm_pmm s)) <> top_frame ->
  exists s', vmm_init s = Some s' /\
  match alloc_dir_pages (vm_pmm s) with
  | (None, p) => s' = set_pmm p s
  | (Some d, p) =>
      kernel_directory s' = d /\ current_directory s' = d /\ coherent {[d]} s' /\
      (fst (fa_alloc (vm_pmm s')) <> 0 ->
       forall v, 0 <= v < init_ram_end p -> vmm_get_physical 0 v s' = v) /\
      (forall v, is_u32 v -> init_ram_end p + 4095 <= v -> hw_translate s' v = None)
  end.
Proof. apply vmm_init_spec. Qed.
End Properties.

(** ** Witnesses, over the reference allocator *)

Definition demo_pool : pool :=
  Pool {[0x1000; 0x2000; 0x3000; 0x4000]} [0x1000; 0x2000; 0x3000; 0x4000] 0x5000.
Definition demo_vmm : vmm pool := Vmm ∅ demo_pool 0 0 0 ∅.

(** One live directory at 0x1000, with two frames left. *)
Definition demo_dir : vmm pool := snd (vmm_create_directory demo_vmm).
Definition demo_run : vmm pool := vmm_switch_directory 0x1000 demo_dir.

Lemma demo_pool_inv : pool_inv demo_pool.
Proof.
  split.
  - apply (bool_decide_unpack _). vm_compute. done.
  - intros a Ha. apply (list.Forall_forall (fun a => a ∈ pool_all demo_pool) (pool_free demo_pool)); [|done].
    apply (bool_decide_unpack _). vm_compute. done.
  - intros a Ha. unfold demo_pool in Ha. simpl in Ha.
    repeat (apply elem_of_union in Ha as [Ha|Ha]); apply elem_of_singleton in Ha as ->; repeat split; wsolve.
Qed.

Lemma demo_inv : vmm_inv {[0x1000]} demo_dir.
Proof.
  assert (fst (vmm_create_directory demo_vmm) = 0x1000) as Hr by reflexivity.
  pose proof (create_dir_spec ∅ demo_vmm (vmm_inv_empty demo_vmm demo_pool_inv) ltac:(discriminate)) as H.
  unfold demo_dir. destruct (vmm_create_directory demo_vmm) as [r s]. simpl in *. subst r.
  destruct H as (_ & Hi & _). by rewrite union_empty_r_L in Hi.
Qed.

Lemma demo_coherent : coherent {[0x1000]} demo_run.
Proof. apply switch_live; [exact demo_inv|by apply elem_of_singleton]. Qed.


Lemma vmm_map_page_correct_witness :
  let '(r, s') := vmm_map_page 0x1000 0x5000 0x7000 3 demo_dir in
  (r = 0 <-> tbl (vm_mem demo_dir) 0x1000 (PD_INDEX 0x5000) = 0 /\ fst (fa_alloc (vm_pmm demo_dir)) = 0) /\
  (r = 0 -> s' = demo_dir) /\
  (r <> 0 -> vmm_inv {[0x1000]} s' /\ forall d' w, d' ∈ ({[0x1000]} : gset Z) -> is_u32 w ->
     hw_walk (vm_mem s') d' w =
     if (d' =? 0x1000) && (w / 4096 =? 0x5000 / 4096)
     then (if Z.testbit 3 0 then Some (4096 * (0x7000 / 4096) + 3 mod 4096) else None)
     else hw_walk (vm_mem demo_dir) d' w).
Proof.
  apply (vmm_map_page_correct {[0x1000]} demo_dir 0x1000 0x5000 0x7000 3).
  - exact demo_inv.
  - by apply elem_of_singleton.
  - wsolve.
  - wsolve.
Defined.

Lemma vmm_unmap_page_correct_witness :
  let s' := vmm_unmap_page 0x1000 0x5000 demo_dir in
  vmm_inv {[0x1000]} s' /\ vmm_get_physical 0x1000 0x5000 s' = 0 /\
  forall d' w, d' ∈ ({[0x1000]} : gset Z) -> is_u32 w ->
    d' <> the_dir 0x1000 demo_dir \/ w / 4096 <> 0x5000 / 4096 ->
    hw_walk (vm_mem s') d' w = hw_walk (vm_mem demo_dir) d' w.
Proof.
  apply (vmm_unmap_page_correct {[0x1000]} demo_dir 0x1000 0x5000).
  - exact demo_inv.
  - by apply elem_of_singleton.
  - wsolve.
Defined.

Lemma vmm_identity_map_region_correct_witness :
  exists s', vmm_identity_map_region 0x1000 0x10000 0x2800 3 demo_dir = Some s' /\
    vmm_inv {[0x1000]} s' /\
    (fst (fa_alloc (vm_pmm s')) <> 0 ->
     forall v, 0x10000 <= v < 0x10000 + 0x2800 -> vmm_get_physical 0x1000 v s' = v) /\
    (forall d' w, d' ∈ ({[0x1000]} : gset Z) -> is_u32 w ->
       d' <> the_dir 0x1000 demo_dir \/ w < 4096 * (0x10000 / 4096) \/ 0x10000 + 0x2800 + 4095 <= w ->
       hw_walk (vm_mem s') d' w = hw_walk (vm_mem demo_dir) d' w).
Proof.
  apply (vmm_identity_map_region_correct {[0x1000]} demo_dir 0x1000 0x10000 0x2800 3).
  - exact demo_inv.
  - by apply elem_of_singleton.
  - wsolve.
  - lia.
  - wsolve.
  - reflexivity.
Defined.

Lemma vmm_destroy_directory_leak_witness :
  let s' := vmm_destroy_directory 0x1000 demo_dir in
  vmm_inv ({[0x1000]} ∖ {[0x1000]}) s' /\ vm_mem s' = vm_mem demo_dir /\
  (forall b, is_frame b -> fa_avail (vm_pmm s') b <->
     fa_avail (vm_pmm demo_dir) b \/ b = 0x1000 \/ table_upto (vm_mem demo_dir) 0x1000 1024 b) /\
  ~ fa_avail (vm_pmm s') (0x1000 + 4096).
Proof.
  apply (vmm_destroy_directory_leak {[0x1000]} demo_dir 0x1000).
  - exact demo_inv.
  - by apply elem_of_singleton.
Defined.

Lemma vmm_init_correct_witness :
  exists s', vmm_init demo_vmm = Some s' /\
  match alloc_dir_pages (vm_pmm demo_vmm) with
  | (None, p) => s' = set_pmm p demo_vmm
  | (Some d, p) =>
      kernel_directory s' = d /\ current_directory s' = d /\ coherent {[d]} s' /\
      (fst (fa_alloc (vm_pmm s')) <> 0 ->
       forall v, 0 <= v < init_ram_end p -> vmm_get_physical 0 v s' = v) /\
      (forall v, is_u32 v -> init_ram_end p + 4095 <= v -> hw_translate s' v = None)
  end.
Proof.
  apply (vmm_init_correct demo_vmm).
  - exact demo_pool_inv.
  - discriminate.
Defined.
