(* ===== verification/Heap.v ===== *)
(** * Kernel heap (memory/heap.c, memory/heap.h)

    The block headers live in the flat memory of [Mem]: size at +0, free flag at +4,
    next at +8, prev at +12. [heap_rep] relates the pointer structure to the list of
    blocks in address order; [fit] and [release] are the allocator on that list, which
    the pointer code is proved to implement. The address of the static arena is the
    section variable [default_heap], fixed by the linker. *)
From S2P Require Import Prelude Mem.

Definition HEADER_SIZE : Z := 16.
Definition MIN_PAYLOAD : Z := 16.
Definition DEFAULT_HEAP_SIZE : Z := 65536.
Definition HEAP_ALIGN (n a : Z) : Z := Z.land (u32 (n + a - 1)) (Z.lnot (a - 1)).

(** Field addresses of [block_header_t]. *)
Definition h_size (blk : Z) : Z := blk.
Definition h_free (blk : Z) : Z := blk + 4.
Definition h_next (blk : Z) : Z := blk + 8.
Definition h_prev (blk : Z) : Z := blk + 12.

Record heap := Heap { h_mem : mem; heap_base : Z; heap_size : Z; heap_head : Z }.

Definition with_mem (h : heap) (m : mem) : heap := Heap m (heap_base h) (heap_size h) (heap_head h).

Definition heap_build_freelist (h : heap) : heap :=
  let head := heap_base h in
  let m := h_mem h in
  let m := st m (h_size head) (u32 (heap_size h - HEADER_SIZE)) in
  let m := st m (h_free head) 1 in
  let m := st m (h_next head) 0 in
  let m := st m (h_prev head) 0 in
  Heap m (heap_base h) (heap_size h) head.

Definition heap_init (default_heap start size : Z) (h : heap) : heap :=
  if (start =? 0) || (size <=? HEADER_SIZE + MIN_PAYLOAD) then
    heap_build_freelist (Heap (h_mem h) default_heap DEFAULT_HEAP_SIZE (heap_head h))
  else heap_build_freelist (Heap (h_mem h) start size (heap_head h)).

Definition block_split (blk want : Z) (m : mem) : mem :=
  if ld m (h_size blk) <? u32 (want + HEADER_SIZE + MIN_PAYLOAD) then m
  else
    let rest := u32 (blk + HEADER_SIZE + want) in
    let m := st m (h_size rest) (u32 (ld m (h_size blk) - want - HEADER_SIZE)) in
    let m := st m (h_free rest) 1 in
    let m := st m (h_prev rest) blk in
    let m := st m (h_next rest) (ld m (h_next blk)) in
    let m := if negb (ld m (h_next rest) =? 0) then st m (h_prev (ld m (h_next rest))) rest else m in
    let m := st m (h_size blk) want in
    st m (h_next blk) rest.

(** The search loop of [kmalloc_aligned]: the first free block of at least [want]
    bytes, 0 at the end of the list, [None] when the fuel runs out. *)
Fixpoint find_fit (fuel : nat) (m : mem) (want blk : Z) : option Z :=
  match fuel with
  | O => None
  | S fuel =>
      if blk =? 0 then Some 0
      else if negb (ld m (h_free blk) =? 0) && (want <=? ld m (h_size blk)) then Some blk
      else find_fit fuel m want (ld m (h_next blk))
  end.

(** One iteration per block (at least a header each) and one for the end of the list. *)
Definition walk_fuel (h : heap) : nat := Z.to_nat (heap_size h / HEADER_SIZE + 1).

Definition kmalloc_aligned (size alignment : Z) (h : heap) : option (Z * heap) :=
  let h := if heap_head h =? 0 then heap_build_freelist h else h in
  if size =? 0 then Some (0, h)
  else
    let alignment := if alignment <? 8 then 8 else alignment in
    let want := HEAP_ALIGN size alignment in
    match find_fit (walk_fuel h) (h_mem h) want (heap_head h) with
    | None => None
    | Some blk =>
        if blk =? 0 then Some (0, h)
        else
          let m := block_split blk want (h_mem h) in
          let m := st m (h_free blk) 0 in
          Some (u32 (blk + HEADER_SIZE), with_mem h m)
    end.

Definition kmalloc (size : Z) (h : heap) : option (Z * heap) := kmalloc_aligned size 8 h.

Definition block_coalesce (blk : Z) (m : mem) : mem :=
  let nxt := ld m (h_next blk) in
  if negb (nxt =? 0) && negb (ld m (h_free nxt) =? 0) then
    let m := st m (h_size blk) (u32 (ld m (h_size blk) + (HEADER_SIZE + ld m (h_size nxt)))) in
    let m := st m (h_next blk) (ld m (h_next nxt)) in
    if negb (ld m (h_next nxt) =? 0) then st m (h_prev (ld m (h_next nxt))) blk else m
  else m.

Definition kfree (ptr : Z) (h : heap) : heap :=
  if ptr =? 0 then h
  else
    let blk := u32 (ptr - HEADER_SIZE) in
    let m := st (h_mem h) (h_free blk) 1 in
    let m := block_coalesce blk m in
    let m :=
      if negb (ld m (h_prev blk) =? 0) && negb (ld m (h_free (ld m (h_prev blk))) =? 0)
      then block_coalesce (ld m (h_prev blk)) m else m in
    with_mem h m.

(** Totals of [heap_get_stats]: payload, used, free, number of blocks. *)
Fixpoint stats_loop (fuel : nat) (m : mem) (b : Z) (acc : Z * Z * Z * Z) : option (Z * Z * Z * Z) :=
  match fuel with
  | O => None
  | S fuel =>
      if b =? 0 then Some acc
      else
        let '(total, used, freeb, blocks) := acc in
        let size := ld m (h_size b) in
        let acc :=
          if negb (ld m (h_free b) =? 0)
          then (u32 (total + size), used, u32 (freeb + size), u32 (blocks + 1))
          else (u32 (total + size), u32 (used + size), freeb, u32 (blocks + 1)) in
        stats_loop fuel m (ld m (h_next b)) acc
  end.

Definition heap_get_stats (h : heap) : option (Z * Z * Z * Z) :=
  stats_loop (walk_fuel h) (h_mem h) (heap_head h) (0, 0, 0, 0).

(** ** The abstract heap: blocks in address order *)

Record block := Block { b_size : Z; b_free : bool }.

(** End of a run of blocks that starts at [a], and address of its last block. *)
Fixpoint end_of (a : Z) (l : list block) : Z :=
  match l with [] => a | b :: l => end_of (a + 16 + b_size b) l end.
Fixpoint last_of (prev a : Z) (l : list block) : Z :=
  match l with [] => prev | b :: l => last_of a (a + 16 + b_size b) l end.

Definition hdr (m : mem) (a : Z) (b : block) (next prev : Z) : Prop :=
  ld m (h_size a) = b_size b /\ ld m (h_free a) = (if b_free b then 1 else 0) /\
  ld m (h_next a) = next /\ ld m (h_prev a) = prev.

(** The next pointer of a block that ends at [e] and is followed by [l]. *)
Definition link (e : Z) (l : list block) (next : Z) : Z :=
  match l with [] => next | _ => e end.

(** The blocks [l] are laid out and linked from [a] on, [prev] before and [next] after. *)
Fixpoint seg (m : mem) (prev a : Z) (l : list block) (next : Z) : Prop :=
  match l with
  | [] => True
  | b :: l =>
      hdr m a b (link (a + 16 + b_size b) l next) prev /\ seg m a (a + 16 + b_size b) l next
  end.

Record heap_rep (h : heap) (l : list block) : Prop := {
  hr_head : heap_head h = heap_base h;
  hr_seg : seg (h_mem h) 0 (heap_base h) l 0;
  hr_tile : end_of (heap_base h) l = heap_base h + heap_size h;
  hr_sizes : Forall (fun b => 0 <= b_size b) l;
  hr_some : l <> [];
  hr_base : 32 <= heap_base h;
  hr_bound : heap_base h + heap_size h < 2 ^ 32
}.

Definition fits (want : Z) (b : block) : bool := b_free b && (want <=? b_size b).

(** Cut [want] bytes off a free block when the rest is large enough for a block. *)
Definition carve (want : Z) (b : block) : list block :=
  if b_size b <? want + 32 then [Block (b_size b) false]
  else [Block want false; Block (b_size b - want - 16) true].

(** First fit: address of the block taken and the new block list. *)
Fixpoint fit (want a : Z) (l : list block) : option (Z * list block) :=
  match l with
  | [] => None
  | b :: l =>
      if fits want b then Some (a, carve want b ++ l)
      else match fit want (a + 16 + b_size b) l with
           | Some (p, l') => Some (p, b :: l')
           | None => None
           end
  end.

(** Merge a block with the next one if that is free. *)
Definition absorb (l : list block) : list block :=
  match l with
  | b :: n :: l => if b_free n then Block (b_size b + 16 + b_size n) (b_free b) :: l else b :: n :: l
  | _ => l
  end.

(** Free the block at [p]; a free block before it absorbs the result. *)
Fixpoint release (p a : Z) (l : list block) : list block :=
  match l with
  | [] => []
  | b :: l' =>
      if a =? p then absorb (Block (b_size b) true :: l')
      else
        let l'' := release p (a + 16 + b_size b) l' in
        if b_free b && (a + 16 + b_size b =? p) then absorb (b :: l'') else b :: l''
  end.

(** No two neighbours are both free. *)
Fixpoint packed (l : list block) : Prop :=
  match l with
  | b :: (n :: _) as l' => (b_free b && b_free n = false) /\ packed l'
  | _ => True
  end.

(** Address [x] lies in the payload of a block in use. *)
Fixpoint used_payload (a : Z) (l : list block) (x : Z) : Prop :=
  match l with
  | [] => False
  | b :: l =>
      (b_free b = false /\ a + 16 <= x < a + 16 + b_size b) \/
      used_payload (a + 16 + b_size b) l x
  end.

(** A block in use with its payload at [ptr]. *)
Definition allocated (base : Z) (l : list block) (ptr size : Z) : Prop :=
  exists l1 l2, l = l1 ++ Block size false :: l2 /\ ptr = end_of base l1 + 16.

Arguments absorb : simpl never.

(** ** Block lists *)

Lemma end_of_app a l1 l2 : end_of a (l1 ++ l2) = end_of (end_of a l1) l2.
Proof. revert a. induction l1 as [|b l1 IH]; intros a; simpl; auto. Qed.

Lemma end_of_ge a l : Forall (fun b => 0 <= b_size b) l -> a + 16 * Z.of_nat (length l) <= end_of a l.
Proof.
  intros H. revert a. induction H as [|b l Hb _ IH]; intros a; simpl; [lia|].
  specialize (IH (a + 16 + b_size b)). lia.
Qed.

Lemma end_of_mono a l : Forall (fun b => 0 <= b_size b) l -> a <= end_of a l.
Proof. intros H. pose proof (end_of_ge a l H). lia. Qed.

Lemma link_app e l l' next : l <> [] -> link e (l ++ l') next = e.
Proof. by destruct l. Qed.

(** Cut a layout at a block. *)
Lemma seg_split m prev a l1 b l2 next :
  seg m prev a (l1 ++ b :: l2) next <->
  seg m prev a l1 (end_of a l1) /\
  hdr m (end_of a l1) b (link (end_of a l1 + 16 + b_size b) l2 next) (last_of prev a l1) /\
  seg m (end_of a l1) (end_of a l1 + 16 + b_size b) l2 next.
Proof.
  revert prev a. induction l1 as [|c l1 IH]; intros prev a; simpl; [tauto|].
  rewrite IH. unfold link. destruct l1; simpl; tauto.
Qed.

(** Memory changes outside a run of blocks leave it alone, but for the back pointer of
    its first block. *)
Lemma seg_reprev m m' prev prev' a l next :
  Forall (fun b => 0 <= b_size b) l ->
  (forall x, a <= x < end_of a l -> x <> h_prev a -> ld m' x = ld m x) ->
  (l <> [] -> ld m' (h_prev a) = prev') ->
  seg m prev a l next -> seg m' prev' a l next.
Proof.
  intros Hs. revert prev prev' a. induction Hs as [|b l Hb Hl IH]; intros prev prev' a Hx Hp Hseg; [done|].
  destruct Hseg as [(H1 & H2 & H3 & H4) Hseg]. pose proof (end_of_mono (a + 16 + b_size b) l Hl).
  simpl in Hx. unfold h_prev in *. split.
  - unfold hdr, h_size, h_free, h_next, h_prev in *. rewrite !Hx by lia. split_and!; try done. by apply Hp.
  - apply (IH a); [|intros Hne|done].
    + intros x Hr Hxx. apply Hx; lia.
    + destruct l as [|c l]; [done|]. simpl in H. destruct Hseg as [(_ & _ & _ & H4') _].
      inversion_clear Hl as [|? ? Hc Hl'].
      pose proof (end_of_mono (a + 16 + b_size b + 16 + b_size c) l Hl').
      rewrite Hx; [exact H4'|simpl; lia|lia].
Qed.

Lemma seg_same m m' prev a l next :
  Forall (fun b => 0 <= b_size b) l ->
  (forall x, a <= x < end_of a l -> ld m' x = ld m x) ->
  seg m prev a l next -> seg m' prev a l next.
Proof.
  intros Hs Hx Hseg. apply (seg_reprev m m' prev); auto.
  intros Hne. destruct l as [|b l]; [done|]. inversion_clear Hs as [|? ? Hb Hl].
  pose proof (end_of_mono (a + 16 + b_size b) l Hl). simpl in Hx.
  rewrite Hx by (unfold h_prev; lia). apply Hseg.
Qed.

(** Changing the link that follows a run changes its last next pointer only. *)
Lemma seg_app_link m prev a l1 l2 next :
  seg m prev a (l1 ++ l2) next <->
  seg m prev a l1 (link (end_of a l1) l2 next) /\ seg m (last_of prev a l1) (end_of a l1) l2 next.
Proof.
  revert prev a. induction l1 as [|c l1 IH]; intros prev a; simpl; [tauto|].
  rewrite IH. unfold link. destruct l1, l2; simpl; tauto.
Qed.

Lemma used_app a l1 l2 x :
  used_payload a (l1 ++ l2) x <-> used_payload a l1 x \/ used_payload (end_of a l1) l2 x.
Proof. revert a. induction l1 as [|b l1 IH]; intros a; simpl; [tauto|]. rewrite IH. tauto. Qed.

Lemma used_range a l x : Forall (fun b => 0 <= b_size b) l ->
  used_payload a l x -> a + 16 <= x < end_of a l.
Proof.
  intros H. revert a. induction H as [|b l Hb Hl IH]; intros a; simpl; [done|].
  pose proof (end_of_mono (a + 16 + b_size b) l Hl).
  intros [[_ ?]|Hu]; [lia|]. apply IH in Hu. lia.
Qed.

Lemma sizes_app l1 l2 : Forall (fun b => 0 <= b_size b) (l1 ++ l2) <->
  Forall (fun b => 0 <= b_size b) l1 /\ Forall (fun b => 0 <= b_size b) l2.
Proof. apply list.Forall_app. Qed.

Lemma sizes_cons b l : Forall (fun b => 0 <= b_size b) (b :: l) <->
  0 <= b_size b /\ Forall (fun b => 0 <= b_size b) l.
Proof. split; [intros H; by inversion H|intros []; by constructor]. Qed.

(** ** Splitting and merging in memory *)

Section InPlace.
Variables (m : mem) (base lim : Z) (l1 old l2 : list block).
Hypotheses (Hbase : 32 <= base) (Hlim : lim < 2 ^ 32)
  (Hseg : seg m 0 base (l1 ++ old ++ l2) 0) (Hend : end_of base (l1 ++ old ++ l2) = lim)
  (Hsz : Forall (fun b => 0 <= b_size b) (l1 ++ old ++ l2)) (Hold : old <> []).

Let a : Z := end_of base l1.
Let e : Z := end_of a old.

(** What the blocks at [a] and the back pointer at [e] may become. *)
Definition only_blocks (m' : mem) : Prop :=
  forall x, ~ (a <= x < e) -> (l2 = [] \/ x <> h_prev e) -> ld m' x = ld m x.

Lemma place : 32 <= base <= a /\ a + 16 <= e /\ e + 16 * Z.of_nat (length l2) <= lim < 2 ^ 32.
Proof.
  pose proof (proj1 (sizes_app _ _) Hsz) as [H1 [Ho H2]%sizes_app].
  rewrite !end_of_app in Hend. fold a e in Hend.
  pose proof (end_of_mono base l1 H1) as Hl1. pose proof (end_of_ge e l2 H2).
  pose proof (end_of_ge a old Ho) as Hl. fold a in Hl1. fold e in Hl.
  destruct old; [done|]. simpl in Hl. lia.
Qed.

(** A rewrite of the blocks [old], whose extent stays the same, and of the back
    pointer behind them. *)
Lemma seg_replace m' (new : list block) :
  Forall (fun b => 0 <= b_size b) new -> new <> [] -> end_of a new = e ->
  only_blocks m' ->
  (l2 <> [] -> ld m' (h_prev e) = last_of 0 a new) ->
  seg m' (last_of 0 base l1) a new (link e l2 0) ->
  seg m' 0 base (l1 ++ new ++ l2) 0.
Proof.
  intros Hn Hne He Hx Hp Hnew. pose proof place as (P1 & P2 & P3).
  pose proof (proj1 (seg_app_link _ _ _ _ _ _) Hseg) as [S1 [_ S2]%seg_app_link]. fold a e in S1, S2.
  pose proof (proj1 (sizes_app _ _) Hsz) as [H1 [_ H2]%sizes_app].
  apply seg_app_link. split; [|apply seg_app_link; fold a; rewrite He; split].
  - rewrite link_app in S1 |- * by done.
    apply (seg_same m); [done| |exact S1]. intros x Hr. fold a in Hr.
    apply Hx; [lia|]. right. unfold h_prev. lia.
  - exact Hnew.
  - apply (seg_reprev m _ (last_of (last_of 0 base l1) a old)); [done| | |exact S2].
    + intros x Hr Hxx. apply Hx; [lia|by right].
    + intros Hne2. rewrite Hp by done. by destruct new.
Qed.

(** Payloads in use elsewhere keep their contents. *)
Lemma only_blocks_payload m' x : only_blocks m' ->
  used_payload base l1 x \/ used_payload e l2 x -> ld m' x = ld m x.
Proof.
  intros Hx Hu. pose proof place as (P1 & P2 & P3).
  pose proof (proj1 (sizes_app _ _) Hsz) as [H1 [_ H2]%sizes_app].
  assert (base + 16 <= x < a \/ e + 16 <= x) as Hr.
  { destruct Hu as [Hu|Hu]; [left; by apply used_range|right; by apply used_range in Hu as [? _]]. }
  apply Hx; [lia|]. right. unfold h_prev. lia.
Qed.
End InPlace.

Ltac fields := unfold h_size, h_free, h_next, h_prev in *.

(** Read back a chain of header writes. *)
Ltac readback := repeat (rewrite ld_st_eq || rewrite ld_st_ne by lia).

Section OneBlock.
Variables (m : mem) (base lim : Z) (l1 l2 : list block) (b : block).
Hypotheses (Hbase : 32 <= base) (Hlim : lim < 2 ^ 32)
  (Hseg : seg m 0 base (l1 ++ b :: l2) 0) (Hend : end_of base (l1 ++ b :: l2) = lim)
  (Hsz : Forall (fun b => 0 <= b_size b) (l1 ++ b :: l2)).

Let a : Z := end_of base l1.
Let e : Z := a + 16 + b_size b.

Lemma place1 : 32 <= base <= a /\ 0 <= b_size b /\ e = a + 16 + b_size b /\
  e + 16 * Z.of_nat (length l2) <= lim < 2 ^ 32.
Proof.
  pose proof (place m base lim l1 [b] l2 Hbase Hlim Hseg Hend Hsz ltac:(done)) as (P1 & P2 & P3).
  pose proof (proj1 (sizes_app _ _) Hsz) as [_ [Hb _]%sizes_cons].
  split; [done|]. split; [done|]. split; [done|]. exact P3.
Qed.

Lemma only_one m' : only_blocks m base l1 [b] l2 m' <->
  forall x, ~ (a <= x < e) -> (l2 = [] \/ x <> h_prev e) -> ld m' x = ld m x.
Proof. done. Qed.

Lemma replace_one m' (new : list block) :
  Forall (fun b => 0 <= b_size b) new -> new <> [] -> end_of a new = e ->
  only_blocks m base l1 [b] l2 m' ->
  (l2 <> [] -> ld m' (h_prev e) = last_of 0 a new) ->
  seg m' (last_of 0 base l1) a new (link e l2 0) ->
  seg m' 0 base (l1 ++ new ++ l2) 0.
Proof. by apply (seg_replace m base lim l1 [b]). Qed.

Lemma block_hdr : hdr m a b (link e l2 0) (last_of 0 base l1).
Proof. apply seg_split in Hseg as (_ & H & _). exact H. Qed.

Lemma split_spec want : b_free b = true -> 0 <= want <= b_size b ->
  let m' := st (block_split a want m) (h_free a) 0 in
  seg m' 0 base (l1 ++ carve want b ++ l2) 0 /\ only_blocks m base l1 [b] l2 m'.
Proof.
  intros Hfree Hw. pose proof place1 as (P1 & P2 & P3 & P4).
  pose proof block_hdr as (B1 & B2 & B3 & B4). rewrite Hfree in B2.
  unfold block_split, carve, HEADER_SIZE, MIN_PAYLOAD. rewrite B1.
  rewrite (u32_small (want + 16 + 16)) by wsolve. replace (want + 16 + 16) with (want + 32) by lia.
  destruct (Z.ltb_spec (b_size b) (want + 32)) as [Hsmall|Hbig].
  - assert (forall x, x <> h_free a -> ld (st m (h_free a) 0) x = ld m x) as Hx by (intros; apply ld_st_ne; lia).
    assert (only_blocks m base l1 [b] l2 (st m (h_free a) 0)) as Ho by (apply only_one; intros x Hr _; apply Hx; fields; lia).
    split; [|exact Ho]. apply replace_one; [by repeat constructor|done|done|exact Ho| |].
    + intros Hne. rewrite Hx by (fields; lia). destruct l2 as [|c l2']; [done|].
      apply seg_split in Hseg as (_ & _ & [(_ & _ & _ & Hp) _]). exact Hp.
    + simpl. split; [|done]. unfold hdr. rewrite ld_st_eq, !Hx by (fields; lia). done.
  - rewrite (u32_small (a + 16 + want)) by wsolve.
    rewrite (u32_small (b_size b - want - 16)) by wsolve.
    set (r := a + 16 + want) in *.
    cbv zeta. match goal with |- seg ?t _ _ _ _ /\ _ => set (m' := t) end.
    assert (ld m' a = want /\ ld m' (a + 4) = 0 /\ ld m' (a + 8) = r /\ ld m' (a + 12) = last_of 0 base l1 /\
      ld m' r = b_size b - want - 16 /\ ld m' (r + 4) = 1 /\ ld m' (r + 8) = link e l2 0 /\
      ld m' (r + 12) = a /\ (l2 <> [] -> ld m' (e + 12) = r) /\ only_blocks m base l1 [b] l2 m')
      as (E1 & E2 & E3 & E4 & E5 & E6 & E7 & E8 & E9 & E10).
    { rewrite only_one. unfold m'. fields. clear m'. clearbody e a.
      destruct l2 as [|c l2']; simpl link in *;
        repeat (rewrite ld_st_eq || rewrite ld_st_ne by (unfold r; lia));
        rewrite B3; simpl (negb _);
        [|rewrite (proj2 (Z.eqb_neq e 0)) by lia; simpl (negb _)];
        split_and!; intros;
        try match goal with H : _ = [] \/ _ |- _ => destruct H; [try discriminate|] end;
        repeat (rewrite ld_st_eq || rewrite ld_st_ne by (unfold r in *; lia)); done. }
    split; [|exact E10]. apply replace_one; [ | | |exact E10| |].
    + constructor; [simpl; lia|]. constructor; [simpl; lia|constructor].
    + done.
    + simpl. unfold e. lia.
    + intros Hne. simpl. fields. rewrite E9 by done. unfold r. lia.
    + simpl. unfold hdr. fields. rewrite E1, E2, E3, E4. fold r. rewrite E5, E6, E7, E8. done.
Qed.

(** Marking the block free. *)
Lemma mark_free_spec :
  let m' := st m (h_free a) 1 in
  seg m' 0 base (l1 ++ Block (b_size b) true :: l2) 0 /\ only_blocks m base l1 [b] l2 m'.
Proof.
  pose proof place1 as (P1 & P2 & P3 & P4). pose proof block_hdr as (B1 & B2 & B3 & B4). cbv zeta.
  assert (forall x, x <> h_free a -> ld (st m (h_free a) 1) x = ld m x) as Hx by (intros; apply ld_st_ne; lia).
  assert (only_blocks m base l1 [b] l2 (st m (h_free a) 1)) as Ho by (apply only_one; intros x Hr _; apply Hx; fields; lia).
  split; [|exact Ho]. apply (replace_one _ [Block (b_size b) true]); [by repeat constructor|done|done|exact Ho| |].
  - intros Hne. rewrite Hx by (fields; lia). destruct l2 as [|c l2']; [done|].
    apply seg_split in Hseg as (_ & _ & [(_ & _ & _ & Hp) _]). exact Hp.
  - simpl. split; [|done]. unfold hdr. rewrite ld_st_eq, !Hx by (fields; lia). done.
Qed.
End OneBlock.

Lemma absorb_sizes b l : Forall (fun b => 0 <= b_size b) (b :: l) ->
  Forall (fun b => 0 <= b_size b) (absorb (b :: l)).
Proof.
  destruct l as [|n l]; unfold absorb; simpl; [done|]. destruct (b_free n); [|done].
  intros [Hb [Hn Hl]%sizes_cons]%sizes_cons. apply sizes_cons. simpl. split; [lia|done].
Qed.

Lemma absorb_end a b l : end_of a (absorb (b :: l)) = end_of a (b :: l).
Proof. destruct l as [|n l]; unfold absorb; simpl; [done|]. destruct (b_free n); simpl; [|done]. f_equal. lia. Qed.

(** Merging a free block with a free successor. *)
Lemma coalesce_spec m base lim l1 l2 b : 32 <= base -> lim < 2 ^ 32 ->
  seg m 0 base (l1 ++ b :: l2) 0 -> end_of base (l1 ++ b :: l2) = lim ->
  Forall (fun b => 0 <= b_size b) (l1 ++ b :: l2) -> b_free b = true ->
  let m' := block_coalesce (end_of base l1) m in
  seg m' 0 base (l1 ++ absorb (b :: l2)) 0 /\
  forall x, used_payload base (l1 ++ b :: l2) x -> ld m' x = ld m x.
Proof.
  intros Hbase Hlim Hseg Hend Hsz Hfree m'. set (a := end_of base l1) in *.
  pose proof (block_hdr m base l1 l2 b Hseg) as (B1 & B2 & B3 & B4). fold a in B1, B2, B3, B4.
  unfold m', block_coalesce. clear m'. rewrite B3.
  destruct l2 as [|n l3]; simpl link; [by split|].
  pose proof (place1 m base lim l1 (n :: l3) b Hbase Hlim Hseg Hend Hsz) as (P1 & P2 & P3 & P4). fold a in P1, P3, P4.
  set (e := a + 16 + b_size b) in *. set (e2 := e + 16 + b_size n).
  pose proof (proj1 (seg_split _ _ _ _ _ _ _) Hseg) as (_ & _ & [(N1 & N2 & N3 & N4) S3]). fold a e e2 in N1, N2, N3, N4, S3.
  rewrite N2, (proj2 (Z.eqb_neq e 0)) by lia. simpl negb.
  unfold absorb. destruct (b_free n) eqn:Hn; simpl; [|by split].
  rewrite B1, N1. unfold HEADER_SIZE.
  assert (Hsz' : Forall (fun b => 0 <= b_size b) (l1 ++ [b; n] ++ l3)) by done.
  pose proof (proj1 (sizes_app _ _) Hsz') as [_ [[_ [Hns _]%sizes_cons]%sizes_cons Hl3]%sizes_app].
  pose proof (place m base lim l1 [b; n] l3 Hbase Hlim Hseg Hend Hsz' ltac:(done)) as (_ & _ & Q).
  change (end_of (end_of base l1) [b; n]) with e2 in Q.
  rewrite (u32_small (b_size b + (16 + b_size n))) by (unfold e2 in Q; wsolve).
  assert (a + 32 <= e2 /\ a + 16 <= e /\ e + 16 <= e2) as (Q1 & Q2 & Q3) by (unfold e2; lia).
  set (m1 := st m (h_size a) _). set (m2 := st m1 (h_next a) _).
  match goal with |- seg ?t _ _ _ _ /\ _ => set (m' := t) end.
  assert (ld m1 (h_next e) = link e2 l3 0) as Hm1 by (unfold m1; fields; readback; exact N3).
  assert (ld m2 (h_next e) = link e2 l3 0) as Hm2 by (unfold m2; fields; readback; exact Hm1).
  assert (ld m' a = b_size b + (16 + b_size n) /\ ld m' (a + 4) = 1 /\ ld m' (a + 8) = link e2 l3 0 /\
    ld m' (a + 12) = last_of 0 base l1 /\ (l3 <> [] -> ld m' (e2 + 12) = a) /\
    only_blocks m base l1 [b; n] l3 m') as (E1 & E2 & E3 & E4 & E5 & E6).
  { change (only_blocks m base l1 [b; n] l3 m') with
      (forall x, ~ (a <= x < e2) -> (l3 = [] \/ x <> h_prev e2) -> ld m' x = ld m x).
    unfold m'. rewrite Hm2. unfold m2. rewrite Hm1. unfold m1. rewrite Hfree in B2. fields.
    clear m' m2 m1 Hm1 Hm2. clearbody e2 e a.
    destruct l3 as [|c l3']; simpl (link _ _ _) in *; [simpl (negb _)|rewrite (proj2 (Z.eqb_neq e2 0)) by lia; simpl (negb _)];
      split_and!; intros;
      try match goal with H : _ = [] \/ _ |- _ => destruct H; [try discriminate|] end;
      readback; done. }
  assert (seg m' 0 base (l1 ++ [Block (b_size b + 16 + b_size n) (b_free b)] ++ l3) 0) as Hgoal.
  { apply (seg_replace m base lim l1 [b; n]); try done.
    - repeat constructor. simpl. lia.
    - simpl. fold a. lia.
    - simpl. split; [|done]. unfold hdr. fields. fold a. simpl. rewrite E1, E2, E3, E4, Hfree.
      split_and!; [lia|done|done|done]. }
  split; [exact Hgoal|]. intros x Hu.
  apply (only_blocks_payload m base lim l1 [b; n] l3); try done.
  change (b :: n :: l3) with ([b; n] ++ l3) in Hu. rewrite !used_app in Hu.
  destruct Hu as [Hu|[Hu|Hu]]; [by left| |by right].
  simpl in Hu. rewrite Hfree, Hn in Hu. destruct Hu as [[? _]|[[? _]|[]]]; discriminate.
Qed.

(** ** Refinement *)

Lemma fit_cases want a l :
  match fit want a l with
  | Some (p, l') => exists l1 b l2, l = l1 ++ b :: l2 /\ p = end_of a l1 /\
      l' = l1 ++ carve want b ++ l2 /\ fits want b = true /\ Forall (fun c => fits want c = false) l1
  | None => Forall (fun c => fits want c = false) l
  end.
Proof.
  revert a. induction l as [|c l IH]; intros a; simpl; [constructor|].
  destruct (fits want c) eqn:Hc; [by exists [], c, l|]. specialize (IH (a + 16 + b_size c)).
  destruct (fit want (a + 16 + b_size c) l) as [[p l']|]; [|by constructor].
  destruct IH as (l1 & b & l2 & -> & -> & -> & Hb & Hl).
  exists (c :: l1), b, l2. split_and!; try done. by constructor.
Qed.

(** The walk over the headers finds the block the list function takes. *)
Lemma find_fit_spec m want : forall l prev a fuel,
  seg m prev a l 0 -> Forall (fun b => 0 <= b_size b) l -> 0 < a -> (length l < fuel)%nat ->
  find_fit fuel m want (link a l 0) = Some match fit want a l with Some (p, _) => p | None => 0 end.
Proof.
  induction l as [|b l IH]; intros prev a fuel Hseg Hs Ha Hf; (destruct fuel as [|fuel]; [simpl in Hf; lia|]); simpl; [done|].
  destruct Hseg as [(H1 & H2 & H3 & H4) Hseg]. apply sizes_cons in Hs as [Hb Hl].
  rewrite (proj2 (Z.eqb_neq a 0)) by lia. rewrite H1, H2, H3.
  assert (negb ((if b_free b then 1 else 0) =? 0) && (want <=? b_size b) = fits want b) as ->
    by (unfold fits; by destruct (b_free b)).
  destruct (fits want b); [done|]. simpl in Hf. rewrite (IH a) by (done || lia).
  by destruct (fit want (a + 16 + b_size b) l) as [[p l']|].
Qed.

Lemma walk_fuel_enough h l : heap_rep h l -> (length l < walk_fuel h)%nat.
Proof.
  intros [_ _ Ht Hs _ _ _]. pose proof (end_of_ge (heap_base h) l Hs). unfold walk_fuel, HEADER_SIZE.
  assert (Z.of_nat (length l) <= heap_size h / 16) by dlia. lia.
Qed.

Lemma carve_sizes want b : 0 <= want <= b_size b -> Forall (fun b => 0 <= b_size b) (carve want b).
Proof.
  intros H. unfold carve. destruct (Z.ltb_spec (b_size b) (want + 32)); repeat constructor; simpl; lia.
Qed.
Lemma carve_end a want b : end_of a (carve want b) = a + 16 + b_size b.
Proof. unfold carve. destruct (b_size b <? want + 32); simpl; lia. Qed.

(** The aligned size the allocator looks for. *)
Definition want_of (size alignment : Z) : Z :=
  HEAP_ALIGN size (if alignment <? 8 then 8 else alignment).

Lemma want_of_nonneg size alignment : 0 <= want_of size alignment < 2 ^ 32.
Proof.
  unfold want_of, HEAP_ALIGN. set (al := if alignment <? 8 then 8 else alignment).
  set (x := u32 (size + al - 1)). pose proof (u32_range (size + al - 1)) as Hx. fold x in Hx.
  rewrite <- Z.ldiff_land. assert (7 <= al - 1) by (unfold al; zcases; lia).
  split; [apply Z.ldiff_nonneg; widths; lia|].
  rewrite ldiff_sub. pose proof (land_le_r x (al - 1)). unfold is_u32 in Hx. lia.
Qed.

Lemma kmalloc_refines h l size alignment : heap_rep h l -> size <> 0 ->
  match fit (want_of size alignment) (heap_base h) l with
  | Some (blk, l') => exists h', kmalloc_aligned size alignment h = Some (blk + 16, h') /\
      heap_rep h' l' /\ heap_base h' = heap_base h /\ heap_size h' = heap_size h /\
      forall x, used_payload (heap_base h) l x -> ld (h_mem h') x = ld (h_mem h) x
  | None => kmalloc_aligned size alignment h = Some (0, h)
  end.
Proof.
  intros Hr Hsz. pose proof (walk_fuel_enough h l Hr) as Hfuel. pose proof (want_of_nonneg size alignment) as Hw.
  destruct Hr as [Hhead Hseg Htile Hs Hne Hbase Hbound].
  unfold kmalloc_aligned. rewrite Hhead, (proj2 (Z.eqb_neq (heap_base h) 0)) by lia.
  rewrite (proj2 (Z.eqb_neq size 0)) by done. fold (want_of size alignment). rewrite Hhead.
  assert (link (heap_base h) l 0 = heap_base h) as Hlink by by destruct l.
  pose proof (find_fit_spec (h_mem h) (want_of size alignment) l 0 (heap_base h) (walk_fuel h) Hseg Hs
    ltac:(lia) Hfuel) as Hff. rewrite Hlink in Hff. rewrite Hff.
  pose proof (fit_cases (want_of size alignment) (heap_base h) l) as Hfit.
  destruct (fit (want_of size alignment) (heap_base h) l) as [[blk l']|]; [|done].
  destruct Hfit as (l1 & b & l2 & -> & -> & -> & Hf & _).
  apply andb_true_iff in Hf as [Hfree Hle%Z.leb_le].
  pose proof (place1 (h_mem h) (heap_base h) _ l1 l2 b Hbase Hbound Hseg Htile Hs) as (P1 & P2 & P3 & P4).
  destruct (split_spec (h_mem h) (heap_base h) _ l1 l2 b Hbase Hbound Hseg Htile Hs (want_of size alignment) Hfree)
    as [Hseg' Honly]; [lia|].
  rewrite (proj2 (Z.eqb_neq (end_of (heap_base h) l1) 0)) by lia.
  unfold HEADER_SIZE. rewrite u32_small by wsolve. eexists. split; [reflexivity|]. simpl.
  split; [|split; [done|split; [done|]]].
  - pose proof (proj1 (sizes_app _ _) Hs) as [H1 [Hb H2]%sizes_cons].
    split; simpl; try done.
    + rewrite <- Htile, !end_of_app, carve_end. done.
    + apply sizes_app. split; [done|]. apply sizes_app. split; [apply carve_sizes; lia|done].
    + unfold carve. destruct l1; [|done]. by destruct (b_size b <? _).
  - intros x Hu. apply (only_blocks_payload (h_mem h) (heap_base h) _ l1 [b] l2) with (1 := Hbase) (2 := Hbound); try done.
    rewrite used_app in Hu. simpl in Hu. rewrite Hfree in Hu. destruct Hu as [?|[[? _]|?]]; [by left|done|by right].
Qed.

Lemma release_first p a b l : a = p -> release p a (b :: l) = absorb (Block (b_size b) true :: l).
Proof. intros ->. simpl. by rewrite Z.eqb_refl. Qed.

(** Freeing the block after [q]. *)
Lemma release_mid a l0 q b l2 : Forall (fun b => 0 <= b_size b) (l0 ++ [q]) ->
  release (end_of a (l0 ++ [q])) a (l0 ++ q :: b :: l2) =
  l0 ++ (if b_free q then absorb else id) (q :: absorb (Block (b_size b) true :: l2)).
Proof.
  revert a. induction l0 as [|c l0 IH]; intros a Hs.
  - apply sizes_cons in Hs as [Hq _]. simpl.
    rewrite (proj2 (Z.eqb_neq a (a + 16 + b_size q))) by lia. rewrite !Z.eqb_refl, andb_true_r.
    by destruct (b_free q).
  - simpl in Hs |- *. apply sizes_cons in Hs as [Hc Hs].
    pose proof (end_of_ge (a + 16 + b_size c) (l0 ++ [q]) Hs) as Hge. rewrite length_app in Hge. simpl in Hge.
    rewrite (proj2 (Z.eqb_neq a _)) by lia.
    rewrite (proj2 (Z.eqb_neq (a + 16 + b_size c) _)) by lia. rewrite andb_false_r. by rewrite IH.
Qed.

Lemma last_of_snoc prev a l q : last_of prev a (l ++ [q]) = end_of a l.
Proof. revert prev a. induction l as [|c l IH]; intros prev a; simpl; auto. Qed.

Lemma absorb_free b l : exists b' l', absorb (b :: l) = b' :: l' /\ b_free b' = b_free b.
Proof. destruct l as [|n l]; unfold absorb; simpl; [by eexists _, _|]. destruct (b_free n); by eexists _, _. Qed.

(** Merging frees payload, it never claims any. *)
Lemma used_absorb a b l x : b_free b = true ->
  used_payload a (absorb (b :: l)) x <-> used_payload a (b :: l) x.
Proof.
  intros Hb. destruct l as [|n l]; [done|]. unfold absorb. destruct (b_free n) eqn:Hn; [|done].
  simpl. rewrite Hb, Hn.
  replace (a + 16 + (b_size b + 16 + b_size n)) with (a + 16 + b_size b + 16 + b_size n) by lia.
  split; [intros [[]|]|intros [[]|[[]|]]]; auto; done.
Qed.

(** Everything [heap_rep] says of the memory. *)
Record layout (m : mem) (base lim : Z) (l : list block) : Prop := {
  ly_base : 32 <= base;
  ly_lim : lim < 2 ^ 32;
  ly_seg : seg m 0 base l 0;
  ly_end : end_of base l = lim;
  ly_sizes : Forall (fun b => 0 <= b_size b) l
}.

(** [m'] holds what [m] holds in the payloads of [l] in use. *)
Definition payload_kept (base : Z) (l : list block) (m m' : mem) : Prop :=
  forall x, used_payload base l x -> ld m' x = ld m x.

Lemma rep_layout h l : heap_rep h l -> layout (h_mem h) (heap_base h) (heap_base h + heap_size h) l.
Proof. by intros [? ? ? ? ? ? ?]. Qed.

Lemma layout_rep h l m' : layout m' (heap_base h) (heap_base h + heap_size h) l -> l <> [] ->
  heap_head h = heap_base h -> heap_rep (with_mem h m') l.
Proof. intros [? ? ? ? ?] ? ?. by split. Qed.

Lemma layout_mark m base lim l1 l2 b : layout m base lim (l1 ++ b :: l2) ->
  let m' := st m (h_free (end_of base l1)) 1 in
  let l' := l1 ++ Block (b_size b) true :: l2 in
  layout m' base lim l' /\ payload_kept base l' m m'.
Proof.
  intros [Hb Hlim Hseg Ht Hs] m' l'.
  destruct (mark_free_spec _ _ _ _ _ _ Hb Hlim Hseg Ht Hs) as [S1 F1]. split.
  - split; try done.
    + rewrite <- Ht. unfold l'. by rewrite !end_of_app.
    + apply sizes_app in Hs as [? [? ?]%sizes_cons]. apply sizes_app. split; [done|]. by apply sizes_cons.
  - intros x Hu. apply (only_blocks_payload _ _ _ l1 [b] l2) with (1 := Hb) (2 := Hlim); try done.
    unfold l' in Hu. rewrite used_app in Hu. simpl in Hu. destruct Hu as [?|[[]|?]]; [by left|done|by right].
Qed.

Lemma layout_coalesce m base lim l1 l2 b : layout m base lim (l1 ++ b :: l2) -> b_free b = true ->
  let m' := block_coalesce (end_of base l1) m in
  layout m' base lim (l1 ++ absorb (b :: l2)) /\ payload_kept base (l1 ++ b :: l2) m m'.
Proof.
  intros [Hb Hlim Hseg Ht Hs] Hfree m'.
  destruct (coalesce_spec m _ _ l1 l2 b Hb Hlim Hseg Ht Hs Hfree) as [S2 U2]. split; [|done].
  split; try done.
  - rewrite <- Ht, !end_of_app. apply absorb_end.
  - apply sizes_app in Hs as [? ?]. apply sizes_app. split; [done|]. by apply absorb_sizes.
Qed.

(** Back pointer and predecessor of a block. *)
Lemma layout_prev m base lim l0 q l2 : layout m base lim (l0 ++ q :: l2) -> l2 <> [] ->
  end_of base l0 <> 0 /\
  ld m (h_prev (end_of base (l0 ++ [q]))) = end_of base l0 /\
  ld m (h_free (end_of base l0)) = (if b_free q then 1 else 0).
Proof.
  intros [Hb Hlim Hseg Ht Hs] Hne. pose proof (proj1 (seg_split _ _ _ _ _ _ _) Hseg) as (_ & (_ & Q2 & _) & S2).
  apply sizes_app in Hs as [Hs0 _]. pose proof (end_of_mono base l0 Hs0).
  split; [lia|]. split; [|exact Q2]. destruct l2 as [|c l2]; [done|].
  rewrite end_of_app. simpl. apply S2.
Qed.

Section Free.
Variables (h : heap) (l1 l2 : list block) (size : Z).
Let l := l1 ++ Block size false :: l2.
Hypothesis Hr : heap_rep h l.
Let ptr := end_of (heap_base h) l1 + 16.

Lemma ptr_blk : u32 (ptr - HEADER_SIZE) = end_of (heap_base h) l1 /\ ptr <> 0.
Proof.
  destruct (rep_layout _ _ Hr) as [Hb Hlim Hseg Ht Hs].
  pose proof (place1 _ _ _ _ _ _ Hb Hlim Hseg Ht Hs) as (P1 & P2 & P3 & P4).
  unfold ptr, HEADER_SIZE. split; [|lia]. rewrite u32_small by wsolve. lia.
Qed.

(** Marking and merging forward, then merging into a free predecessor. *)
Lemma kfree_layout : exists m',
  kfree ptr h = with_mem h m' /\
  layout m' (heap_base h) (heap_base h + heap_size h) (release (end_of (heap_base h) l1) (heap_base h) l) /\
  payload_kept (heap_base h) (l1 ++ Block size true :: l2) (h_mem h) m'.
Proof.
  destruct ptr_blk as [Hblk Hnz]. unfold kfree. rewrite (proj2 (Z.eqb_neq ptr 0) Hnz), Hblk. clear Hblk Hnz ptr.
  destruct (layout_mark _ _ _ _ _ _ (rep_layout _ _ Hr)) as [L1 U1]. simpl b_size in L1, U1.
  set (m1 := st (h_mem h) _ 1) in *.
  destruct (layout_coalesce _ _ _ _ _ _ L1 eq_refl) as [L2 U2].
  set (m2 := block_coalesce _ m1) in *. eexists. split; [reflexivity|].
  assert (payload_kept (heap_base h) (l1 ++ Block size true :: l2) (h_mem h) m2) as U12.
  { intros x Hu. by rewrite U2, U1. }
  clear Hr. unfold l. destruct l1 as [|q l0 _] using rev_ind.
  - rewrite app_nil_l, release_first by done. simpl end_of. simpl b_size.
    destruct (absorb_free (Block size true) l2) as (b' & l' & Ha & _). rewrite app_nil_l in L2. rewrite Ha in L2 |- *.
    destruct (ly_seg _ _ _ _ L2) as [(_ & _ & _ & Hp) _]. rewrite Hp. by split.
  - rewrite <- !app_assoc in *. simpl app in *.
    destruct (absorb_free (Block size true) l2) as (b' & l' & Ha & Hb').
    pose proof (ly_sizes _ _ _ _ L2) as [S0 [Sq _]%sizes_cons]%sizes_app. rewrite Ha in L2.
    destruct (layout_prev _ _ _ _ _ _ L2 ltac:(done)) as (Hq0 & -> & ->).
    rewrite (release_mid (heap_base h) l0 q (Block size false) l2)
      by (apply sizes_app; split; [done|by repeat constructor]).
    simpl b_size. rewrite Ha, (proj2 (Z.eqb_neq _ 0) Hq0).
    destruct (b_free q) eqn:Hq; simpl; [|by split].
    destruct (layout_coalesce _ _ _ _ _ _ L2 Hq) as [L3 U3]. split; [exact L3|].
    intros x Hu. rewrite U3; [by apply U12|]. rewrite used_app in Hu |- *. destruct Hu as [?|Hu]; [by left|right].
    destruct Hu as [[? _]|Hu]; [congruence|]. right. rewrite <- Ha. by apply used_absorb.
Qed.

Lemma kfree_refines :
  heap_rep (kfree ptr h) (release (end_of (heap_base h) l1) (heap_base h) l) /\
  heap_base (kfree ptr h) = heap_base h /\ heap_size (kfree ptr h) = heap_size h /\
  payload_kept (heap_base h) (l1 ++ Block size true :: l2) (h_mem h) (h_mem (kfree ptr h)).
Proof.
  destruct kfree_layout as (m' & -> & L & U). split; [|by split_and!].
  apply layout_rep; [exact L| |apply (hr_head _ _ Hr)].
  intros E. rewrite E in L. pose proof (hr_tile _ _ Hr) as Ht. pose proof (ly_end _ _ _ _ L) as He. simpl in He.
  pose proof (end_of_ge (heap_base h) l (hr_sizes _ _ Hr)) as Hg.
  pose proof (hr_some _ _ Hr). destruct l as [|b l']; [done|]. simpl length in Hg. lia.
Qed.
End Free.

(** ** Invariants of the block list *)

Definition free_head (l : list block) : bool := match l with b :: _ => b_free b | [] => false end.
Fixpoint free_last (l : list block) : bool :=
  match l with [] => false | [b] => b_free b | _ :: l => free_last l end.

Lemma packed_cons b l : packed (b :: l) <-> b_free b && free_head l = false /\ packed l.
Proof. destruct l as [|n l]; simpl; [|done]. rewrite andb_false_r. tauto. Qed.

Lemma free_last_snoc l b : free_last (l ++ [b]) = b_free b.
Proof. induction l as [|c l IH]; simpl; [done|]. rewrite IH. by destruct l. Qed.

Lemma packed_app l1 l2 :
  packed (l1 ++ l2) <-> packed l1 /\ packed l2 /\ free_last l1 && free_head l2 = false.
Proof.
  induction l1 as [|b l1 IH]; [simpl; tauto|].
  rewrite <- app_comm_cons, !packed_cons, IH. destruct l1 as [|c l1]; simpl.
  - rewrite andb_false_r. tauto.
  - change (free_last (b :: c :: l1)) with (free_last (c :: l1)). tauto.
Qed.

(** Sizes are multiples of 8 except for the last block's, which keeps the headers
    8-aligned. *)
Fixpoint even8 (l : list block) : Prop :=
  match l with
  | b :: (_ :: _) as l' => b_size b mod 8 = 0 /\ even8 l'
  | _ => True
  end.

Lemma even8_cons b l : even8 (b :: l) <-> (l = [] \/ b_size b mod 8 = 0) /\ even8 l.
Proof. destruct l; simpl; [tauto|]. split; [tauto|]. intros [[|] ?]; done. Qed.

Lemma even8_app l1 l2 : l2 <> [] ->
  even8 (l1 ++ l2) <-> Forall (fun b => b_size b mod 8 = 0) l1 /\ even8 l2.
Proof.
  intros Hne. induction l1 as [|b l1 IH].
  - simpl. split; [by split|tauto].
  - rewrite <- app_comm_cons, even8_cons, IH. split.
    + intros [[H|H] [? ?]]; [|by split; [constructor|]]. apply app_eq_nil in H as [_ ?]. done.
    + intros [H ?]. inversion_clear H. tauto.
Qed.

Lemma even8_end a l : Forall (fun b => b_size b mod 8 = 0) l -> end_of a l mod 8 = a mod 8.
Proof.
  intros H. revert a. induction H as [|b l Hb _ IH]; intros a; simpl; [done|]. rewrite IH. dlia.
Qed.

Lemma carve_head want b : exists t, carve want b = Block (if b_size b <? want + 32 then b_size b else want) false :: t /\
  (t = [] /\ b_size b < want + 32 \/ t = [Block (b_size b - want - 16) true] /\ want + 32 <= b_size b).
Proof. unfold carve. destruct (Z.ltb_spec (b_size b) (want + 32)); eexists; (split; [done|auto]). Qed.

Lemma carve_packed want b l1 l2 : b_free b = true ->
  packed (l1 ++ b :: l2) -> packed (l1 ++ carve want b ++ l2).
Proof.
  intros Hf. destruct (carve_head want b) as (t & -> & Ht).
  rewrite <- app_comm_cons, !(packed_app l1), !packed_cons. simpl. rewrite Hf.
  intros (H1 & (H2 & H3) & H4). simpl in H2. rewrite andb_false_r. split; [done|]. split; [|done]. split; [done|].
  destruct Ht as [[-> _]|[-> _]]; simpl app; [done|]. by apply packed_cons.
Qed.

Lemma carve_even8 want b l1 l2 : want mod 8 = 0 ->
  even8 (l1 ++ b :: l2) -> even8 (l1 ++ carve want b ++ l2).
Proof.
  intros Hw. destruct (carve_head want b) as (t & -> & Ht).
  rewrite !even8_app, <- app_comm_cons, !even8_cons by done. intros [H1 [H2 H3]]. split; [done|].
  destruct Ht as [[-> Hlt]|[-> Hge]]; simpl app.
  - rewrite (proj2 (Z.ltb_lt _ _) Hlt). done.
  - rewrite (proj2 (Z.ltb_ge _ _) Hge). split; [by right|]. rewrite even8_cons. split; [|done].
    destruct H2 as [?|H2]; [by left|right]. simpl. dlia.
Qed.

Lemma absorb_packed b l : b_free b = true -> packed l -> packed (absorb (b :: l)).
Proof.
  intros Hb Hl. destruct l as [|n l]; [done|]. unfold absorb. destruct (b_free n) eqn:Hn.
  - apply packed_cons in Hl as [H1 H2]. rewrite Hn in H1. apply packed_cons. split; [simpl; by rewrite Hb|done].
  - apply packed_cons. split; [simpl; by rewrite Hn, andb_false_r|done].
Qed.

Lemma absorb_even8 b l : even8 (b :: l) -> even8 (absorb (b :: l)).
Proof.
  destruct l as [|n l]; [done|]. unfold absorb. destruct (b_free n); [|done].
  rewrite !even8_cons. intros [[?|Hb] [Hn Hl]]; [done|]. split; [|done].
  destruct Hn as [?|Hn]; [by left|right]. simpl. dlia.
Qed.

(** Shape of the list after a block is released, by the block before it. *)
Lemma release_shape a l1 b l2 : Forall (fun b => 0 <= b_size b) l1 ->
  let X := absorb (Block (b_size b) true :: l2) in
  release (end_of a l1) a (l1 ++ b :: l2) = l1 ++ X /\ free_last l1 = false \/
  exists l0 q, l1 = l0 ++ [q] /\ b_free q = true /\
    release (end_of a l1) a (l1 ++ b :: l2) = l0 ++ absorb (q :: X).
Proof.
  intros Hs X. destruct l1 as [|q l0 _] using rev_ind.
  - left. rewrite !app_nil_l. by rewrite release_first.
  - rewrite free_last_snoc, <- app_assoc. change ([q] ++ b :: l2) with (q :: b :: l2).
    rewrite release_mid by done. fold X.
    destruct (b_free q) eqn:Hq; [right; by exists l0, q|left]. by rewrite <- app_assoc.
Qed.

Lemma release_packed a l1 b l2 : Forall (fun b => 0 <= b_size b) l1 ->
  packed (l1 ++ b :: l2) -> packed (release (end_of a l1) a (l1 ++ b :: l2)).
Proof.
  intros Hs Hp. pose proof (proj1 (packed_app _ _) Hp) as (P1 & [_ P2]%packed_cons & _).
  pose proof (absorb_packed (Block (b_size b) true) l2 eq_refl P2) as PX.
  destruct (release_shape a l1 b l2 Hs) as [[-> Hlast]|(l0 & q & -> & Hq & ->)].
  - apply packed_app. by rewrite Hlast.
  - apply packed_app in P1 as (P0 & _ & Pq). simpl in Pq. rewrite Hq, andb_true_r in Pq.
    apply packed_app. rewrite Pq. split; [done|]. split; [|done]. by apply absorb_packed.
Qed.

Lemma release_even8 a l1 b l2 : Forall (fun b => 0 <= b_size b) l1 ->
  even8 (l1 ++ b :: l2) -> even8 (release (end_of a l1) a (l1 ++ b :: l2)).
Proof.
  intros Hs He. apply even8_app in He as [E1 E2]; [|done].
  assert (even8 (Block (b_size b) true :: l2)) as E2' by (rewrite even8_cons in E2 |- *; done).
  apply absorb_even8 in E2'.
  destruct (absorb_free (Block (b_size b) true) l2) as (b' & l' & Ha & _).
  destruct (release_shape a l1 b l2 Hs) as [[-> _]|(l0 & q & -> & Hq & ->)]; rewrite Ha in *.
  - apply even8_app; done.
  - apply list.Forall_app in E1 as [E0 Eq]. apply even8_app; [|split; [done|]].
    + destruct (absorb_free q (b' :: l')) as (? & ? & -> & _). done.
    + apply absorb_even8. apply even8_cons. split; [|done]. right. by inversion Eq.
Qed.

(** ** Allocated payloads *)

Lemma allocated_cons a b l p n :
  allocated a (b :: l) p n <-> (b_free b = false /\ n = b_size b /\ p = a + 16) \/ allocated (a + 16 + b_size b) l p n.
Proof.
  unfold allocated. split.
  - intros ([|c l1] & l2 & E & ->).
    + injection E as -> ->. by left.
    + injection E as -> ->. right. by exists l1, l2.
  - intros [(Hf & -> & ->)|(l1 & l2 & -> & ->)].
    + exists [], l. by destruct b as [s []].
    + by exists (b :: l1), l2.
Qed.

Lemma allocated_nil a p n : ~ allocated a [] p n.
Proof. by intros ([|] & ? & ? & _). Qed.

Lemma allocated_app a l1 l2 p n :
  allocated a (l1 ++ l2) p n <-> allocated a l1 p n \/ allocated (end_of a l1) l2 p n.
Proof.
  revert a. induction l1 as [|b l1 IH]; intros a; simpl.
  - pose proof (allocated_nil a p n). tauto.
  - rewrite !allocated_cons, IH. tauto.
Qed.

Lemma allocated_range a l p n : Forall (fun b => 0 <= b_size b) l -> allocated a l p n ->
  a + 16 <= p /\ 0 <= n /\ p + n <= end_of a l.
Proof.
  intros Hs (l1 & l2 & -> & ->). apply sizes_app in Hs as [H1 [Hn H2]%sizes_cons].
  rewrite end_of_app. simpl in *. pose proof (end_of_mono a l1 H1).
  pose proof (end_of_mono (end_of a l1 + 16 + n) l2 H2). lia.
Qed.

(** Two payloads in use are the same or apart, a header between them. *)
Lemma allocated_apart a l p n q k : Forall (fun b => 0 <= b_size b) l ->
  allocated a l p n -> allocated a l q k -> p = q /\ n = k \/ p + n + 16 <= q \/ q + k + 16 <= p.
Proof.
  intros Hs. revert a. induction Hs as [|b l Hb Hl IH]; intros a; [by intros []%allocated_nil|].
  rewrite !allocated_cons. intros [(_ & -> & ->)|Hp] [(_ & -> & ->)|Hq].
  - by left.
  - apply allocated_range in Hq; [lia|done].
  - apply allocated_range in Hp; [lia|done].
  - eauto.
Qed.

Lemma used_allocated a l x : used_payload a l x <-> exists p n, allocated a l p n /\ p <= x < p + n.
Proof.
  revert a. induction l as [|b l IH]; intros a; simpl.
  - split; [done|]. intros (p & n & []%allocated_nil & _).
  - rewrite IH. split.
    + intros [[Hf Hx]|(p & n & Ha & Hx)].
      * exists (a + 16), (b_size b). rewrite allocated_cons. split; [by left|lia].
      * exists p, n. rewrite allocated_cons. split; [by right|done].
    + intros (p & n & [(Hf & -> & ->)|Ha]%allocated_cons & Hx); [left; split; [done|lia]|right; eauto].
Qed.

Lemma allocated_absorb a b l p n : b_free b = true ->
  allocated a (absorb (b :: l)) p n <-> allocated (a + 16 + b_size b) l p n.
Proof.
  intros Hb. destruct l as [|c l]; unfold absorb.
  - rewrite allocated_cons, Hb. split; [intros [[]|?]|]; try done. by right.
  - destruct (b_free c) eqn:Hc; rewrite !allocated_cons; simpl; rewrite ?Hb, ?Hc.
    + replace (a + 16 + (b_size b + 16 + b_size c)) with (a + 16 + b_size b + 16 + b_size c) by lia.
      split; intros [[]|?]; try done; by right.
    + split; [intros [[]|?]; [done|]|intros ?; right]; done.
Qed.

Lemma allocated_carve a want b p n : allocated a (carve want b) p n <->
  p = a + 16 /\ n = (if b_size b <? want + 32 then b_size b else want).
Proof.
  destruct (carve_head want b) as (t & -> & Ht). rewrite allocated_cons. simpl. split.
  - intros [(_ & -> & ->)|Ha]; [done|]. destruct Ht as [[-> _]|[-> _]].
    + by apply allocated_nil in Ha.
    + apply allocated_cons in Ha as [[]|Ha]; [done|]. by apply allocated_nil in Ha.
  - intros [-> ->]. by left.
Qed.

Lemma allocated_release a l1 l2 size p n :
  let l := l1 ++ Block size false :: l2 in
  Forall (fun b => 0 <= b_size b) l ->
  allocated a (release (end_of a l1) a l) p n <-> allocated a l p n /\ p <> end_of a l1 + 16.
Proof.
  intros l Hs. pose proof (proj1 (sizes_app _ _) Hs) as [H1 [Hz H2]%sizes_cons]. simpl in Hz.
  assert (allocated a (release (end_of a l1) a l) p n <->
    allocated a l1 p n \/ allocated (end_of a l1 + 16 + size) l2 p n) as ->.
  { destruct (release_shape a l1 (Block size false) l2 H1) as [[E _]|(l0 & q & E1 & Hq & E)].
    - fold l in E. rewrite E, allocated_app, allocated_absorb by done. done.
    - fold l in E. rewrite E, E1, !allocated_app, allocated_absorb, end_of_app by done. simpl.
      rewrite allocated_absorb by done. simpl.
      rewrite allocated_cons, Hq. pose proof (allocated_nil (end_of a l0 + 16 + b_size q) p n).
      split; [tauto|]. intros [[?|[[]|?]]|?]; done || tauto. }
  unfold l. rewrite allocated_app, allocated_cons. simpl. split.
  - intros [H|H]; (split; [tauto|]); apply allocated_range in H; try done; lia.
  - intros [[H|[(_ & -> & ->)|H]] Hne]; tauto.
Qed.

Lemma want_ge size alignment : 0 <= size -> size + Z.max 8 alignment - 1 < 2 ^ 32 ->
  size <= want_of size alignment.
Proof.
  intros Hs Hb. unfold want_of, HEAP_ALIGN.
  replace (if alignment <? 8 then 8 else alignment) with (Z.max 8 alignment) by (zcases; lia).
  set (c := Z.max 8 alignment - 1) in *. replace (size + Z.max 8 alignment - 1) with (size + c) by lia.
  rewrite u32_small by wsolve. rewrite <- Z.ldiff_land.
  rewrite ldiff_sub. pose proof (land_le_r (size + c) c). lia.
Qed.

Lemma want_8 size : 0 <= size -> size + 7 < 2 ^ 32 -> want_of size 8 = 8 * ((size + 7) / 8).
Proof.
  intros Hs Hb. unfold want_of, HEAP_ALIGN. change (8 <? 8) with false. cbv iota.
  rewrite <- Z.ldiff_land, ldiff_sub. change (8 - 1) with (Z.ones 3).
  replace (size + 8 - 1) with (size + 7) by lia.
  rewrite land_ones_mod, u32_small by wsolve. change (2 ^ 3) with 8. dlia.
Qed.

(** ** Clients of the heap *)

Lemma seg_store m prev a l next x v : Forall (fun b => 0 <= b_size b) l ->
  used_payload a l x -> seg m prev a l next -> seg (st m x v) prev a l next.
Proof.
  intros Hs. revert prev a. induction Hs as [|b l Hb Hl IH]; intros prev a; [done|].
  intros Hu [(H1 & H2 & H3 & H4) Hseg]. unfold h_size, h_free, h_next, h_prev in *.
  assert (a + 16 <= x) as Hx.
  { destruct Hu as [[_ ?]|Hu]; [lia|]. apply used_range in Hu; [lia|done]. }
  split; [unfold hdr, h_size, h_free, h_next, h_prev; by rewrite !ld_st_ne by lia|].
  destruct Hu as [[_ Hr]|Hu]; [|by apply IH]. apply (seg_same m); [done| |done].
  intros y Hy. apply ld_st_ne. lia.
Qed.

Lemma rep_store h l x v : heap_rep h l -> used_payload (heap_base h) l x ->
  heap_rep (with_mem h (st (h_mem h) x v)) l.
Proof. intros [? ? ? ? ? ? ?] Hu. split; try done. by apply seg_store. Qed.

(** Any change of memory within the payloads of used blocks. *)
Lemma seg_write m m' prev a l next : Forall (fun b => 0 <= b_size b) l ->
  (forall x, a <= x -> ~ used_payload a l x -> ld m' x = ld m x) -> seg m prev a l next -> seg m' prev a l next.
Proof.
  intros Hs. revert prev a. induction Hs as [|b l Hb Hl IH]; intros prev a; [done|]. intros Hx [(H1 & H2 & H3 & H4) Hseg].
  assert (forall x, used_payload (a + 16 + b_size b) l x -> a + 16 + b_size b <= x) as Hr.
  { intros x Hu. apply used_allocated in Hu as (p & n & Ha & Hp). pose proof (allocated_range _ _ _ _ Hl Ha). lia. }
  assert (forall x, a <= x < a + 16 -> ld m' x = ld m x) as Hh.
  { intros x Hx'. apply Hx; [lia|]. simpl. intros [[_ H]|H]; [lia|]. apply Hr in H. lia. }
  unfold hdr, h_size, h_free, h_next, h_prev in *. split.
  - unfold hdr, h_size, h_free, h_next, h_prev. rewrite !Hh by lia. done.
  - apply IH; [|done]. intros x Hle Hn. apply Hx; [lia|]. simpl. intros [[_ H]|H]; [lia|done].
Qed.

Lemma freelist_rep h : 32 <= heap_base h -> 16 <= heap_size h -> heap_base h + heap_size h < 2 ^ 32 ->
  heap_rep (heap_build_freelist h) [Block (heap_size h - 16) true].
Proof.
  intros Hb Hs Hl. unfold heap_build_freelist, HEADER_SIZE. split; simpl; try done.
  - split; [|done]. unfold hdr, h_size, h_free, h_next, h_prev.
    repeat (rewrite ld_st_eq || rewrite ld_st_ne by lia). rewrite u32_small by wsolve. done.
  - lia.
  - repeat constructor. simpl. lia.
Qed.

Definition good_region (start size : Z) : Prop :=
  32 <= start /\ 32 < size /\ start + size < 2 ^ 32.

Lemma heap_init_rep d start size h : good_region start size ->
  let h' := heap_init d start size h in
  heap_rep h' [Block (size - 16) true] /\ heap_base h' = start /\ heap_size h' = size.
Proof.
  intros (Hs & Hz & Hb). unfold heap_init, HEADER_SIZE, MIN_PAYLOAD.
  rewrite (proj2 (Z.eqb_neq start 0)), (proj2 (Z.leb_gt size (16 + 16))) by lia. simpl orb. cbv iota zeta.
  split; [|done]. apply (freelist_rep (Heap (h_mem h) start size (heap_head h))); simpl; lia.
Qed.

(** A client keeps the sizes it asked for, by pointer. *)
Inductive heap_step : heap * gmap Z Z -> heap * gmap Z Z -> Prop :=
| hs_malloc h live size p h' :
    0 < size -> size + 7 < 2 ^ 32 -> kmalloc size h = Some (p, h') ->
    heap_step (h, live) (h', if p =? 0 then live else <[p := size]> live)
| hs_free h live p k :
    live !! p = Some k -> heap_step (h, live) (kfree p h, delete p live)
| hs_store h live p k x v :
    live !! p = Some k -> p <= x < p + k ->
    heap_step (h, live) (with_mem h (st (h_mem h) x v), live).

Record heap_inv (base size : Z) (h : heap) (live : gmap Z Z) (l : list block) : Prop := {
  hi_rep : heap_rep h l;
  hi_base : heap_base h = base;
  hi_size : heap_size h = size;
  hi_packed : packed l;
  hi_even8 : even8 l;
  hi_live : forall p k, live !! p = Some k -> 0 < k /\ exists n, k <= n /\ allocated base l p n;
  hi_all : forall p n, allocated base l p n -> is_Some (live !! p)
}.

Lemma fit_allocated want a l p l' : Forall (fun b => 0 <= b_size b) l -> 0 <= want ->
  fit want a l = Some (p, l') ->
  exists n0, want <= n0 /\ 0 <= n0 /\
    (forall q n, allocated a l' q n <-> allocated a l q n \/ (q = p + 16 /\ n = n0)) /\
    (forall n, ~ allocated a l (p + 16) n).
Proof.
  intros Hs Hw Hfit. pose proof (fit_cases want a l) as H. rewrite Hfit in H.
  destruct H as (l1 & b & l2 & -> & -> & -> & Hf & _).
  apply andb_true_iff in Hf as [Hfree Hle%Z.leb_le].
  pose proof (proj1 (sizes_app _ _) Hs) as [H1 [Hb H2]%sizes_cons].
  exists (if b_size b <? want + 32 then b_size b else want). split; [zcases; lia|]. split; [zcases; lia|]. split.
  - intros q n. rewrite !allocated_app, allocated_cons, allocated_carve, carve_end, Hfree. intuition congruence.
  - intros n. rewrite allocated_app, allocated_cons, Hfree.
    intros [H|[[]|H]]; [|done|]; apply allocated_range in H; try done; lia.
Qed.

Lemma fit_packed want a l p l' : packed l -> fit want a l = Some (p, l') -> packed l'.
Proof.
  intros Hp Hfit. pose proof (fit_cases want a l) as H. rewrite Hfit in H.
  destruct H as (l1 & b & l2 & -> & _ & -> & Hf & _). apply andb_true_iff in Hf as [Hf _]. by apply carve_packed.
Qed.
Lemma fit_even8 want a l p l' : want mod 8 = 0 -> even8 l -> fit want a l = Some (p, l') -> even8 l'.
Proof.
  intros Hw Hp Hfit. pose proof (fit_cases want a l) as H. rewrite Hfit in H.
  destruct H as (l1 & b & l2 & -> & _ & -> & _ & _). by apply carve_even8.
Qed.

Lemma malloc_inv base size h live l n p h' : heap_inv base size h live l -> 0 < n -> n + 7 < 2 ^ 32 ->
  kmalloc n h = Some (p, h') ->
  exists l', heap_inv base size h' (if p =? 0 then live else <[p := n]> live) l'.
Proof.
  intros [Hr <- <- Hp He Hl Ha] Hn Hb E. unfold kmalloc in E.
  pose proof (kmalloc_refines h l n 8 Hr ltac:(lia)) as H.
  destruct (fit (want_of n 8) (heap_base h) l) as [[blk l']|] eqn:Hfit.
  2: { rewrite H in E. injection E as <- <-. exists l. by split. }
  destruct H as (h1 & E1 & Hr1 & B1 & S1 & _). rewrite E1 in E. injection E as <- <-.
  pose proof (hr_base _ _ Hr) as Hbase. pose proof (hr_sizes _ _ Hr) as Hs.
  pose proof (want_8 n ltac:(lia) Hb) as Hw.
  assert (0 <= want_of n 8) as Hw0 by (rewrite Hw; dlia).
  destruct (fit_allocated _ _ _ _ _ Hs Hw0 Hfit) as (n0 & Hn0 & Hn0' & Hal & Hnew).
  assert (heap_base h + 16 <= blk + 16) as Hge.
  { apply (allocated_range _ _ _ n0 (hr_sizes _ _ Hr1)). apply Hal. by right. }
  rewrite (proj2 (Z.eqb_neq (blk + 16) 0)) by lia. exists l'. split; try done.
  - by eapply fit_packed.
  - apply (fit_even8 (want_of n 8) (heap_base h) l blk); [rewrite Hw; dlia|done|done].
  - intros q k. rewrite lookup_insert_Some. intros [[<- <-]|[Hne Hq]].
    + split; [done|]. exists n0. split; [rewrite Hw in Hn0; dlia|]. apply Hal. by right.
    + destruct (Hl q k Hq) as (Hk & m & Hm & Hq'). split; [done|]. exists m. split; [done|]. apply Hal. by left.
  - intros q m [Hq|[-> _]]%Hal; [|by rewrite lookup_insert_eq].
    destruct (decide (q = blk + 16)) as [->|]; [by rewrite lookup_insert_eq|].
    rewrite lookup_insert_ne by done. by apply (Ha q m).
Qed.

(** An allocation returns, hands out a pointer no client holds, and leaves the clients'
    bytes alone. *)
Lemma malloc_frame base size h live l n : heap_inv base size h live l -> 0 < n -> n + 7 < 2 ^ 32 ->
  exists p h', kmalloc n h = Some (p, h') /\ (p <> 0 -> live !! p = None) /\
    forall q k x, live !! q = Some k -> q <= x < q + k -> ld (h_mem h') x = ld (h_mem h) x.
Proof.
  intros [Hr <- <- Hp He Hl Ha] Hn Hb. pose proof (kmalloc_refines h l n 8 Hr ltac:(lia)) as H.
  destruct (fit (want_of n 8) (heap_base h) l) as [[blk l']|] eqn:Hfit; [|by exists 0, h].
  destruct H as (h1 & E1 & Hr1 & _ & _ & K). exists (blk + 16), h1. split; [exact E1|].
  pose proof (hr_sizes _ _ Hr) as Hs. pose proof (want_8 n ltac:(lia) Hb) as Hw.
  assert (0 <= want_of n 8) as Hw0 by (rewrite Hw; dlia).
  destruct (fit_allocated _ _ _ _ _ Hs Hw0 Hfit) as (n0 & _ & _ & _ & Hnew). split.
  - intros _. destruct (live !! (blk + 16)) as [k|] eqn:Ek; [|done].
    destruct (Hl _ _ Ek) as (_ & m & _ & Hal). by destruct (Hnew m).
  - intros q k x Hq Hx. destruct (Hl q k Hq) as (_ & m & Hm & Hal). apply K, used_allocated.
    exists q, m. split; [done|lia].
Qed.

Lemma live_apart base size h live l p k q j : heap_inv base size h live l ->
  live !! p = Some k -> live !! q = Some j -> p <> q -> p + k <= q \/ q + j <= p.
Proof.
  intros Hi Hk Hj Hne. destruct (hi_live _ _ _ _ _ Hi p k Hk) as (_ & n & Hn & Hap).
  destruct (hi_live _ _ _ _ _ Hi q j Hj) as (_ & m & Hm & Haq).
  destruct (allocated_apart _ _ _ _ _ _ (hr_sizes _ _ (hi_rep _ _ _ _ _ Hi)) Hap Haq) as [[? _]|?]; [done|lia].
Qed.

Lemma live_range base size h live l p k : heap_inv base size h live l -> live !! p = Some k ->
  0 < k /\ base + 16 <= p /\ p + k <= base + size /\ p <> 0.
Proof.
  intros Hi Hk. destruct (hi_live _ _ _ _ _ Hi p k Hk) as (Hk0 & n & Hn & Hal).
  pose proof (hi_rep _ _ _ _ _ Hi) as Hr. pose proof (hr_base _ _ Hr) as Hb. pose proof (hr_tile _ _ Hr) as Ht.
  rewrite (hi_base _ _ _ _ _ Hi) in Hb, Ht. rewrite (hi_size _ _ _ _ _ Hi) in Ht.
  pose proof (allocated_range _ _ _ _ (hr_sizes _ _ Hr) Hal). lia.
Qed.

Lemma store_inv base size h live l p k x v : heap_inv base size h live l ->
  live !! p = Some k -> p <= x < p + k -> heap_inv base size (with_mem h (st (h_mem h) x v)) live l.
Proof.
  intros [Hr <- <- Hp He Hl Ha] Hk Hx. split; try done.
  apply rep_store; [done|]. destruct (Hl p k Hk) as (_ & n & Hn & Hal).
  apply used_allocated. exists p, n. split; [done|lia].
Qed.

Lemma write_inv base size h live l p k m' : heap_inv base size h live l -> live !! p = Some k ->
  (forall x, x < p \/ p + k <= x -> ld m' x = ld (h_mem h) x) -> heap_inv base size (with_mem h m') live l.
Proof.
  intros [Hr <- <- Hp He Hl Ha] Hk Hx. split; try done. destruct Hr as [R1 R2 R3 R4 R5 R6 R7]. split; try done.
  simpl. apply (seg_write (h_mem h)); [done| |done]. intros x _ Hn. apply Hx. destruct (Hl p k Hk) as (_ & n & Hn' & Hal).
  assert (~ (p <= x < p + n)) by (intros H; apply Hn, used_allocated; by exists p, n). lia.
Qed.

Lemma free_inv base size h live l p k : heap_inv base size h live l -> live !! p = Some k ->
  exists l', heap_inv base size (kfree p h) (delete p live) l'.
Proof.
  intros [Hr <- <- Hp He Hl Ha] Hk. destruct (Hl p k Hk) as (_ & n & _ & (l1 & l2 & -> & ->)).
  destruct (kfree_refines h l1 l2 n Hr) as (Hr' & B' & S' & _).
  pose proof (hr_sizes _ _ Hr) as Hs. pose proof (proj1 (sizes_app _ _) Hs) as [Hs1 _].
  eexists. split; [exact Hr'|done|done|by apply release_packed|by apply release_even8| |].
  - intros q j. rewrite lookup_delete_Some. intros [Hne Hq]. destruct (Hl q j Hq) as (Hj & m & Hm & Hal).
    split; [done|]. exists m. split; [done|]. apply allocated_release; [done|]. split; [done|congruence].
  - intros q m Hal. apply allocated_release in Hal as [Hal Hne]; [|done].
    rewrite lookup_delete_ne by congruence. by apply (Ha q m).
Qed.

(** Freeing leaves the bytes of the other clients alone. *)
Lemma free_frame base size h live l p k q j x : heap_inv base size h live l -> live !! p = Some k -> live !! q = Some j -> q <> p ->
  q <= x < q + j -> ld (h_mem (kfree p h)) x = ld (h_mem h) x.
Proof.
  intros [Hr <- <- Hp He Hl Ha] Hk Hj Hne Hx. destruct (Hl p k Hk) as (_ & n & _ & (l1 & l2 & -> & ->)).
  destruct (kfree_refines h l1 l2 n Hr) as (_ & _ & _ & K). apply K. destruct (Hl q j Hj) as (_ & m & Hm & Hal).
  apply used_allocated. exists q, m. split; [|lia]. apply allocated_app in Hal. apply allocated_app.
  rewrite allocated_cons in *. cbn [b_free b_size] in *. destruct Hal as [Hal|[(_ & _ & E)|Hal]]; [by left|by destruct (Hne E)|right; by right].
Qed.
(** Distinct payloads in use are no more than blocks. *)
Lemma allocated_count l : forall ps a, NoDup ps -> Forall (fun p => exists n, allocated a l p n) ps -> (length ps <= length l)%nat.
Proof.
  induction l as [|b l IH]; intros ps a Hnd Hps.
  { destruct ps as [|p ps]; [done|]. apply Forall_cons_iff in Hps as [[n []%allocated_nil] _]. }
  assert (forall qs, qs ⊆ ps -> a + 16 ∉ qs -> Forall (fun p => exists n, allocated (a + 16 + b_size b) l p n) qs) as Hrest.
  { intros qs Hsub Hn. apply Forall_forall. intros x Hx%list_elem_of_In. rewrite Forall_forall in Hps.
    destruct (Hps x) as [n H]; [by apply list_elem_of_In, Hsub|]. apply allocated_cons in H as [(_ & _ & ->)|H]; [done|by exists n]. }
  cbn [length]. destruct (decide (a + 16 ∈ ps)) as [Hin|Hin]; [|apply le_S, (IH _ (a + 16 + b_size b)); [done|by apply Hrest]].
  apply list_elem_of_split in Hin as (p1 & p2 & E). subst ps. apply list.NoDup_app in Hnd as (N1 & N2 & N3). apply list.NoDup_cons in N3 as [N3 N4].
  assert (length (p1 ++ p2) <= length l)%nat as Hle; [|rewrite !length_app in *; cbn; lia].
  apply (IH _ (a + 16 + b_size b)); [|apply Hrest].
  - apply list.NoDup_app. split; [done|]. split; [|done]. intros x Hx Hx'. apply (N2 x Hx). by right.
  - intros x. rewrite !elem_of_app, elem_of_cons. tauto.
  - rewrite elem_of_app. intros [H|H]; [|done]. apply (N2 _ H). by left.
Qed.
(** There are fewer live pointers than steps of a walk. *)
Lemma live_count base size h live l ps : heap_inv base size h live l -> NoDup ps -> Forall (fun p => is_Some (live !! p)) ps ->
  (length ps < walk_fuel h)%nat.
Proof.
  intros [Hr Hb _ _ _ Hl _] Hnd Hps. pose proof (walk_fuel_enough h l Hr) as Hw.
  enough (length ps <= length l)%nat by lia. apply (allocated_count l ps base Hnd).
  refine (Forall_impl _ _ Hps). intros p [k Hk]. destruct (Hl p k Hk) as (_ & n & _ & H). by exists n.
Qed.

Lemma step_inv base size x y l : heap_step x y -> heap_inv base size x.1 x.2 l ->
  exists l', heap_inv base size y.1 y.2 l'.
Proof.
  intros Hstep Hi. destruct Hstep as [h live n p h' Hn Hb E|h live p k Hk|h live p k x v Hk Hx]; simpl in *.
  - by eapply malloc_inv.
  - by eapply free_inv.
  - exists l. by apply (store_inv _ _ _ _ _ p k).
Qed.

Lemma trace_inv base size x y l : rtc heap_step x y -> heap_inv base size x.1 x.2 l ->
  exists l', heap_inv base size y.1 y.2 l'.
Proof.
  intros Hrtc. revert l. induction Hrtc as [|x y z Hxy _ IH]; intros l Hi; [by exists l|].
  destruct (step_inv _ _ _ _ _ Hxy Hi) as (l' & Hi'). by apply (IH l').
Qed.

Lemma heap_init_inv d start size h : good_region start size ->
  heap_inv start size (heap_init d start size h) ∅ [Block (size - 16) true].
Proof.
  intros Hg. destruct (heap_init_rep d start size h Hg) as (Hr & B & S). split; try done.
  by intros p n [[]|[]%allocated_nil]%allocated_cons.
Qed.

(** Without a payload in use, a packed list is one free block. *)
Lemma packed_all_free a l : packed l -> l <> [] -> (forall p n, ~ allocated a l p n) ->
  exists n, l = [Block n true].
Proof.
  intros Hp Hne Hno. destruct l as [|b l]; [done|].
  assert (b_free b = true) as Hb.
  { destruct (b_free b) eqn:E; [done|]. destruct (Hno (a + 16) (b_size b)). apply allocated_cons. by left. }
  destruct l as [|c l]; [exists (b_size b); by destruct b as [? []]|].
  apply packed_cons in Hp as [Hp _]. rewrite Hb in Hp. simpl in Hp.
  destruct (Hno (a + 16 + b_size b + 16) (b_size c)). rewrite !allocated_cons. auto.
Qed.

(** Payload bytes of the blocks that satisfy [f]. *)
Definition payload (f : block -> bool) (l : list block) : Z :=
  foldr (fun b acc => (if f b then b_size b else 0) + acc) 0 l.

Lemma payload_bounds f l : Forall (fun b => 0 <= b_size b) l -> 0 <= payload f l.
Proof. unfold payload. induction 1 as [|b l Hb _ IH]; simpl; [lia|]. destruct (f b); lia. Qed.

Lemma payload_end a l : end_of a l = a + payload (fun _ => true) l + 16 * Z.of_nat (length l).
Proof.
  unfold payload. revert a. induction l as [|b l IH]; intros a; cbn -[Z.of_nat Z.add Z.mul]; [lia|].
  rewrite IH. lia.
Qed.

Lemma payload_split l :
  payload (fun _ => true) l = payload (fun b => negb (b_free b)) l + payload b_free l.
Proof. unfold payload. induction l as [|b l IH]; simpl; [lia|]. destruct (b_free b); simpl; lia. Qed.

Lemma some_quad (a b c d a' b' c' d' : Z) :
  a = a' -> b = b' -> c = c' -> d = d' -> Some (a, b, c, d) = Some (a', b', c', d').
Proof. congruence. Qed.

Lemma stats_loop_spec m : forall l prev a fuel t u f k,
  seg m prev a l 0 -> Forall (fun b => 0 <= b_size b) l -> 0 < a -> (length l < fuel)%nat ->
  0 <= t -> 0 <= u -> 0 <= f -> 0 <= k ->
  t + payload (fun _ => true) l < 2 ^ 32 -> u + payload (fun b => negb (b_free b)) l < 2 ^ 32 ->
  f + payload b_free l < 2 ^ 32 -> k + Z.of_nat (length l) < 2 ^ 32 ->
  stats_loop fuel m (link a l 0) (t, u, f, k) =
  Some (t + payload (fun _ => true) l, u + payload (fun b => negb (b_free b)) l,
        f + payload b_free l, k + Z.of_nat (length l)).
Proof.
  induction l as [|b l IH]; intros prev a fuel t u f k Hseg Hs Ha Hf Ht Hu Hff Hk Bt Bu Bf Bk;
    (destruct fuel as [|fuel]; [simpl in Hf; lia|]).
  { cbn. by rewrite !Z.add_0_r. }
  destruct Hseg as [(H1 & H2 & H3 & H4) Hseg]. apply sizes_cons in Hs as [Hb Hl].
  assert (forall g, 0 <= payload g l) as Hp by (intros; by apply payload_bounds).
  pose proof (Hp (fun _ => true)). pose proof (Hp (fun b => negb (b_free b))). pose proof (Hp b_free).
  unfold payload in Bt, Bu, Bf. cbn -[Z.of_nat Z.add] in Bt, Bu, Bf, Bk, Hf.
  fold (payload (fun _ => true) l) in Bt. fold (payload (fun b => negb (b_free b)) l) in Bu.
  fold (payload b_free l) in Bf.
  cbn [stats_loop link]. rewrite (proj2 (Z.eqb_neq a 0)), H1, H2, H3 by lia.
  destruct (b_free b) eqn:Eb; cbn [negb Z.eqb] in *;
    rewrite !u32_small by wsolve; rewrite (IH a) by (done || lia);
    unfold payload; cbn -[Z.of_nat Z.add]; rewrite Eb; cbn -[Z.of_nat Z.add];
    apply some_quad; lia.
Qed.

(** ** Properties *)

(** [kmalloc_aligned] always returns, and implements first fit on the block list: it
    returns NULL, changing nothing, only when no free block holds the rounded-up size;
    otherwise the payload it returns has at least [size] bytes, lies inside the arena,
    overlaps no payload in use, and no byte of a payload in use is written. The layout
    and the absence of adjacent free blocks are kept. *)
Theorem kmalloc_aligned_correct h l size alignment :
  heap_rep h l -> packed l -> 0 < size -> size + Z.max 8 alignment - 1 < 2 ^ 32 ->
  exists ptr h' l', kmalloc_aligned size alignment h = Some (ptr, h') /\
    heap_rep h' l' /\ packed l' /\ payload_kept (heap_base h) l (h_mem h) (h_mem h') /\
    (ptr = 0 -> h' = h /\ Forall (fun b => b_free b = true -> b_size b < want_of size alignment) l) /\
    (ptr <> 0 -> exists n, size <= n /\ heap_base h + 16 <= ptr /\ ptr + n <= heap_base h + heap_size h /\
       (forall x, ptr <= x < ptr + n -> ~ used_payload (heap_base h) l x) /\
       forall q k, allocated (heap_base h) l' q k <-> allocated (heap_base h) l q k \/ (q = ptr /\ k = n)).
Proof.
  intros Hr Hp Hs Hb. pose proof (kmalloc_refines h l size alignment Hr ltac:(lia)) as H.
  pose proof (want_ge size alignment ltac:(lia) Hb) as Hw. pose proof (hr_sizes _ _ Hr) as Hsz.
  pose proof (fit_cases (want_of size alignment) (heap_base h) l) as Hc.
  destruct (fit (want_of size alignment) (heap_base h) l) as [[blk l']|] eqn:Hfit.
  - destruct H as (h' & E & Hr' & B' & S' & K). exists (blk + 16), h', l'.
    assert (0 <= want_of size alignment) as Hw0 by lia.
    destruct (fit_allocated _ _ _ _ _ Hsz Hw0 Hfit) as (n & Hn & Hn0 & Hal & Hnew).
    assert (allocated (heap_base h) l' (blk + 16) n) as Hme by (apply Hal; by right).
    pose proof (allocated_range _ _ _ _ (hr_sizes _ _ Hr') Hme) as Hrange.
    pose proof (hr_tile _ _ Hr') as Ht. rewrite B', S' in Ht. pose proof (hr_base _ _ Hr).
    split_and!; try done; [by eapply fit_packed|lia|].
    intros _. exists n. split_and!; [lia|lia|lia| |done].
    intros x Hx (q & k & Hq & Hqx)%used_allocated.
    destruct (allocated_apart _ _ _ _ q k (hr_sizes _ _ Hr') Hme) as [[<- _]|?]; [apply Hal; by left| |lia].
    by apply (Hnew k).
  - exists 0, h, l. split_and!; try done. intros _. split; [done|].
    apply (list.Forall_impl _ _ _ Hc). simpl. intros b Hf Hfree. unfold fits in Hf. rewrite Hfree in Hf.
    by apply Z.leb_gt in Hf.
Qed.

(** [kfree] of a pointer in use gives back exactly that payload: the other payloads
    stay in use with their contents, the freed block merges with free neighbours on
    both sides, so that no two free blocks are adjacent afterwards. *)
Theorem kfree_correct h l ptr n :
  heap_rep h l -> packed l -> allocated (heap_base h) l ptr n ->
  exists l', heap_rep (kfree ptr h) l' /\ packed l' /\
    (forall q k, allocated (heap_base h) l' q k <-> allocated (heap_base h) l q k /\ q <> ptr) /\
    forall x, used_payload (heap_base h) l' x -> ld (h_mem (kfree ptr h)) x = ld (h_mem h) x.
Proof.
  intros Hr Hp (l1 & l2 & -> & ->). destruct (kfree_refines h l1 l2 n Hr) as (Hr' & _ & _ & K).
  pose proof (hr_sizes _ _ Hr) as Hs. pose proof (proj1 (sizes_app _ _) Hs) as [Hs1 _].
  eexists. split; [exact Hr'|]. split; [by apply release_packed|].
  assert (forall q k, allocated (heap_base h) (release (end_of (heap_base h) l1) (heap_base h)
      (l1 ++ Block n false :: l2)) q k <->
    allocated (heap_base h) (l1 ++ Block n false :: l2) q k /\ q <> end_of (heap_base h) l1 + 16) as Hal
    by (intros; by apply allocated_release).
  split; [exact Hal|]. intros x (q & k & [Hq Hne]%Hal & Hx)%used_allocated. apply K, used_allocated.
  exists q, k. split; [|done]. rewrite allocated_app, allocated_cons in Hq |- *. simpl in Hq |- *. tauto.
Qed.

(** Freeing what was just allocated restores the block list: allocation and release
    lose no memory to fragmentation. *)
Theorem kmalloc_kfree_roundtrip h l size alignment ptr h' :
  heap_rep h l -> packed l -> size <> 0 ->
  kmalloc_aligned size alignment h = Some (ptr, h') -> ptr <> 0 ->
  heap_rep (kfree ptr h') l.
Proof.
  intros Hr Hp Hs E Hnz. pose proof (kmalloc_refines h l size alignment Hr Hs) as H.
  pose proof (fit_cases (want_of size alignment) (heap_base h) l) as Hc.
  destruct (fit (want_of size alignment) (heap_base h) l) as [[blk l']|] eqn:Hfit; [|congruence].
  destruct H as (h1 & E1 & Hr1 & B1 & S1 & _). rewrite E1 in E. injection E as <- <-.
  destruct Hc as (l1 & b & l2 & -> & -> & -> & Hf & _). apply andb_true_iff in Hf as [Hfree _].
  pose proof (proj1 (packed_app _ _) Hp) as (_ & [P2 _]%packed_cons & P3).
  rewrite Hfree in P2. simpl in P2, P3. rewrite Hfree, andb_true_r in P3.
  destruct (carve_head (want_of size alignment) b) as (t & Ec & Ht). rewrite Ec in Hr1.
  simpl app in Hr1. rewrite <- B1. destruct (kfree_refines _ _ _ _ Hr1) as (Hr2 & _ & _ & _).
  rewrite <- B1 in *. pose proof (hr_sizes _ _ Hr) as Hsz. apply sizes_app in Hsz as [Hs1 _].
  destruct (release_shape (heap_base h1) l1 (Block (if b_size b <? want_of size alignment + 32 then b_size b
    else want_of size alignment) false) (t ++ l2) Hs1) as [[Erel _]|(l0 & q & -> & Hq & _)].
  2: { rewrite free_last_snoc in P3. congruence. }
  rewrite Erel in Hr2. simpl b_size in Hr2.
  replace (absorb _) with (b :: l2) in Hr2; [exact Hr2|]. destruct b as [sb fb]. simpl in *. subst fb.
  destruct Ht as [[-> Hlt]|[-> Hge]].
  - rewrite (proj2 (Z.ltb_lt _ _) Hlt). simpl. destruct l2 as [|c l2]; [done|]. unfold absorb.
    simpl in P2. by rewrite P2.
  - rewrite (proj2 (Z.ltb_ge _ _) Hge). unfold absorb. simpl. do 2 f_equal. lia.
Qed.


(** The size computation of [kmalloc] wraps: a request within 7 bytes of 4 GiB is
    rounded to 0 and succeeds on any free block, with fewer than 32 bytes. *)
Theorem kmalloc_overflow h l size :
  heap_rep h l -> 2 ^ 32 - 7 <= size < 2 ^ 32 -> Exists (fun b => b_free b = true) l ->
  exists ptr h' l' n, kmalloc size h = Some (ptr, h') /\ ptr <> 0 /\ heap_rep h' l' /\
    allocated (heap_base h) l' ptr n /\ n < 32.
Proof.
  intros Hr Hsz Hex. pose proof (kmalloc_refines h l size 8 Hr ltac:(lia)) as H.
  assert (want_of size 8 = 0) as Hw.
  { unfold want_of, HEAP_ALIGN. change (8 <? 8) with false. cbv iota.
    rewrite <- Z.ldiff_land, ldiff_sub. change (8 - 1) with (Z.ones 3). rewrite land_ones_mod by lia.
    change (2 ^ 3) with 8. unfold u32. wsolve. }
  rewrite Hw in H. pose proof (fit_cases 0 (heap_base h) l) as Hc. pose proof (hr_sizes _ _ Hr) as Hs.
  destruct (fit 0 (heap_base h) l) as [[blk l']|].
  - destruct Hc as (l1 & b & l2 & -> & -> & -> & Hf & _).
    apply sizes_app in Hs as [Hs1 [Hb _]%sizes_cons].
    destruct H as (h' & E & Hr' & _). exists (end_of (heap_base h) l1 + 16), h'.
    eexists _, (if b_size b <? 0 + 32 then b_size b else 0).
    pose proof (end_of_mono (heap_base h) l1 Hs1). pose proof (hr_base _ _ Hr).
    split_and!; [exact E|lia|exact Hr'| |zcases; lia].
    rewrite !allocated_app, allocated_carve. right. by left.
  - exfalso. apply list.Exists_exists in Hex as (b & Hin & Hfree).
    rewrite list.Forall_forall in Hc, Hs. specialize (Hc b Hin). specialize (Hs b Hin).
    unfold fits in Hc. rewrite Hfree in Hc. simpl in Hc. apply Z.leb_gt in Hc. lia.
Qed.

(** The [alignment] of [kmalloc_aligned] only rounds the size: on a fresh arena that
    starts at a multiple of an alignment above 16, the pointer returned is not
    aligned. *)
Theorem kmalloc_aligned_misaligned d start size h n alignment :
  good_region start size -> 16 < alignment -> start mod alignment = 0 ->
  0 < n -> want_of n alignment <= size - 16 ->
  exists ptr h', kmalloc_aligned n alignment (heap_init d start size h) = Some (ptr, h') /\
    ptr mod alignment = 16.
Proof.
  intros Hg Ha Hm Hn Hw. destruct (heap_init_rep d start size h Hg) as (Hr & B & S).
  pose proof (kmalloc_refines _ _ n alignment Hr ltac:(lia)) as H. rewrite B in H. simpl in H.
  unfold fits in H. simpl in H. rewrite (proj2 (Z.leb_le _ _)) in H by lia.
  destruct H as (h' & E & _). exists (start + 16), h'. split; [exact E|].
  rewrite Z.add_mod, Hm, Z.add_0_l, Z.mod_mod by lia. apply Z.mod_small. lia.
Qed.

Lemma heap_stats_spec h l : heap_rep h l ->
  exists total used freeb blocks, heap_get_stats h = Some (total, used, freeb, blocks) /\
    used = payload (fun b => negb (b_free b)) l /\ freeb = payload b_free l /\
    total = used + freeb /\ blocks = Z.of_nat (length l) /\
    total + HEADER_SIZE * blocks = heap_size h.
Proof.
  intros Hr. pose proof (walk_fuel_enough h l Hr) as Hf. destruct Hr as [Hh Hseg Ht Hs Hne Hb Hlim].
  pose proof (payload_end (heap_base h) l) as He. pose proof (payload_split l) as Hsp.
  pose proof (payload_bounds (fun b => negb (b_free b)) l Hs). pose proof (payload_bounds b_free l Hs).
  exists (payload (fun _ => true) l), (payload (fun b => negb (b_free b)) l), (payload b_free l), (Z.of_nat (length l)).
  unfold HEADER_SIZE. split_and!; try done; [|lia]. unfold heap_get_stats. rewrite Hh.
  assert (link (heap_base h) l 0 = heap_base h) as Hlink by by destruct l.
  pose proof (stats_loop_spec (h_mem h) l 0 (heap_base h) (walk_fuel h) 0 0 0 0 Hseg Hs) as Hst.
  rewrite Hlink in Hst. apply Hst; lia.
Qed.
(** [heap_get_stats] terminates and reports the exact payload totals: used and free
    add up to the total, and the total plus one header per block is the arena size. *)
Theorem heap_get_stats_correct h l : heap_rep h l ->
  exists total used freeb blocks, heap_get_stats h = Some (total, used, freeb, blocks) /\
    used = payload (fun b => negb (b_free b)) l /\ freeb = payload b_free l /\
    total = used + freeb /\ blocks = Z.of_nat (length l) /\
    total + HEADER_SIZE * blocks = heap_size h.
Proof. apply heap_stats_spec. Qed.

(** ** Witnesses *)

Definition demo_heap : heap := heap_init 0x8000 0x10000 0x1000 (Heap ∅ 0x8000 65536 0).

Lemma demo_region : good_region 0x10000 0x1000.
Proof. unfold good_region. lia. Qed.
Lemma demo_heap_rep : heap_rep demo_heap [Block 0xFF0 true].
Proof. apply (heap_init_rep 0x8000 0x10000 0x1000 _ demo_region). Qed.

Lemma kmalloc_aligned_correct_witness :
  exists ptr h' l', kmalloc_aligned 100 8 demo_heap = Some (ptr, h') /\
    heap_rep h' l' /\ packed l' /\
    payload_kept (heap_base demo_heap) [Block 0xFF0 true] (h_mem demo_heap) (h_mem h') /\
    (ptr = 0 -> h' = demo_heap /\
       Forall (fun b => b_free b = true -> b_size b < want_of 100 8) [Block 0xFF0 true]) /\
    (ptr <> 0 -> exists n, 100 <= n /\ heap_base demo_heap + 16 <= ptr /\
       ptr + n <= heap_base demo_heap + heap_size demo_heap /\
       (forall x, ptr <= x < ptr + n -> ~ used_payload (heap_base demo_heap) [Block 0xFF0 true] x) /\
       forall q k, allocated (heap_base demo_heap) l' q k <->
         allocated (heap_base demo_heap) [Block 0xFF0 true] q k \/ (q = ptr /\ k = n)).
Proof.
  apply (kmalloc_aligned_correct demo_heap [Block 0xFF0 true] 100 8).
  - exact demo_heap_rep.
  - exact I.
  - lia.
  - lia.
Defined.

(** The heap after one allocation of 100 bytes. *)
Definition demo_heap1 : heap :=
  match kmalloc 100 demo_heap with Some (_, h) => h | None => demo_heap end.

Lemma demo_heap1_rep : kmalloc 100 demo_heap = Some (0x10010, demo_heap1) /\
  heap_rep demo_heap1 [Block 104 false; Block 3960 true] /\ heap_base demo_heap1 = 0x10000.
Proof.
  pose proof (kmalloc_refines demo_heap _ 100 8 demo_heap_rep ltac:(lia)) as H.
  simpl in H. destruct H as (h' & E & Hr & B & _). unfold demo_heap1. unfold kmalloc. rewrite E. done.
Qed.

Lemma kfree_correct_witness :
  exists l', heap_rep (kfree 0x10010 demo_heap1) l' /\ packed l' /\
    (forall q k, allocated 0x10000 l' q k <->
       allocated 0x10000 [Block 104 false; Block 3960 true] q k /\ q <> 0x10010) /\
    forall x, used_payload 0x10000 l' x -> ld (h_mem (kfree 0x10010 demo_heap1)) x = ld (h_mem demo_heap1) x.
Proof.
  destruct demo_heap1_rep as (_ & Hr & B). rewrite <- B.
  apply (kfree_correct demo_heap1 [Block 104 false; Block 3960 true] 0x10010 104).
  - exact Hr.
  - done.
  - rewrite B. by exists [], [Block 3960 true].
Defined.

Lemma kmalloc_kfree_roundtrip_witness :
  heap_rep (kfree 0x10010 demo_heap1) [Block 0xFF0 true].
Proof.
  apply (kmalloc_kfree_roundtrip demo_heap [Block 0xFF0 true] 100 8 0x10010 demo_heap1).
  - exact demo_heap_rep.
  - exact I.
  - lia.
  - apply demo_heap1_rep.
  - lia.
Defined.


Lemma kmalloc_overflow_witness :
  exists ptr h' l' n, kmalloc 0xFFFFFFFF demo_heap = Some (ptr, h') /\ ptr <> 0 /\ heap_rep h' l' /\
    allocated (heap_base demo_heap) l' ptr n /\ n < 32.
Proof.
  apply (kmalloc_overflow demo_heap [Block 0xFF0 true] 0xFFFFFFFF).
  - exact demo_heap_rep.
  - lia.
  - by constructor.
Defined.

Lemma kmalloc_aligned_misaligned_witness :
  exists ptr h', kmalloc_aligned 256 256 (heap_init 0x8000 0x10000 0x1000 demo_heap) = Some (ptr, h') /\
    ptr mod 256 = 16.
Proof.
  apply (kmalloc_aligned_misaligned 0x8000 0x10000 0x1000 demo_heap 256 256).
  - exact demo_region.
  - lia.
  - reflexivity.
  - lia.
  - vm_compute. discriminate.
Defined.

Lemma heap_get_stats_correct_witness :
  exists total used freeb blocks, heap_get_stats demo_heap = Some (total, used, freeb, blocks) /\
    used = payload (fun b => negb (b_free b)) [Block 0xFF0 true] /\
    freeb = payload b_free [Block 0xFF0 true] /\
    total = used + freeb /\ blocks = Z.of_nat (length [Block 0xFF0 true]) /\
    total + HEADER_SIZE * blocks = heap_size demo_heap.
Proof. apply (heap_get_stats_correct demo_heap [Block 0xFF0 true]). exact demo_heap_rep. Defined.
