(* ===== verification/Slab.v ===== *)
(** * Slab allocator (memory/slab.c, memory/slab.h)

    A slab is a heap object of two words, the head of its free list at +0 and the object
    size at +4; free objects are linked through their first word. *)
From S2P Require Import Prelude Mem Heap.

Definition sizeof_slab : Z := 8.
Definition sizeof_ptr : Z := 4.
Definition free_list (s : Z) : Z := s.
Definition obj_size (s : Z) : Z := s + 4.

Definition slab_create (osize : Z) (h : heap) : option (Z * heap) :=
  match kmalloc sizeof_slab h with
  | None => None
  | Some (s, h) =>
      if s =? 0 then Some (0, h)
      else
        let osize := if osize <? sizeof_ptr then sizeof_ptr else osize in
        let m := st (h_mem h) (obj_size s) osize in
        let m := st m (free_list s) 0 in
        Some (s, with_mem h m)
  end.

Definition slab_alloc (s : Z) (h : heap) : option (Z * heap) :=
  if s =? 0 then Some (0, h)
  else if negb (ld (h_mem h) (free_list s) =? 0) then
    let obj := ld (h_mem h) (free_list s) in
    Some (obj, with_mem h (st (h_mem h) (free_list s) (ld (h_mem h) obj)))
  else kmalloc (ld (h_mem h) (obj_size s)) h.

Definition slab_free (s ptr : Z) (h : heap) : heap :=
  if (s =? 0) || (ptr =? 0) then h
  else
    let m := st (h_mem h) ptr (ld (h_mem h) (free_list s)) in
    with_mem h (st m (free_list s) ptr).

(** ** Representation *)

(** The free objects [l], linked from [p]. *)
Fixpoint chain (m : mem) (p : Z) (l : list Z) : Prop :=
  match l with [] => p = 0 | o :: l => p = o /\ chain m (ld m o) l end.

Lemma chain_same m m' p l : (forall o, o ∈ l -> ld m' o = ld m o) -> chain m p l -> chain m' p l.
Proof.
  revert p. induction l as [|o l IH]; intros p Hs; simpl; [done|]. intros [-> Hc]. split; [done|].
  rewrite Hs by left. apply IH; [|done]. intros q Hq. apply Hs. by right.
Qed.

(** A slab at [s] with object size [n], free objects [free] (in list order) and objects
    [out] in the hands of clients. *)
Record slab_inv (base size : Z) (h : heap) (live : gmap Z Z) (s n : Z) (free : list Z) (out : gset Z) : Prop := {
  si_heap : exists l, heap_inv base size h live l;
  si_slab : live !! s = Some sizeof_slab;
  si_obj : ld (h_mem h) (obj_size s) = n;
  si_size : 4 <= n /\ n + 7 < 2 ^ 32;
  si_chain : chain (h_mem h) (ld (h_mem h) (free_list s)) free;
  si_nodup : NoDup free;
  si_apart : forall o, o ∈ free -> (o ∉ out);
  si_live : forall o, o ∈ free \/ o ∈ out -> live !! o = Some n /\ o <> s
}.

(** Client events: allocate, free an object it holds, write into one it holds. *)
Inductive slab_step (s n : Z) : heap * gset Z -> heap * gset Z -> Prop :=
| ss_alloc h out p h' :
    slab_alloc s h = Some (p, h') ->
    slab_step s n (h, out) (h', if p =? 0 then out else {[p]} ∪ out)
| ss_free h out p :
    p ∈ out -> slab_step s n (h, out) (slab_free s p h, out ∖ {[p]})
| ss_store h out p x v :
    p ∈ out -> p <= x < p + n -> slab_step s n (h, out) (with_mem h (st (h_mem h) x v), out).

Section Inv.
Variables (base size : Z).
Implicit Types (h : heap) (live : gmap Z Z).

Lemma live_words h live l p k q j x y : heap_inv base size h live l ->
  live !! p = Some k -> live !! q = Some j -> p <> q -> p <= x < p + k -> q <= y < q + j -> x <> y.
Proof. intros Hi Hp Hq Hne Hx Hy. pose proof (live_apart _ _ _ _ _ _ _ _ _ Hi Hp Hq Hne). lia. Qed.

(** A chain is empty exactly when its head is NULL. *)
Lemma chain_head h live s n free out : slab_inv base size h live s n free out ->
  match free with
  | [] => ld (h_mem h) (free_list s) = 0
  | o :: _ => ld (h_mem h) (free_list s) = o /\ o <> 0
  end.
Proof.
  intros Hi. pose proof (si_chain _ _ _ _ _ _ _ _ Hi) as Hc. destruct free as [|o free]; [done|].
  destruct Hc as [-> _]. split; [done|]. destruct (si_heap _ _ _ _ _ _ _ _ Hi) as (l & Hh).
  destruct (si_live _ _ _ _ _ _ _ _ Hi o) as [Hl _]; [left; left|]. by apply (live_range _ _ _ _ _ _ _ Hh Hl).
Qed.

Lemma store_slab h live s n free out p x v : slab_inv base size h live s n free out ->
  p ∈ out -> p <= x < p + n -> slab_inv base size (with_mem h (st (h_mem h) x v)) live s n free out.
Proof.
  intros [(l & Hh) Hs Ho Hn Hc Hnd Ha Hl] Hp Hx. destruct (Hl p (or_intror Hp)) as [Hlp Hps].
  assert (forall y, s <= y < s + 8 -> ld (st (h_mem h) x v) y = ld (h_mem h) y) as Hsw.
  { intros y Hy. apply ld_st_ne. by apply (live_words _ _ _ p n s sizeof_slab x y Hh). }
  split; simpl; try done.
  - exists l. by apply (store_inv _ _ _ _ _ p n).
  - rewrite Hsw by (unfold obj_size; lia). done.
  - rewrite Hsw by (unfold free_list; lia). apply (chain_same (h_mem h)); [|done].
    intros o Hof. apply ld_st_ne. destruct (Hl o (or_introl Hof)) as [Hlo _].
    apply (live_words _ _ _ p n o n x o Hh); try done; [|lia]. intros ->. by apply (Ha o).
Qed.

Lemma free_slab h live s n free out p : slab_inv base size h live s n free out -> p ∈ out ->
  slab_inv base size (slab_free s p h) live s n (p :: free) (out ∖ {[p]}).
Proof.
  intros [(l & Hh) Hs Ho Hn Hc Hnd Ha Hl] Hp. destruct (Hl p (or_intror Hp)) as [Hlp Hps].
  pose proof (live_range _ _ _ _ _ _ _ Hh Hs) as (_ & _ & _ & Hs0).
  pose proof (live_range _ _ _ _ _ _ _ Hh Hlp) as (_ & _ & _ & Hp0).
  unfold slab_free. rewrite (proj2 (Z.eqb_neq s 0) Hs0), (proj2 (Z.eqb_neq p 0) Hp0). simpl.
  assert (p <> obj_size s) as Hpo.
  { apply (live_words _ _ _ p n s sizeof_slab p _ Hh); try done; unfold obj_size, sizeof_slab; lia. }
  unfold free_list in *. set (m1 := st (h_mem h) p _).
  split; simpl; try done.
  - exists l. change (with_mem h (st m1 s p)) with (with_mem (with_mem h m1) (st (h_mem (with_mem h m1)) s p)).
    apply (store_inv _ _ _ _ _ s sizeof_slab); [|done|unfold sizeof_slab; lia].
    apply (store_inv _ _ _ _ _ p n); [done|done|lia].
  - unfold m1, obj_size in *. rewrite !ld_st_ne by lia. done.
  - rewrite ld_st_eq. split; [done|]. rewrite ld_st_ne by done. unfold m1. rewrite ld_st_eq.
    apply (chain_same (h_mem h)); [|done]. intros o Hof. destruct (Hl o (or_introl Hof)) as [_ Hos].
    rewrite !ld_st_ne; [done| |done]. intros ->. by apply (Ha o).
  - apply NoDup_cons_2; [|done]. intros Hpf. by apply (Ha p).
  - intros o [->|Hof]%elem_of_cons; rewrite elem_of_difference, elem_of_singleton; [tauto|].
    intros [Hoo _]. by apply (Ha o).
  - intros o [[->|Hof]%elem_of_cons|[Hoo _]%elem_of_difference]; auto.
Qed.

Lemma pop_slab h live s n o free out : slab_inv base size h live s n (o :: free) out ->
  exists h', slab_alloc s h = Some (o, h') /\ slab_inv base size h' live s n free ({[o]} ∪ out).
Proof.
  intros Hi. pose proof (chain_head _ _ _ _ _ _ Hi) as [Hhd Ho0].
  destruct Hi as [(l & Hh) Hs Hob Hn Hc Hnd Ha Hl].
  pose proof (live_range _ _ _ _ _ _ _ Hh Hs) as (_ & _ & _ & Hs0).
  unfold slab_alloc. rewrite (proj2 (Z.eqb_neq s 0) Hs0), Hhd, (proj2 (Z.eqb_neq o 0) Ho0). simpl.
  eexists. split; [reflexivity|]. destruct Hc as [_ Hc].
  pose proof (NoDup_cons_1_1 _ _ Hnd) as Hno. pose proof (NoDup_cons_1_2 _ _ Hnd) as Hnd'.
  unfold free_list in *. split; simpl; try done.
  - exists l. apply (store_inv _ _ _ _ _ s sizeof_slab); [done|done|unfold sizeof_slab; lia].
  - unfold obj_size in *. rewrite ld_st_ne by lia. done.
  - rewrite ld_st_eq. apply (chain_same (h_mem h)); [|done].
    intros q Hq. apply ld_st_ne. apply not_eq_sym, (Hl q). left. by right.
  - intros q Hq. rewrite elem_of_union, elem_of_singleton. intros [->|Hout]; [done|].
    apply (Ha q); [by right|done].
  - intros q [Hq|[->%elem_of_singleton|Hq]%elem_of_union]; apply Hl; [left; by right|left; by left|by right].
Qed.

Lemma grow_slab h live s n out : slab_inv base size h live s n [] out ->
  exists p h' live', slab_alloc s h = Some (p, h') /\
    slab_inv base size h' live' s n [] (if p =? 0 then out else {[p]} ∪ out).
Proof.
  intros Hi. pose proof (chain_head _ _ _ _ _ _ Hi) as Hhd.
  destruct Hi as [(l & Hh) Hs Hob [Hn Hn7] Hc Hnd Ha Hl].
  pose proof (live_range _ _ _ _ _ _ _ Hh Hs) as (_ & _ & _ & Hs0).
  unfold slab_alloc. rewrite (proj2 (Z.eqb_neq s 0) Hs0), Hhd, Hob. simpl.
  destruct (malloc_frame _ _ _ _ _ n Hh ltac:(lia) Hn7) as (p & h' & E & Hfresh & Hk).
  destruct (malloc_inv _ _ _ _ _ n p h' Hh ltac:(lia) Hn7 E) as (l' & Hh').
  exists p, h', (if p =? 0 then live else <[p := n]> live). split; [exact E|].
  assert (forall y, s <= y < s + 8 -> ld (h_mem h') y = ld (h_mem h) y) as Hsw by (intros y Hy; by apply (Hk s sizeof_slab)).
  assert (ld (h_mem h') (obj_size s) = n) as Ho' by (rewrite Hsw by (unfold obj_size; lia); done).
  assert (ld (h_mem h') (free_list s) = 0) as Hf' by (rewrite Hsw by (unfold free_list; lia); done).
  destruct (Z.eqb_spec p 0) as [->|Hp]; (split; try done; [by exists l'|..]).
  - rewrite lookup_insert_ne; [done|]. intros ->. rewrite Hfresh in Hs by done. done.
  - intros o Ho. by apply elem_of_nil in Ho.
  - intros o. rewrite elem_of_union, elem_of_singleton. intros [Hof|[->|Hout]].
    + by apply elem_of_nil in Hof.
    + rewrite lookup_insert_eq. split; [done|]. intros ->. rewrite Hfresh in Hs by done. done.
    + destruct (Hl o (or_intror Hout)) as [Hlo Hos]. split; [|done].
      rewrite lookup_insert_ne; [done|]. intros ->. rewrite Hfresh in Hlo by done. done.
Qed.

Definition slab_ok (s n : Z) (x : heap * gset Z) : Prop :=
  exists live free, slab_inv base size x.1 live s n free x.2.

Lemma slab_step_ok s n x y : slab_step s n x y -> slab_ok s n x -> slab_ok s n y.
Proof.
  intros Hstep (live & free & Hi).
  destruct Hstep as [h out p h' E|h out p Hp|h out p x v Hp Hx]; simpl in *.
  - destruct free as [|o free].
    + destruct (grow_slab _ _ _ _ _ Hi) as (p1 & h1 & live1 & E1 & Hi1). rewrite E in E1.
      injection E1 as -> ->. by exists live1, [].
    + destruct (chain_head _ _ _ _ _ _ Hi) as [_ Ho]. destruct (pop_slab _ _ _ _ _ _ _ Hi) as (h1 & E1 & Hi1).
      rewrite E in E1. injection E1 as -> ->. exists live, free. simpl.
      by rewrite (proj2 (Z.eqb_neq o 0) Ho).
  - exists live, (p :: free). by apply free_slab.
  - exists live, free. by apply (store_slab _ _ _ _ _ _ p).
Qed.

Lemma create_slab h live l osize s h' : heap_inv base size h live l -> 0 <= osize -> osize + 7 < 2 ^ 32 ->
  slab_create osize h = Some (s, h') -> s <> 0 -> slab_ok s (Z.max 4 osize) (h', ∅).
Proof.
  intros Hh Hn Hn7 E Hs. unfold slab_create in E.
  destruct (malloc_frame _ _ _ _ _ sizeof_slab Hh ltac:(done) ltac:(done)) as (p & h1 & E1 & Hfresh & Hk).
  destruct (malloc_inv _ _ _ _ _ sizeof_slab p h1 Hh ltac:(done) ltac:(done) E1) as (l' & Hh').
  rewrite E1 in E. destruct (Z.eqb_spec p 0) as [->|Hp]; [congruence|]. injection E as <- <-.
  replace (if osize <? sizeof_ptr then sizeof_ptr else osize) with (Z.max 4 osize) by (unfold sizeof_ptr; zcases; lia).
  set (m1 := st (h_mem h1) (obj_size p) (Z.max 4 osize)).
  exists (<[p := sizeof_slab]> live), []. unfold obj_size, free_list in *. split; simpl; try done.
  - exists l'. change (with_mem h1 (st m1 p 0)) with (with_mem (with_mem h1 m1) (st (h_mem (with_mem h1 m1)) p 0)).
    apply (store_inv _ _ _ _ _ p sizeof_slab); [|apply lookup_insert_eq|unfold sizeof_slab; lia].
    apply (store_inv _ _ _ _ _ p sizeof_slab); [done|apply lookup_insert_eq|unfold sizeof_slab; lia].
  - apply lookup_insert_eq.
  - unfold m1, obj_size. rewrite ld_st_ne, ld_st_eq by lia. done.
  - lia.
  - unfold free_list. apply ld_st_eq.
  - constructor.
  - intros o [Ho|Ho]; [by apply elem_of_nil in Ho|by apply elem_of_empty in Ho].
Qed.
End Inv.

(** ** Properties *)


(** The free list is last in, first out: freeing an object and allocating again
    returns that object and restores the slab. *)
Theorem slab_free_alloc_roundtrip base size h live s n free out p :
  slab_inv base size h live s n free out -> p ∈ out ->
  exists h', slab_alloc s (slab_free s p h) = Some (p, h') /\
    slab_inv base size h' live s n free out.
Proof.
  intros Hi Hp. destruct (pop_slab _ _ _ _ _ _ _ _ _ (free_slab _ _ _ _ _ _ _ _ _ Hi Hp)) as (h' & E & Hi').
  exists h'. split; [exact E|]. replace ({[p]} ∪ out ∖ {[p]}) with out in Hi'; [done|].
  apply set_eq. intros o. rewrite elem_of_union, elem_of_difference, elem_of_singleton.
  destruct (decide (o = p)) as [->|]; tauto.
Qed.

(** ** Witnesses *)

Definition demo_slab : heap :=
  match slab_create 16 demo_heap with Some (_, h) => h | None => demo_heap end.
Definition demo_slab1 : heap :=
  match slab_alloc 0x10010 demo_slab with Some (_, h) => h | None => demo_slab end.

Lemma demo_slab_create : slab_create 16 demo_heap = Some (0x10010, demo_slab).
Proof. vm_compute. reflexivity. Qed.
Lemma demo_slab_alloc : slab_alloc 0x10010 demo_slab = Some (0x10028, demo_slab1).
Proof. vm_compute. reflexivity. Qed.

Lemma demo_heap_inv : heap_inv 0x10000 0x1000 demo_heap ∅ [Block 0xFF0 true].
Proof. apply (heap_init_inv 0x8000 0x10000 0x1000 _ demo_region). Qed.

Lemma demo_slab_step : slab_step 0x10010 16 (demo_slab, ∅) (demo_slab1, {[0x10028]} ∪ ∅).
Proof. apply (ss_alloc 0x10010 16 demo_slab ∅ 0x10028 demo_slab1). exact demo_slab_alloc. Qed.


Lemma slab_free_alloc_roundtrip_witness :
  exists live free h',
    slab_alloc 0x10010 (slab_free 0x10010 0x10028 demo_slab1) = Some (0x10028, h') /\
    slab_inv 0x10000 0x1000 h' live 0x10010 16 free ({[0x10028]} ∪ ∅).
Proof.
  assert (slab_ok 0x10000 0x1000 0x10010 16 (demo_slab1, {[0x10028]} ∪ ∅)) as (live & free & Hi).
  { apply (slab_step_ok _ _ _ _ _ _ demo_slab_step).
    apply (create_slab _ _ _ _ _ 16 0x10010 demo_slab demo_heap_inv); [lia|lia|exact demo_slab_create|lia]. }
  exists live, free.
  apply (slab_free_alloc_roundtrip 0x10000 0x1000 demo_slab1 live 0x10010 16 free ({[0x10028]} ∪ ∅) 0x10028).
  - exact Hi.
  - apply elem_of_union_l. by apply elem_of_singleton.
Defined.
