(* ===== verification/Proc.v ===== *)
(** * Processes: control blocks and process table (process/process.h, process/process.c)

    Pointers to control blocks are indices into [process_table]; NULL is [None]. The
    system state gathers the file-scope variables of process.c and scheduler.c, the
    tick counter of drivers/timer.c, the ESP0 field of the TSS, the kernel stack
    pointer of the processor, and the kernel heap the stacks come from. *)
From S2P Require Import Prelude Mem Heap.

Definition PROCESS_MAX : nat := 64.
Definition PROCESS_NAME_LEN : Z := 32.
Definition PROCESS_KSTACK_SIZE : Z := 16384.
Definition PROCESS_USTACK_SIZE : Z := 16384.
Definition PRIORITY_HIGH : Z := 0.
Definition PRIORITY_NORMAL : Z := 1.
Definition PRIORITY_LOW : Z := 2.
Definition PRIORITY_LEVELS : Z := 3.
Definition SCHED_QUANTUM_TICKS : Z := 5.
Definition AGING_THRESHOLD : Z := 200.

Inductive process_state :=
| PROCESS_STATE_UNUSED
| PROCESS_STATE_READY
| PROCESS_STATE_RUNNING
| PROCESS_STATE_BLOCKED
| PROCESS_STATE_SLEEPING
| PROCESS_STATE_ZOMBIE.

#[export] Instance process_state_eq_dec : EqDecision process_state.
Proof. solve_decision. Defined.

Record process := Process {
  p_pid : Z;
  p_ppid : Z;
  p_name : list Z;
  p_state : process_state;
  p_priority : Z;
  p_base_priority : Z;
  p_quantum_left : Z;
  p_wait_ticks : Z;
  p_cpu_ticks : Z;
  p_next : option nat;
  p_kstack : Z;
  p_kstack_top : Z;
  p_esp : Z;
  p_is_user : Z;
  p_ustack : Z;
  p_ustack_top : Z;
  p_user_entry : Z;
  p_sleep_until : Z;
  p_exit_code : Z;
  p_parent_waiting : Z
}.

(** Assignments to one field. *)
Definition set_pid (v : Z) (p : process) : process :=
  Process v (p_ppid p) (p_name p) (p_state p) (p_priority p) (p_base_priority p)
    (p_quantum_left p) (p_wait_ticks p) (p_cpu_ticks p) (p_next p) (p_kstack p)
    (p_kstack_top p) (p_esp p) (p_is_user p) (p_ustack p) (p_ustack_top p) (p_user_entry p)
    (p_sleep_until p) (p_exit_code p) (p_parent_waiting p).
Definition set_ppid (v : Z) (p : process) : process :=
  Process (p_pid p) v (p_name p) (p_state p) (p_priority p) (p_base_priority p)
    (p_quantum_left p) (p_wait_ticks p) (p_cpu_ticks p) (p_next p) (p_kstack p)
    (p_kstack_top p) (p_esp p) (p_is_user p) (p_ustack p) (p_ustack_top p) (p_user_entry p)
    (p_sleep_until p) (p_exit_code p) (p_parent_waiting p).
Definition set_name (v : list Z) (p : process) : process :=
  Process (p_pid p) (p_ppid p) v (p_state p) (p_priority p) (p_base_priority p)
    (p_quantum_left p) (p_wait_ticks p) (p_cpu_ticks p) (p_next p) (p_kstack p)
    (p_kstack_top p) (p_esp p) (p_is_user p) (p_ustack p) (p_ustack_top p) (p_user_entry p)
    (p_sleep_until p) (p_exit_code p) (p_parent_waiting p).
Definition set_state (v : process_state) (p : process) : process :=
  Process (p_pid p) (p_ppid p) (p_name p) v (p_priority p) (p_base_priority p)
    (p_quantum_left p) (p_wait_ticks p) (p_cpu_ticks p) (p_next p) (p_kstack p)
    (p_kstack_top p) (p_esp p) (p_is_user p) (p_ustack p) (p_ustack_top p) (p_user_entry p)
    (p_sleep_until p) (p_exit_code p) (p_parent_waiting p).
Definition set_priority (v : Z) (p : process) : process :=
  Process (p_pid p) (p_ppid p) (p_name p) (p_state p) v (p_base_priority p) (p_quantum_left p)
    (p_wait_ticks p) (p_cpu_ticks p) (p_next p) (p_kstack p) (p_kstack_top p) (p_esp p)
    (p_is_user p) (p_ustack p) (p_ustack_top p) (p_user_entry p) (p_sleep_until p)
    (p_exit_code p) (p_parent_waiting p).
Definition set_base_priority (v : Z) (p : process) : process :=
  Process (p_pid p) (p_ppid p) (p_name p) (p_state p) (p_priority p) v (p_quantum_left p)
    (p_wait_ticks p) (p_cpu_ticks p) (p_next p) (p_kstack p) (p_kstack_top p) (p_esp p)
    (p_is_user p) (p_ustack p) (p_ustack_top p) (p_user_entry p) (p_sleep_until p)
    (p_exit_code p) (p_parent_waiting p).
Definition set_quantum_left (v : Z) (p : process) : process :=
  Process (p_pid p) (p_ppid p) (p_name p) (p_state p) (p_priority p) (p_base_priority p) v
    (p_wait_ticks p) (p_cpu_ticks p) (p_next p) (p_kstack p) (p_kstack_top p) (p_esp p)
    (p_is_user p) (p_ustack p) (p_ustack_top p) (p_user_entry p) (p_sleep_until p)
    (p_exit_code p) (p_parent_waiting p).
Definition set_wait_ticks (v : Z) (p : process) : process :=
  Process (p_pid p) (p_ppid p) (p_name p) (p_state p) (p_priority p) (p_base_priority p)
    (p_quantum_left p) v (p_cpu_ticks p) (p_next p) (p_kstack p) (p_kstack_top p) (p_esp p)
    (p_is_user p) (p_ustack p) (p_ustack_top p) (p_user_entry p) (p_sleep_until p)
    (p_exit_code p) (p_parent_waiting p).
Definition set_cpu_ticks (v : Z) (p : process) : process :=
  Process (p_pid p) (p_ppid p) (p_name p) (p_state p) (p_priority p) (p_base_priority p)
    (p_quantum_left p) (p_wait_ticks p) v (p_next p) (p_kstack p) (p_kstack_top p) (p_esp p)
    (p_is_user p) (p_ustack p) (p_ustack_top p) (p_user_entry p) (p_sleep_until p)
    (p_exit_code p) (p_parent_waiting p).
Definition set_next (v : option nat) (p : process) : process :=
  Process (p_pid p) (p_ppid p) (p_name p) (p_state p) (p_priority p) (p_base_priority p)
    (p_quantum_left p) (p_wait_ticks p) (p_cpu_ticks p) v (p_kstack p) (p_kstack_top p)
    (p_esp p) (p_is_user p) (p_ustack p) (p_ustack_top p) (p_user_entry p) (p_sleep_until p)
    (p_exit_code p) (p_parent_waiting p).
Definition set_kstack (v : Z) (p : process) : process :=
  Process (p_pid p) (p_ppid p) (p_name p) (p_state p) (p_priority p) (p_base_priority p)
    (p_quantum_left p) (p_wait_ticks p) (p_cpu_ticks p) (p_next p) v (p_kstack_top p) (p_esp p)
    (p_is_user p) (p_ustack p) (p_ustack_top p) (p_user_entry p) (p_sleep_until p)
    (p_exit_code p) (p_parent_waiting p).
Definition set_kstack_top (v : Z) (p : process) : process :=
  Process (p_pid p) (p_ppid p) (p_name p) (p_state p) (p_priority p) (p_base_priority p)
    (p_quantum_left p) (p_wait_ticks p) (p_cpu_ticks p) (p_next p) (p_kstack p) v (p_esp p)
    (p_is_user p) (p_ustack p) (p_ustack_top p) (p_user_entry p) (p_sleep_until p)
    (p_exit_code p) (p_parent_waiting p).
Definition set_esp (v : Z) (p : process) : process :=
  Process (p_pid p) (p_ppid p) (p_name p) (p_state p) (p_priority p) (p_base_priority p)
    (p_quantum_left p) (p_wait_ticks p) (p_cpu_ticks p) (p_next p) (p_kstack p)
    (p_kstack_top p) v (p_is_user p) (p_ustack p) (p_ustack_top p) (p_user_entry p)
    (p_sleep_until p) (p_exit_code p) (p_parent_waiting p).
Definition set_is_user (v : Z) (p : process) : process :=
  Process (p_pid p) (p_ppid p) (p_name p) (p_state p) (p_priority p) (p_base_priority p)
    (p_quantum_left p) (p_wait_ticks p) (p_cpu_ticks p) (p_next p) (p_kstack p)
    (p_kstack_top p) (p_esp p) v (p_ustack p) (p_ustack_top p) (p_user_entry p)
    (p_sleep_until p) (p_exit_code p) (p_parent_waiting p).
Definition set_ustack (v : Z) (p : process) : process :=
  Process (p_pid p) (p_ppid p) (p_name p) (p_state p) (p_priority p) (p_base_priority p)
    (p_quantum_left p) (p_wait_ticks p) (p_cpu_ticks p) (p_next p) (p_kstack p)
    (p_kstack_top p) (p_esp p) (p_is_user p) v (p_ustack_top p) (p_user_entry p)
    (p_sleep_until p) (p_exit_code p) (p_parent_waiting p).
Definition set_ustack_top (v : Z) (p : process) : process :=
  Process (p_pid p) (p_ppid p) (p_name p) (p_state p) (p_priority p) (p_base_priority p)
    (p_quantum_left p) (p_wait_ticks p) (p_cpu_ticks p) (p_next p) (p_kstack p)
    (p_kstack_top p) (p_esp p) (p_is_user p) (p_ustack p) v (p_user_entry p) (p_sleep_until p)
    (p_exit_code p) (p_parent_waiting p).
Definition set_user_entry (v : Z) (p : process) : process :=
  Process (p_pid p) (p_ppid p) (p_name p) (p_state p) (p_priority p) (p_base_priority p)
    (p_quantum_left p) (p_wait_ticks p) (p_cpu_ticks p) (p_next p) (p_kstack p)
    (p_kstack_top p) (p_esp p) (p_is_user p) (p_ustack p) (p_ustack_top p) v (p_sleep_until p)
    (p_exit_code p) (p_parent_waiting p).
Definition set_sleep_until (v : Z) (p : process) : process :=
  Process (p_pid p) (p_ppid p) (p_name p) (p_state p) (p_priority p) (p_base_priority p)
    (p_quantum_left p) (p_wait_ticks p) (p_cpu_ticks p) (p_next p) (p_kstack p)
    (p_kstack_top p) (p_esp p) (p_is_user p) (p_ustack p) (p_ustack_top p) (p_user_entry p) v
    (p_exit_code p) (p_parent_waiting p).
Definition set_exit_code (v : Z) (p : process) : process :=
  Process (p_pid p) (p_ppid p) (p_name p) (p_state p) (p_priority p) (p_base_priority p)
    (p_quantum_left p) (p_wait_ticks p) (p_cpu_ticks p) (p_next p) (p_kstack p)
    (p_kstack_top p) (p_esp p) (p_is_user p) (p_ustack p) (p_ustack_top p) (p_user_entry p)
    (p_sleep_until p) v (p_parent_waiting p).
Definition set_parent_waiting (v : Z) (p : process) : process :=
  Process (p_pid p) (p_ppid p) (p_name p) (p_state p) (p_priority p) (p_base_priority p)
    (p_quantum_left p) (p_wait_ticks p) (p_cpu_ticks p) (p_next p) (p_kstack p)
    (p_kstack_top p) (p_esp p) (p_is_user p) (p_ustack p) (p_ustack_top p) (p_user_entry p)
    (p_sleep_until p) (p_exit_code p) v.

(** A control block of zero bytes. *)
Definition zero_process : process :=
  Process 0 0 (replicate 32 0) PROCESS_STATE_UNUSED 0 0 0 0 0 None 0 0 0 0 0 0 0 0 0 0.

Record sys := Sys {
  table : list process;
  next_pid : Z;
  current_process : option nat;
  queue_head : list (option nat);
  queue_tail : list (option nat);
  started : bool;
  context_switches : Z;
  timer_ticks : Z;
  tss_esp0 : Z;
  cpu_esp : Z;
  kheap : heap
}.

Definition with_table (v : list process) (s : sys) : sys :=
  Sys v (next_pid s) (current_process s) (queue_head s) (queue_tail s) (started s)
    (context_switches s) (timer_ticks s) (tss_esp0 s) (cpu_esp s) (kheap s).
Definition with_next_pid (v : Z) (s : sys) : sys :=
  Sys (table s) v (current_process s) (queue_head s) (queue_tail s) (started s)
    (context_switches s) (timer_ticks s) (tss_esp0 s) (cpu_esp s) (kheap s).
Definition with_current_process (v : option nat) (s : sys) : sys :=
  Sys (table s) (next_pid s) v (queue_head s) (queue_tail s) (started s) (context_switches s)
    (timer_ticks s) (tss_esp0 s) (cpu_esp s) (kheap s).
Definition with_queue_head (v : list (option nat)) (s : sys) : sys :=
  Sys (table s) (next_pid s) (current_process s) v (queue_tail s) (started s)
    (context_switches s) (timer_ticks s) (tss_esp0 s) (cpu_esp s) (kheap s).
Definition with_queue_tail (v : list (option nat)) (s : sys) : sys :=
  Sys (table s) (next_pid s) (current_process s) (queue_head s) v (started s)
    (context_switches s) (timer_ticks s) (tss_esp0 s) (cpu_esp s) (kheap s).
Definition with_started (v : bool) (s : sys) : sys :=
  Sys (table s) (next_pid s) (current_process s) (queue_head s) (queue_tail s) v
    (context_switches s) (timer_ticks s) (tss_esp0 s) (cpu_esp s) (kheap s).
Definition with_context_switches (v : Z) (s : sys) : sys :=
  Sys (table s) (next_pid s) (current_process s) (queue_head s) (queue_tail s) (started s) v
    (timer_ticks s) (tss_esp0 s) (cpu_esp s) (kheap s).
Definition with_timer_ticks (v : Z) (s : sys) : sys :=
  Sys (table s) (next_pid s) (current_process s) (queue_head s) (queue_tail s) (started s)
    (context_switches s) v (tss_esp0 s) (cpu_esp s) (kheap s).
Definition with_tss_esp0 (v : Z) (s : sys) : sys :=
  Sys (table s) (next_pid s) (current_process s) (queue_head s) (queue_tail s) (started s)
    (context_switches s) (timer_ticks s) v (cpu_esp s) (kheap s).
Definition with_cpu_esp (v : Z) (s : sys) : sys :=
  Sys (table s) (next_pid s) (current_process s) (queue_head s) (queue_tail s) (started s)
    (context_switches s) (timer_ticks s) (tss_esp0 s) v (kheap s).
Definition with_kheap (v : heap) (s : sys) : sys :=
  Sys (table s) (next_pid s) (current_process s) (queue_head s) (queue_tail s) (started s)
    (context_switches s) (timer_ticks s) (tss_esp0 s) (cpu_esp s) v.

Abbreviation UNUSED := PROCESS_STATE_UNUSED.
Abbreviation READY := PROCESS_STATE_READY.
Abbreviation RUNNING := PROCESS_STATE_RUNNING.
Abbreviation BLOCKED := PROCESS_STATE_BLOCKED.
Abbreviation SLEEPING := PROCESS_STATE_SLEEPING.
Abbreviation ZOMBIE := PROCESS_STATE_ZOMBIE.

(** The control block a pointer refers to, and an update through the pointer. *)
Definition proc (s : sys) (i : nat) : process := default zero_process (table s !! i).
Definition upd (i : nat) (f : process -> process) (s : sys) : sys := with_table (alter f i (table s)) s.

Definition process_table_entry (index : Z) : option nat :=
  if (index <? 0) || (Z.of_nat PROCESS_MAX <=? index) then None else Some (Z.to_nat index).

Definition is_unused (p : process) : bool := bool_decide (p_state p = UNUSED).

(** Indices of the table in the order the loops visit them. *)
Definition slots : list nat := seq 0 PROCESS_MAX.

Definition process_by_pid (pid : Z) (s : sys) : option nat :=
  List.find (fun i => negb (is_unused (proc s i)) && (p_pid (proc s i) =? pid)) slots.

Definition process_count (s : sys) : Z :=
  foldl (fun n i => if is_unused (proc s i) then n else n + 1) 0 slots.

Definition process_current (s : sys) : option nat := current_process s.
Definition process_getpid (s : sys) : Z :=
  match current_process s with Some c => p_pid (proc s c) | None => 0 end.
Definition process_getppid (s : sys) : Z :=
  match current_process s with Some c => p_ppid (proc s c) | None => 0 end.

(** [name] is the string without its terminator, [None] for NULL. *)
Definition copy_name (name : option (list Z)) (p : process) : process :=
  let cs := match name with
            | Some n => take (Z.to_nat (PROCESS_NAME_LEN - 1)) n
            | None => []
            end in
  set_name (cs ++ 0 :: drop (S (length cs)) (p_name p)) p.

(** First free slot, cleared and given the next pid. *)
Definition alloc_pcb (s : sys) : option (nat * sys) :=
  match List.find (fun i => is_unused (proc s i)) slots with
  | None => None
  | Some i =>
      let s := upd i (fun _ => zero_process) s in
      let s := upd i (set_pid (next_pid s)) s in
      Some (i, with_next_pid (u32 (next_pid s + 1)) s)
  end.

Definition process_release (p : option nat) (s : sys) : sys :=
  match p with
  | None => s
  | Some i =>
      if bool_decide (Some i = current_process s) then s
      else
        let s := if negb (p_kstack (proc s i) =? 0)
                 then upd i (set_kstack 0) (with_kheap (kfree (p_kstack (proc s i)) (kheap s)) s) else s in
        let s := if negb (p_ustack (proc s i) =? 0)
                 then upd i (set_ustack 0) (with_kheap (kfree (p_ustack (proc s i)) (kheap s)) s) else s in
        let s := upd i (set_state UNUSED) s in
        upd i (set_pid 0) s
  end.

(** [process_init]: every slot free, the boot context adopted as PID 0 in slot 0. *)
Definition process_init (s : sys) : sys :=
  let s := foldl (fun s i => upd i (set_state UNUSED) s) s slots in
  let s := upd 0 (fun _ => zero_process) s in
  let s := upd 0 (set_pid 0) s in
  let s := upd 0 (set_ppid 0) s in
  let s := upd 0 (set_state RUNNING) s in
  let s := upd 0 (set_priority PRIORITY_LOW) s in
  let s := upd 0 (set_base_priority PRIORITY_LOW) s in
  let s := upd 0 (set_quantum_left SCHED_QUANTUM_TICKS) s in
  let s := upd 0 (copy_name (Some [105; 100; 108; 101])) s in
  with_current_process (Some 0%nat) s.

(** ** Reading the table over updates *)

Lemma proc_upd_eq s i f : (i < length (table s))%nat -> proc (upd i f s) i = f (proc s i).
Proof.
  intros Hi. unfold proc, upd. simpl. destruct (lookup_lt_is_Some_2 _ _ Hi) as [p Hp].
  rewrite list_lookup_alter_eq, Hp. done.
Qed.
Lemma proc_upd_ne s i j f : i <> j -> proc (upd i f s) j = proc s j.
Proof. intros Hne. unfold proc, upd. simpl. by rewrite list_lookup_alter_ne. Qed.
Lemma table_upd s i f : length (table (upd i f s)) = length (table s).
Proof. unfold upd. simpl. apply length_alter. Qed.

(** The part of a control block that the queue operations leave alone. *)
Definition pub (p : process) : process := set_next None p.

(** [upd] commutes with what is read. *)
Ltac procs :=
  repeat first
    [ rewrite table_upd
    | rewrite proc_upd_eq by (rewrite ?table_upd; lia)
    | rewrite proc_upd_ne by congruence ].

Lemma find_slot (f : nat -> bool) i : List.find f slots = Some i -> f i = true /\ (i < 64)%nat.
Proof.
  intros H. apply List.find_some in H as [Hin Hf]. split; [done|].
  apply in_seq in Hin. unfold PROCESS_MAX in Hin. lia.
Qed.

Lemma find_slot_first (f : nat -> bool) i : List.find f slots = Some i ->
  forall j, (j < i)%nat -> f j = false.
Proof.
  unfold slots. intros H j Hj.
  assert (forall n k, List.find f (seq k n) = Some i -> forall j, (k <= j < i)%nat -> f j = false) as Hg.
  { clear. induction n as [|n IH]; intros k; simpl; [done|]. destruct (f k) eqn:Hk.
    - intros [= ->] j Hj. lia.
    - intros H j Hj. destruct (Nat.eq_dec j k) as [->|]; [done|]. apply (IH (S k)); [done|lia]. }
  apply (Hg PROCESS_MAX 0%nat); [done|lia].
Qed.

Lemma find_slot_none (f : nat -> bool) : List.find f slots = None ->
  forall j, (j < 64)%nat -> f j = false.
Proof. intros H j Hj. apply (List.find_none _ _ H). apply in_seq. unfold PROCESS_MAX. lia. Qed.
