(* ===== verification/Sched.v ===== *)
(** * Scheduler (process/scheduler.c, process/scheduler.h, drivers/timer.c)

    The ready queues are the linked lists of scheduler.c (head and tail pointers per
    priority level, links in the control blocks). [queues] relates them to three lists
    of table indices; every queue operation is proved against that view. *)
From S2P Require Import Prelude Mem Heap Proc.


(** ** Ready queues *)

Definition head_of (q : Z) (s : sys) : option nat := default None (queue_head s !! Z.to_nat q).
Definition tail_of (q : Z) (s : sys) : option nat := default None (queue_tail s !! Z.to_nat q).
Definition set_head (q : Z) (v : option nat) (s : sys) : sys :=
  with_queue_head (<[Z.to_nat q := v]> (queue_head s)) s.
Definition set_tail (q : Z) (v : option nat) (s : sys) : sys :=
  with_queue_tail (<[Z.to_nat q := v]> (queue_tail s)) s.

(** The levels in the order [for (q = 0; q < PRIORITY_LEVELS; q++)] visits them. *)
Definition levels : list Z := [0; 1; 2].

Definition clamp_level (q : Z) : Z := if PRIORITY_LEVELS <=? q then PRIORITY_LEVELS - 1 else q.

Definition scheduler_enqueue (p : option nat) (s : sys) : sys :=
  match p with
  | None => s
  | Some i =>
      if p_pid (proc s i) =? 0 then s
      else
        let s := upd i (set_next None) s in
        let s := upd i (set_wait_ticks 0) s in
        let q := clamp_level (p_priority (proc s i)) in
        match tail_of q s with
        | Some t => set_tail q (Some i) (upd t (set_next (Some i)) s)
        | None => set_head q (Some i) (set_tail q (Some i) s)
        end
  end.

(** The inner loop of [scheduler_dequeue] on one queue: [Some (Some s)] when [p] was
    unlinked, [Some None] at the end of the queue, [None] when the fuel runs out. *)
Fixpoint dequeue_walk (fuel : nat) (q : Z) (p : nat) (prev it : option nat) (s : sys)
  : option (option sys) :=
  match it with
  | None => Some None
  | Some i =>
      match fuel with
      | O => None
      | S fuel =>
          if negb (bool_decide (i = p)) then dequeue_walk fuel q p (Some i) (p_next (proc s i)) s
          else
            let s := match prev with
                     | Some r => upd r (set_next (p_next (proc s i))) s
                     | None => set_head q (p_next (proc s i)) s
                     end in
            let s := if bool_decide (tail_of q s = Some i) then set_tail q prev s else s in
            Some (Some (upd i (set_next None) s))
      end
  end.

Fixpoint dequeue_levels (qs : list Z) (p : nat) (s : sys) : option sys :=
  match qs with
  | [] => Some s
  | q :: qs =>
      match dequeue_walk PROCESS_MAX q p None (head_of q s) s with
      | None => None
      | Some (Some s) => Some s
      | Some None => dequeue_levels qs p s
      end
  end.

Definition scheduler_dequeue (p : option nat) (s : sys) : option sys :=
  match p with None => Some s | Some i => dequeue_levels levels i s end.

Fixpoint pick_from (qs : list Z) (s : sys) : option nat * sys :=
  match qs with
  | [] => (None, s)
  | q :: qs =>
      match head_of q s with
      | Some p =>
          let s := set_head q (p_next (proc s p)) s in
          let s := match head_of q s with None => set_tail q None s | Some _ => s end in
          (Some p, upd p (set_next None) s)
      | None => pick_from qs s
      end
  end.

Definition pick_next (s : sys) : option nat * sys := pick_from levels s.

(** ** Housekeeping *)

Definition reap_orphan (s : sys) (i : nat) : sys :=
  if negb (bool_decide (p_state (proc s i) = ZOMBIE)) then s
  else if bool_decide (Some i = current_process s) then s
  else
    match process_by_pid (p_ppid (proc s i)) s with
    | None => process_release (Some i) s
    | Some parent =>
        if bool_decide (p_state (proc s parent) = UNUSED) || bool_decide (p_state (proc s parent) = ZOMBIE)
           || (p_pid (proc s parent) =? 0)
        then process_release (Some i) s else s
    end.

Definition reap_orphans (s : sys) : sys := foldl reap_orphan s slots.

(** The [while (it)] loop of [apply_aging] on level [q]. *)
Fixpoint aging_walk (fuel : nat) (q : Z) (it : option nat) (s : sys) : option sys :=
  match it with
  | None => Some s
  | Some i =>
      match fuel with
      | O => None
      | S fuel =>
          let next := p_next (proc s i) in
          let s := upd i (set_wait_ticks (u32 (p_wait_ticks (proc s i) + 1))) s in
          if AGING_THRESHOLD <? p_wait_ticks (proc s i) then
            match scheduler_dequeue (Some i) s with
            | None => None
            | Some s =>
                let s := upd i (set_priority (u8 (q - 1))) s in
                let s := scheduler_enqueue (Some i) s in
                aging_walk fuel q next s
            end
          else aging_walk fuel q next s
      end
  end.

Fixpoint aging_levels (qs : list Z) (s : sys) : option sys :=
  match qs with
  | [] => Some s
  | q :: qs =>
      match aging_walk PROCESS_MAX q (head_of q s) s with
      | None => None
      | Some s => aging_levels qs s
      end
  end.

Definition apply_aging (s : sys) : option sys := aging_levels [1; 2] s.

Definition wake_sleeper (now : Z) (s : sys) (i : nat) : sys :=
  if negb (bool_decide (p_state (proc s i) = SLEEPING)) then s
  else if p_sleep_until (proc s i) <=? now
  then scheduler_enqueue (Some i) (upd i (set_state READY) s)
  else s.

Definition wake_sleepers (now : Z) (s : sys) : sys := foldl (wake_sleeper now) s slots.

(** ** Core *)

Definition scheduler_start (s : sys) : sys := with_started true s.
Definition scheduler_active (s : sys) : bool := started s.

Definition tss_set_kernel_stack (esp0 : Z) (s : sys) : sys := with_tss_esp0 esp0 s.

(** The stack pointers across [context_switch(&prev->esp, next->esp)]: five words are
    pushed below the return address, and popped with it on the other stack. *)
Definition context_switch (prev next : nat) (s : sys) : sys :=
  let new_esp := p_esp (proc s next) in
  let s := upd prev (set_esp (u32 (cpu_esp s - 20))) s in
  with_cpu_esp (u32 (new_esp + 24)) s.

(** [schedule] from the requeueing of [prev] on. *)
Definition switch_to (prev next : nat) (s : sys) : sys :=
  let s := if bool_decide (p_state (proc s prev) = RUNNING) then
             let s := upd prev (set_state READY) s in
             let s := upd prev (set_priority (p_base_priority (proc s prev))) s in
             scheduler_enqueue (Some prev) s
           else s in
  let s := upd next (set_state RUNNING) s in
  let s := upd next (set_priority (p_base_priority (proc s next))) s in
  let s := upd next (set_quantum_left SCHED_QUANTUM_TICKS) s in
  let s := with_current_process (Some next) s in
  let s := with_context_switches (u64 (context_switches s + 1)) s in
  let s := tss_set_kernel_stack
             (if negb (p_kstack_top (proc s next) =? 0) then p_kstack_top (proc s next) else 0) s in
  if negb (bool_decide (prev = next)) then context_switch prev next s else s.

Definition schedule (s : sys) : sys :=
  if negb (started s) then s
  else
    let s := reap_orphans s in
    match current_process s with
    | None => s
    | Some prev =>
        let '(next, s) := pick_next s in
        match next with
        | Some next => switch_to prev next s
        | None =>
            if bool_decide (p_state (proc s prev) = RUNNING)
            then upd prev (set_quantum_left SCHED_QUANTUM_TICKS) s
            else
              match process_by_pid 0 s with
              | None => s
              | Some next => if bool_decide (next = prev) then s else switch_to prev next s
              end
        end
    end.

Definition is_ready (q : Z) (s : sys) : bool := match head_of q s with Some _ => true | None => false end.

Definition scheduler_tick (s : sys) : option sys :=
  if negb (started s) then Some s
  else
    let now := timer_ticks s in
    match current_process s with
    | None => None
    | Some c =>
        let s := upd c (set_cpu_ticks (u64 (p_cpu_ticks (proc s c) + 1))) s in
        let s := wake_sleepers now s in
        match apply_aging s with
        | None => None
        | Some s =>
            let higher_ready := existsb (fun q => is_ready q s) (seqZ 0 (p_priority (proc s c))) in
            let higher_ready :=
              if p_pid (proc s c) =? 0 then higher_ready || existsb (fun q => is_ready q s) levels
              else higher_ready in
            let s := if 0 <? p_quantum_left (proc s c)
                     then upd c (set_quantum_left (u32 (p_quantum_left (proc s c) - 1))) s else s in
            Some (if higher_ready || (p_quantum_left (proc s c) =? 0) then schedule s else s)
        end
    end.

Definition timer_handler (s : sys) : option sys :=
  scheduler_tick (with_timer_ticks (u64 (timer_ticks s + 1)) s).

Definition scheduler_yield (s : sys) : sys :=
  if started s then
    match current_process s with
    | None => s
    | Some c => schedule (upd c (set_quantum_left 0) s)
    end
  else s.

Definition scheduler_block_current (s : sys) : sys := schedule s.

Definition scheduler_unblock (p : option nat) (s : sys) : sys :=
  match p with
  | None => s
  | Some i =>
      if bool_decide (p_state (proc s i) = BLOCKED) || bool_decide (p_state (proc s i) = SLEEPING)
      then scheduler_enqueue (Some i) (upd i (set_state READY) s)
      else s
  end.

(** The counting loop of [scheduler_get_stats] on one queue. *)
Fixpoint count_walk (fuel : nat) (it : option nat) (s : sys) (n : Z) : option Z :=
  match it with
  | None => Some n
  | Some i =>
      match fuel with O => None | S fuel => count_walk fuel (p_next (proc s i)) s (u32 (n + 1)) end
  end.

(** Context switches, ticks and ready counts. *)
Definition scheduler_get_stats (s : sys) : Z * Z * list (option Z) :=
  (context_switches s, timer_ticks s, (fun q => count_walk PROCESS_MAX (head_of q s) s 0) <$> levels).

(** ** The queues as lists *)

Definition queue_view := Z -> list nat.

Definition level (q : Z) : Prop := 0 <= q < 3.

(** The first element of [l], or [n]. *)
Definition first_or (l : list nat) (n : option nat) : option nat :=
  match l with [] => n | x :: _ => Some x end.

(** The control blocks [l] are linked in order, the last one to [n]. *)
Fixpoint linked_to (s : sys) (l : list nat) (n : option nat) : Prop :=
  match l with
  | [] => True
  | x :: l => p_next (proc s x) = first_or l n /\ linked_to s l n
  end.

Record queues (s : sys) (qs : queue_view) : Prop := {
  qu_table : length (table s) = PROCESS_MAX;
  qu_heads : length (queue_head s) = 3%nat;
  qu_tails : length (queue_tail s) = 3%nat;
  qu_head : forall q, level q -> head_of q s = list.head (qs q);
  qu_tail : forall q, level q -> tail_of q s = list.last (qs q);
  qu_link : forall q, level q -> linked_to s (qs q) None;
  qu_nodup : forall q, level q -> NoDup (qs q);
  qu_disj : forall q r i, level q -> level r -> i ∈ qs q -> i ∈ qs r -> q = r;
  qu_range : forall q i, level q -> i ∈ qs q -> (i < PROCESS_MAX)%nat
}.

(** Everything but the links and heads, which the queue operations own. *)
Record rest_same (s s' : sys) : Prop := {
  re_pid : next_pid s' = next_pid s;
  re_cur : current_process s' = current_process s;
  re_started : started s' = started s;
  re_switches : context_switches s' = context_switches s;
  re_ticks : timer_ticks s' = timer_ticks s;
  re_tss : tss_esp0 s' = tss_esp0 s;
  re_esp : cpu_esp s' = cpu_esp s;
  re_heap : kheap s' = kheap s
}.

Lemma rest_refl s : rest_same s s.
Proof. by split. Qed.
Lemma rest_trans s1 s2 s3 : rest_same s1 s2 -> rest_same s2 s3 -> rest_same s1 s3.
Proof. intros [] []. split; congruence. Qed.
#[export] Hint Resolve rest_refl : openos.

Definition push (q : Z) (i : nat) (qs : queue_view) : queue_view :=
  fun r => if r =? q then qs r ++ [i] else qs r.
Definition unqueue (i : nat) (qs : queue_view) : queue_view :=
  fun r => filter (fun j => j <> i) (qs r).

Definition queued (qs : queue_view) (i : nat) : Prop := exists q, level q /\ i ∈ qs q.

Lemma head_set q r v s : level q -> level r -> length (queue_head s) = 3%nat ->
  head_of r (set_head q v s) = if r =? q then v else head_of r s.
Proof.
  intros Hq Hr Hl. unfold head_of, set_head, level in *. simpl. destruct (Z.eqb_spec r q) as [->|].
  - by rewrite list_lookup_insert_eq by lia.
  - by rewrite list_lookup_insert_ne by lia.
Qed.
Lemma tail_set q r v s : level q -> level r -> length (queue_tail s) = 3%nat ->
  tail_of r (set_tail q v s) = if r =? q then v else tail_of r s.
Proof.
  intros Hq Hr Hl. unfold tail_of, set_tail, level in *. simpl. destruct (Z.eqb_spec r q) as [->|].
  - by rewrite list_lookup_insert_eq by lia.
  - by rewrite list_lookup_insert_ne by lia.
Qed.

Lemma clamp_level_ok q : 0 <= q -> level (clamp_level q).
Proof. unfold clamp_level, level, PRIORITY_LEVELS. zcases; lia. Qed.

Lemma linked_app s l1 l2 n :
  linked_to s (l1 ++ l2) n <-> linked_to s l1 (first_or l2 n) /\ linked_to s l2 n.
Proof.
  induction l1 as [|x l1 IH]; simpl; [tauto|]. rewrite IH. destruct l1; simpl; tauto.
Qed.

Lemma linked_ext s s' l n : (forall j, j ∈ l -> p_next (proc s' j) = p_next (proc s j)) ->
  linked_to s l n -> linked_to s' l n.
Proof.
  induction l as [|x l IH]; intros H; simpl; [done|]. intros [Hx Hl]. split.
  - rewrite H by left. done.
  - apply IH; [|done]. intros j Hj. apply H. by right.
Qed.

(** Updates that keep every link keep the queues. *)
Lemma queues_upd s qs i f : queues s qs -> (forall p, p_next (f p) = p_next p) -> queues (upd i f s) qs.
Proof.
  intros [H1 H2 H3 H4 H5 H6 H7 H8 H9] Hf. split; try done.
  - by rewrite table_upd.
  - intros q Hq. apply (linked_ext s); [|by apply H6]. intros j Hj. pose proof (H9 q j Hq Hj).
    destruct (decide (i = j)) as [->|]; [|by rewrite proc_upd_ne].
    rewrite proc_upd_eq by lia. by rewrite Hf.
Qed.

(** Appending [i] behind the last element [t]. *)
Lemma linked_snoc s s' l t i : linked_to s (l ++ [t]) None ->
  p_next (proc s' i) = None -> p_next (proc s' t) = Some i ->
  (forall j, j ∈ l -> p_next (proc s' j) = p_next (proc s j)) ->
  linked_to s' ((l ++ [t]) ++ [i]) None.
Proof.
  rewrite !linked_app. simpl. intros [Hl _] Hi Ht Hj. split_and!; try done. by apply (linked_ext s).
Qed.

Lemma queued_elem qs q i : level q -> i ∈ qs q -> queued qs i.
Proof. intros Hq Hi. by exists q. Qed.

Lemma head_snoc (l : list nat) t i : list.head ((l ++ [t]) ++ [i]) = list.head (l ++ [t]).
Proof. by destruct l. Qed.

(** Replacing one queue of the view. *)
Lemma queues_set s s' qs qs' q : queues s qs -> level q ->
  (forall r, level r -> r <> q -> qs' r = qs r) ->
  length (table s') = PROCESS_MAX -> length (queue_head s') = 3%nat -> length (queue_tail s') = 3%nat ->
  (forall r, level r -> r <> q -> head_of r s' = head_of r s /\ tail_of r s' = tail_of r s) ->
  head_of q s' = list.head (qs' q) -> tail_of q s' = list.last (qs' q) ->
  linked_to s' (qs' q) None ->
  (forall r j, level r -> r <> q -> j ∈ qs r -> p_next (proc s' j) = p_next (proc s j)) ->
  NoDup (qs' q) ->
  (forall j, j ∈ qs' q -> (j < PROCESS_MAX)%nat /\ forall r, level r -> r <> q -> (j ∉ qs r)) ->
  queues s' qs'.
Proof.
  intros [H1 H2 H3 H4 H5 H6 H7 H8 H9] Hq Hqs T1 T2 T3 Hht Hh Ht Hl Hk Hn Hd. split; try done.
  - intros r Hr. destruct (decide (r = q)) as [->|Hne]; [done|].
    rewrite Hqs by done. destruct (Hht r Hr Hne) as [-> _]. auto.
  - intros r Hr. destruct (decide (r = q)) as [->|Hne]; [done|].
    rewrite Hqs by done. destruct (Hht r Hr Hne) as [_ ->]. auto.
  - intros r Hr. destruct (decide (r = q)) as [->|Hne]; [done|]. rewrite Hqs by done.
    apply (linked_ext s); [|by apply H6]. intros j Hj. by apply (Hk r).
  - intros r Hr. destruct (decide (r = q)) as [->|Hne]; [done|]. rewrite Hqs by done. auto.
  - intros r1 r2 i Hr1 Hr2. destruct (decide (r1 = q)) as [->|N1], (decide (r2 = q)) as [->|N2]; [done|..].
    + rewrite (Hqs r2) by done. intros Hi1 Hi2. by destruct (proj2 (Hd i Hi1) r2 Hr2 N2).
    + rewrite (Hqs r1) by done. intros Hi1 Hi2. by destruct (proj2 (Hd i Hi2) r1 Hr1 N1).
    + rewrite !Hqs by done. by apply H8.
  - intros r i Hr. destruct (decide (r = q)) as [->|Hne]; [intros Hi; by apply Hd|]. rewrite Hqs by done. by apply H9.
Qed.

Section Enqueue.
Variables (s : sys) (qs : queue_view) (i : nat) (q : Z).
Hypotheses (Hq : queues s qs) (Hi : (i < PROCESS_MAX)%nat) (Hnot : ~ queued qs i) (Hl : level q).

Let s1 := upd i (set_wait_ticks 0) (upd i (set_next None) s).
Let view := push q i qs.

Lemma enq_self : proc s1 i = set_wait_ticks 0 (set_next None (proc s i)).
Proof. pose proof (qu_table _ _ Hq). unfold s1. by procs. Qed.
Lemma enq_other j : j <> i -> proc s1 j = proc s j.
Proof. intros. unfold s1. by procs. Qed.
Lemma enq_table : length (table s1) = PROCESS_MAX.
Proof. unfold s1. rewrite !table_upd. apply (qu_table _ _ Hq). Qed.
Lemma enq_ne r j : level r -> j ∈ qs r -> j <> i.
Proof. intros Hr Hj ->. by apply Hnot, (queued_elem _ r). Qed.
Lemma enq_pub j :
  pub (proc s1 j) = if decide (j = i) then pub (set_wait_ticks 0 (proc s i)) else pub (proc s j).
Proof. destruct (decide (j = i)) as [->|]; [by rewrite enq_self|by rewrite enq_other]. Qed.

Lemma push_other r : r <> q -> view r = qs r.
Proof. intros H. unfold view, push. by rewrite (proj2 (Z.eqb_neq r q)). Qed.
Lemma push_self : view q = qs q ++ [i].
Proof. unfold view, push. by rewrite Z.eqb_refl. Qed.

Lemma push_nodup : NoDup (view q).
Proof.
  rewrite push_self. apply list.NoDup_app. split; [by apply (qu_nodup _ _ Hq)|].
  split; [|apply NoDup_singleton]. intros j Hj ->%list_elem_of_singleton. by apply (enq_ne q i).
Qed.
Lemma push_members j : j ∈ view q ->
  (j < PROCESS_MAX)%nat /\ forall r, level r -> r <> q -> (j ∉ qs r).
Proof.
  rewrite push_self. intros [Hj| ->%list_elem_of_singleton]%elem_of_app.
  - split; [by apply (qu_range _ _ Hq q)|]. intros r Hr Hrq Hjr. apply Hrq. by apply (qu_disj _ _ Hq r q j).
  - split; [done|]. intros r Hr _ Hjr. by apply (enq_ne r i).
Qed.

(** Behind the last element. *)
Lemma enqueue_behind l t : qs q = l ++ [t] ->
  let s2 := upd t (set_next (Some i)) s1 in
  queues (set_tail q (Some i) s2) view /\ forall j, pub (proc s2 j) = pub (proc s1 j).
Proof.
  intros El s2. pose proof enq_table as Ht1.
  pose proof (qu_nodup _ _ Hq q Hl) as Hnd. rewrite El in Hnd. apply list.NoDup_app in Hnd as (_ & Htl & _).
  assert (forall j, j ∈ l -> j <> t) as Hlt by (intros j Hj ->; by apply (Htl t), list_elem_of_singleton).
  assert (t ∈ qs q) as Htq by (rewrite El; apply elem_of_app; right; by apply list_elem_of_singleton).
  pose proof (enq_ne q t Hl Htq) as Hti. pose proof (qu_range _ _ Hq q t Hl Htq) as Htr.
  assert (forall j, j <> t -> proc s2 j = proc s1 j) as Hs2 by (intros; unfold s2; by procs).
  assert (proc s2 t = set_next (Some i) (proc s1 t)) as Hs2t by (unfold s2; procs; done).
  assert (forall j, j <> t -> j <> i -> p_next (proc s2 j) = p_next (proc s j)) as Hnx
    by (intros; by rewrite Hs2, enq_other).
  split.
  2: { intros j. destruct (decide (j = t)) as [->|]; [by rewrite Hs2t|by rewrite Hs2]. }
  pose proof (qu_heads _ _ Hq) as Lh. pose proof (qu_tails _ _ Hq) as Lt.
  apply (queues_set s _ qs view q Hq Hl); auto using push_other, push_nodup, push_members.
  - simpl. by rewrite length_alter.
  - simpl. by rewrite length_insert.
  - intros r Hr Hrq. split; [done|]. rewrite tail_set by done. by rewrite (proj2 (Z.eqb_neq r q)).
  - rewrite push_self, El, head_snoc, <- El. apply (qu_head _ _ Hq q Hl).
  - rewrite push_self, last_snoc, tail_set, Z.eqb_refl by done. done.
  - rewrite push_self, El. apply (linked_snoc s); auto.
    + rewrite <- El. by apply (qu_link _ _ Hq).
    + change (p_next (proc s2 i) = None). by rewrite Hs2, enq_self by congruence.
    + change (p_next (proc s2 t) = Some i). by rewrite Hs2t.
    + intros j Hj. apply Hnx; [by apply Hlt|]. apply (enq_ne q); [done|]. rewrite El. apply elem_of_app. by left.
  - intros r j Hr Hrq Hj. apply Hnx; [|by apply (enq_ne r)]. intros ->. apply Hrq. by apply (qu_disj _ _ Hq r q t).
Qed.

(** First of an empty queue. *)
Lemma enqueue_first : qs q = [] -> queues (set_head q (Some i) (set_tail q (Some i) s1)) view.
Proof.
  intros El. pose proof (qu_heads _ _ Hq) as Lh. pose proof (qu_tails _ _ Hq) as Lt.
  apply (queues_set s _ qs view q Hq Hl); auto using push_other, push_nodup, push_members, enq_table.
  - simpl. by rewrite length_insert.
  - simpl. by rewrite length_insert.
  - intros r Hr Hrq. rewrite head_set by done. change (tail_of r (set_head ?a ?b ?c)) with (tail_of r c).
    rewrite tail_set by done. by rewrite (proj2 (Z.eqb_neq r q)).
  - rewrite push_self, El, head_set, Z.eqb_refl by done. done.
  - rewrite push_self, El. change (tail_of q (set_head ?a ?b ?c)) with (tail_of q c).
    rewrite tail_set, Z.eqb_refl by done. done.
  - rewrite push_self, El. split; [|done]. change (p_next (proc s1 i) = None). by rewrite enq_self.
  - intros r j Hr Hrq Hj. change (p_next (proc s1 j) = p_next (proc s j)). rewrite enq_other; [done|].
    by apply (enq_ne r).
Qed.
End Enqueue.

(** [scheduler_enqueue] appends to the queue of the clamped priority and resets the
    waiting time; nothing else changes but links. *)
Lemma enqueue_spec s qs i : queues s qs -> (i < PROCESS_MAX)%nat -> p_pid (proc s i) <> 0 ->
  ~ queued qs i -> 0 <= p_priority (proc s i) ->
  let s' := scheduler_enqueue (Some i) s in
  queues s' (push (clamp_level (p_priority (proc s i))) i qs) /\ rest_same s s' /\
  forall j, pub (proc s' j) = if decide (j = i) then pub (set_wait_ticks 0 (proc s i)) else pub (proc s j).
Proof.
  intros Hq Hi Hpid Hnot Hpr. unfold scheduler_enqueue. rewrite (proj2 (Z.eqb_neq _ 0) Hpid).
  rewrite (enq_self s qs i Hq Hi). simpl p_priority.
  pose proof (clamp_level_ok _ Hpr) as Hl. set (q := clamp_level _) in *.
  change (tail_of q (upd i _ _)) with (tail_of q s). rewrite (qu_tail _ _ Hq q Hl).
  destruct (list.last (qs q)) as [t|] eqn:Elast.
  - apply last_Some in Elast as [l El]. destruct (enqueue_behind s qs i q Hq Hi Hnot Hl l t El) as [H1 H2].
    split; [exact H1|]. split; [by split|]. intros j. rewrite <- (enq_pub s qs i Hq Hi). apply H2.
  - apply last_None in Elast. split; [by apply enqueue_first|]. split; [by split|].
    intros j. by rewrite <- (enq_pub s qs i Hq Hi).
Qed.

(** *** Removal *)

(** What the source does when it has found [i] behind [prev]. *)
Definition unlink (q : Z) (prev : option nat) (i : nat) (s : sys) : sys :=
  let s := match prev with
           | Some r => upd r (set_next (p_next (proc s i))) s
           | None => set_head q (p_next (proc s i)) s
           end in
  let s := if bool_decide (tail_of q s = Some i) then set_tail q prev s else s in
  upd i (set_next None) s.

(** The walk finds [i] behind the last element before it. *)
Lemma walk_found q i l1 l2 s : forall fuel prev,
  linked_to s (l1 ++ i :: l2) None -> (i ∉ l1) -> (length l1 < fuel)%nat ->
  dequeue_walk fuel q i prev (first_or (l1 ++ i :: l2) None) s =
  Some (Some (unlink q (match list.last l1 with Some r => Some r | None => prev end) i s)).
Proof.
  induction l1 as [|x l1 IH]; intros fuel prev Hl Hni Hf; (destruct fuel as [|fuel]; [simpl in Hf; lia|]); simpl.
  - by rewrite bool_decide_eq_true_2.
  - rewrite bool_decide_eq_false_2 by (intros ->; apply Hni; by left). simpl.
    destruct Hl as [Hx Hl]. rewrite Hx. rewrite IH; [| |intros Hi; apply Hni; by right|simpl in Hf; lia].
    + rewrite last_cons. by destruct (list.last l1).
    + done.
Qed.

Lemma walk_absent q i l s : forall fuel prev,
  linked_to s l None -> (i ∉ l) -> (length l <= fuel)%nat ->
  dequeue_walk fuel q i prev (first_or l None) s = Some None.
Proof.
  induction l as [|x l IH]; intros fuel prev Hl Hni Hf; (destruct fuel as [|fuel]; simpl in *; try lia; try done).
  rewrite bool_decide_eq_false_2 by (intros ->; apply Hni; by left). simpl.
  destruct Hl as [Hx Hl]. rewrite Hx. apply IH; [done|intros Hi; apply Hni; by right|lia].
Qed.

Lemma head_first (l : list nat) : list.head l = first_or l None.
Proof. by destruct l. Qed.

(** A queue holds at most every slot once. *)
Lemma queue_short s qs q : queues s qs -> level q -> (length (qs q) <= PROCESS_MAX)%nat.
Proof.
  intros Hq Hl. pose proof (qu_nodup _ _ Hq q Hl) as Hn.
  assert (qs q ⊆ seq 0 PROCESS_MAX) as Hsub.
  { intros i Hi. apply elem_of_seq. pose proof (qu_range _ _ Hq q i Hl Hi). lia. }
  pose proof (submseteq_length _ _ (NoDup_submseteq _ _ Hn Hsub)) as H. by rewrite length_seq in H.
Qed.

Lemma filter_absent (l : list nat) i : (i ∉ l) -> filter (fun j => j <> i) l = l.
Proof.
  induction l as [|x l IH]; intros Hl; [done|]. rewrite filter_cons_True.
  - f_equal. apply IH. intros Hi. apply Hl. by right.
  - intros ->. apply Hl. by left.
Qed.
Lemma filter_middle (l1 l2 : list nat) i : (i ∉ l1) -> (i ∉ l2) ->
  filter (fun j => j <> i) (l1 ++ i :: l2) = l1 ++ l2.
Proof.
  intros H1 H2. rewrite list.filter_app, filter_cons_False by tauto. by rewrite !filter_absent.
Qed.

Section Unlink.
Variables (s : sys) (qs : queue_view) (q : Z) (i : nat) (l1 l2 : list nat).
Hypotheses (Hq : queues s qs) (Hl : level q) (El : qs q = l1 ++ i :: l2).

Lemma split_facts : (i ∉ l1) /\ (i ∉ l2) /\ (forall j, j ∈ l1 -> j ∈ l2 -> False) /\
  NoDup (l1 ++ l2) /\ (i < PROCESS_MAX)%nat /\ p_next (proc s i) = first_or l2 None.
Proof.
  pose proof (qu_nodup _ _ Hq q Hl) as Hn. pose proof (qu_link _ _ Hq q Hl) as Hk. rewrite El in Hn, Hk.
  apply list.NoDup_app in Hn as (N1 & Hd & N2). pose proof (NoDup_cons_1_1 _ _ N2) as Hi2.
  pose proof (NoDup_cons_1_2 _ _ N2) as N2'. apply linked_app in Hk as [_ [Hx _]].
  split_and!; try done.
  - intros Hi. apply (Hd i Hi). by left.
  - intros j H1 H2. apply (Hd j H1). by right.
  - apply list.NoDup_app. split_and!; try done. intros j H1 H2. apply (Hd j H1). by right.
  - apply (qu_range _ _ Hq q); [done|]. rewrite El. apply elem_of_app. right. by left.
Qed.

Lemma unqueue_other r : level r -> r <> q -> unqueue i qs r = qs r.
Proof.
  intros Hr Hne. unfold unqueue. apply filter_absent. intros Hi. apply Hne.
  apply (qu_disj _ _ Hq r q i); try done. rewrite El. apply elem_of_app. right. by left.
Qed.
Lemma unqueue_self : unqueue i qs q = l1 ++ l2.
Proof. destruct split_facts as (H1 & H2 & _). unfold unqueue. rewrite El. by apply filter_middle. Qed.

Lemma unqueue_members j : j ∈ unqueue i qs q ->
  (j < PROCESS_MAX)%nat /\ forall r, level r -> r <> q -> (j ∉ qs r).
Proof.
  rewrite unqueue_self. intros Hj.
  assert (j ∈ qs q) as Hjq by (rewrite El, elem_of_app, elem_of_cons; apply elem_of_app in Hj; tauto).
  split; [by apply (qu_range _ _ Hq q)|]. intros r Hr Hne Hjr. apply Hne. by apply (qu_disj _ _ Hq r q j).
Qed.

(** The first stage: the predecessor, or the head, skips [i]. *)
Definition skipped : sys :=
  match list.last l1 with
  | Some r => upd r (set_next (first_or l2 None)) s
  | None => set_head q (first_or l2 None) s
  end.

Lemma skipped_heads : length (queue_head skipped) = 3%nat /\ head_of q skipped = list.head (l1 ++ l2) /\
  forall r, level r -> r <> q -> head_of r skipped = head_of r s.
Proof.
  pose proof (qu_heads _ _ Hq) as Lh. pose proof (qu_head _ _ Hq q Hl) as Hh. rewrite El in Hh.
  unfold skipped. destruct (list.last l1) as [r0|] eqn:E.
  - split; [done|]. split; [|done]. change (head_of q s = list.head (l1 ++ l2)). rewrite Hh. by destruct l1.
  - apply last_None in E as E'. rewrite E'. split; [simpl; by rewrite length_insert|]. split.
    + rewrite head_set, Z.eqb_refl by done. symmetry. apply head_first.
    + intros r Hr Hne. rewrite head_set by done. by rewrite (proj2 (Z.eqb_neq r q)).
Qed.

Lemma skipped_procs : length (table skipped) = PROCESS_MAX /\
  (forall j, (j ∉ l1) -> proc skipped j = proc s j) /\ (forall j, pub (proc skipped j) = pub (proc s j)) /\
  linked_to skipped (l1 ++ l2) None.
Proof.
  destruct split_facts as (H1 & H2 & Hd & Hn & Hi & Hnx). pose proof (qu_table _ _ Hq) as Ht.
  pose proof (qu_link _ _ Hq q Hl) as Hk. rewrite El in Hk. apply linked_app in Hk as [K1 [_ K2]].
  unfold skipped. destruct (list.last l1) as [r|] eqn:E.
  2: { apply last_None in E. rewrite E. split_and!; [done|done|done|]. by apply (linked_ext s). }
  apply last_Some in E as [l0 E0]. rewrite E0 in K1, Hd, Hn |- *. apply linked_app in K1 as [K0 _].
  assert (r ∈ l0 ++ [r]) as Hr by (apply elem_of_app; right; by left).
  assert (r < PROCESS_MAX)%nat as Hrm.
  { apply (qu_range _ _ Hq q); [done|]. rewrite El, E0. apply elem_of_app. by left. }
  assert (forall j, j <> r -> proc (upd r (set_next (first_or l2 None)) s) j = proc s j) as Hne by (intros; by procs).
  split_and!.
  - by rewrite table_upd.
  - intros j Hj. apply Hne. intros ->. done.
  - intros j. destruct (decide (j = r)) as [->|]; [by procs|by rewrite Hne].
  - rewrite !linked_app. simpl. split; [split|].
    + apply (linked_ext s); [|done]. intros j Hj. rewrite Hne; [done|]. intros ->.
      rewrite <- app_assoc in Hn. apply list.NoDup_app in Hn as (_ & Hx & _). apply (Hx r Hj). by left.
    + split; [|done]. by procs.
    + apply (linked_ext s); [|done]. intros j Hj. rewrite Hne; [done|]. intros ->. by apply (Hd r).
Qed.

Lemma unlink_eq : unlink q (list.last l1) i s =
  upd i (set_next None) (match l2 with [] => set_tail q (list.last l1) skipped | _ => skipped end).
Proof.
  destruct split_facts as (H1 & H2 & Hd & Hn & Hi & Hnx). unfold unlink. rewrite Hnx. fold skipped.
  assert (tail_of q skipped = tail_of q s) as -> by (unfold skipped; by destruct (list.last l1)).
  rewrite (qu_tail _ _ Hq q Hl), El, last_app_cons, last_cons.
  destruct l2 as [|x l2'] eqn:E2; [by rewrite bool_decide_eq_true_2|].
  rewrite bool_decide_eq_false_2; [done|].
  destruct (list.last (x :: l2')) as [y|] eqn:Ey; [|by apply last_None in Ey].
  intros [= ->]. apply last_Some_elem_of in Ey. done.
Qed.

Lemma unlink_spec :
  let s' := unlink q (list.last l1) i s in
  queues s' (unqueue i qs) /\ rest_same s s' /\ forall j, pub (proc s' j) = pub (proc s j).
Proof.
  destruct split_facts as (H1 & H2 & Hd & Hn & Hi & Hnx).
  destruct skipped_heads as (Lh & Hh & Hhr). destruct skipped_procs as (Lt & Hp & Hpub & Hlk).
  cbv zeta. rewrite unlink_eq.
  set (sB := match l2 with [] => set_tail q (list.last l1) skipped | _ => skipped end).
  pose proof (qu_tails _ _ Hq) as Lq.
  assert (queue_tail skipped = queue_tail s) as Hqt by (unfold skipped; by destruct (list.last l1)).
  assert (rest_same s skipped) as Hrs by (unfold skipped; destruct (list.last l1); by split).
  assert (table sB = table skipped /\ queue_head sB = queue_head skipped /\ rest_same s sB /\
    length (queue_tail sB) = 3%nat /\ tail_of q sB = list.last (l1 ++ l2) /\
    forall r, level r -> r <> q -> tail_of r sB = tail_of r s) as (Bt & Bh & Brs & Blt & Btq & Btr).
  { assert (forall r, tail_of r skipped = tail_of r s) as Htl by (intros; unfold tail_of; by rewrite Hqt).
    unfold sB. destruct l2 as [|x l2'] eqn:E2.
    - rewrite app_nil_r. split_and!; try done; [by destruct Hrs| | |].
      + simpl. rewrite length_insert. congruence.
      + rewrite tail_set, Z.eqb_refl by congruence. done.
      + intros r Hr Hne. rewrite tail_set by congruence. by rewrite (proj2 (Z.eqb_neq r q)).
    - split_and!; try done; [congruence|]. rewrite Htl, (qu_tail _ _ Hq q Hl), El, last_app_cons, last_cons.
      rewrite last_app. destruct (list.last (x :: l2')) as [y|] eqn:Ey; [done|]. by apply last_None in Ey. }
  assert (forall j, proc sB j = proc skipped j) as Bp by (intros; unfold proc; by rewrite Bt).
  assert (forall j, j <> i -> proc (upd i (set_next None) sB) j = proc skipped j) as Hfin by (intros; procs; auto).
  split; [|split].
  - apply (queues_set s _ qs (unqueue i qs) q Hq Hl); auto using unqueue_other, unqueue_members.
    + rewrite table_upd. by rewrite Bt.
    + change (length (queue_head sB) = 3%nat). by rewrite Bh.
    + intros r Hr Hne. split; [|by apply Btr]. change (head_of r sB = head_of r s). unfold head_of. rewrite Bh.
      by apply Hhr.
    + rewrite unqueue_self, <- Hh. unfold head_of. simpl. by rewrite Bh.
    + rewrite unqueue_self. exact Btq.
    + rewrite unqueue_self. apply (linked_ext skipped); [|done]. intros j Hj. rewrite Hfin; [done|].
      intros ->. apply elem_of_app in Hj. tauto.
    + intros r j Hr Hne Hj.
      assert (j ∉ qs q) as Hjq by (intros Hjq; apply Hne; by apply (qu_disj _ _ Hq r q j)).
      rewrite El, elem_of_app, elem_of_cons in Hjq. rewrite Hfin, Hp by tauto. done.
    + by rewrite unqueue_self.
  - destruct Brs. by split.
  - intros j. rewrite <- Hpub. destruct (decide (j = i)) as [->|]; [|by rewrite Hfin].
    rewrite proc_upd_eq by (rewrite Bt, Lt; done). by rewrite Bp.
Qed.
End Unlink.

Lemma queues_ext s qs qs' : (forall q, level q -> qs' q = qs q) -> queues s qs -> queues s qs'.
Proof.
  intros E [H1 H2 H3 H4 H5 H6 H7 H8 H9]. split; try done.
  - intros q Hq. rewrite E by done. auto.
  - intros q Hq. rewrite E by done. auto.
  - intros q Hq. rewrite E by done. auto.
  - intros q Hq. rewrite E by done. auto.
  - intros q r i Hq Hr. rewrite !E by done. by apply H8.
  - intros q i Hq. rewrite E by done. by apply H9.
Qed.

(** One queue of [scheduler_dequeue]. *)
Lemma dequeue_level s qs i q : queues s qs -> level q ->
  match dequeue_walk PROCESS_MAX q i None (head_of q s) s with
  | None => False
  | Some None => (i ∉ qs q)
  | Some (Some s') => queues s' (unqueue i qs) /\ rest_same s s' /\
      (forall j, pub (proc s' j) = pub (proc s j)) /\ i ∈ qs q
  end.
Proof.
  intros Hq Hl. rewrite (qu_head _ _ Hq q Hl), head_first.
  pose proof (qu_link _ _ Hq q Hl) as Hk. pose proof (queue_short _ _ _ Hq Hl) as Hshort.
  destruct (decide (i ∈ qs q)) as [Hi|Hi]; [|by rewrite walk_absent].
  apply list_elem_of_split in Hi as (l1 & l2 & E).
  destruct (split_facts s qs q i l1 l2 Hq Hl E) as (H1 & _). rewrite E in Hk, Hshort |- *.
  rewrite length_app in Hshort. simpl in Hshort. rewrite walk_found by (done || lia).
  destruct (unlink_spec s qs q i l1 l2 Hq Hl E) as (A & B & C).
  replace (match list.last l1 with Some r => Some r | None => None end) with (list.last l1) by by destruct (list.last l1).
  split_and!; try done. apply elem_of_app. right. by left.
Qed.

Lemma level_cases q : level q <-> q = 0 \/ q = 1 \/ q = 2.
Proof. unfold level. lia. Qed.

#[local] Arguments dequeue_walk : simpl never.

Lemma dequeue_levels_spec s qs i ls : queues s qs -> Forall level ls ->
  (forall q, level q -> i ∈ qs q -> q ∈ ls) ->
  exists s', dequeue_levels ls i s = Some s' /\ queues s' (unqueue i qs) /\ rest_same s s' /\
    (forall j, pub (proc s' j) = pub (proc s j)) /\ (~ queued qs i -> s' = s).
Proof.
  intros Hq Hls. induction Hls as [|q ls Hl _ IH]; intros Hall; simpl.
  - exists s. split_and!; try done. apply (queues_ext s qs); [|done]. intros q Hl.
    apply filter_absent. intros Hi. by apply (Hall q) in Hi; [apply elem_of_nil in Hi|].
  - pose proof (dequeue_level s qs i q Hq Hl) as W.
    destruct (dequeue_walk PROCESS_MAX q i None (head_of q s) s) as [[s0|]|]; [| |done].
    + exists s0. destruct W as (A & B & C & D). split_and!; try done. intros Hno. destruct Hno. by exists q.
    + apply IH. intros r Hr Hi. specialize (Hall r Hr Hi). apply elem_of_cons in Hall as [->|?]; done.
Qed.

(** [scheduler_dequeue] removes the process from the queue that holds it, and does
    nothing when none does. *)
Lemma dequeue_spec s qs i : queues s qs ->
  exists s', scheduler_dequeue (Some i) s = Some s' /\ queues s' (unqueue i qs) /\ rest_same s s' /\
    (forall j, pub (proc s' j) = pub (proc s j)) /\ (~ queued qs i -> s' = s).
Proof.
  intros Hq. apply dequeue_levels_spec; [done| |].
  - unfold levels, level. repeat constructor; lia.
  - intros q Hl _. by apply level_cases in Hl as [->|[->| ->]]; repeat constructor.
Qed.

(** The queue [pick_next] takes from: the first non-empty one. *)
Definition top_level (qs : queue_view) : option Z :=
  List.find (fun q => match qs q with [] => false | _ => true end) levels.

(** [pick_next] pops the head of the first non-empty queue, or leaves everything as it
    is when all are empty. *)
Lemma pick_spec s qs : queues s qs ->
  match top_level qs with
  | None => pick_next s = (None, s)
  | Some q => exists i l s', level q /\ qs q = i :: l /\ pick_next s = (Some i, s') /\
      queues s' (unqueue i qs) /\ rest_same s s' /\ forall j, pub (proc s' j) = pub (proc s j)
  end.
Proof.
  intros Hq. unfold pick_next, top_level.
  assert (Forall level levels) as Hls by (unfold levels, level; repeat constructor; lia).
  induction Hls as [|q ls Hl _ IH]; simpl; [done|]. rewrite (qu_head _ _ Hq q Hl).
  destruct (qs q) as [|i l] eqn:E; [exact IH|]. simpl.
  destruct (unlink_spec s qs q i [] l Hq Hl E) as (A & B & C).
  destruct (split_facts s qs q i [] l Hq Hl E) as (_ & _ & _ & _ & _ & Hnx).
  exists i, l, (unlink q None i s). split_and!; try done. f_equal.
  pose proof (unlink_eq s qs q i [] l Hq Hl E) as Hu. simpl in Hu. rewrite Hu.
  unfold skipped. simpl. rewrite Hnx.
  rewrite head_set, Z.eqb_refl by (done || apply (qu_heads _ _ Hq)). by destruct l.
Qed.

(** ** Scheduler invariant

    [core] holds at every point where the scheduler's code may run; between operations
    the current process is moreover RUNNING. *)
Record slot_ok (qs : queue_view) (c i : nat) (p : process) : Prop := {
  so_ready : queued qs i <-> p_state p = READY /\ i <> 0%nat;
  so_level : forall q, level q -> i ∈ qs q -> p_priority p = q;
  so_wait : queued qs i -> 0 <= p_wait_ticks p <= AGING_THRESHOLD;
  so_running : p_state p = RUNNING -> i = c;
  so_idle : i = 0%nat -> p_pid p = 0 /\ (p_state p = RUNNING \/ p_state p = READY);
  so_pid : i <> 0%nat -> p_state p <> UNUSED -> p_pid p <> 0;
  so_prio : p_state p <> UNUSED -> level (p_priority p) /\ level (p_base_priority p)
}.

Record core (s : sys) (qs : queue_view) (c : nat) : Prop := {
  co_queues : queues s qs;
  co_current : current_process s = Some c;
  co_cur_slot : (c < PROCESS_MAX)%nat;
  co_slots : forall i, (i < PROCESS_MAX)%nat -> slot_ok qs c i (proc s i)
}.

Definition sched_inv (s : sys) (qs : queue_view) (c : nat) : Prop :=
  core s qs c /\ p_state (proc s c) = RUNNING.

(** What a state reads of a control block through [pub]. *)
Lemma pub_fields p p' : pub p' = pub p ->
  p_pid p' = p_pid p /\ p_ppid p' = p_ppid p /\ p_state p' = p_state p /\ p_priority p' = p_priority p /\
  p_base_priority p' = p_base_priority p /\ p_quantum_left p' = p_quantum_left p /\
  p_wait_ticks p' = p_wait_ticks p /\ p_kstack p' = p_kstack p /\ p_ustack p' = p_ustack p /\
  p_sleep_until p' = p_sleep_until p /\ p_cpu_ticks p' = p_cpu_ticks p.
Proof. destruct p, p'. unfold pub, set_next. simpl. intros [=]. by subst. Qed.

Lemma clamp_id q : level q -> clamp_level q = q.
Proof. unfold clamp_level, level, PRIORITY_LEVELS. intros H. zcases; lia. Qed.

Lemma push_elem q i qs r j : j ∈ push q i qs r <-> j ∈ qs r \/ (r = q /\ j = i).
Proof.
  unfold push. destruct (Z.eqb_spec r q) as [->|].
  - rewrite elem_of_app, list_elem_of_singleton. tauto.
  - tauto.
Qed.
Lemma push_queued q i qs j : level q -> queued (push q i qs) j <-> queued qs j \/ j = i.
Proof.
  intros Hq. unfold queued. split.
  - intros (r & Hr & [Hj|[-> ->]]%push_elem); [left; by exists r|by right].
  - intros [(r & Hr & Hj)| ->]; [exists r|exists q]; (split; [done|]); apply push_elem; tauto.
Qed.
Lemma unqueue_elem i qs r j : j ∈ unqueue i qs r <-> j ∈ qs r /\ j <> i.
Proof. unfold unqueue. rewrite list_elem_of_filter. tauto. Qed.
Lemma unqueue_queued i qs j : queued (unqueue i qs) j <-> queued qs j /\ j <> i.
Proof.
  unfold queued. split.
  - intros (r & Hr & [Hj Hne]%unqueue_elem). split; [by exists r|done].
  - intros [(r & Hr & Hj) Hne]. exists r. split; [done|]. by apply unqueue_elem.
Qed.

Lemma core_slot s qs c i : core s qs c -> queued qs i -> (i < PROCESS_MAX)%nat /\ i <> 0%nat /\ p_state (proc s i) = READY.
Proof.
  intros Hc Hi. pose proof Hi as (q & Hq & Hin). pose proof (qu_range _ _ (co_queues _ _ _ Hc) q i Hq Hin) as Hr.
  apply (co_slots _ _ _ Hc i Hr) in Hi as [? ?]. done.
Qed.

Lemma slot_pub qs c i p p' : pub p' = pub p -> slot_ok qs c i p -> slot_ok qs c i p'.
Proof.
  intros Hp [H1 H2 H3 H4 H5 H6 H7].
  destruct (pub_fields _ _ Hp) as (E1 & _ & E3 & E4 & E5 & _ & E7 & _).
  split; rewrite ?E1, ?E3, ?E4, ?E5, ?E7; done.
Qed.

(** Membership of a slot in the queues, as far as the slot is concerned. *)
Lemma slot_view qs qs' c c' i p : (forall q, level q -> i ∈ qs' q <-> i ∈ qs q) ->
  (p_state p = RUNNING -> i = c') -> slot_ok qs c i p -> slot_ok qs' c' i p.
Proof.
  intros Hv Hr [H1 H2 H3 H4 H5 H6 H7].
  assert (queued qs' i <-> queued qs i) as Hq.
  { unfold queued. split; intros (q & Hl & Hi); exists q; (split; [done|]); by apply Hv. }
  split; try done.
  - by rewrite Hq.
  - intros q Hl Hi. apply H2; [done|]. by apply Hv.
  - by rewrite Hq.
Qed.

(** A step that changes the queues only at slot [i]. *)
Lemma core_update s qs c s' qs' c' i : core s qs c -> queues s' qs' ->
  current_process s' = Some c' -> (c' < PROCESS_MAX)%nat ->
  (forall j, (j < PROCESS_MAX)%nat -> j <> i ->
     pub (proc s' j) = pub (proc s j) /\ (forall q, level q -> j ∈ qs' q <-> j ∈ qs q) /\
     (p_state (proc s j) = RUNNING -> j = c')) ->
  ((i < PROCESS_MAX)%nat -> slot_ok qs' c' i (proc s' i)) -> core s' qs' c'.
Proof.
  intros Hc Hq Hcur Hc' Hother Hi. split; try done.
  intros j Hj. destruct (decide (j = i)) as [->|Hne]; [by apply Hi|].
  destruct (Hother j Hj Hne) as (Hp & Hv & Hr). apply (slot_pub _ _ _ (proc s j)); [done|].
  apply (slot_view qs _ c); [done|done|]. by apply (co_slots _ _ _ Hc).
Qed.

(** Making a process READY and queueing it. *)
Lemma enter_ready s qs c i : core s qs c -> (i < PROCESS_MAX)%nat -> i <> 0%nat ->
  p_state (proc s i) <> READY -> p_pid (proc s i) <> 0 ->
  level (p_priority (proc s i)) -> level (p_base_priority (proc s i)) ->
  let s' := scheduler_enqueue (Some i) (upd i (set_state READY) s) in
  core s' (push (p_priority (proc s i)) i qs) c /\ rest_same s s' /\
  forall j, pub (proc s' j) =
    if decide (j = i) then pub (set_wait_ticks 0 (set_state READY (proc s i))) else pub (proc s j).
Proof.
  intros Hc Hi Hi0 Hnr Hpid Hpr Hbp. set (s1 := upd i (set_state READY) s).
  pose proof (co_queues _ _ _ Hc) as Hq. pose proof (qu_table _ _ Hq) as Ht.
  pose proof (co_slots _ _ _ Hc i Hi) as Hsl.
  assert (proc s1 i = set_state READY (proc s i)) as P1 by (unfold s1; by procs).
  assert (forall j, j <> i -> proc s1 j = proc s j) as P2 by (intros; unfold s1; by procs).
  assert (~ queued qs i) as Hnq by (intros Hqi; apply Hsl in Hqi as [? _]; done).
  destruct (enqueue_spec s1 qs i) as (Q & R & P); [by apply queues_upd|done|by rewrite P1|done| |].
  { rewrite P1. simpl. unfold level in Hpr. lia. }
  rewrite P1 in Q, P. simpl p_priority in Q. rewrite clamp_id in Q by done.
  assert (rest_same s (scheduler_enqueue (Some i) s1)) as Rs by (apply (rest_trans s s1); [by split|done]).
  assert (forall j, pub (proc (scheduler_enqueue (Some i) s1) j) =
    if decide (j = i) then pub (set_wait_ticks 0 (set_state READY (proc s i))) else pub (proc s j)) as Pub.
  { intros j. rewrite P. destruct (decide (j = i)); [done|]. by rewrite P2. }
  split; [|by split]. clear P. set (s' := scheduler_enqueue (Some i) s1) in *.
  apply (core_update s qs c s' _ c i Hc Q); [|apply (co_cur_slot _ _ _ Hc)| |].
  - rewrite (re_cur _ _ Rs). apply (co_current _ _ _ Hc).
  - intros j Hj Hne. rewrite Pub, decide_False by done. split; [done|]. split.
    + intros q Hl. rewrite push_elem. tauto.
    + apply (co_slots _ _ _ Hc j Hj).
  - intros _. pose proof (Pub i) as Pi. rewrite decide_True in Pi by done. apply (slot_pub _ _ _ _ _ Pi).
    split; simpl; try done.
    + rewrite push_queued by done. tauto.
    + intros q Hl [Hin|[-> _]]%push_elem; [|done]. destruct Hnq. by exists q.
Qed.

Lemma make_ready s qs c i : core s qs c -> (i < PROCESS_MAX)%nat -> i <> 0%nat ->
  p_state (proc s i) <> UNUSED -> p_state (proc s i) <> READY ->
  let s' := scheduler_enqueue (Some i) (upd i (set_state READY) s) in
  core s' (push (p_priority (proc s i)) i qs) c /\ rest_same s s' /\
  forall j, pub (proc s' j) =
    if decide (j = i) then pub (set_wait_ticks 0 (set_state READY (proc s i))) else pub (proc s j).
Proof.
  intros Hc Hi Hi0 Hun Hnr. pose proof (co_slots _ _ _ Hc i Hi) as Hsl.
  apply enter_ready; try done; by apply Hsl.
Qed.

(** A step that touches one slot, which is in no queue. *)
Lemma core_change s qs c i s' : core s qs c -> ~ queued qs i -> length (table s') = length (table s) ->
  queue_head s' = queue_head s -> queue_tail s' = queue_tail s -> current_process s' = current_process s ->
  (forall j, j <> i -> proc s' j = proc s j) -> ((i < PROCESS_MAX)%nat -> slot_ok qs c i (proc s' i)) -> core s' qs c.
Proof.
  intros Hc Hn Ht Hh Hta Hcur Ho Hi. apply (core_update s qs c s' qs c i Hc); [| |apply (co_cur_slot _ _ _ Hc)| |done].
  - destruct (co_queues _ _ _ Hc) as [H1 H2 H3 H4 H5 H6 H7 H8 H9]. split; try done; try congruence.
    + intros q Hq. unfold head_of. rewrite Hh. by apply H4.
    + intros q Hq. unfold tail_of. rewrite Hta. by apply H5.
    + intros q Hq. apply (linked_ext s); [|by apply H6]. intros j Hj. rewrite Ho; [done|].
      intros ->. apply Hn. by exists q.
  - rewrite Hcur. apply (co_current _ _ _ Hc).
  - intros j Hj Hne. rewrite Ho by done. split; [done|]. split; [done|]. apply (co_slots _ _ _ Hc j Hj).
Qed.

(** ** Aging *)

Lemma core_ext s qs qs' c : (forall q, level q -> qs' q = qs q) -> core s qs c -> core s qs' c.
Proof.
  intros E [Hq Hc Hs Hsl]. split; try done; [by apply (queues_ext s qs)|].
  intros i Hi. apply (slot_view qs _ c); [|by apply Hsl|by apply Hsl]. intros q Hl. by rewrite E.
Qed.

(** An assignment to fields that neither the links nor the slot's condition mention. *)
Lemma core_upd s qs c i f : core s qs c -> (i < PROCESS_MAX)%nat ->
  (forall p, p_next (f p) = p_next p) -> slot_ok qs c i (f (proc s i)) -> core (upd i f s) qs c.
Proof.
  intros Hc Hi Hf Hsl. pose proof (qu_table _ _ (co_queues _ _ _ Hc)) as Ht.
  apply (core_update s qs c _ qs c i Hc).
  - apply queues_upd; [apply (co_queues _ _ _ Hc)|done].
  - apply (co_current _ _ _ Hc).
  - apply (co_cur_slot _ _ _ Hc).
  - intros j Hj Hne. procs. split; [done|]. split; [done|]. apply (co_slots _ _ _ Hc j Hj).
  - intros _. by procs.
Qed.

(** Moving a queued process one level up. *)
Lemma boost_spec s qs c i q w : core s qs c -> level q -> 1 <= q -> i ∈ qs q ->
  let s1 := upd i (set_wait_ticks w) s in
  exists s2, scheduler_dequeue (Some i) s1 = Some s2 /\
  let s' := scheduler_enqueue (Some i) (upd i (set_priority (u8 (q - 1))) s2) in
  core s' (push (q - 1) i (unqueue i qs)) c /\ rest_same s s' /\
  forall j, pub (proc s' j) =
    if decide (j = i) then pub (set_wait_ticks 0 (set_priority (q - 1) (proc s i))) else pub (proc s j).
Proof.
  intros Hc Hl Hq1 Hin s1. assert (queued qs i) as Hqi by by exists q.
  destruct (core_slot _ _ _ _ Hc Hqi) as (Hi & Hi0 & Hst). pose proof (co_queues _ _ _ Hc) as Hq.
  pose proof (qu_table _ _ Hq) as Ht. pose proof (co_slots _ _ _ Hc i Hi) as Hsl.
  assert (u8 (q - 1) = q - 1) as Hu by (apply u8_small; unfold level in Hl; wsolve). rewrite Hu.
  assert (level (q - 1)) as Hl1 by (unfold level in *; lia).
  destruct (dequeue_spec s1 qs i) as (s2 & E & Q2 & R2 & P2 & _); [by apply queues_upd|].
  exists s2. split; [exact E|]. set (s3 := upd i (set_priority (q - 1)) s2).
  pose proof (qu_table _ _ Q2) as Ht2.
  assert (forall j, j <> i -> pub (proc s3 j) = pub (proc s j)) as P3.
  { intros j Hj. unfold s3. procs. rewrite P2. unfold s1. by procs. }
  assert (pub (proc s3 i) = pub (set_priority (q - 1) (set_wait_ticks w (proc s i)))) as P3i.
  { unfold s3. procs. specialize (P2 i). unfold s1 in P2. rewrite proc_upd_eq in P2 by lia.
    revert P2. generalize (proc s2 i) (proc s i). intros p2 p. destruct p2, p. unfold pub, set_next, set_priority, set_wait_ticks.
    simpl. intros [=]. by subst. }
  destruct (pub_fields _ _ P3i) as (F1 & _ & F3 & F4 & F5 & _). simpl in F1, F3, F4, F5.
  destruct (enqueue_spec s3 (unqueue i qs) i) as (Q3 & R3 & P4).
  { by apply queues_upd. }
  { done. }
  { rewrite F1. apply (so_pid _ _ _ _ Hsl); [done|congruence]. }
  { rewrite unqueue_queued. tauto. }
  { rewrite F4. unfold level in Hl1. lia. }
  rewrite F4, clamp_id in Q3 by done. cbv zeta. set (s' := scheduler_enqueue (Some i) s3) in *.
  assert (rest_same s s') as Rs.
  { apply (rest_trans _ s2); [apply (rest_trans _ s1); [by split|done]|]. apply (rest_trans _ s3); [by split|done]. }
  assert (forall j, pub (proc s' j) =
    if decide (j = i) then pub (set_wait_ticks 0 (set_priority (q - 1) (proc s i))) else pub (proc s j)) as Pub.
  { intros j. rewrite P4. destruct (decide (j = i)) as [->|]; [|by apply P3].
    revert P3i. generalize (proc s3 i) (proc s i). intros p2 p. destruct p2, p.
    unfold pub, set_next, set_priority, set_wait_ticks. simpl. intros [=]. by subst. }
  split; [|by split].
  apply (core_update s qs c s' _ c i Hc Q3); [|apply (co_cur_slot _ _ _ Hc)| |].
  - rewrite (re_cur _ _ Rs). apply (co_current _ _ _ Hc).
  - intros j Hj Hne. rewrite Pub, decide_False by done. split; [done|]. split.
    + intros r Hr. rewrite push_elem, unqueue_elem. tauto.
    + apply (co_slots _ _ _ Hc j Hj).
  - intros _. pose proof (Pub i) as Pi. rewrite decide_True in Pi by done. apply (slot_pub _ _ _ _ _ Pi).
    destruct Hsl as [H1 H2 H3 H4 H5 H6 H7]. split; simpl; try done.
    + rewrite push_queued, unqueue_queued, Hst by done. tauto.
    + intros r Hr [[_ Hx]%unqueue_elem|[-> _]]%push_elem; done.
    + intros Hun. split; [done|]. by apply H7.
Qed.

Definition aged (s : sys) (i : nat) : bool := AGING_THRESHOLD <? p_wait_ticks (proc s i) + 1.

(** The queues after the processes [dn] of level [q] have been visited and [todo] not. *)
Definition age_view (s : sys) (qs : queue_view) (q : Z) (dn todo : list nat) : queue_view :=
  fun r =>
    if r =? q then List.filter (fun i => negb (aged s i)) dn ++ todo
    else if r =? q - 1 then qs r ++ List.filter (aged s) dn
    else qs r.

(** A control block after its level was aged. *)
Definition age_process (s : sys) (q : Z) (i : nat) : process :=
  if aged s i then set_wait_ticks 0 (set_priority (q - 1) (proc s i))
  else set_wait_ticks (p_wait_ticks (proc s i) + 1) (proc s i).

Lemma filter_in (f : nat -> bool) l i : In i (List.filter f l) -> i ∈ l.
Proof. intros [H _]%filter_In. by apply list_elem_of_In. Qed.

(** The view moves one process at a time. *)
Lemma age_view_boost s qs q dn i todo : aged s i = true -> (i ∉ dn) -> (i ∉ todo) ->
  level q -> 1 <= q -> (forall r, level r -> r <> q -> (i ∉ qs r)) ->
  forall r, level r ->
    age_view s qs q (dn ++ [i]) todo r = push (q - 1) i (unqueue i (age_view s qs q dn (i :: todo))) r.
Proof.
  intros Ha Hd Ht Hl H1 Hq r Hr. unfold push, unqueue, age_view. rewrite !List.filter_app. simpl. rewrite Ha. simpl.
  assert (i ∉ List.filter (fun i => negb (aged s i)) dn) as Hf1 by (intros H%list_elem_of_In%filter_in; done).
  assert (i ∉ List.filter (aged s) dn) as Hf2 by (intros H%list_elem_of_In%filter_in; done).
  destruct (Z.eqb_spec r q) as [->|Hne].
  - rewrite (proj2 (Z.eqb_neq q (q - 1))) by lia. rewrite app_nil_r. by rewrite filter_middle.
  - destruct (Z.eqb_spec r (q - 1)) as [->|].
    + rewrite filter_absent; [by rewrite app_assoc|]. rewrite elem_of_app. intros [?|?]; [|done]. by apply (Hq (q - 1)).
    + rewrite filter_absent; [done|]. by apply Hq.
Qed.

Lemma age_view_keep s qs q dn i todo : aged s i = false ->
  forall r, level r -> age_view s qs q (dn ++ [i]) todo r = age_view s qs q dn (i :: todo) r.
Proof.
  intros Ha r Hr. unfold age_view. rewrite !List.filter_app. simpl. rewrite Ha. simpl.
  rewrite app_nil_r, <- app_assoc. done.
Qed.

(** One level of [apply_aging]. *)
Section AgeLevel.
Variables (s0 : sys) (qs : queue_view) (c : nat) (q : Z).
Hypotheses (Hc0 : core s0 qs c) (Hl : level q) (Hq1 : 1 <= q).

(** The state reached when [dn] has been visited. *)
Record aging (dn todo : list nat) (s : sys) : Prop := {
  ag_core : core s (age_view s0 qs q dn todo) c;
  ag_rest : rest_same s0 s;
  ag_done : forall j, j ∈ dn -> pub (proc s j) = pub (age_process s0 q j);
  ag_other : forall j, (j ∉ dn) -> pub (proc s j) = pub (proc s0 j)
}.

Lemma aging_step dn i todo s : qs q = dn ++ i :: todo -> aging dn (i :: todo) s ->
  forall fuel, exists s', aging (dn ++ [i]) todo s' /\
    aging_walk (S fuel) q (Some i) s = aging_walk fuel q (first_or todo None) s'.
Proof.
  intros E [Ac Ar Ad Ao] fuel.
  destruct (split_facts s0 qs q i dn todo (co_queues _ _ _ Hc0) Hl E) as (Hid & Hit & _ & _ & Hi & _).
  assert (i ∈ age_view s0 qs q dn (i :: todo) q) as Hin.
  { unfold age_view. rewrite Z.eqb_refl. apply elem_of_app. right. by left. }
  pose proof (qu_link _ _ (co_queues _ _ _ Ac) q Hl) as Hk. unfold age_view in Hk. rewrite Z.eqb_refl in Hk.
  apply linked_app in Hk as [_ [Hnx _]].
  pose proof (pub_fields _ _ (Ao i Hid)) as (_ & _ & Est & _ & _ & _ & Ew & _).
  assert (queued qs i) as Hqi by (exists q; split; [done|]; rewrite E; apply elem_of_app; right; by left).
  pose proof (so_wait _ _ _ _ (co_slots _ _ _ Hc0 i Hi) Hqi) as Hw. unfold AGING_THRESHOLD in Hw.
  pose proof (qu_table _ _ (co_queues _ _ _ Ac)) as Ht.
  cbn [aging_walk]. rewrite Hnx, proc_upd_eq by lia. cbn [p_wait_ticks set_wait_ticks]. rewrite Ew, u32_small by wsolve.
  fold (aged s0 i). set (w := p_wait_ticks (proc s0 i) + 1) in *.
  destruct (aged s0 i) eqn:Ha.
  - destruct (boost_spec s _ c i q w Ac Hl Hq1 Hin) as (s2 & -> & Bc & Br & Bp).
    eexists. split; [|reflexivity]. split.
    + eapply core_ext; [|exact Bc]. apply age_view_boost; try done.
      intros r Hr Hne Hir. apply Hne. apply (qu_disj _ _ (co_queues _ _ _ Hc0) r q i); try done.
      rewrite E. apply elem_of_app. right. by left.
    + by apply (rest_trans _ s).
    + intros j [Hj| ->%list_elem_of_singleton]%elem_of_app; rewrite Bp.
      * rewrite decide_False by (intros ->; done). auto.
      * rewrite decide_True by done. unfold age_process. rewrite Ha.
        pose proof (Ao i Hid) as Hp. revert Hp. generalize (proc s i) (proc s0 i). intros [] []. unfold pub. simpl.
        intros [=]. by subst.
    + intros j Hj. rewrite Bp, decide_False; [|intros ->; apply Hj, elem_of_app; right; by left].
      apply Ao. intros Hjd. apply Hj, elem_of_app. by left.
  - eexists. split; [|reflexivity]. pose proof Ha as Hnot. unfold aged in Ha. fold w in Ha.
    apply Z.ltb_ge in Ha. split.
    + apply (core_ext _ (age_view s0 qs q dn (i :: todo))); [by apply age_view_keep|]. apply core_upd; try done.
      destruct (co_slots _ _ _ Ac i Hi). split; try done. intros _. simpl. lia.
    + destruct Ar. by split.
    + intros j [Hj| ->%list_elem_of_singleton]%elem_of_app.
      * rewrite proc_upd_ne by (intros ->; done). auto.
      * rewrite proc_upd_eq by lia. unfold age_process, aged. fold w. rewrite (proj2 (Z.ltb_ge _ _) Ha).
        pose proof (Ao i Hid) as Hp. revert Hp. generalize (proc s i) (proc s0 i). intros [] []. unfold pub. simpl.
        intros [=]. by subst.
    + intros j Hj. rewrite proc_upd_ne; [|intros ->; apply Hj, elem_of_app; right; by left].
      apply Ao. intros Hjd. apply Hj, elem_of_app. by left.
Qed.

Lemma aging_walk_spec : exists s', aging_walk PROCESS_MAX q (head_of q s0) s0 = Some s' /\ aging (qs q) [] s'.
Proof.
  rewrite (qu_head _ _ (co_queues _ _ _ Hc0) q Hl), head_first.
  assert (forall todo dn s fuel, qs q = dn ++ todo -> aging dn todo s -> (length todo <= fuel)%nat ->
    exists s', aging_walk fuel q (first_or todo None) s = Some s' /\ aging (qs q) [] s') as Hgen.
  { induction todo as [|i todo IH]; intros dn s fuel E Ha Hf.
    - exists s. rewrite app_nil_r in E. subst dn. by destruct fuel.
    - destruct fuel as [|fuel]; [simpl in Hf; lia|]. cbn [first_or].
      destruct (aging_step dn i todo s E Ha fuel) as (s1 & Ha1 & ->).
      apply (IH (dn ++ [i])); [by rewrite <- app_assoc|done|simpl in Hf; lia]. }
  apply (Hgen (qs q) [] s0); [done| |by apply (queue_short s0); [apply (co_queues _ _ _ Hc0)|]].
  split; [|apply rest_refl| |done].
  - apply (core_ext _ qs); [|done]. intros r Hr. unfold age_view. simpl. rewrite app_nil_r.
    destruct (Z.eqb_spec r q) as [->|]; [done|]. by destruct (r =? q - 1).
  - intros j Hj. by apply elem_of_nil in Hj.
Qed.
End AgeLevel.

(** [apply_aging] as a function on the queues: levels 1 and 2 in turn. *)
Definition aged_queues (s : sys) (qs : queue_view) : queue_view :=
  fun r =>
    let up (q : Z) := List.filter (aged s) (qs q) in
    let stay (q : Z) := List.filter (fun i => negb (aged s i)) (qs q) in
    if r =? 0 then qs 0 ++ up 1
    else if r =? 1 then stay 1 ++ up 2
    else stay 2.

Lemma apply_aging_spec s qs c : core s qs c ->
  exists s', apply_aging s = Some s' /\ core s' (aged_queues s qs) c /\ rest_same s s' /\
    (forall q j, (q = 1 \/ q = 2) -> j ∈ qs q -> pub (proc s' j) = pub (age_process s q j)) /\
    (forall j, (j ∉ qs 1) -> (j ∉ qs 2) -> pub (proc s' j) = pub (proc s j)).
Proof.
  intros Hc. assert (level 1) as L1 by (unfold level; lia). assert (level 2) as L2 by (unfold level; lia).
  unfold apply_aging. cbn [aging_levels].
  destruct (aging_walk_spec s qs c 1 Hc L1 ltac:(lia)) as (s1 & -> & [C1 R1 D1 O1]).
  destruct (aging_walk_spec s1 _ c 2 C1 L2 ltac:(lia)) as (s2 & -> & [C2 R2 D2 O2]).
  change (age_view s qs 1 (qs 1) [] 2) with (qs 2) in *.
  assert (forall j, j ∈ qs 2 -> (j ∉ qs 1)) as Hdisj.
  { intros j H2 H1. pose proof (qu_disj _ _ (co_queues _ _ _ Hc) 1 2 j L1 L2 H1 H2). lia. }
  assert (forall j, j ∈ qs 2 -> aged s1 j = aged s j) as Haged.
  { intros j Hj. unfold aged. by destruct (pub_fields _ _ (O1 j (Hdisj j Hj))) as (_ & _ & _ & _ & _ & _ & -> & _). }
  exists s2. split; [done|]. split; [|split; [by apply (rest_trans _ s1)|split]].
  - eapply core_ext; [|exact C2]. intros q Hq. apply level_cases in Hq as [->|[->| ->]]; unfold aged_queues, age_view; simpl.
    + done.
    + rewrite app_nil_r. f_equal. apply List.filter_ext_in. intros j Hj%list_elem_of_In. symmetry. by apply Haged.
    + rewrite app_nil_r. apply List.filter_ext_in. intros j Hj%list_elem_of_In. by rewrite Haged.
  - intros q j [->| ->] Hj.
    + rewrite O2; [by apply D1|]. intros H2. by apply (Hdisj j).
    + rewrite D2 by done. unfold age_process. rewrite Haged by done.
      pose proof (O1 j (Hdisj j Hj)) as Hp. revert Hp. generalize (proc s1 j) (proc s j). intros [] []. unfold pub. simpl.
      intros [=]. subst. by destruct (aged s j).
  - intros j H1 H2. rewrite O2 by done. by apply O1.
Qed.

(** ** Waking sleepers *)

Definition wakes (now : Z) (p : process) : bool :=
  bool_decide (p_state p = SLEEPING) && (p_sleep_until p <=? now).

Definition woken (now : Z) (p : process) : process :=
  if wakes now p then set_wait_ticks 0 (set_state READY p) else p.

(** [qs'] extends the queues of [qs] at their ends. *)
Definition extends (qs qs' : queue_view) : Prop := forall q, exists l, qs' q = qs q ++ l.

Lemma extends_refl qs : extends qs qs.
Proof. intros q. exists []. by rewrite app_nil_r. Qed.
Lemma extends_trans qs1 qs2 qs3 : extends qs1 qs2 -> extends qs2 qs3 -> extends qs1 qs3.
Proof. intros H1 H2 q. destruct (H1 q) as [l1 E1], (H2 q) as [l2 E2]. exists (l1 ++ l2). by rewrite E2, E1, app_assoc. Qed.
Lemma extends_push q i qs : extends qs (push q i qs).
Proof. intros r. unfold push. destruct (r =? q); [by exists [i]|exists []; by rewrite app_nil_r]. Qed.

Lemma wake_one now s qs c i : core s qs c -> (i < PROCESS_MAX)%nat ->
  exists qs', core (wake_sleeper now s i) qs' c /\ extends qs qs' /\ rest_same s (wake_sleeper now s i) /\
  forall j, pub (proc (wake_sleeper now s i) j) = if decide (j = i) then pub (woken now (proc s i)) else pub (proc s j).
Proof.
  intros Hc Hi. unfold wake_sleeper, woken, wakes.
  assert (forall j, pub (proc s j) = if decide (j = i) then pub (proc s i) else pub (proc s j)) as Hid
    by (intros j; destruct (decide (j = i)) as [->|]; done).
  destruct (decide (p_state (proc s i) = SLEEPING)) as [E|E].
  2: { rewrite (bool_decide_eq_false_2 _ E). simpl. exists qs. split; [done|]. split; [apply extends_refl|]. by split. }
  rewrite (bool_decide_eq_true_2 _ E). simpl. destruct (p_sleep_until (proc s i) <=? now).
  2: { exists qs. split; [done|]. split; [apply extends_refl|]. by split. }
  assert (i <> 0%nat) as Hi0.
  { intros ->. destruct (so_idle _ _ _ _ (co_slots _ _ _ Hc 0%nat Hi) eq_refl) as [_ [?|?]]; congruence. }
  destruct (make_ready s qs c i Hc Hi Hi0) as (C & R & P); [congruence|congruence|].
  eexists. split; [exact C|]. split; [apply extends_push|]. by split.
Qed.

Lemma wake_sleepers_spec now s qs c : core s qs c ->
  exists qs', core (wake_sleepers now s) qs' c /\ extends qs qs' /\ rest_same s (wake_sleepers now s) /\
    forall j, (j < PROCESS_MAX)%nat -> pub (proc (wake_sleepers now s) j) = pub (woken now (proc s j)).
Proof.
  intros Hc. unfold wake_sleepers, slots.
  assert (forall n k s1 qs1, (k + n = PROCESS_MAX)%nat -> core s1 qs1 c -> extends qs qs1 -> rest_same s s1 ->
    (forall j, (j < k)%nat -> pub (proc s1 j) = pub (woken now (proc s j))) ->
    (forall j, (k <= j)%nat -> pub (proc s1 j) = pub (proc s j)) ->
    exists qs', core (foldl (wake_sleeper now) s1 (seq k n)) qs' c /\ extends qs qs' /\
      rest_same s (foldl (wake_sleeper now) s1 (seq k n)) /\
      forall j, (j < PROCESS_MAX)%nat ->
        pub (proc (foldl (wake_sleeper now) s1 (seq k n)) j) = pub (woken now (proc s j))) as Hgen.
  { induction n as [|n IH]; intros k s1 qs1 Hk C E R Hlo Hhi; simpl.
    - exists qs1. split_and!; try done. intros j Hj. apply Hlo. lia.
    - destruct (wake_one now s1 qs1 c k C ltac:(lia)) as (qs2 & C2 & E2 & R2 & P2).
      apply (IH (S k) _ qs2); [lia|done|by apply (extends_trans _ qs1)|by apply (rest_trans _ s1)| |].
      + intros j Hj. rewrite P2. destruct (decide (j = k)) as [->|]; [|apply Hlo; lia].
        pose proof (Hhi k ltac:(lia)) as Hp. unfold woken, wakes.
        destruct (pub_fields _ _ Hp) as (_ & _ & -> & _ & _ & _ & _ & _ & _ & -> & _).
        destruct (bool_decide _ && _); [|done].
        revert Hp. generalize (proc s1 k) (proc s k). intros [] []. unfold pub. simpl. intros [=]. by subst.
      + intros j Hj. rewrite P2, decide_False by lia. apply Hhi. lia. }
  apply (Hgen PROCESS_MAX 0%nat s qs); try done; [apply extends_refl|lia].
Qed.

(** ** Reaping *)

(** A control block after [process_release]. *)
Definition released (p : process) : process := set_pid 0 (set_state UNUSED (set_ustack 0 (set_kstack 0 p))).

Lemma set_kstack_id p : p_kstack p = 0 -> set_kstack 0 p = p.
Proof. destruct p. simpl. by intros ->. Qed.
Lemma set_ustack_id p : p_ustack p = 0 -> set_ustack 0 p = p.
Proof. destruct p. simpl. by intros ->. Qed.

(** The heap after the stacks of a process are freed. *)
Definition free_stack (p : Z) (h : heap) : heap := if negb (p =? 0) then kfree p h else h.

(** What [process_release] does to another process's control block and to the rest. *)
Record release_to (i : nat) (s s' : sys) : Prop := {
  rl_table : length (table s') = length (table s);
  rl_head : queue_head s' = queue_head s;
  rl_tail : queue_tail s' = queue_tail s;
  rl_self : proc s' i = released (proc s i);
  rl_other : forall j, j <> i -> proc s' j = proc s j;
  rl_heap : kheap s' = free_stack (p_ustack (proc s i)) (free_stack (p_kstack (proc s i)) (kheap s));
  rl_rest : rest_same (with_kheap (kheap s') s) s'
}.

Lemma release_spec i s : (i < length (table s))%nat -> current_process s <> Some i ->
  release_to i s (process_release (Some i) s).
Proof.
  intros Hi Hc. unfold process_release. rewrite bool_decide_eq_false_2 by congruence.
  set (s1 := if negb (p_kstack (proc s i) =? 0)
             then upd i (set_kstack 0) (with_kheap (kfree (p_kstack (proc s i)) (kheap s)) s) else s).
  assert (length (table s1) = length (table s) /\ queue_head s1 = queue_head s /\ queue_tail s1 = queue_tail s /\
    proc s1 i = set_kstack 0 (proc s i) /\ (forall j, j <> i -> proc s1 j = proc s j) /\
    kheap s1 = free_stack (p_kstack (proc s i)) (kheap s) /\ rest_same (with_kheap (kheap s1) s) s1)
    as (A1 & A2 & A3 & A4 & A5 & A6 & A7).
  { unfold s1, free_stack. destruct (Z.eqb_spec (p_kstack (proc s i)) 0) as [E|E]; simpl negb; cbv iota.
    - rewrite set_kstack_id by done. by split_and!.
    - split_and!; try done; [by rewrite table_upd|by rewrite proc_upd_eq|]. intros j Hj. by rewrite proc_upd_ne by congruence. }
  set (s2 := if negb (p_ustack (proc s1 i) =? 0)
             then upd i (set_ustack 0) (with_kheap (kfree (p_ustack (proc s1 i)) (kheap s1)) s1) else s1).
  assert (length (table s2) = length (table s) /\ queue_head s2 = queue_head s /\ queue_tail s2 = queue_tail s /\
    proc s2 i = set_ustack 0 (set_kstack 0 (proc s i)) /\ (forall j, j <> i -> proc s2 j = proc s j) /\
    kheap s2 = free_stack (p_ustack (proc s i)) (free_stack (p_kstack (proc s i)) (kheap s)) /\
    rest_same (with_kheap (kheap s2) s) s2) as (B1 & B2 & B3 & B4 & B5 & B6 & B7).
  { unfold s2. rewrite A4. change (p_ustack (set_kstack 0 (proc s i))) with (p_ustack (proc s i)).
    clearbody s1. unfold free_stack at 1. rewrite <- A6.
    destruct (Z.eqb_spec (p_ustack (proc s i)) 0) as [E|E]; simpl negb; cbv iota.
    - rewrite (set_ustack_id (set_kstack 0 (proc s i))) by done. by split_and!.
    - split_and!; try done; [by rewrite table_upd|rewrite proc_upd_eq by (simpl; lia); simpl; f_equal; exact A4| |].
      + intros j Hj. rewrite proc_upd_ne by congruence. by apply A5.
      + destruct A7. by split. }
  clearbody s2.
  split; try done.
  - by rewrite !table_upd.
  - rewrite !proc_upd_eq by (rewrite ?table_upd; lia). by rewrite B4.
  - intros j Hj. rewrite !proc_upd_ne by congruence. by apply B5.
  - destruct B7. by split.
Qed.

Lemma queues_same s s' qs : queues s qs -> length (table s') = length (table s) ->
  queue_head s' = queue_head s -> queue_tail s' = queue_tail s ->
  (forall j, p_next (proc s' j) = p_next (proc s j)) -> queues s' qs.
Proof.
  intros [H1 H2 H3 H4 H5 H6 H7 H8 H9] T Qh Qt Hp. split; try done; try congruence.
  - intros q Hq. unfold head_of. rewrite Qh. by apply H4.
  - intros q Hq. unfold tail_of. rewrite Qt. by apply H5.
  - intros q Hq. apply (linked_ext s); [|by apply H6]. auto.
Qed.

Lemma release_core i s qs c : core s qs c -> (i < PROCESS_MAX)%nat -> i <> c ->
  p_state (proc s i) = ZOMBIE -> core (process_release (Some i) s) qs c.
Proof.
  intros Hc Hi Hne Hz. pose proof (co_queues _ _ _ Hc) as Hq. pose proof (qu_table _ _ Hq) as Ht.
  destruct (release_spec i s) as [R1 R2 R3 R4 R5 R6 R7]; [lia|rewrite (co_current _ _ _ Hc); congruence|].
  pose proof (co_slots _ _ _ Hc i Hi) as [S1 S2 S3 S4 S5 S6 S7].
  apply (core_update s qs c _ qs c i Hc); [| |apply (co_cur_slot _ _ _ Hc)| |].
  - apply (queues_same s); try done. intros j. destruct (decide (j = i)) as [->|]; [by rewrite R4|by rewrite R5].
  - rewrite (re_cur _ _ R7). apply (co_current _ _ _ Hc).
  - intros j Hj Hji. rewrite R5 by done. split; [done|]. split; [done|]. apply (co_slots _ _ _ Hc j Hj).
  - intros _. rewrite R4. split; simpl; try done.
    + rewrite S1, Hz. split; intros []; done.
    + intros ->. destruct (S5 eq_refl) as [_ [?|?]]; congruence.
Qed.

(** [reap_orphans] releases only zombies other than the current process. *)
Definition reaped (c : nat) (s s' : sys) (j : nat) : Prop :=
  proc s' j = proc s j \/ (p_state (proc s j) = ZOMBIE /\ j <> c /\ proc s' j = released (proc s j)).

Lemma reap_one_spec i s qs c : core s qs c -> (i < PROCESS_MAX)%nat ->
  reap_orphan s i = s \/
  (p_state (proc s i) = ZOMBIE /\ i <> c /\ reap_orphan s i = process_release (Some i) s).
Proof.
  intros Hc Hi. unfold reap_orphan. rewrite (co_current _ _ _ Hc).
  destruct (decide (p_state (proc s i) = ZOMBIE)) as [Hz|Hz]; [|rewrite (bool_decide_eq_false_2 _ Hz); by left].
  rewrite (bool_decide_eq_true_2 _ Hz). simpl negb. cbv iota.
  destruct (decide (i = c)) as [->|Hne]; [rewrite bool_decide_eq_true_2 by done; by left|].
  rewrite bool_decide_eq_false_2 by congruence.
  destruct (process_by_pid _ s); [|by right]. destruct (_ || _); [by right|by left].
Qed.

(** What every release keeps, [reap_orphans] keeps. *)
Lemma reap_ind (P : sys -> Prop) s qs c : core s qs c -> P s ->
  (forall s1 i, core s1 qs c -> P s1 -> (i < PROCESS_MAX)%nat -> i <> c -> p_state (proc s1 i) = ZOMBIE ->
     P (process_release (Some i) s1)) -> P (reap_orphans s).
Proof.
  intros Hc HP Hstep. unfold reap_orphans, slots.
  assert (forall n k s1, (k + n <= PROCESS_MAX)%nat -> core s1 qs c -> P s1 ->
    P (foldl reap_orphan s1 (seq k n))) as Hgen.
  { induction n as [|n IH]; intros k s1 Hk C HP1; simpl; [done|].
    destruct (reap_one_spec k s1 qs c C ltac:(lia)) as [->|(Hz & Hne & ->)]; (apply IH; [lia|..]); try done.
    - apply release_core; [done|lia|done|done].
    - apply Hstep; try done. lia. }
  apply (Hgen PROCESS_MAX 0%nat s); done.
Qed.

Lemma reap_spec s qs c : core s qs c ->
  core (reap_orphans s) qs c /\ (forall j, (j < PROCESS_MAX)%nat -> reaped c s (reap_orphans s) j) /\
  started (reap_orphans s) = started s /\ timer_ticks (reap_orphans s) = timer_ticks s /\
  context_switches (reap_orphans s) = context_switches s /\ next_pid (reap_orphans s) = next_pid s.
Proof.
  intros Hc. unfold reap_orphans, slots.
  assert (forall n k s1, (k + n = PROCESS_MAX)%nat -> core s1 qs c ->
    (forall j, (j < PROCESS_MAX)%nat -> reaped c s s1 j) -> (forall j, (k <= j)%nat -> proc s1 j = proc s j) ->
    started s1 = started s /\ timer_ticks s1 = timer_ticks s /\ context_switches s1 = context_switches s /\
      next_pid s1 = next_pid s ->
    let s2 := foldl reap_orphan s1 (seq k n) in
    core s2 qs c /\ (forall j, (j < PROCESS_MAX)%nat -> reaped c s s2 j) /\
    started s2 = started s /\ timer_ticks s2 = timer_ticks s /\ context_switches s2 = context_switches s /\
      next_pid s2 = next_pid s) as Hgen.
  { induction n as [|n IH]; intros k s1 Hk C Hr Hhi Hrest; simpl; [by split|].
    destruct (reap_one_spec k s1 qs c C ltac:(lia)) as [->|(Hz & Hne & ->)].
    - apply IH; try done; [lia|]. intros j Hj. apply Hhi. lia.
    - pose proof (qu_table _ _ (co_queues _ _ _ C)) as Ht.
      destruct (release_spec k s1) as [R1 R2 R3 R4 R5 R6 R7]; [lia|rewrite (co_current _ _ _ C); congruence|].
      apply IH; [lia|by apply release_core; [|lia| |]| | |].
      + intros j Hj. destruct (decide (j = k)) as [->|Hjk].
        * right. rewrite <- (Hhi k) by lia. done.
        * unfold reaped. rewrite R5 by done. by apply Hr.
      + intros j Hj. rewrite R5 by lia. apply Hhi. lia.
      + destruct R7. simpl in *. destruct Hrest as (? & ? & ? & ?). split_and!; congruence. }
  apply (Hgen PROCESS_MAX 0%nat s); try done. intros j Hj. by left.
Qed.

#[global] Opaque apply_aging wake_sleepers reap_orphans.

(** ** Switching *)

(** The outgoing process: requeued at its base priority when it was still running. *)
Definition requeued (c : nat) (p : process) : process :=
  if bool_decide (p_state p = RUNNING) then
    let p := set_priority (p_base_priority p) (set_state READY p) in
    if decide (c = 0%nat) then p else set_wait_ticks 0 p
  else p.
Definition requeue_view (c : nat) (p : process) (qs : queue_view) : queue_view :=
  if bool_decide (p_state p = RUNNING) && negb (bool_decide (c = 0%nat))
  then push (p_base_priority p) c qs else qs.

(** The incoming process. *)
Definition dispatched (p : process) : process :=
  set_quantum_left SCHED_QUANTUM_TICKS (set_priority (p_base_priority p) (set_state RUNNING p)).

Definition requeue (c : nat) (s : sys) : sys :=
  if bool_decide (p_state (proc s c) = RUNNING) then
    let s := upd c (set_state READY) s in
    let s := upd c (set_priority (p_base_priority (proc s c))) s in
    scheduler_enqueue (Some c) s
  else s.

Lemma requeue_spec s qs c : queues s qs -> (c < PROCESS_MAX)%nat -> ~ queued qs c ->
  (p_pid (proc s c) = 0 <-> c = 0%nat) -> level (p_base_priority (proc s c)) ->
  queues (requeue c s) (requeue_view c (proc s c) qs) /\ rest_same s (requeue c s) /\
  forall j, pub (proc (requeue c s) j) = if decide (j = c) then pub (requeued c (proc s c)) else pub (proc s j).
Proof.
  intros Hq Hc Hn Hpid Hb. unfold requeue, requeue_view, requeued. pose proof (qu_table _ _ Hq) as Ht.
  destruct (bool_decide_reflect (p_state (proc s c) = RUNNING)) as [E|E]; simpl andb; cbv iota.
  2: { split; [done|]. split; [apply rest_refl|]. intros j. by destruct (decide (j = c)) as [->|]. }
  set (s1 := upd c (set_state READY) s).
  assert (proc s1 c = set_state READY (proc s c)) as P1 by (unfold s1; by procs). rewrite P1.
  set (p := set_priority (p_base_priority (set_state READY (proc s c))) (set_state READY (proc s c))).
  set (s2 := upd c _ s1).
  assert (proc s2 c = p) as P2 by (unfold s2; rewrite proc_upd_eq by (unfold s1; rewrite table_upd; lia); by rewrite P1).
  assert (forall j, j <> c -> proc s2 j = proc s j) as P3 by (intros; unfold s2, s1; by procs).
  assert (queues s2 qs) as Q2 by (by apply queues_upd; [apply queues_upd|]).
  assert (rest_same s s2) as R2 by by split.
  clearbody s2. clear s1 P1. destruct (decide (c = 0%nat)) as [E0|E0].
  - rewrite (bool_decide_eq_true_2 _ E0). simpl negb. cbv iota. unfold scheduler_enqueue.
    rewrite P2. change (p_pid p) with (p_pid (proc s c)). rewrite (proj2 Hpid E0). simpl.
    split; [done|]. split; [done|]. intros j. destruct (decide (j = c)) as [->|]; [by rewrite P2|by rewrite P3].
  - rewrite (bool_decide_eq_false_2 _ E0). simpl negb. cbv iota.
    destruct (enqueue_spec s2 qs c Q2 Hc) as (Q & R & P); [rewrite P2; simpl; tauto|done| |].
    { rewrite P2. simpl. unfold level in Hb. lia. }
    rewrite P2 in Q, P. change (p_priority p) with (p_base_priority (proc s c)) in Q. rewrite clamp_id in Q by done.
    split; [exact Q|]. split; [by apply (rest_trans _ s2)|]. intros j. rewrite P.
    destruct (decide (j = c)); [done|by rewrite P3].
Qed.

(** The state after [switch_to]. *)
Record switched (c n : nat) (s s' : sys) : Prop := {
  sw_self : pub (proc s' n) = pub (dispatched (proc s n));
  sw_prev : pub (proc s' c) = pub (set_esp (u32 (cpu_esp s - 20)) (requeued c (proc s c)));
  sw_other : forall j, j <> c -> j <> n -> pub (proc s' j) = pub (proc s j);
  sw_current : current_process s' = Some n;
  sw_switches : context_switches s' = u64 (context_switches s + 1);
  sw_tss : tss_esp0 s' = p_kstack_top (proc s n);
  sw_esp : cpu_esp s' = u32 (p_esp (proc s n) + 24);
  sw_pid : next_pid s' = next_pid s;
  sw_started : started s' = started s;
  sw_ticks : timer_ticks s' = timer_ticks s;
  sw_heap : kheap s' = kheap s
}.

Lemma switch_fields s qs c n : queues s qs -> (c < PROCESS_MAX)%nat -> (n < PROCESS_MAX)%nat -> n <> c ->
  ~ queued qs c -> (p_pid (proc s c) = 0 <-> c = 0%nat) -> level (p_base_priority (proc s c)) ->
  queues (switch_to c n s) (requeue_view c (proc s c) qs) /\ switched c n s (switch_to c n s).
Proof.
  intros Hq Hc Hn Hne Hnq Hpid Hb.
  destruct (requeue_spec s qs c Hq Hc Hnq Hpid Hb) as (Q & R & P).
  unfold switch_to. fold (requeue c s). cbv zeta. set (s1 := requeue c s) in *. clearbody s1.
  pose proof (qu_table _ _ Q) as Ht.
  assert (pub (proc s1 n) = pub (proc s n)) as Pn by (rewrite P, decide_False; done).
  set (s2 := upd n (set_quantum_left SCHED_QUANTUM_TICKS) _).
  assert (proc s2 n = dispatched (proc s1 n)) as D2 by (unfold s2; by procs).
  assert (forall j, j <> n -> proc s2 j = proc s1 j) as D3 by (intros; unfold s2; by procs).
  assert (queues s2 (requeue_view c (proc s c) qs)) as Q2 by (unfold s2; by do 3 (apply queues_upd; [|done])).
  assert (rest_same s1 s2) as R2 by by split. clearbody s2.
  rewrite (bool_decide_eq_false_2 (c = n)) by done. simpl negb. cbv iota.
  unfold context_switch, tss_set_kernel_stack.
  change (proc (with_tss_esp0 _ _) n) with (proc s2 n).
  change (proc (with_context_switches _ _) n) with (proc s2 n).
  rewrite D2. change (p_esp (dispatched ?p)) with (p_esp p). change (p_kstack_top (dispatched ?p)) with (p_kstack_top p).
  assert (p_esp (proc s1 n) = p_esp (proc s n) /\ p_kstack_top (proc s1 n) = p_kstack_top (proc s n)) as [-> ->].
  { revert Pn. destruct (proc s1 n), (proc s n). unfold pub, set_next. simpl. by intros [=]. }
  pose proof (qu_table _ _ Q2) as Ht2. destruct R as [r1 r2 r3 r4 r5 r6 r7 r8], R2 as [t1 t2 t3 t4 t5 t6 t7 t8].
  split.
  { apply (queues_same (upd c (set_esp (u32 (cpu_esp s2 - 20))) s2)); try done. by apply queues_upd. }
  assert (forall j v x, proc (with_cpu_esp v x) j = proc x j) as Hw by done.
  assert (forall j a b d, proc (with_tss_esp0 a (with_context_switches b (with_current_process d s2))) j = proc s2 j)
    as Hs2 by done.
  split; rewrite ?Hw; try (simpl; congruence).
  - rewrite proc_upd_ne, (Hs2 n), D2 by done.
    revert Pn. destruct (proc s1 n), (proc s n). unfold pub, set_next, dispatched. simpl. intros [=]. by subst.
  - rewrite proc_upd_eq by (simpl; lia). rewrite (Hs2 c), D3 by done.
    pose proof (P c) as Pc. rewrite decide_True in Pc by done. simpl cpu_esp. rewrite t7, r7.
    revert Pc. generalize (requeued c (proc s c)). intros p'. destruct (proc s1 c), p'.
    unfold pub, set_next, set_esp. simpl. intros [=]. by subst.
  - intros j Hjc Hjn. rewrite Hw, proc_upd_ne, (Hs2 j), D3 by done.
    by rewrite P, decide_False.
  - simpl. by zcases.
Qed.

Lemma requeue_view_elem c p qs r j :
  j ∈ requeue_view c p qs r <-> j ∈ qs r \/ (p_state p = RUNNING /\ c <> 0%nat /\ r = p_base_priority p /\ j = c).
Proof.
  unfold requeue_view. destruct (bool_decide_reflect (p_state p = RUNNING)) as [E|E]; [|simpl; tauto].
  destruct (bool_decide_reflect (c = 0%nat)) as [E0|E0]; cbn [andb negb]; [tauto|].
  rewrite push_elem. tauto.
Qed.

(** A slot's condition read off the view without the slot's own moves. *)
Lemma slot_prev s qs c n : core s qs c -> n <> c -> p_state (proc s c) <> READY -> p_state (proc s c) <> UNUSED ->
  slot_ok (requeue_view c (proc s c) (unqueue n qs)) n c (requeued c (proc s c)).
Proof.
  intros Hc Hne Hnr Hnu. set (p := proc s c) in *.
  pose proof (co_slots _ _ _ Hc c (co_cur_slot _ _ _ Hc)) as [S1 S2 S3 S4 S5 S6 S7]. fold p in S1, S2, S3, S4, S5, S6, S7.
  destruct (S7 Hnu) as [Hp Hb].
  assert (forall q, level q -> (c ∉ qs q)) as Hnq.
  { intros q Hq Hi. destruct S1 as [S1 _]. destruct S1 as [? _]; [by exists q|done]. }
  assert (forall q, level q -> c ∈ requeue_view c p (unqueue n qs) q ->
    p_state p = RUNNING /\ c <> 0%nat /\ q = p_base_priority p) as Hin.
  { intros q Hq [[Hi _]%unqueue_elem|(? & ? & ? & _)]%requeue_view_elem; [by destruct (Hnq q Hq)|done]. }
  unfold requeued. destruct (bool_decide_reflect (p_state p = RUNNING)) as [E|E].
  - assert (c <> 0%nat -> queued (requeue_view c p (unqueue n qs)) c) as Hque.
    { intros H0. exists (p_base_priority p). split; [done|]. apply requeue_view_elem. right. done. }
    destruct (decide (c = 0%nat)) as [E0|E0]; split; simpl; try done.
    + split; [|tauto]. intros (q & Hq & Hi). by destruct (Hin q Hq Hi) as (_ & ? & _).
    + intros q Hq Hi. by destruct (Hin q Hq Hi) as (_ & ? & _).
    + intros (q & Hq & Hi). by destruct (Hin q Hq Hi) as (_ & ? & _).
    + intros _. destruct (S5 E0) as [-> _]. auto.
    + split; [done|]. by intros [_ ?]; apply Hque.
    + intros q Hq Hi. by destruct (Hin q Hq Hi) as (_ & _ & ->).
    + intros _ _. apply S6; congruence.
  - split; try done.
    + split; [|intros [? _]; done]. intros (q & Hq & Hi). by destruct (Hin q Hq Hi) as (? & _).
    + intros q Hq Hi. by destruct (Hin q Hq Hi) as (? & _).
    + intros (q & Hq & Hi). by destruct (Hin q Hq Hi) as (? & _).
Qed.

Lemma slot_next s qs c n : core s qs c -> (n < PROCESS_MAX)%nat -> n <> c -> p_state (proc s n) = READY ->
  slot_ok (requeue_view c (proc s c) (unqueue n qs)) n n (dispatched (proc s n)).
Proof.
  intros Hc Hn Hne Hr. pose proof (co_slots _ _ _ Hc n Hn) as [S1 S2 S3 S4 S5 S6 S7].
  destruct S7 as [Hp Hb]; [congruence|].
  assert (forall q, (n ∉ requeue_view c (proc s c) (unqueue n qs) q)) as Hnq.
  { intros q [[_ ?]%unqueue_elem|(_ & _ & _ & ?)]%requeue_view_elem; done. }
  split; simpl; try done.
  - split; [|intros []; done]. intros (q & Hq & Hi). by destruct (Hnq q).
  - intros q Hq Hi. by destruct (Hnq q).
  - intros (q & Hq & Hi). by destruct (Hnq q).
  - intros H0. destruct (S5 H0) as [-> _]. auto.
  - intros H0 _. apply S6; congruence.
Qed.

Lemma pub_requeued c v p p' : pub p' = pub p -> pub (set_esp v (requeued c p')) = pub (set_esp v (requeued c p)).
Proof.
  intros H. destruct (pub_fields _ _ H) as (_ & _ & E & _). unfold requeued. rewrite E. clear E.
  destruct (bool_decide (p_state p = RUNNING)), (decide (c = 0%nat));
    revert H; destruct p, p'; unfold pub, set_next; simpl; intros [=]; by subst.
Qed.
Lemma pub_dispatched p p' : pub p' = pub p -> pub (dispatched p') = pub (dispatched p).
Proof. destruct p, p'. unfold pub, set_next, dispatched. simpl. intros [=]. by subst. Qed.

Lemma set_esp_slot qs c i p v : slot_ok qs c i p -> slot_ok qs c i (set_esp v p).
Proof. intros [H1 H2 H3 H4 H5 H6 H7]. by split. Qed.

Lemma switch_core s qs c n s1 : core s qs c -> queues s1 (unqueue n qs) ->
  (forall j, pub (proc s1 j) = pub (proc s j)) -> (n < PROCESS_MAX)%nat -> n <> c ->
  p_state (proc s n) = READY -> p_state (proc s c) <> READY -> p_state (proc s c) <> UNUSED ->
  sched_inv (switch_to c n s1) (requeue_view c (proc s c) (unqueue n qs)) n /\ switched c n s1 (switch_to c n s1).
Proof.
  intros Hc Hq Hpub Hn Hne Hr Hnr Hnu. pose proof (co_cur_slot _ _ _ Hc) as Hcs.
  pose proof (co_slots _ _ _ Hc c Hcs) as Sc.
  pose proof (pub_fields _ _ (Hpub c)) as (F1 & _ & F3 & F4 & F5 & _).
  assert (requeue_view c (proc s1 c) (unqueue n qs) = requeue_view c (proc s c) (unqueue n qs)) as Ev.
  { unfold requeue_view. by rewrite F3, F5. }
  destruct (switch_fields s1 (unqueue n qs) c n Hq Hcs Hn Hne) as (Q & Sw).
  - intros [Hqc _]%unqueue_queued. apply Sc in Hqc as [? _]. done.
  - rewrite F1. split; [|intros ->; by apply Sc]. intros E. destruct (decide (c = 0%nat)); [done|].
    by destruct (so_pid _ _ _ _ Sc).
  - rewrite F5. by apply Sc.
  - rewrite Ev in Q. split; [|done]. destruct Sw as [W1 W2 W3 W4 W5 W6 W7 W8 W9 W10 W11]. split.
    2: { by destruct (pub_fields _ _ W1) as (_ & _ & -> & _). }
    split; try done. intros j Hj. destruct (decide (j = c)) as [->|Hjc]; [|destruct (decide (j = n)) as [->|Hjn]].
    + apply (slot_pub _ _ _ (set_esp (u32 (cpu_esp s1 - 20)) (requeued c (proc s c)))).
      * rewrite W2. by apply pub_requeued.
      * by apply set_esp_slot, slot_prev.
    + apply (slot_pub _ _ _ (dispatched (proc s n))); [|by apply slot_next].
      rewrite W1. by apply pub_dispatched.
    + apply (slot_pub _ _ _ (proc s j)); [by rewrite W3|]. apply (slot_view qs _ c); [| |by apply (co_slots _ _ _ Hc)].
      * intros q Hl. rewrite requeue_view_elem, unqueue_elem. tauto.
      * intros Er. by destruct Hjc; apply (co_slots _ _ _ Hc j Hj).
Qed.

(** ** The scheduling decision *)

(** Queues and running process after [schedule], as a function of the queues and the
    outgoing process: the head of the first non-empty queue runs; when all queues are
    empty the outgoing process keeps running, or idle takes over. *)
Definition schedule_view (qs : queue_view) (c : nat) (p : process) : queue_view * nat :=
  match top_level qs with
  | Some q =>
      match list.head (qs q) with
      | Some n => (requeue_view c p (unqueue n qs), n)
      | None => (qs, c)
      end
  | None => if bool_decide (p_state p = RUNNING) then (qs, c) else (qs, 0%nat)
  end.

(** What a step leaves of the stacks: their addresses, the owners and the heap. *)
Record stacks_same (s s' : sys) : Prop := {
  ss_kstack : forall j, p_kstack (proc s' j) = p_kstack (proc s j);
  ss_ustack : forall j, p_ustack (proc s' j) = p_ustack (proc s j);
  ss_unused : forall j, p_state (proc s' j) = UNUSED <-> p_state (proc s j) = UNUSED;
  ss_pid : forall j, p_pid (proc s' j) = p_pid (proc s j);
  ss_next_pid : next_pid s' = next_pid s;
  ss_heap : kheap s' = kheap s
}.

Lemma stacks_trans s1 s2 s3 : stacks_same s1 s2 -> stacks_same s2 s3 -> stacks_same s1 s3.
Proof.
  intros [A1 A2 A3 A4 A5 A6] [B1 B2 B3 B4 B5 B6]. split; try congruence; intros j.
  by rewrite B3.
Qed.

Lemma stacks_pub s s' : rest_same s s' -> (forall j, pub (proc s' j) = pub (proc s j)) -> stacks_same s s'.
Proof.
  intros [] H. split; try done; intros j; destruct (pub_fields _ _ (H j)) as (E1 & _ & E & _ & _ & _ & _ & E2 & E3 & _);
    rewrite ?E; done.
Qed.

Lemma switched_stacks c n s s' : switched c n s s' -> c <> n -> p_state (proc s c) <> UNUSED ->
  p_state (proc s n) <> UNUSED -> stacks_same s s'.
Proof.
  intros [W1 W2 W3 W4 W5 W6 W7 W8 W9 W10 W11] Hne Hc Hn.
  assert (forall j, p_kstack (proc s' j) = p_kstack (proc s j) /\ p_ustack (proc s' j) = p_ustack (proc s j) /\
    (p_state (proc s' j) = UNUSED <-> p_state (proc s j) = UNUSED) /\ p_pid (proc s' j) = p_pid (proc s j)) as H.
  { intros j. destruct (decide (j = c)) as [->|Hj]; [|destruct (decide (j = n)) as [->|Hj']].
    - destruct (pub_fields _ _ W2) as (F1 & _ & F3 & _ & _ & _ & _ & F8 & F9 & _). rewrite F1, F3, F8, F9.
      unfold requeued. destruct (bool_decide_reflect (p_state (proc s c) = RUNNING)) as [E|E]; [|done].
      by destruct (decide (c = 0%nat)).
    - by destruct (pub_fields _ _ W1) as (-> & _ & -> & _ & _ & _ & _ & -> & -> & _).
    - by destruct (pub_fields _ _ (W3 j Hj Hj')) as (-> & _ & -> & _ & _ & _ & _ & -> & -> & _). }
  split; try done; apply H.
Qed.

Lemma top_level_none qs i : top_level qs = None -> ~ queued qs i.
Proof.
  intros H (q & Hl & Hi). assert (In q levels) as Hin by (apply level_cases in Hl as [->|[->| ->]]; simpl; tauto).
  pose proof (List.find_none _ _ H q Hin) as E. simpl in E. destruct (qs q); [by apply elem_of_nil in Hi|done].
Qed.

(** Idle is found by its pid. *)
Lemma idle_by_pid s qs c : core s qs c -> process_by_pid 0 s = Some 0%nat.
Proof.
  intros Hc. destruct (so_idle _ _ _ _ (co_slots _ _ _ Hc 0%nat ltac:(unfold PROCESS_MAX; lia)) eq_refl) as [Hp Hst].
  unfold process_by_pid, slots. cbn [seq PROCESS_MAX List.find]. unfold is_unused.
  rewrite bool_decide_eq_false_2 by (destruct Hst; congruence). by rewrite Hp.
Qed.

(** [schedule] behind its guards and [reap_orphans]. *)
Definition dispatch (prev : nat) (s : sys) : sys :=
  let '(next, s) := pick_next s in
  match next with
  | Some next => switch_to prev next s
  | None =>
      if bool_decide (p_state (proc s prev) = RUNNING)
      then upd prev (set_quantum_left SCHED_QUANTUM_TICKS) s
      else
        match process_by_pid 0 s with
        | None => s
        | Some next => if bool_decide (next = prev) then s else switch_to prev next s
        end
  end.

Lemma schedule_dispatch s c : started s = true -> current_process (reap_orphans s) = Some c ->
  schedule s = dispatch c (reap_orphans s).
Proof. intros Hs Hc. unfold schedule. rewrite Hs. cbn [negb]. cbv zeta. rewrite Hc. reflexivity. Qed.

(** What holds after a decision. *)
Record decided (s s' : sys) (qs : queue_view) (c : nat) : Prop := {
  de_inv : sched_inv s' qs c;
  de_stacks : stacks_same s s';
  de_started : started s' = started s;
  de_ticks : timer_ticks s' = timer_ticks s;
  de_quantum : p_quantum_left (proc s' c) = SCHED_QUANTUM_TICKS;
  de_ready : forall j, p_state (proc s j) = READY -> j <> c -> pub (proc s' j) = pub (proc s j);
  de_stack : current_process s <> Some c ->
    tss_esp0 s' = p_kstack_top (proc s c) /\ cpu_esp s' = u32 (p_esp (proc s c) + 24);
  de_prev : forall p, current_process s = Some p -> p <> c ->
    exists v, pub (proc s' p) = pub (set_esp v (requeued p (proc s p)))
}.

Section Dispatch.
Variables (s : sys) (qs : queue_view) (c : nat).
Hypotheses (Hc : core s qs c) (Hnr : p_state (proc s c) <> READY) (Hnu : p_state (proc s c) <> UNUSED).

Lemma dispatch_switch n s2 : queues s2 (unqueue n qs) -> rest_same s s2 ->
  (forall j, pub (proc s2 j) = pub (proc s j)) -> (n < PROCESS_MAX)%nat -> n <> c -> p_state (proc s n) = READY ->
  decided s (switch_to c n s2) (requeue_view c (proc s c) (unqueue n qs)) n.
Proof.
  intros Q R P Hn Hne Hr. destruct (switch_core s qs c n s2) as (Hinv & Sw); [done..|].
  destruct (pub_fields _ _ (P c)) as (_ & _ & Fc & _). destruct (pub_fields _ _ (P n)) as (_ & _ & Fn & _).
  assert (stacks_same s2 (switch_to c n s2)) as Hss by (apply (switched_stacks c n); congruence).
  destruct Sw as [W1 W2 W3 _ _ W6 W7 _ W9 W10 _]. pose proof R as [].
  split; [exact Hinv| |congruence|congruence| | | |].
  - apply (stacks_trans _ s2); [by apply stacks_pub|exact Hss].
  - by destruct (pub_fields _ _ W1) as (_ & _ & _ & _ & _ & -> & _).
  - intros j Hj Hjn. rewrite W3; [apply P|congruence|done].
  - intros _. specialize (P n). rewrite W6, W7. revert P. destruct (proc s2 n), (proc s n).
    unfold pub, set_next. simpl. intros [=]. by subst.
  - intros p Hp _. rewrite (co_current _ _ _ Hc) in Hp. injection Hp as <-.
    exists (u32 (cpu_esp s2 - 20)). rewrite W2. by apply pub_requeued.
Qed.

Lemma dispatch_stay : p_state (proc s c) = RUNNING ->
  decided s (upd c (set_quantum_left SCHED_QUANTUM_TICKS) s) qs c.
Proof.
  intros E. pose proof (qu_table _ _ (co_queues _ _ _ Hc)) as Ht. pose proof (co_cur_slot _ _ _ Hc) as Hcs.
  pose proof (co_slots _ _ _ Hc c Hcs) as [S1 S2 S3 S4 S5 S6 S7].
  split; [split| |reflexivity|reflexivity| | | |].
  - by apply core_upd.
  - by rewrite proc_upd_eq by lia.
  - split; try reflexivity; intros j;
      (destruct (decide (j = c)) as [->|]; [by rewrite proc_upd_eq by lia|by rewrite proc_upd_ne]).
  - by rewrite proc_upd_eq by lia.
  - intros j _ Hj. by rewrite proc_upd_ne by done.
  - intros H. by destruct H; apply (co_current _ _ _ Hc).
  - intros p Hp Hne. rewrite (co_current _ _ _ Hc) in Hp. by injection Hp as <-.
Qed.

Lemma dispatch_idle : top_level qs = None -> p_state (proc s c) <> RUNNING ->
  c <> 0%nat /\ decided s (switch_to c 0 s) qs 0.
Proof.
  intros Etop E. assert ((0 < PROCESS_MAX)%nat) as H0 by (unfold PROCESS_MAX; lia).
  pose proof (co_slots _ _ _ Hc 0%nat H0) as S0. destruct (so_idle _ _ _ _ S0 eq_refl) as [_ Hst].
  assert (c <> 0%nat) as Hc0 by (intros ->; by destruct Hst). split; [done|].
  assert (p_state (proc s 0%nat) = READY) as Hr0.
  { destruct Hst as [H|?]; [|done]. by destruct Hc0; rewrite (so_running _ _ _ _ S0 H). }
  assert (forall q, level q -> unqueue 0%nat qs q = qs q) as Eu.
  { intros q Hl. apply filter_absent. intros Hi. apply (top_level_none qs 0%nat Etop). by exists q. }
  destruct (dispatch_switch 0%nat s) as [[Hi Hr] Hs1 Hs2 Hs3 Hs4 Hs5 Hs6 Hs7]; try done.
  { apply (queues_ext _ qs); [done|]. apply (co_queues _ _ _ Hc). }
  split; try done. split; [|done].
  apply (core_ext _ (requeue_view c (proc s c) (unqueue 0%nat qs))); [|done].
  intros q Hl. unfold requeue_view. rewrite bool_decide_eq_false_2 by done. cbn [andb]. by rewrite Eu.
Qed.

Lemma dispatch_spec :
  let d := schedule_view qs c (proc s c) in decided s (dispatch c s) (fst d) (snd d).
Proof.
  unfold schedule_view, dispatch. pose proof (pick_spec s qs (co_queues _ _ _ Hc)) as Hpick.
  destruct (top_level qs) as [q|] eqn:Etop.
  - destruct Hpick as (n & l & s2 & Hl & Eq & -> & Q2 & R2 & P2). rewrite Eq. simpl list.head. cbv iota.
    destruct (core_slot _ _ _ n Hc) as (Hn & Hn0 & Hnst); [exists q; split; [done|rewrite Eq; left]|].
    assert (n <> c) by congruence. by apply dispatch_switch.
  - rewrite Hpick. cbv iota. destruct (bool_decide_reflect (p_state (proc s c) = RUNNING)) as [E|E].
    + by apply dispatch_stay.
    + rewrite (idle_by_pid _ _ _ Hc). destruct (dispatch_idle Etop E) as [Hc0 Hd].
      rewrite bool_decide_eq_false_2 by congruence. exact Hd.
Qed.
End Dispatch.

(** The process that takes over was ready. *)
Lemma schedule_view_ready s qs c : core s qs c -> p_state (proc s c) <> READY ->
  let n := snd (schedule_view qs c (proc s c)) in n = c \/ p_state (proc s n) = READY.
Proof.
  intros Hc Hnr. unfold schedule_view. destruct (top_level qs) as [q|] eqn:Etop.
  - apply List.find_some in Etop as [Hin _].
    assert (level q) as Hl by (unfold levels, level in *; simpl in Hin; lia).
    destruct (qs q) as [|n l] eqn:E; simpl; [by left|right].
    apply (core_slot _ _ _ n Hc). exists q. split; [done|]. rewrite E. left.
  - destruct (bool_decide_reflect (p_state (proc s c) = RUNNING)) as [E|E]; simpl; [by left|].
    assert ((0 < PROCESS_MAX)%nat) as H0 by (unfold PROCESS_MAX; lia).
    destruct (so_idle _ _ _ _ (co_slots _ _ _ Hc 0%nat H0) eq_refl) as [_ [H|?]]; [|by right].
    left. apply (so_running _ _ _ _ (co_slots _ _ _ Hc 0%nat H0) H).
Qed.

(** [schedule] from a state in which the current process runs, blocks or has exited. *)
Record scheduled (s : sys) (qs : queue_view) (c : nat) (s' : sys) : Prop := {
  sd_inv : sched_inv s' (fst (schedule_view qs c (proc s c))) (snd (schedule_view qs c (proc s c)));
  sd_stacks : stacks_same (reap_orphans s) s';
  sd_started : started s' = true;
  sd_ticks : timer_ticks s' = timer_ticks s;
  sd_quantum : p_quantum_left (proc s' (snd (schedule_view qs c (proc s c)))) = SCHED_QUANTUM_TICKS;
  sd_ready : forall j, (j < PROCESS_MAX)%nat -> p_state (proc s j) = READY ->
    j <> snd (schedule_view qs c (proc s c)) -> pub (proc s' j) = pub (proc s j);
  sd_stack : let n := snd (schedule_view qs c (proc s c)) in
    n <> c -> tss_esp0 s' = p_kstack_top (proc s n) /\ cpu_esp s' = u32 (p_esp (proc s n) + 24);
  sd_prev : snd (schedule_view qs c (proc s c)) <> c ->
    exists v, pub (proc s' c) = pub (set_esp v (requeued c (proc s c)))
}.

Lemma schedule_spec s qs c : core s qs c -> started s = true ->
  p_state (proc s c) <> READY -> p_state (proc s c) <> UNUSED -> scheduled s qs c (schedule s).
Proof.
  intros Hc Hst Hnr Hnu. destruct (reap_spec s qs c Hc) as (Hc1 & Hre & Es & Et & _ & _).
  rewrite (schedule_dispatch s c Hst (co_current _ _ _ Hc1)).
  assert (proc (reap_orphans s) c = proc s c) as Ep
    by (destruct (Hre c (co_cur_slot _ _ _ Hc)) as [?|(_ & ? & _)]; done).
  destruct (dispatch_spec (reap_orphans s) qs c Hc1) as [D1 D2 D3 D4 D5 D6 D7 D8]; [by rewrite Ep..|].
  rewrite Ep in *. split; try done; [congruence|congruence| | |].
  - intros j Hj Hr Hne. assert (proc (reap_orphans s) j = proc s j) as Ej
      by (destruct (Hre j Hj) as [?|(? & _)]; congruence).
    rewrite <- Ej. apply D6; [by rewrite Ej|done].
  - intros n Hn. fold n in D1, D7. assert ((n < PROCESS_MAX)%nat) as Hlt by (apply (co_cur_slot _ _ _ (proj1 D1))).
    destruct (schedule_view_ready s qs c Hc Hnr) as [E|Hrn]; fold n in E || fold n in Hrn; [by destruct Hn|].
    assert (proc (reap_orphans s) n = proc s n) as En
      by (destruct (Hre n Hlt) as [?|(? & _)]; congruence).
    rewrite En in D7. apply D7. rewrite (co_current _ _ _ Hc1). congruence.
  - intros Hn. rewrite <- Ep. apply D8; [apply (co_current _ _ _ Hc1)|congruence].
Qed.

(** ** The timer tick *)

Definition nonempty (qs : queue_view) (q : Z) : bool := match qs q with [] => false | _ => true end.

(** Whether the tick takes the processor away from [c]. *)
Definition preempts (qs : queue_view) (c : nat) (p : process) : bool :=
  existsb (nonempty qs) (seqZ 0 (p_priority p)) || (bool_decide (c = 0%nat) && existsb (nonempty qs) levels)
  || (p_quantum_left p <=? 1).

(** Queues and running process after the tick, once the sleepers are awake. *)
Definition tick_view (s : sys) (qs : queue_view) (c : nat) : queue_view * nat :=
  let qs2 := aged_queues s qs in
  if preempts qs2 c (proc s c) then schedule_view qs2 c (proc s c) else (qs2, c).

(** The process [c] after its accounting. *)
Definition charged (p : process) : process := set_cpu_ticks (u64 (p_cpu_ticks p + 1)) p.

(** A tick from [s] to [s']; [s1] is the state when the sleepers have been woken. *)
Record ticked (s : sys) (qs : queue_view) (c : nat) (s1 : sys) (qs1 : queue_view) (s' : sys) : Prop := {
  tk_core : core s1 qs1 c;
  tk_extends : extends qs qs1;
  tk_woken : forall j, (j < PROCESS_MAX)%nat ->
    pub (proc s1 j) = pub (woken (timer_ticks s) (if decide (j = c) then charged (proc s j) else proc s j));
  tk_inv : sched_inv s' (fst (tick_view s1 qs1 c)) (snd (tick_view s1 qs1 c));
  tk_started : started s' = true;
  tk_ticks : timer_ticks s' = timer_ticks s;
  tk_quantum : p_quantum_left (proc s' (snd (tick_view s1 qs1 c))) =
    if preempts (aged_queues s1 qs1) c (proc s1 c) then SCHED_QUANTUM_TICKS else p_quantum_left (proc s c) - 1;
  tk_ready : forall q j, level q -> j ∈ qs1 q -> j <> snd (tick_view s1 qs1 c) ->
    pub (proc s' j) = pub (if q =? 0 then proc s1 j else age_process s1 q j);
  tk_stacks : exists s3 qs3, stacks_same s s3 /\ core s3 qs3 c /\
    (s' = s3 \/ stacks_same (reap_orphans s3) s')
}.

Lemma ready_head s qs q : queues s qs -> level q -> is_ready q s = nonempty qs q.
Proof. intros Hq Hl. unfold is_ready, nonempty. rewrite (qu_head _ _ Hq q Hl). by destruct (qs q). Qed.

Lemma existsb_ext_in {A} (f g : A -> bool) l : (forall x, In x l -> f x = g x) -> existsb f l = existsb g l.
Proof.
  induction l as [|x l IH]; intros H; simpl; [done|]. rewrite H by (by left). f_equal. apply IH. intros y Hy. apply H. by right.
Qed.

Lemma higher_ready_eq s qs p : queues s qs -> level p ->
  existsb (fun q => is_ready q s) (seqZ 0 p) = existsb (nonempty qs) (seqZ 0 p) /\
  existsb (fun q => is_ready q s) levels = existsb (nonempty qs) levels.
Proof.
  intros Hq Hp. split; apply existsb_ext_in; intros q Hin; apply (ready_head _ _ _ Hq).
  - apply list_elem_of_In, elem_of_seqZ in Hin. unfold level in *. lia.
  - unfold levels, level in *. simpl in Hin. lia.
Qed.

Lemma woken_id now p : p_state p <> SLEEPING -> woken now p = p.
Proof. intros H. unfold woken, wakes. by rewrite bool_decide_eq_false_2. Qed.

(** The last part of [scheduler_tick], from the aged queues on. *)
Definition tick_decide (c : nat) (s : sys) : sys :=
  let higher_ready := existsb (fun q => is_ready q s) (seqZ 0 (p_priority (proc s c))) in
  let higher_ready :=
    if p_pid (proc s c) =? 0 then higher_ready || existsb (fun q => is_ready q s) levels
    else higher_ready in
  let s := if 0 <? p_quantum_left (proc s c)
           then upd c (set_quantum_left (u32 (p_quantum_left (proc s c) - 1))) s else s in
  if higher_ready || (p_quantum_left (proc s c) =? 0) then schedule s else s.

Definition spent (p : process) : process :=
  if 0 <? p_quantum_left p then set_quantum_left (p_quantum_left p - 1) p else p.

Lemma tick_decide_eq s qs c : sched_inv s qs c -> 0 <= p_quantum_left (proc s c) < 2 ^ 32 ->
  exists s1, tick_decide c s = (if preempts qs c (proc s c) then schedule s1 else s1) /\
    core s1 qs c /\ proc s1 c = spent (proc s c) /\ (forall j, j <> c -> proc s1 j = proc s j) /\ rest_same s s1.
Proof.
  intros [Hc Hr] Hq. pose proof (co_cur_slot _ _ _ Hc) as Hcs. pose proof (qu_table _ _ (co_queues _ _ _ Hc)) as Ht.
  pose proof (co_slots _ _ _ Hc c Hcs) as Sc. set (p := proc s c) in *.
  set (s1 := if 0 <? p_quantum_left p then upd c (set_quantum_left (u32 (p_quantum_left p - 1))) s else s).
  assert (core s1 qs c /\ proc s1 c = spent p /\ (forall j, j <> c -> proc s1 j = proc s j) /\ rest_same s s1)
    as (C & P & O & R).
  { unfold s1, spent. destruct (Z.ltb_spec 0 (p_quantum_left p)) as [Hlt|Hge]; [|by split_and!].
    rewrite u32_small by wsolve. split_and!; [|by rewrite proc_upd_eq by lia|intros j Hj; by rewrite proc_upd_ne|by split].
    apply core_upd; try done. fold p. destruct Sc as [S1 S2 S3 S4 S5 S6 S7]. by split. }
  exists s1. split; [|done]. unfold tick_decide, preempts. fold p. cbv zeta. fold s1. rewrite P.
  destruct (higher_ready_eq s qs (p_priority p) (co_queues _ _ _ Hc)) as [E1 E2]; [apply Sc; congruence|].
  rewrite E1, E2.
  assert ((p_pid p =? 0) = bool_decide (c = 0%nat)) as ->.
  { destruct (decide (c = 0%nat)) as [E|E]; [rewrite (bool_decide_eq_true_2 _ E)|rewrite (bool_decide_eq_false_2 _ E)].
    - by rewrite (proj1 (so_idle _ _ _ _ Sc E)).
    - apply Z.eqb_neq. apply Sc; [done|congruence]. }
  assert ((p_quantum_left (spent p) =? 0) = (p_quantum_left p <=? 1)) as ->.
  { unfold spent. destruct (Z.ltb_spec 0 (p_quantum_left p)); simpl p_quantum_left; zcases; lia. }
  clearbody s1. destruct (existsb (nonempty qs) (seqZ 0 (p_priority p))), (existsb (nonempty qs) levels),
    (bool_decide (c = 0%nat)), (p_quantum_left p <=? 1); reflexivity.
Qed.

Lemma age_process_state s q j : p_state (age_process s q j) = p_state (proc s j).
Proof. unfold age_process. by destruct (aged s j). Qed.

Lemma aged_state s qs c q j s2 : core s qs c -> level q -> j ∈ qs q ->
  (forall q j, q = 1 \/ q = 2 -> j ∈ qs q -> pub (proc s2 j) = pub (age_process s q j)) ->
  (forall j, (j ∉ qs 1) -> (j ∉ qs 2) -> pub (proc s2 j) = pub (proc s j)) ->
  pub (proc s2 j) = pub (if q =? 0 then proc s j else age_process s q j) /\ p_state (proc s2 j) = READY.
Proof.
  intros Hc Hl Hj A1 A2. pose proof (co_queues _ _ _ Hc) as Hq.
  destruct (core_slot _ _ _ j Hc) as (_ & _ & Hst); [by exists q|].
  assert (pub (proc s2 j) = pub (if q =? 0 then proc s j else age_process s q j)) as E.
  { apply level_cases in Hl as [->|[->| ->]]; simpl Z.eqb; cbv iota; [|apply A1; tauto..].
    apply A2; intros Hj'.
    - by pose proof (qu_disj _ _ Hq 0 1 j ltac:(done) ltac:(done) Hj Hj').
    - by pose proof (qu_disj _ _ Hq 0 2 j ltac:(done) ltac:(done) Hj Hj'). }
  split; [done|]. destruct (pub_fields _ _ E) as (_ & _ & -> & _). destruct (q =? 0); [done|].
  by rewrite age_process_state.
Qed.

Lemma spent_preempted p : 0 <= p_quantum_left p -> (p_quantum_left p <=? 1) = false ->
  p_quantum_left (spent p) = p_quantum_left p - 1.
Proof. intros H E. unfold spent. apply Z.leb_gt in E. zcases; simpl; lia. Qed.

Lemma schedule_view_ext qs c p p' : p_state p' = p_state p -> p_base_priority p' = p_base_priority p ->
  schedule_view qs c p' = schedule_view qs c p.
Proof. intros E1 E2. unfold schedule_view, requeue_view. by rewrite E1, E2. Qed.

Lemma tick_decide_spec s qs c : sched_inv s qs c -> started s = true -> 0 <= p_quantum_left (proc s c) < 2 ^ 32 ->
  let d := if preempts qs c (proc s c) then schedule_view qs c (proc s c) else (qs, c) in
  let s' := tick_decide c s in
  sched_inv s' (fst d) (snd d) /\ started s' = true /\ timer_ticks s' = timer_ticks s /\
  p_quantum_left (proc s' (snd d)) =
    (if preempts qs c (proc s c) then SCHED_QUANTUM_TICKS else p_quantum_left (proc s c) - 1) /\
  (forall j, (j < PROCESS_MAX)%nat -> p_state (proc s j) = READY -> j <> snd d -> pub (proc s' j) = pub (proc s j)) /\
  exists s3, stacks_same s s3 /\ core s3 qs c /\ (s' = s3 \/ stacks_same (reap_orphans s3) s').
Proof.
  intros Hinv Hst Hq. destruct (tick_decide_eq s qs c Hinv Hq) as (s1 & E & C & P & O & R).
  destruct Hinv as [Hc Hr]. cbv zeta. rewrite E. clear E.
  assert (p_state (spent (proc s c)) = RUNNING /\ p_base_priority (spent (proc s c)) = p_base_priority (proc s c))
    as [Hr1 Hb1] by (unfold spent; by destruct (0 <? _)).
  assert (stacks_same s s1) as Hss.
  { destruct R. split; try done; intros j; (destruct (decide (j = c)) as [->|Hj]; [rewrite P|by rewrite O by done]);
      unfold spent; by destruct (0 <? _). }
  destruct (preempts qs c (proc s c)) eqn:Ep.
  - destruct (schedule_spec s1 qs c C) as [D1 D2 D3 D4 D5 D6 _ _]; [rewrite (re_started _ _ R); done|rewrite P, Hr1; done..|].
    rewrite P in D1, D5, D6. rewrite (schedule_view_ext qs c (proc s c)) in D1, D5, D6 by congruence.
    split; [done|]. split; [done|]. split; [rewrite D4; apply (re_ticks _ _ R)|]. split; [done|].
    split; [|exists s1; auto].
    intros j Hj Hjr Hne. assert (j <> c) as Hjc by congruence. rewrite <- (O j Hjc). apply D6; [done|by rewrite O|done].
  - simpl fst. simpl snd. split; [split; [done|by rewrite P]|]. split; [rewrite (re_started _ _ R); done|].
    split; [apply (re_ticks _ _ R)|]. split; [|split; [|exists s1; auto]].
    + rewrite P. apply spent_preempted; [lia|]. unfold preempts in Ep. by apply orb_false_elim in Ep as [_ ?].
    + intros j _ _ Hj. by rewrite O.
Qed.

Lemma proc_out s j : length (table s) = PROCESS_MAX -> (PROCESS_MAX <= j)%nat -> proc s j = zero_process.
Proof. intros Ht Hj. unfold proc. by rewrite lookup_ge_None_2 by lia. Qed.

Lemma woken_stacks now s0 s1 : length (table s0) = PROCESS_MAX -> length (table s1) = PROCESS_MAX -> rest_same s0 s1 ->
  (forall j, (j < PROCESS_MAX)%nat -> pub (proc s1 j) = pub (woken now (proc s0 j))) -> stacks_same s0 s1.
Proof.
  intros T0 T1 R H.
  assert (forall j, p_kstack (proc s1 j) = p_kstack (proc s0 j) /\ p_ustack (proc s1 j) = p_ustack (proc s0 j) /\
    (p_state (proc s1 j) = UNUSED <-> p_state (proc s0 j) = UNUSED) /\ p_pid (proc s1 j) = p_pid (proc s0 j)) as K.
  { intros j. destruct (decide (j < PROCESS_MAX)%nat) as [Hj|Hj]; [|by rewrite !proc_out by (done || lia)].
    destruct (pub_fields _ _ (H j Hj)) as (-> & _ & -> & _ & _ & _ & _ & -> & -> & _). unfold woken, wakes.
    destruct (bool_decide_reflect (p_state (proc s0 j) = SLEEPING)) as [E|E]; simpl; [|done].
    destruct (_ <=? now); [|done]. by rewrite E. }
  destruct R. split; try done; apply K.
Qed.

Lemma aged_stacks s (qs : queue_view) s2 : rest_same s s2 ->
  (forall q j, q = 1 \/ q = 2 -> j ∈ qs q -> pub (proc s2 j) = pub (age_process s q j)) ->
  (forall j, (j ∉ qs 1) -> (j ∉ qs 2) -> pub (proc s2 j) = pub (proc s j)) -> stacks_same s s2.
Proof.
  intros R A1 A2.
  assert (forall j, p_kstack (proc s2 j) = p_kstack (proc s j) /\ p_ustack (proc s2 j) = p_ustack (proc s j) /\
    p_state (proc s2 j) = p_state (proc s j) /\ p_pid (proc s2 j) = p_pid (proc s j)) as K.
  { intros j. destruct (decide (j ∈ qs 1)) as [H1|H1]; [|destruct (decide (j ∈ qs 2)) as [H2|H2]].
    1: pose proof (A1 1 j ltac:(auto) H1) as E. 2: pose proof (A1 2 j ltac:(auto) H2) as E. 3: pose proof (A2 j H1 H2) as E.
    all: destruct (pub_fields _ _ E) as (-> & _ & -> & _ & _ & _ & _ & -> & -> & _); try done.
    all: unfold age_process; by destruct (aged s j). }
  destruct R. split; try done; try apply K. intros j. by rewrite (proj1 (proj2 (proj2 (K j)))).
Qed.

Lemma tick_spec s qs c : sched_inv s qs c -> started s = true -> 0 <= p_quantum_left (proc s c) < 2 ^ 32 ->
  exists s1 qs1 s', scheduler_tick s = Some s' /\ ticked s qs c s1 qs1 s'.
Proof.
  intros [Hc Hr] Hst Hqu. pose proof (co_cur_slot _ _ _ Hc) as Hcs.
  pose proof (qu_table _ _ (co_queues _ _ _ Hc)) as Ht. pose proof (co_slots _ _ _ Hc c Hcs) as Sc.
  set (s0 := upd c (set_cpu_ticks (u64 (p_cpu_ticks (proc s c) + 1))) s).
  assert (core s0 qs c) as C0.
  { apply core_upd; try done. destruct Sc as [S1 S2 S3 S4 S5 S6 S7]. by split. }
  assert (proc s0 c = charged (proc s c)) as P0 by (unfold s0; by procs).
  assert (forall j, j <> c -> proc s0 j = proc s j) as O0 by (intros; unfold s0; by procs).
  destruct (wake_sleepers_spec (timer_ticks s) s0 qs c C0) as (qs1 & C1 & Hex & R1 & P1).
  set (s1 := wake_sleepers (timer_ticks s) s0) in *.
  assert (pub (proc s1 c) = pub (charged (proc s c))) as Pc.
  { rewrite P1 by done. rewrite P0, woken_id; [done|]. simpl. by rewrite Hr. }
  destruct (apply_aging_spec s1 qs1 c C1) as (s2 & Eag & C2 & R2 & A1 & A2).
  destruct (pub_fields _ _ Pc) as (_ & _ & Fs & Fp & Fb & Fq & _). simpl in Fs, Fp, Fb, Fq.
  assert (forall q, level q -> (c ∉ qs1 q)) as Hcq.
  { intros q Hl Hi. destruct (core_slot _ _ _ c C1) as (_ & _ & ?); [by exists q|]. congruence. }
  assert (pub (proc s2 c) = pub (proc s1 c)) as Pc2 by (apply A2; by apply Hcq).
  destruct (pub_fields _ _ Pc2) as (_ & _ & Gs & Gp & Gb & Gq & _).
  assert (preempts (aged_queues s1 qs1) c (proc s2 c) = preempts (aged_queues s1 qs1) c (proc s1 c)) as Epre
    by (unfold preempts; by rewrite Gp, Gq).
  destruct (tick_decide_spec s2 (aged_queues s1 qs1) c) as (D1 & D2 & D3 & D4 & D5 & s3 & D6 & D7 & D8).
  { split; [done|]. congruence. }
  { rewrite (re_started _ _ R2), (re_started _ _ R1). exact Hst. }
  { rewrite Gq, Fq. exact Hqu. }
  rewrite Epre, (schedule_view_ext _ c (proc s1 c)) in D1, D4, D5 by done. fold (tick_view s1 qs1 c) in D1, D4, D5.
  exists s1, qs1, (tick_decide c s2). split.
  { unfold scheduler_tick. rewrite Hst, (co_current _ _ _ Hc). cbn [negb]. cbv zeta. fold s0. fold s1. rewrite Eag. reflexivity. }
  split; try done.
  - intros j Hj. rewrite P1 by done. destruct (decide (j = c)) as [->|]; [by rewrite P0|by rewrite O0].
  - rewrite D3, (re_ticks _ _ R2), (re_ticks _ _ R1). done.
  - rewrite D4, Gq, Fq. done.
  - intros q j Hl Hj Hne. destruct (aged_state s1 qs1 c q j s2) as [<- Hs2]; try done.
    apply D5; try done. by apply (core_slot _ qs1 c j C1); exists q.
  - exists s3, (aged_queues s1 qs1). split; [|done]. apply (stacks_trans _ s2); [|done].
    apply (stacks_trans _ s1); [apply (stacks_trans _ s0)|].
    + split; try done; intros j; (destruct (decide (j = c)) as [->|]; [by rewrite P0|by rewrite O0]).
    + apply (woken_stacks (timer_ticks s)); try done;
        [apply (qu_table _ _ (co_queues _ _ _ C0))|apply (qu_table _ _ (co_queues _ _ _ C1))].
    + by apply (aged_stacks s1 qs1).
Qed.

(** ** Waiting time

    An upper bound [m] on the ticks until the queued process [j] runs: in the top queue
    five ticks for every process before it and the rest of the current quantum; below,
    the ticks until aging lifts it one level, and so on. *)
Definition top_wait : Z := SCHED_QUANTUM_TICKS * 63 + SCHED_QUANTUM_TICKS.

Definition waits (s : sys) (qs : queue_view) (c j : nat) (m : Z) : Prop :=
  (exists l1 l2, qs 0 = l1 ++ j :: l2 /\
     SCHED_QUANTUM_TICKS * Z.of_nat (length l1) + Z.max 1 (p_quantum_left (proc s c)) <= m) \/
  (exists q, 1 <= q <= 2 /\ j ∈ qs q /\
     top_wait + (AGING_THRESHOLD + 1) * q - p_wait_ticks (proc s j) <= m).

Lemma tick_member s qs c j q : j ∈ aged_queues s qs q -> j <> snd (tick_view s qs c) ->
  j ∈ fst (tick_view s qs c) q.
Proof.
  unfold tick_view. destruct (preempts _ c (proc s c)); [|done]. unfold schedule_view.
  destruct (top_level _) as [r|]; [|by destruct (bool_decide _)].
  destruct (list.head _) as [n|]; [|done]. simpl. intros Hj Hne.
  apply requeue_view_elem. left. by apply unqueue_elem.
Qed.

Lemma requeue_view_app c p qs q : exists l, requeue_view c p qs q = qs q ++ l.
Proof.
  unfold requeue_view, push. destruct (_ && _); [|by exists []; rewrite app_nil_r].
  destruct (_ =? _); [by eexists|by exists []; rewrite app_nil_r].
Qed.

(** In the top queue the process moves forward with every decision. *)
Lemma tick_top s qs c j l1 l2 : aged_queues s qs 0 = l1 ++ j :: l2 -> NoDup (l1 ++ j :: l2) ->
  if preempts (aged_queues s qs) c (proc s c) then
    snd (tick_view s qs c) = j \/
    exists n l1' l2', l1 = n :: l1' /\ fst (tick_view s qs c) 0 = l1' ++ j :: l2'
  else tick_view s qs c = (aged_queues s qs, c).
Proof.
  intros E Hnd. unfold tick_view. destruct (preempts _ c (proc s c)); [|done]. unfold schedule_view.
  assert (top_level (aged_queues s qs) = Some 0) as ->.
  { unfold top_level, levels. cbn [List.find]. rewrite E. by destruct l1. }
  rewrite E. destruct l1 as [|n l1]; simpl list.head; cbv iota; [by left|right].
  exists n, l1. destruct (requeue_view_app c (proc s c) (unqueue n (aged_queues s qs)) 0) as [l Hl].
  exists (l2 ++ l). split; [done|]. simpl fst. rewrite Hl. unfold unqueue. rewrite E. simpl.
  apply NoDup_cons_1_1 in Hnd. rewrite filter_cons_False by tauto. rewrite filter_absent by done.
  by rewrite <- app_assoc.
Qed.

(** A ready process keeps its wait while the sleepers wake up. *)
Lemma ticked_wait s qs c s1 qs1 s' j : sched_inv s qs c -> ticked s qs c s1 qs1 s' -> queued qs j ->
  p_wait_ticks (proc s1 j) = p_wait_ticks (proc s j).
Proof.
  intros [Hc Hr] Ht Hq. destruct (core_slot _ _ _ j Hc Hq) as (Hj & _ & Hst).
  pose proof (tk_woken _ _ _ _ _ _ Ht j Hj) as E. rewrite decide_False in E by congruence.
  rewrite woken_id in E by congruence. by destruct (pub_fields _ _ E) as (_ & _ & _ & _ & _ & _ & -> & _).
Qed.

Lemma aged_member s qs q j : 1 <= q <= 2 -> j ∈ qs q ->
  (aged s j = true /\ j ∈ aged_queues s qs (q - 1)) \/ (aged s j = false /\ j ∈ aged_queues s qs q).
Proof.
  intros Hq Hj. destruct (aged s j) eqn:E; [left|right]; (split; [done|]);
    assert (q = 1 \/ q = 2) as [-> | ->] by lia; unfold aged_queues; simpl;
    rewrite ?elem_of_app; rewrite <- ?list_elem_of_In, ?list_elem_of_In, ?filter_In, ?E; simpl;
    rewrite ?list_elem_of_In in Hj; tauto.
Qed.

Lemma extends_prefix qs qs1 j l1 l2 : extends qs qs1 -> qs 0 = l1 ++ j :: l2 ->
  exists l3, qs1 0 = l1 ++ j :: l3.
Proof. intros He E. destruct (He 0) as [l El]. exists (l2 ++ l). by rewrite El, E, <- app_assoc. Qed.

Section WaitStep.
Variables (s : sys) (qs : queue_view) (c j : nat) (s1 : sys) (qs1 : queue_view) (s' : sys) (m : Z).
Hypotheses (Hinv : sched_inv s qs c) (Hqu : 0 <= p_quantum_left (proc s c) <= SCHED_QUANTUM_TICKS)
  (Ht : ticked s qs c s1 qs1 s').
Let v := tick_view s1 qs1 c.

Lemma ticked_quantum : 1 <= p_quantum_left (proc s' (snd v)) <= SCHED_QUANTUM_TICKS.
Proof.
  unfold v. rewrite (tk_quantum _ _ _ _ _ _ Ht). destruct (preempts _ c (proc s1 c)) eqn:E; [unfold SCHED_QUANTUM_TICKS; lia|].
  unfold preempts in E. apply orb_false_elim in E as [_ E]. apply Z.leb_gt in E.
  pose proof (co_cur_slot _ _ _ (proj1 Hinv)) as Hcs.
  pose proof (tk_woken _ _ _ _ _ _ Ht c Hcs) as W. rewrite decide_True in W by done.
  rewrite woken_id in W by (simpl; rewrite (proj2 Hinv); done).
  destruct (pub_fields _ _ W) as (_ & _ & _ & _ & _ & F & _). simpl in F. lia.
Qed.

Lemma waits_top l1 l2 : qs 0 = l1 ++ j :: l2 ->
  SCHED_QUANTUM_TICKS * Z.of_nat (length l1) + Z.max 1 (p_quantum_left (proc s c)) <= m ->
  snd v = j \/ waits s' (fst v) (snd v) j (m - 1).
Proof.
  intros E Hm. destruct (extends_prefix qs qs1 j l1 l2 (tk_extends _ _ _ _ _ _ Ht) E) as [l3 E1].
  assert (aged_queues s1 qs1 0 = l1 ++ j :: (l3 ++ List.filter (aged s1) (qs1 1))) as E2
    by (unfold aged_queues; simpl; by rewrite E1, <- app_assoc).
  pose proof (tk_core _ _ _ _ _ _ Ht) as Hc1.
  destruct (apply_aging_spec s1 qs1 c Hc1) as (s2 & _ & C2 & _).
  pose proof (qu_nodup _ _ (co_queues _ _ _ C2) 0 ltac:(done)) as Hnd. rewrite E2 in Hnd.
  pose proof (tick_top s1 qs1 c j _ _ E2 Hnd) as Htop. fold v in Htop.
  pose proof (tk_quantum _ _ _ _ _ _ Ht) as Hq. fold v in Hq.
  destruct (preempts _ c (proc s1 c)) eqn:Ep.
  - destruct Htop as [?|(n & l1' & l2' & -> & Ev)]; [by left|right; left]. exists l1', l2'. split; [done|].
    rewrite Hq. simpl length in Hm. unfold SCHED_QUANTUM_TICKS in *. lia.
  - right; left. rewrite Htop in *. simpl fst. simpl snd in *. eexists l1, _. split; [exact E2|].
    pose proof ticked_quantum as Hle. fold v in Hle. rewrite Htop in Hle. simpl snd in Hle. lia.
Qed.

Lemma waits_low q : 1 <= q <= 2 -> j ∈ qs q ->
  top_wait + (AGING_THRESHOLD + 1) * q - p_wait_ticks (proc s j) <= m ->
  snd v = j \/ waits s' (fst v) (snd v) j (m - 1).
Proof.
  intros Hq Hj Hm. destruct (decide (snd v = j)) as [|Hne]; [by left|right].
  assert (level q) as Hl by (unfold level; lia). assert (queued qs j) as Hqj by by exists q.
  pose proof (tk_core _ _ _ _ _ _ Ht) as Hc1.
  assert (j ∈ qs1 q) as Hj1. { destruct (tk_extends _ _ _ _ _ _ Ht q) as [l ->]. apply elem_of_app. by left. }
  pose proof (ticked_wait _ _ _ _ _ _ _ Hinv Ht Hqj) as Hw.
  assert (0 <= p_wait_ticks (proc s1 j) <= AGING_THRESHOLD) as Hb.
  { destruct (core_slot _ _ _ j Hc1) as (Hjr & _); [by exists q|]. apply (co_slots _ _ _ Hc1 j Hjr). by exists q. }
  pose proof (tk_ready _ _ _ _ _ _ Ht q j Hl Hj1 ltac:(done)) as Ep.
  rewrite (proj2 (Z.eqb_neq q 0)) in Ep by lia. destruct (pub_fields _ _ Ep) as (_ & _ & _ & _ & _ & _ & Ew & _).
  unfold age_process in Ew. destruct (aged_member s1 qs1 q j Hq Hj1) as [[Ea Hj2]|[Ea Hj2]];
    rewrite Ea in Ew; simpl in Ew; apply (tick_member s1 qs1 c) in Hj2; try done; fold v in Hj2.
  - unfold aged in Ea. apply Z.ltb_lt in Ea. destruct (decide (q = 1)) as [->|Hq1].
    + left. change (1 - 1) with 0 in Hj2. apply list_elem_of_split in Hj2 as (l1 & l2 & E0). exists l1, l2. split; [done|].
      pose proof (queue_short s' (fst v) 0 (co_queues _ _ _ (proj1 (tk_inv _ _ _ _ _ _ Ht))) ltac:(done)) as Hlen.
      fold v in Hlen. rewrite E0, length_app in Hlen. simpl in Hlen.
      pose proof ticked_quantum as Hle.
      unfold top_wait, SCHED_QUANTUM_TICKS, AGING_THRESHOLD, PROCESS_MAX in *. lia.
    + right. exists (q - 1). split; [lia|]. split; [done|]. rewrite Ew. unfold AGING_THRESHOLD in *. lia.
  - right. exists q. split; [done|]. split; [done|]. rewrite Ew. lia.
Qed.
End WaitStep.

(** [n] timer interrupts. *)
Fixpoint timer_ticks_n (n : nat) (s : sys) : option sys :=
  match n with O => Some s | S n => timer_handler s ≫= timer_ticks_n n end.

Lemma timer_ticked s qs c : sched_inv s qs c -> started s = true ->
  0 <= p_quantum_left (proc s c) <= SCHED_QUANTUM_TICKS ->
  exists s0 s1 qs1 s', timer_handler s = Some s' /\ s0 = with_timer_ticks (u64 (timer_ticks s + 1)) s /\
    sched_inv s0 qs c /\ ticked s0 qs c s1 qs1 s'.
Proof.
  intros Hinv Hst Hq. set (s0 := with_timer_ticks (u64 (timer_ticks s + 1)) s).
  assert (sched_inv s0 qs c) as Hinv0.
  { destruct Hinv as [[C1 C2 C3 C4] Hr]. split; [|done]. split; try done. by apply (queues_same s). }
  destruct (tick_spec s0 qs c Hinv0) as (s1 & qs1 & s' & E & T); [done| |by exists s0, s1, qs1, s'].
  change (proc s0 c) with (proc s c). unfold SCHED_QUANTUM_TICKS in Hq. lia.
Qed.

Lemma waits_run : forall m s qs c j, sched_inv s qs c -> started s = true ->
  0 <= p_quantum_left (proc s c) <= SCHED_QUANTUM_TICKS -> waits s qs c j (Z.of_nat m) ->
  exists n s' qs', (n <= m)%nat /\ timer_ticks_n n s = Some s' /\ sched_inv s' qs' j.
Proof.
  induction m as [|m IH]; intros s qs c j Hinv Hst Hq Hw.
  { exfalso. destruct Hw as [(l1 & l2 & _ & H)|(q & Hl & Hj & H)]; [unfold SCHED_QUANTUM_TICKS in *; lia|].
    assert (queued qs j) as Hqj by (exists q; split; [unfold level; lia|done]).
    destruct (core_slot _ _ _ j (proj1 Hinv) Hqj) as (Hjr & _).
    pose proof (so_wait _ _ _ _ (co_slots _ _ _ (proj1 Hinv) j Hjr) Hqj).
    unfold top_wait, SCHED_QUANTUM_TICKS, AGING_THRESHOLD in *. lia. }
  destruct (timer_ticked s qs c Hinv Hst Hq) as (s0 & s1 & qs1 & s' & E & E0 & Hinv0 & T).
  assert (waits s0 qs c j (Z.of_nat (S m))) as Hw0 by (by rewrite E0). assert (proc s0 c = proc s c) as Ec by (by rewrite E0).
  assert (snd (tick_view s1 qs1 c) = j \/
    waits s' (fst (tick_view s1 qs1 c)) (snd (tick_view s1 qs1 c)) j (Z.of_nat (S m) - 1)) as [Hd|Hd].
  { rewrite <- Ec in Hq. destruct Hw0 as [(l1 & l2 & H1 & H2)|(q & H1 & H2 & H3)].
    - by apply (waits_top s0 qs c j s1 qs1 s' _ Hinv0 Hq T l1 l2).
    - by apply (waits_low s0 qs c j s1 qs1 s' _ Hinv0 Hq T q). }
  - pose proof (tk_inv _ _ _ _ _ _ T) as Hi. rewrite Hd in Hi.
    exists 1%nat, s', (fst (tick_view s1 qs1 c)). simpl. rewrite E. simpl. split; [lia|]. by split.
  - replace (Z.of_nat (S m) - 1) with (Z.of_nat m) in Hd by lia.
    destruct (IH _ _ _ j (tk_inv _ _ _ _ _ _ T) (tk_started _ _ _ _ _ _ T)) as (n & s'' & qs'' & Hn & En & Hi).
    + rewrite <- Ec in Hq. pose proof (ticked_quantum s0 qs c s1 qs1 s' Hinv0 Hq T). lia.
    + done.
    + exists (S n), s'', qs''. simpl. rewrite E. simpl. split; [lia|]. by split.
Qed.

Lemma queued_waits s qs c j : sched_inv s qs c -> p_quantum_left (proc s c) <= SCHED_QUANTUM_TICKS ->
  queued qs j -> waits s qs c j 722.
Proof.
  intros [Hc Hr] Hq Hqj. pose proof Hqj as (q & Hl & Hj). destruct (core_slot _ _ _ j Hc Hqj) as (Hjr & _).
  pose proof (so_wait _ _ _ _ (co_slots _ _ _ Hc j Hjr) Hqj) as Hw.
  destruct (decide (q = 0)) as [->|H0].
  - left. apply list_elem_of_split in Hj as (l1 & l2 & E). exists l1, l2. split; [done|].
    pose proof (queue_short s qs 0 (co_queues _ _ _ Hc) Hl) as Hlen. rewrite E, length_app in Hlen. simpl in Hlen.
    unfold SCHED_QUANTUM_TICKS, PROCESS_MAX in *. lia.
  - right. exists q. unfold level in Hl. split; [lia|]. split; [done|].
    unfold top_wait, SCHED_QUANTUM_TICKS, AGING_THRESHOLD in *. lia.
Qed.

(** ** Initial state *)

Lemma queues_unqueued s qs i f : queues s qs -> ~ queued qs i -> queues (upd i f s) qs.
Proof.
  intros [H1 H2 H3 H4 H5 H6 H7 H8 H9] Hi. split; try done.
  - by rewrite table_upd.
  - intros q Hq. apply (linked_ext s); [|by apply H6]. intros j Hj. rewrite proc_upd_ne; [done|].
    intros ->. apply Hi. by exists q.
Qed.

(** Assigning a whole control block of a process that is in no queue. *)
Lemma core_assign s qs c i f : core s qs c -> (i < PROCESS_MAX)%nat -> ~ queued qs i ->
  slot_ok qs c i (f (proc s i)) -> core (upd i f s) qs c.
Proof.
  intros Hc Hi Hn Hsl. pose proof (qu_table _ _ (co_queues _ _ _ Hc)) as Ht.
  apply (core_update s qs c _ qs c i Hc).
  - apply queues_unqueued; [apply (co_queues _ _ _ Hc)|done].
  - apply (co_current _ _ _ Hc).
  - apply (co_cur_slot _ _ _ Hc).
  - intros j Hj Hne. procs. split; [done|]. split; [done|]. apply (co_slots _ _ _ Hc j Hj).
  - intros _. by procs.
Qed.

Definition no_queues : queue_view := fun _ => [].

Lemma clear_states s n : length (table s) = PROCESS_MAX ->
  let s' := foldl (fun s i => upd i (set_state UNUSED) s) s (seq 0 n) in
  length (table s') = PROCESS_MAX /\ (forall j, (j < n)%nat -> (j < PROCESS_MAX)%nat -> p_state (proc s' j) = UNUSED) /\
  queue_head s' = queue_head s /\ queue_tail s' = queue_tail s.
Proof.
  intros Ht. induction n as [|n IH]; [split_and!; done || lia|].
  rewrite seq_S, foldl_app. cbn [foldl]. cbv zeta in IH.
  set (s1 := foldl _ s (seq 0 n)) in *. destruct IH as (I1 & I2 & I3 & I4).
  split_and!; [by rewrite table_upd| |done|done].
  intros j Hj Hm. destruct (decide (j = n)) as [->|]; [by rewrite proc_upd_eq by lia|].
  rewrite proc_upd_ne by lia. apply I2; lia.
Qed.

Lemma process_init_inv s : length (table s) = PROCESS_MAX ->
  queue_head s = [None; None; None] -> queue_tail s = [None; None; None] ->
  sched_inv (process_init s) no_queues 0 /\
  (forall i, (i < PROCESS_MAX)%nat -> i <> 0%nat -> p_state (proc (process_init s) i) = UNUSED) /\
  p_kstack (proc (process_init s) 0) = 0 /\ p_ustack (proc (process_init s) 0) = 0.
Proof.
  intros Ht Hh Hta. destruct (clear_states s PROCESS_MAX Ht) as (T & U & H & Ta).
  unfold process_init, slots. set (s1 := foldl _ s _) in *. cbv zeta. clearbody s1.
  assert (forall i, (i < PROCESS_MAX)%nat -> p_state (proc s1 i) = UNUSED) as U' by auto.
  assert ((0 < PROCESS_MAX)%nat) as H0 by (unfold PROCESS_MAX; lia). rewrite <- T in H0.
  set (s2 := upd 0 (copy_name _) _).
  assert (exists nm, proc s2 0%nat = Process 0 0 nm RUNNING PRIORITY_LOW PRIORITY_LOW SCHED_QUANTUM_TICKS 0 0 None 0 0 0 0 0 0 0 0 0 0)
    as [nm P2] by (unfold s2; procs; eexists; reflexivity).
  assert (forall j, j <> 0%nat -> proc s2 j = proc s1 j) as O2 by (intros; unfold s2; by procs).
  assert (length (table s2) = PROCESS_MAX) as T2 by (unfold s2; by rewrite !table_upd).
  assert (queue_head s2 = queue_head s1 /\ queue_tail s2 = queue_tail s1) as [H2 Ta2] by done.
  clearbody s2. change (proc (with_current_process ?v s2)) with (proc s2). rewrite P2. split; [|split; [|done]].
  - split; [|by change (proc (with_current_process _ s2) 0%nat) with (proc s2 0%nat); rewrite P2]. split; try done.
    + split; simpl; rewrite ?H2, ?Ta2, ?H, ?Ta, ?Hh, ?Hta; try done.
      * intros q Hl. unfold head_of. simpl. rewrite H2, H, Hh. by apply level_cases in Hl as [->|[->| ->]].
      * intros q Hl. unfold tail_of. simpl. rewrite Ta2, Ta, Hta. by apply level_cases in Hl as [->|[->| ->]].
      * intros q Hl. apply NoDup_nil_2.
      * intros q r i _ _ Hi. by apply elem_of_nil in Hi.
      * intros q i _ Hi. by apply elem_of_nil in Hi.
    + lia.
    + intros i Hi. change (proc (with_current_process _ s2) i) with (proc s2 i).
      assert (forall q, (i ∉ no_queues q)) as Hnq by (intros q Hin; by apply elem_of_nil in Hin).
      destruct (decide (i = 0%nat)) as [->|Hne].
      * rewrite P2. split; simpl; try done.
        -- split; [intros (q & _ & Hin); by destruct (Hnq q)|intros [? _]; done].
        -- intros q _ Hin. by destruct (Hnq q).
        -- tauto.
      * rewrite O2 by done. split; rewrite ?U' by done; try done.
        -- split; [intros (q & _ & Hin); by destruct (Hnq q)|intros [? _]; done].
        -- intros q _ Hin. by destruct (Hnq q).
        -- intros (q & _ & Hin). by destruct (Hnq q).
  - intros i Hi Hne. rewrite O2 by done. by apply U'.
Qed.

(** [scheduler_unblock] queues a blocked or sleeping process and leaves others alone. *)
Definition blocked (p : process) : bool :=
  bool_decide (p_state p = BLOCKED) || bool_decide (p_state p = SLEEPING).

Lemma blocked_cases p : (blocked p = true /\ (p_state p = BLOCKED \/ p_state p = SLEEPING)) \/
  (blocked p = false /\ p_state p <> BLOCKED /\ p_state p <> SLEEPING).
Proof.
  unfold blocked. destruct (bool_decide_reflect (p_state p = BLOCKED)) as [E|E]; [left; auto|].
  destruct (bool_decide_reflect (p_state p = SLEEPING)) as [E'|E']; [left; auto|right; auto].
Qed.

Lemma unblock_spec s qs c i : core s qs c -> (i < PROCESS_MAX)%nat ->
  let s' := scheduler_unblock (Some i) s in
  core s' (if blocked (proc s i) then push (p_priority (proc s i)) i qs else qs) c /\ rest_same s s' /\
  forall j, pub (proc s' j) =
    if decide (j = i) then
      if blocked (proc s i) then pub (set_wait_ticks 0 (set_state READY (proc s i))) else pub (proc s i)
    else pub (proc s j).
Proof.
  intros Hc Hi. unfold scheduler_unblock. fold (blocked (proc s i)).
  destruct (blocked_cases (proc s i)) as [[-> Hb]|[-> _]].
  - apply make_ready; try done; try (destruct Hb; congruence). intros ->.
    destruct (so_idle _ _ _ _ (co_slots _ _ _ Hc 0%nat Hi) eq_refl) as [_ [?|?]], Hb; congruence.
  - split; [done|]. split; [apply rest_refl|]. intros j. by destruct (decide (j = i)) as [->|].
Qed.

(** *** A small system: idle running, a low-priority and a normal process ready. *)
Definition boot_sys (h : heap) : sys :=
  process_init (Sys (replicate 64 zero_process) 1 None [None; None; None] [None; None; None] false 0 0 0 0x9000 h).

Definition sample (pid prio : Z) : process :=
  Process pid 0 (replicate 32 0) BLOCKED prio prio 5 0 0 None 0 (4096 * pid) (4096 * pid - 32) 0 0 0 0 0 0 0.

Definition demo_start : sys :=
  upd 2 (fun _ => sample 2 1) (upd 1 (fun _ => sample 1 2) (scheduler_start (boot_sys demo_heap))).
Definition demo_sys : sys := scheduler_unblock (Some 2%nat) (scheduler_unblock (Some 1%nat) demo_start).
Definition demo_view : queue_view := push 1 2 (push 2 1 no_queues).

Lemma no_queues_queued i : ~ queued no_queues i.
Proof. intros (q & _ & Hi). by apply elem_of_nil in Hi. Qed.

Lemma sample_slot c i pid prio : i <> 0%nat -> pid <> 0 -> level prio -> slot_ok no_queues c i (sample pid prio).
Proof.
  intros Hi Hp Hl. split; simpl; try done.
  - split; [intros []%no_queues_queued|intros [? _]; done].
  - intros q _ Hin. by apply elem_of_nil in Hin.
Qed.

Lemma boot_inv h : sched_inv (boot_sys h) no_queues 0.
Proof. apply (process_init_inv (Sys _ _ _ _ _ _ _ _ _ _ h)); reflexivity. Qed.

#[local] Opaque process_init boot_sys demo_heap.

Lemma start_core s qs c : core s qs c -> core (scheduler_start s) qs c.
Proof. intros [C1 C2 C3 C4]. split; try done. by apply (queues_same s). Qed.

Lemma demo_start_core : core demo_start no_queues 0.
Proof.
  unfold demo_start. apply core_assign; [apply core_assign| | |];
    try (unfold PROCESS_MAX; lia); try apply no_queues_queued; try by apply sample_slot.
  apply start_core, boot_inv.
Qed.

Lemma demo_sched_inv : sched_inv demo_sys demo_view 0.
Proof.
  destruct (unblock_spec demo_start no_queues 0 1 demo_start_core) as (C1 & _); [unfold PROCESS_MAX; lia|].
  assert (blocked (proc demo_start 1) = true /\ p_priority (proc demo_start 1) = 2) as [E1 E2] by (vm_compute; auto).
  rewrite E1, E2 in C1. set (s1 := scheduler_unblock (Some 1%nat) demo_start) in *.
  destruct (unblock_spec s1 _ _ 2 C1) as (C2 & _); [unfold PROCESS_MAX; lia|].
  assert (blocked (proc s1 2) = true /\ p_priority (proc s1 2) = 1) as [E3 E4] by (vm_compute; auto).
  rewrite E3, E4 in C2. split; [exact C2|]. vm_compute. reflexivity.
Qed.

Lemma count_walk_spec s l : forall fuel n, linked_to s l None -> (length l <= fuel)%nat ->
  0 <= n -> n + Z.of_nat (length l) < 2 ^ 32 ->
  count_walk fuel (list.head l) s n = Some (n + Z.of_nat (length l)).
Proof.
  induction l as [|x l IH]; intros fuel n Hl Hf H0 Hn; simpl in *.
  - destruct fuel; simpl; f_equal; lia.
  - destruct fuel as [|fuel]; [lia|]. cbn [count_walk]. destruct Hl as [-> Hl]. rewrite <- head_first.
    rewrite u32_small by wsolve. rewrite IH; [f_equal; lia|done|lia..].
Qed.

Lemma demo_quantum : 0 <= p_quantum_left (proc demo_sys 0) <= SCHED_QUANTUM_TICKS /\ started demo_sys = true.
Proof. vm_compute. repeat split; discriminate. Qed.

(** ** Properties *)

(** C20. The linked ready queues implement three FIFO lists: [scheduler_enqueue] appends
    at the queue of the (clamped) priority and resets the wait counter,
    [scheduler_dequeue] ends and removes the process from the list that holds it and
    nothing else, and [pick_next] takes the head of the first non-empty list. No
    operation changes another field of a control block or another variable. *)
Theorem ready_queues_refine s qs i : queues s qs -> (i < PROCESS_MAX)%nat ->
  (p_pid (proc s i) <> 0 -> ~ queued qs i -> 0 <= p_priority (proc s i) ->
     let s' := scheduler_enqueue (Some i) s in
     queues s' (push (clamp_level (p_priority (proc s i))) i qs) /\ rest_same s s' /\
     forall j, pub (proc s' j) =
       if decide (j = i) then pub (set_wait_ticks 0 (proc s i)) else pub (proc s j)) /\
  (exists s', scheduler_dequeue (Some i) s = Some s' /\ queues s' (unqueue i qs) /\ rest_same s s' /\
     (forall j, pub (proc s' j) = pub (proc s j)) /\ (~ queued qs i -> s' = s)) /\
  match top_level qs with
  | None => pick_next s = (None, s)
  | Some q => exists n l s', level q /\ qs q = n :: l /\ pick_next s = (Some n, s') /\
      queues s' (unqueue n qs) /\ rest_same s s' /\ forall j, pub (proc s' j) = pub (proc s j)
  end.
Proof.
  intros Hq Hi. split; [|split; [by apply dequeue_spec|by apply pick_spec]].
  intros Hp Hn Hl. by apply enqueue_spec.
Qed.

Lemma ready_queues_refine_witness :
  queues demo_sys demo_view /\
  match top_level demo_view with
  | None => pick_next demo_sys = (None, demo_sys)
  | Some q => exists n l s', level q /\ demo_view q = n :: l /\ pick_next demo_sys = (Some n, s') /\
      queues s' (unqueue n demo_view) /\ rest_same demo_sys s' /\
      forall j, pub (proc s' j) = pub (proc demo_sys j)
  end.
Proof.
  pose proof (co_queues _ _ _ (proj1 demo_sched_inv)) as Hq. split; [exact Hq|].
  apply (ready_queues_refine demo_sys demo_view 3 Hq). unfold PROCESS_MAX. lia.
Defined.

(** C4. [schedule], called while the current process runs, blocks or has exited: the
    head of the highest-priority non-empty queue becomes the running process, a process
    that was still running goes to the back of the queue of its base priority, with
    empty queues the current process goes on or idle takes over; the result satisfies
    the scheduler invariant again (the queues hold exactly the READY processes, each at
    its priority, and only the current process is RUNNING). The new process has a full
    quantum, and on a change of process the TSS and the stack pointer are its own. *)
Theorem schedule_correct s qs c : core s qs c -> started s = true ->
  p_state (proc s c) <> READY -> p_state (proc s c) <> UNUSED ->
  let '(qs', n) := schedule_view qs c (proc s c) in
  sched_inv (schedule s) qs' n /\
  p_quantum_left (proc (schedule s) n) = SCHED_QUANTUM_TICKS /\
  (n <> c -> tss_esp0 (schedule s) = p_kstack_top (proc s n) /\
             cpu_esp (schedule s) = u32 (p_esp (proc s n) + 24) /\
             exists v, pub (proc (schedule s) c) = pub (set_esp v (requeued c (proc s c)))) /\
  (forall j, (j < PROCESS_MAX)%nat -> p_state (proc s j) = READY -> j <> n ->
     pub (proc (schedule s) j) = pub (proc s j)).
Proof.
  intros Hc Hs H1 H2. destruct (schedule_spec s qs c Hc Hs H1 H2) as [D1 D2 D3 D4 D5 D6 D7 D8].
  destruct (schedule_view qs c (proc s c)) as [qs' n]. split; [exact D1|]. split; [exact D5|].
  split; [|exact D6]. intros Hn. destruct (D7 Hn) as [? ?]. split; [done|]. split; [done|]. by apply D8.
Qed.

Lemma schedule_correct_witness :
  let '(qs', n) := schedule_view demo_view 0 (proc demo_sys 0) in
  sched_inv (schedule demo_sys) qs' n /\ n = 2%nat /\ p_quantum_left (proc (schedule demo_sys) n) = 5.
Proof.
  pose proof (schedule_correct demo_sys demo_view 0 (proj1 demo_sched_inv) (proj2 demo_quantum)) as H.
  rewrite (proj2 demo_sched_inv) in H. specialize (H ltac:(discriminate) ltac:(discriminate)).
  assert (snd (schedule_view demo_view 0 (proc demo_sys 0)) = 2%nat) as E by (vm_compute; reflexivity).
  destruct (schedule_view demo_view 0 (proc demo_sys 0)) as [qs' n]. simpl in E.
  split; [apply H|]. split; [exact E|apply H].
Defined.



(** C5. No starvation: a process waiting in a ready queue is running after at most 722
    timer interrupts (7.22 s at 100 Hz), whatever the other processes and their
    priorities are, as long as none of them makes a system call in between. *)
Theorem no_starvation s qs c j : sched_inv s qs c -> started s = true ->
  0 <= p_quantum_left (proc s c) <= SCHED_QUANTUM_TICKS -> queued qs j ->
  exists n s' qs', (n <= 722)%nat /\ timer_ticks_n n s = Some s' /\ sched_inv s' qs' j.
Proof.
  intros Hinv Hs Hq Hj. apply (waits_run 722 s qs c j Hinv Hs Hq). apply queued_waits; [done|lia|done].
Qed.

Lemma no_starvation_witness :
  queued demo_view 1 /\
  exists n s' qs', (n <= 722)%nat /\ timer_ticks_n n demo_sys = Some s' /\ sched_inv s' qs' 1.
Proof.
  assert (queued demo_view 1) as Hq
    by (exists 2; split; [done|apply list_elem_of_In; vm_compute; left; reflexivity]).
  split; [exact Hq|].
  exact (no_starvation demo_sys demo_view 0 1 demo_sched_inv (proj2 demo_quantum) (proj1 demo_quantum) Hq).
Defined.

Lemma get_stats_spec s qs : queues s qs ->
  scheduler_get_stats s =
  (context_switches s, timer_ticks s, [Some (Z.of_nat (length (qs 0))); Some (Z.of_nat (length (qs 1)));
                                       Some (Z.of_nat (length (qs 2)))]).
Proof.
  intros Hq. unfold scheduler_get_stats, levels. cbn [fmap list_fmap].
  assert (forall q, level q -> count_walk PROCESS_MAX (head_of q s) s 0 = Some (Z.of_nat (length (qs q)))) as H.
  { intros q Hl. rewrite (qu_head _ _ Hq q Hl). pose proof (queue_short s qs q Hq Hl) as Hs.
    rewrite (count_walk_spec s (qs q) PROCESS_MAX 0); [done|by apply (qu_link _ _ Hq)|done|lia|].
    unfold PROCESS_MAX in Hs. lia. }
  by rewrite !H by done.
Qed.
(** [scheduler_get_stats] ends on every well-formed set of queues and reports the
    length of each. *)
Theorem scheduler_get_stats_correct s qs : queues s qs ->
  scheduler_get_stats s =
  (context_switches s, timer_ticks s, [Some (Z.of_nat (length (qs 0))); Some (Z.of_nat (length (qs 1)));
                                       Some (Z.of_nat (length (qs 2)))]).
Proof. apply get_stats_spec. Qed.

Lemma scheduler_get_stats_correct_witness : scheduler_get_stats demo_sys = (0, 0, [Some 0; Some 1; Some 1]).
Proof. rewrite (scheduler_get_stats_correct demo_sys demo_view (co_queues _ _ _ (proj1 demo_sched_inv))). reflexivity. Defined.
