(* ===== verification/Process.v ===== *)
(** * Process lifecycle (process/process.c)

    Creation of kernel threads and user processes, exit, kill, wait and sleep, on the
    tables of [Proc] and the scheduler of [Sched]. The addresses of the two functions
    whose code pointers are written to stacks are section variables. Every operation
    that allocates or walks a list returns [None] only when the fuel of the list walk
    it contains runs out; the theorems show it does not. *)
From stdpp Require Import strings.
From S2P Require Import Prelude Mem Heap Proc Sched.

Definition default_eflags : Z := 0x202.

(** [*(--sp) = v]. *)
Definition push_word (v : Z) (x : Z * heap) : Z * heap :=
  let sp := u32 (fst x - 4) in (sp, with_mem (snd x) (st (h_mem (snd x)) sp v)).

Section Lifecycle.
Variables (process_thread_exit user_process_trampoline : Z).

(** The initial frame of a kernel thread, from the top of its stack downward. *)
Definition build_frame (entry arg top : Z) (h : heap) : Z * heap :=
  let x := (top, h) in
  let x := push_word arg x in
  let x := push_word process_thread_exit x in
  let x := push_word entry x in
  let x := push_word default_eflags x in
  let x := push_word 0 x in
  let x := push_word 0 x in
  let x := push_word 0 x in
  push_word 0 x.

Definition process_create (name : option (list Z)) (entry arg priority : Z) (s : sys)
  : option (option nat * sys) :=
  if (entry =? 0) || (PRIORITY_LEVELS <=? priority) then Some (None, s)
  else
    match kmalloc PROCESS_KSTACK_SIZE (kheap s) with
    | None => None
    | Some (stack, h) =>
        let s := with_kheap h s in
        if stack =? 0 then Some (None, s)
        else
          match alloc_pcb s with
          | None => Some (None, with_kheap (kfree stack (kheap s)) s)
          | Some (p, s) =>
              let s := upd p (copy_name name) s in
              let s := upd p (set_ppid (match current_process s with
                                        | Some c => p_pid (proc s c)
                                        | None => 0
                                        end)) s in
              let s := upd p (set_priority priority) s in
              let s := upd p (set_base_priority priority) s in
              let s := upd p (set_quantum_left SCHED_QUANTUM_TICKS) s in
              let s := upd p (set_kstack stack) s in
              let s := upd p (set_kstack_top (u32 (stack + PROCESS_KSTACK_SIZE))) s in
              let s := upd p (set_is_user 0) s in
              let '(sp, h) := build_frame entry arg (p_kstack_top (proc s p)) (kheap s) in
              let s := with_kheap h s in
              let s := upd p (set_esp sp) s in
              let s := upd p (set_state READY) s in
              Some (Some p, scheduler_enqueue (Some p) s)
          end
    end.

Definition process_create_user (name : option (list Z)) (entry priority : Z) (s : sys)
  : option (option nat * sys) :=
  match kmalloc PROCESS_USTACK_SIZE (kheap s) with
  | None => None
  | Some (ustack, h) =>
      let s := with_kheap h s in
      if ustack =? 0 then Some (None, s)
      else
        match process_create name user_process_trampoline 0 priority s with
        | None => None
        | Some (None, s) => Some (None, with_kheap (kfree ustack (kheap s)) s)
        | Some (Some p, s) =>
            let s := upd p (set_is_user 1) s in
            let s := upd p (set_ustack ustack) s in
            let s := upd p (set_ustack_top
                       (u32 (Z.land (u32 (ustack + PROCESS_USTACK_SIZE)) (Z.lnot 0xF) - 16))) s in
            Some (Some p, upd p (set_user_entry entry) s)
        end
  end.

(** Arguments of [enter_user_mode] in [user_process_trampoline]. *)
Definition trampoline_args (s : sys) : option (Z * Z) :=
  match current_process s with
  | Some c => Some (p_user_entry (proc s c), p_ustack_top (proc s c))
  | None => None
  end.
End Lifecycle.

(** [if (p->ustack) { kfree(p->ustack); p->ustack = 0; }] *)
Definition free_ustack (i : nat) (s : sys) : sys :=
  if negb (p_ustack (proc s i) =? 0)
  then upd i (set_ustack 0) (with_kheap (kfree (p_ustack (proc s i)) (kheap s)) s) else s.

(** Waking a parent that is blocked in [process_wait]. *)
Definition wake_parent (i : nat) (s : sys) : sys :=
  match process_by_pid (p_ppid (proc s i)) s with
  | None => s
  | Some parent =>
      if negb (p_parent_waiting (proc s parent) =? 0) && bool_decide (p_state (proc s parent) = BLOCKED)
      then scheduler_unblock (Some parent) s else s
  end.

Definition process_exit (code : Z) (s : sys) : sys :=
  match current_process s with
  | None => s
  | Some self =>
      let s := upd self (set_exit_code code) s in
      let s := upd self (set_state ZOMBIE) s in
      let s := free_ustack self s in
      let s := wake_parent self s in
      schedule s
  end.

(** [process_thread_exit] *)
Definition thread_exit (s : sys) : sys := process_exit 0 s.

(** The return value, or [None] when the call does not return to its caller. *)
Definition process_kill (pid : Z) (s : sys) : option (option Z * sys) :=
  if pid =? 0 then Some (Some (-1), s)
  else
    match process_by_pid pid s with
    | None => Some (Some (-1), s)
    | Some p =>
        if bool_decide (p_state (proc s p) = UNUSED) || bool_decide (p_state (proc s p) = ZOMBIE)
        then Some (Some (-1), s)
        else if bool_decide (Some p = current_process s) then Some (None, process_exit (-1) s)
        else
          match scheduler_dequeue (Some p) s with
          | None => None
          | Some s =>
              let s := upd p (set_exit_code (-1)) s in
              let s := upd p (set_state ZOMBIE) s in
              let s := free_ustack p s in
              Some (Some 0, wake_parent p s)
          end
    end.

(** The scan of [process_wait] over the slots still to visit: the first zombie child,
    and whether any child was met. *)
Fixpoint wait_scan (todo : list nat) (c : nat) (have_children : bool) (s : sys) : bool * option nat :=
  match todo with
  | [] => (have_children, None)
  | i :: todo =>
      if bool_decide (p_state (proc s i) = UNUSED) then wait_scan todo c have_children s
      else if negb (p_ppid (proc s i) =? p_pid (proc s c)) || bool_decide (i = c)
      then wait_scan todo c have_children s
      else if bool_decide (p_state (proc s i) = ZOMBIE) then (true, Some i)
      else wait_scan todo c true s
  end.

(** One iteration of the loop in [process_wait]: it returns the pid and exit code of the
    child it reaps, returns -1, or blocks the caller. *)
Inductive wait_result :=
| WaitReaped (pid status : Z)
| WaitNoChildren
| WaitBlocked.

Definition process_wait (s : sys) : wait_result * sys :=
  match current_process s with
  | None => (WaitNoChildren, s)
  | Some c =>
      match wait_scan slots c false s with
      | (_, Some i) => (WaitReaped (s32 (p_pid (proc s i))) (p_exit_code (proc s i)), process_release (Some i) s)
      | (false, None) => (WaitNoChildren, s)
      | (true, None) =>
          let s := upd c (set_parent_waiting 1) s in
          let s := upd c (set_state BLOCKED) s in
          (WaitBlocked, scheduler_block_current s)
      end
  end.

(** What the caller does when it runs again, before the next iteration. *)
Definition process_wait_resume (s : sys) : sys :=
  match current_process s with None => s | Some c => upd c (set_parent_waiting 0) s end.

Definition process_sleep (ms : Z) (s : sys) : sys :=
  if ms =? 0 then scheduler_yield s
  else
    match current_process s with
    | None => s
    | Some c =>
        let ticks := u32 (ms + 9) / 10 in
        let s := upd c (set_sleep_until (u64 (timer_ticks s + ticks))) s in
        let s := upd c (set_state SLEEPING) s in
        scheduler_block_current s
    end.

Definition process_state_name (st : process_state) : string :=
  match st with
  | PROCESS_STATE_UNUSED => "unused"
  | PROCESS_STATE_READY => "ready"
  | PROCESS_STATE_RUNNING => "running"
  | PROCESS_STATE_BLOCKED => "blocked"
  | PROCESS_STATE_SLEEPING => "sleeping"
  | PROCESS_STATE_ZOMBIE => "zombie"
  end%string.

(** ** Ownership of the stacks

    [live] are the heap allocations in use, [other] those of the rest of the kernel.
    Every stack pointer of a control block is an allocation of its own; there is no
    allocation beyond these and [other]. *)

Definition STACK_SIZE : Z := 16384.

(** The kernel stack ([true]) or user stack ([false]) of a slot. *)
Definition stack_at (s : sys) (x : nat * bool) : Z :=
  if snd x then p_kstack (proc s (fst x)) else p_ustack (proc s (fst x)).

Record owned (other : gmap Z Z) (s : sys) (live : gmap Z Z) : Prop := {
  ow_live : forall x, (fst x < PROCESS_MAX)%nat -> stack_at s x <> 0 ->
    live !! stack_at s x = Some STACK_SIZE /\ other !! stack_at s x = None;
  ow_inj : forall x y, (fst x < PROCESS_MAX)%nat -> (fst y < PROCESS_MAX)%nat ->
    stack_at s x = stack_at s y -> stack_at s x <> 0 -> x = y;
  ow_all : forall p k, live !! p = Some k -> other !! p = Some k \/
    exists x, (fst x < PROCESS_MAX)%nat /\ stack_at s x = p;
  ow_other : other ⊆ live;
  ow_unused : forall i, (i < PROCESS_MAX)%nat -> p_state (proc s i) = UNUSED ->
    p_kstack (proc s i) = 0 /\ p_ustack (proc s i) = 0
}.

Definition stacks_ok (base size : Z) (other : gmap Z Z) (s : sys) : Prop :=
  exists live l, heap_inv base size (kheap s) live l /\ owned other s live.

(** Process identifiers are below the counter and not shared. *)
Record pids_ok (s : sys) : Prop := {
  pi_bound : forall i, (i < PROCESS_MAX)%nat -> p_state (proc s i) <> UNUSED -> 0 <= p_pid (proc s i) < next_pid s;
  pi_inj : forall i j, (i < PROCESS_MAX)%nat -> (j < PROCESS_MAX)%nat ->
    p_state (proc s i) <> UNUSED -> p_state (proc s j) <> UNUSED -> p_pid (proc s i) = p_pid (proc s j) -> i = j
}.

(** *** Frames *)

Lemma stack_at_same s s' x : stacks_same s s' -> stack_at s' x = stack_at s x.
Proof. intros H. unfold stack_at. by rewrite (ss_kstack _ _ H), (ss_ustack _ _ H). Qed.

Lemma owned_same other s s' live : stacks_same s s' -> owned other s live -> owned other s' live.
Proof.
  intros Hs [H1 H2 H3 H4 H5]. split; try done.
  - intros x Hx. rewrite (stack_at_same s) by done. auto.
  - intros x y Hx Hy. rewrite !(stack_at_same s s') by done. auto.
  - intros p k Hp. destruct (H3 p k Hp) as [?|(x & Hx & E)]; [by left|right]. exists x. by rewrite (stack_at_same s).
  - intros i Hi. rewrite (ss_unused _ _ Hs), (ss_kstack _ _ Hs), (ss_ustack _ _ Hs). auto.
Qed.

Lemma stacks_ok_same base size other s s' : stacks_same s s' -> stacks_ok base size other s -> stacks_ok base size other s'.
Proof.
  intros Hs (live & l & Hh & Ho). exists live, l. rewrite (ss_heap _ _ Hs). split; [done|]. by apply (owned_same _ s).
Qed.

Lemma pids_ext s s' : (forall j, p_pid (proc s' j) = p_pid (proc s j)) -> next_pid s' = next_pid s ->
  (forall j, p_state (proc s j) = UNUSED -> p_state (proc s' j) = UNUSED) -> pids_ok s -> pids_ok s'.
Proof.
  intros Hp Hn Hu [H1 H2]. split; intros i.
  - intros Hi Hs. rewrite Hp, Hn. apply H1; auto.
  - intros j Hi Hj Hsi Hsj. rewrite !Hp. apply H2; auto.
Qed.
Lemma pids_same s s' : stacks_same s s' -> pids_ok s -> pids_ok s'.
Proof.
  intros Hs. apply pids_ext; [apply (ss_pid _ _ Hs)|apply (ss_next_pid _ _ Hs)|]. intros j. by rewrite (ss_unused _ _ Hs).
Qed.

(** *** Freeing the stack of a slot *)

Section FreeStack.
Variables (base size : Z) (other : gmap Z Z) (s s' : sys) (x : nat * bool).
Hypotheses (Hx : (fst x < PROCESS_MAX)%nat) (Hnz : stack_at s x <> 0)
  (Hself : stack_at s' x = 0) (Hrest : forall y, y <> x -> stack_at s' y = stack_at s y)
  (Hun : forall i, (i < PROCESS_MAX)%nat -> p_state (proc s' i) = UNUSED -> p_state (proc s i) = UNUSED)
  (Hheap : kheap s' = kfree (stack_at s x) (kheap s)).

Lemma free_stack_ok : stacks_ok base size other s -> stacks_ok base size other s'.
Proof.
  intros (live & l & Hh & [H1 H2 H3 H4 H5]). destruct (H1 x Hx Hnz) as [Hl Hno].
  destruct (free_inv _ _ _ _ _ _ _ Hh Hl) as (l' & Hh'). exists (delete (stack_at s x) live), l'.
  split; [by rewrite Hheap|]. split.
  - intros y Hy Hny. destruct (decide (y = x)) as [->|Hne]; [done|]. rewrite Hrest in * by done.
    rewrite lookup_delete_ne; [auto|]. intros E. apply Hne. by apply H2.
  - intros y z Hy Hz. destruct (decide (y = x)) as [->|Hyx]; [done|].
    destruct (decide (z = x)) as [->|Hzx]; [rewrite Hself; done|]. rewrite !Hrest by done. auto.
  - intros p k Hp. apply lookup_delete_Some in Hp as [Hne Hp]. destruct (H3 p k Hp) as [?|(y & Hy & E)]; [by left|right].
    exists y. split; [done|]. rewrite Hrest; [done|]. intros ->. done.
  - apply map_subseteq_spec. intros p k Hp. rewrite lookup_delete_ne by congruence. by apply (lookup_weaken other).
  - intros i Hi Hu. destruct (H5 i Hi (Hun i Hi Hu)) as [E1 E2].
    destruct (decide ((i, true) = x)) as [Ex|Ex]; [by rewrite <- Ex in Hnz|].
    destruct (decide ((i, false) = x)) as [Ey|Ey]; [by rewrite <- Ey in Hnz|].
    split; [exact (eq_trans (Hrest _ Ex) E1)|exact (eq_trans (Hrest _ Ey) E2)].
Qed.
End FreeStack.

(** Clearing the stack pointers of a slot and marking it free afterwards. *)
Lemma unused_ok base size other s s' i : (i < PROCESS_MAX)%nat ->
  (forall j, p_kstack (proc s' j) = p_kstack (proc s j)) -> (forall j, p_ustack (proc s' j) = p_ustack (proc s j)) ->
  (forall j, j <> i -> p_state (proc s' j) = UNUSED -> p_state (proc s j) = UNUSED) -> kheap s' = kheap s ->
  p_kstack (proc s i) = 0 -> p_ustack (proc s i) = 0 ->
  stacks_ok base size other s -> stacks_ok base size other s'.
Proof.
  intros Hi Hk Hu Hun Hh E1 E2 (live & l & HH & [H1 H2 H3 H4 H5]). exists live, l. rewrite Hh. split; [done|].
  assert (forall x, stack_at s' x = stack_at s x) as E by (intros x; unfold stack_at; by rewrite Hk, Hu).
  split; try done.
  - intros x. rewrite E. auto.
  - intros x y. rewrite !E. auto.
  - intros p k Hp. destruct (H3 p k Hp) as [?|(y & Hy & Ey)]; [by left|right]. exists y. by rewrite E.
  - intros j Hj Hs. rewrite Hk, Hu. destruct (decide (j = i)) as [->|Hne]; [done|]. auto.
Qed.

Lemma drop_stack_ok base size other s s' x : (fst x < PROCESS_MAX)%nat ->
  stack_at s' x = 0 -> (forall y, y <> x -> stack_at s' y = stack_at s y) ->
  (forall i, (i < PROCESS_MAX)%nat -> p_state (proc s' i) = UNUSED -> p_state (proc s i) = UNUSED) ->
  kheap s' = free_stack (stack_at s x) (kheap s) ->
  stacks_ok base size other s -> stacks_ok base size other s'.
Proof.
  intros Hx Hself Hrest Hun Hheap Hok. unfold free_stack in Hheap.
  destruct (Z.eqb_spec (stack_at s x) 0) as [E|E]; cbn [negb] in Hheap.
  - destruct Hok as (live & l & Hh & [H1 H2 H3 H4 H5]). exists live, l. rewrite Hheap. split; [done|].
    assert (forall y, stack_at s' y = stack_at s y) as Ey
      by (intros y; destruct (decide (y = x)) as [->|]; [congruence|by apply Hrest]).
    split; try done.
    + intros y. rewrite Ey. auto.
    + intros y z. rewrite !Ey. auto.
    + intros p k Hp. destruct (H3 p k Hp) as [?|(y & Hy & E')]; [by left|right]. exists y. by rewrite Ey.
    + intros i Hi Hu. destruct (H5 i Hi (Hun i Hi Hu)) as [E1 E2].
      split; [exact (eq_trans (Ey (i, true)) E1)|exact (eq_trans (Ey (i, false)) E2)].
  - by apply (free_stack_ok base size other s s' x).
Qed.

Lemma proc_kheap h s j : proc (with_kheap h s) j = proc s j.
Proof. done. Qed.

(** Dropping one stack of slot [i] by [upd]. *)
Lemma upd_kstack_ok base size other s i : (i < PROCESS_MAX)%nat -> length (table s) = PROCESS_MAX ->
  stacks_ok base size other s ->
  stacks_ok base size other (upd i (set_kstack 0) (with_kheap (free_stack (p_kstack (proc s i)) (kheap s)) s)).
Proof.
  intros Hi Ht Hok. set (s0 := with_kheap _ s). set (s' := upd _ _ s0).
  assert (proc s' i = set_kstack 0 (proc s i)) as P by (unfold s'; rewrite proc_upd_eq by (simpl; lia); done).
  assert (forall j, j <> i -> proc s' j = proc s j) as O by (intros j Hj; unfold s'; by rewrite proc_upd_ne by done).
  apply (drop_stack_ok base size other s s' (i, true)); try done.
  - unfold stack_at. simpl. by rewrite P.
  - intros [j b] Hne. unfold stack_at. simpl. destruct (decide (j = i)) as [->|Hj]; [|by rewrite O].
    rewrite P. destruct b; [done|reflexivity].
  - intros j Hj. destruct (decide (j = i)) as [->|Hji]; [by rewrite P|by rewrite O].
Qed.
Lemma upd_ustack_ok base size other s i : (i < PROCESS_MAX)%nat -> length (table s) = PROCESS_MAX ->
  stacks_ok base size other s ->
  stacks_ok base size other (upd i (set_ustack 0) (with_kheap (free_stack (p_ustack (proc s i)) (kheap s)) s)).
Proof.
  intros Hi Ht Hok. set (s0 := with_kheap _ s). set (s' := upd _ _ s0).
  assert (proc s' i = set_ustack 0 (proc s i)) as P by (unfold s'; rewrite proc_upd_eq by (simpl; lia); done).
  assert (forall j, j <> i -> proc s' j = proc s j) as O by (intros j Hj; unfold s'; by rewrite proc_upd_ne by done).
  apply (drop_stack_ok base size other s s' (i, false)); try done.
  - unfold stack_at. simpl. by rewrite P.
  - intros [j b] Hne. unfold stack_at. simpl. destruct (decide (j = i)) as [->|Hj]; [|by rewrite O].
    rewrite P. destruct b; [reflexivity|done].
  - intros j Hj. destruct (decide (j = i)) as [->|Hji]; [by rewrite P|by rewrite O].
Qed.

Lemma release_ok base size other s qs c i : core s qs c -> (i < PROCESS_MAX)%nat -> i <> c ->
  stacks_ok base size other s -> stacks_ok base size other (process_release (Some i) s).
Proof.
  intros Hc Hi Hne Hok. pose proof (qu_table _ _ (co_queues _ _ _ Hc)) as Ht.
  destruct (release_spec i s) as [R1 R2 R3 R4 R5 R6 R7]; [lia|rewrite (co_current _ _ _ Hc); congruence|].
  pose proof (upd_kstack_ok base size other s i Hi Ht Hok) as H1. set (s1 := upd i (set_kstack 0) _) in H1.
  assert (length (table s1) = PROCESS_MAX) as T1 by (unfold s1; by rewrite table_upd).
  assert (proc s1 i = set_kstack 0 (proc s i)) as P1 by (unfold s1; rewrite proc_upd_eq by (simpl; lia); done).
  pose proof (upd_ustack_ok base size other s1 i Hi T1 H1) as H2. set (s2 := upd i (set_ustack 0) _) in H2.
  assert (proc s2 i = set_ustack 0 (set_kstack 0 (proc s i))) as P2
    by (unfold s2; rewrite proc_upd_eq by (rewrite <- T1 in Hi; exact Hi); by rewrite <- P1).
  assert (forall j, j <> i -> proc s2 j = proc s j) as O2
    by (intros j Hj; unfold s2; rewrite proc_upd_ne, proc_kheap by done; unfold s1; by rewrite proc_upd_ne by done).
  apply (unused_ok base size other s2 _ i Hi); try done.
  - intros j. destruct (decide (j = i)) as [->|Hj]; [by rewrite R4, P2|by rewrite R5, O2].
  - intros j. destruct (decide (j = i)) as [->|Hj]; [by rewrite R4, P2|by rewrite R5, O2].
  - intros j Hj. by rewrite R5, O2.
  - rewrite R6. change (kheap s2) with (free_stack (p_ustack (proc s1 i)) (kheap s1)). by rewrite P1.
  - by rewrite P2.
  - by rewrite P2.
Qed.

Lemma release_pids s qs c i : core s qs c -> (i < PROCESS_MAX)%nat -> i <> c ->
  pids_ok s -> pids_ok (process_release (Some i) s).
Proof.
  intros Hc Hi Hne [H1 H2]. pose proof (qu_table _ _ (co_queues _ _ _ Hc)) as Ht.
  destruct (release_spec i s) as [R1 R2 R3 R4 R5 R6 R7]; [lia|rewrite (co_current _ _ _ Hc); congruence|].
  assert (forall j, p_state (proc (process_release (Some i) s) j) <> UNUSED -> j <> i) as Hu
    by (intros j Hj ->; by rewrite R4 in Hj).
  split.
  - intros j Hj Hs. pose proof (Hu j Hs). rewrite R5 in * by done. rewrite (re_pid _ _ R7). by apply H1.
  - intros j k Hj Hk Hsj Hsk. pose proof (Hu j Hsj). pose proof (Hu k Hsk). rewrite !R5 in * by done. by apply H2.
Qed.

Lemma reap_ok base size other s qs c : core s qs c -> stacks_ok base size other s /\ pids_ok s ->
  stacks_ok base size other (reap_orphans s) /\ pids_ok (reap_orphans s).
Proof.
  intros Hc H. apply (reap_ind (fun s => stacks_ok base size other s /\ pids_ok s) s qs c Hc H).
  intros s1 i C1 [Hs Hp] Hi Hne _. split; [by apply (release_ok _ _ _ _ qs c)|by apply (release_pids _ qs c)].
Qed.

(** ** The invariant between operations *)

Record proc_inv (base size : Z) (other : gmap Z Z) (s : sys) (qs : queue_view) (c : nat) : Prop := {
  pv_sched : sched_inv s qs c;
  pv_started : started s = true;
  pv_quantum : 0 <= p_quantum_left (proc s c) <= SCHED_QUANTUM_TICKS;
  pv_stacks : stacks_ok base size other s;
  pv_pids : pids_ok s
}.

(** Ending an operation with [schedule]. *)
Lemma schedule_inv base size other s qs c : core s qs c -> started s = true ->
  p_state (proc s c) <> READY -> p_state (proc s c) <> UNUSED ->
  stacks_ok base size other s -> pids_ok s ->
  proc_inv base size other (schedule s) (fst (schedule_view qs c (proc s c))) (snd (schedule_view qs c (proc s c))).
Proof.
  intros Hc Hs H1 H2 Hst Hp. destruct (schedule_spec s qs c Hc Hs H1 H2) as [D1 D2 D3 D4 D5 D6 D7 D8].
  destruct (reap_ok base size other s qs c Hc (conj Hst Hp)) as [Hst' Hp']. split; try done.
  - rewrite D5. unfold SCHED_QUANTUM_TICKS. lia.
  - by apply (stacks_ok_same _ _ _ (reap_orphans s)).
  - by apply (pids_same (reap_orphans s)).
Qed.

Lemma tick_inv base size other s qs c : proc_inv base size other s qs c ->
  exists s' qs' c', timer_handler s = Some s' /\ proc_inv base size other s' qs' c'.
Proof.
  intros [Hi Hs Hq Hst Hp].
  destruct (timer_ticked s qs c Hi Hs Hq) as (s0 & s1 & qs1 & s' & E & E0 & Hi0 & T).
  exists s', (fst (tick_view s1 qs1 c)), (snd (tick_view s1 qs1 c)). split; [done|].
  assert (stacks_same s s0) as Hss by (subst s0; by split).
  destruct (tk_stacks _ _ _ _ _ _ T) as (s3 & qs3 & S3 & C3 & Hcase).
  assert (stacks_ok base size other s3 /\ pids_ok s3) as Hok3.
  { pose proof (stacks_trans _ _ _ Hss S3) as S. split; [by apply (stacks_ok_same _ _ _ s)|by apply (pids_same s)]. }
  assert (stacks_ok base size other s' /\ pids_ok s') as [Hok' Hp'].
  { destruct Hcase as [->|S']; [done|]. destruct (reap_ok base size other s3 qs3 c C3 Hok3) as [Ha Hb].
    split; [by apply (stacks_ok_same _ _ _ (reap_orphans s3))|by apply (pids_same (reap_orphans s3))]. }
  split; try done; [apply (tk_inv _ _ _ _ _ _ T)|apply (tk_started _ _ _ _ _ _ T)|].
  assert (proc s0 c = proc s c) as Ec by (by subst s0). rewrite <- Ec in Hq.
  pose proof (ticked_quantum s0 qs c s1 qs1 s' Hi0 Hq T). lia.
Qed.

(** ** Creating a thread *)

Lemma alloc_pcb_spec s : length (table s) = PROCESS_MAX ->
  match alloc_pcb s with
  | None => forall i, (i < PROCESS_MAX)%nat -> p_state (proc s i) <> UNUSED
  | Some (i, s') =>
      (i < PROCESS_MAX)%nat /\ p_state (proc s i) = UNUSED /\ proc s' i = set_pid (next_pid s) zero_process /\
      (forall j, j <> i -> proc s' j = proc s j) /\ length (table s') = PROCESS_MAX /\
      queue_head s' = queue_head s /\ queue_tail s' = queue_tail s /\
      rest_same (with_next_pid (u32 (next_pid s + 1)) s) s'
  end.
Proof.
  intros Ht. unfold alloc_pcb. destruct (List.find _ slots) as [i|] eqn:E.
  - apply find_slot in E as [Hu Hi]. unfold is_unused in Hu. apply bool_decide_eq_true_1 in Hu.
    fold PROCESS_MAX in Hi. split; [done|]. split; [done|].
    set (s1 := upd i (fun _ => zero_process) s). set (s2 := upd i _ s1).
    change (proc (with_next_pid ?v s2)) with (proc s2). split_and!; try done.
    + unfold s2. rewrite proc_upd_eq by (unfold s1; rewrite table_upd; lia). unfold s1. by rewrite proc_upd_eq by lia.
    + intros j Hj. unfold s2, s1. by rewrite !proc_upd_ne by done.
    + change (table (with_next_pid _ s2)) with (table s2). unfold s2, s1. by rewrite !table_upd.
  - intros i Hi Hu. pose proof (find_slot_none _ E i ltac:(unfold PROCESS_MAX in Hi; lia)) as H.
    unfold is_unused in H. by apply bool_decide_eq_false_1 in H.
Qed.

(** Pushing words on a stack that lies in an allocation. *)
Lemma push_words_spec base size live l stack k : forall vs sp h,
  heap_inv base size h live l -> live !! stack = Some k ->
  stack + 4 * Z.of_nat (length vs) <= sp <= stack + k ->
  exists h', foldl (fun x v => push_word v x) (sp, h) vs = (sp - 4 * Z.of_nat (length vs), h') /\
    heap_inv base size h' live l /\
    (forall n v, vs !! n = Some v -> ld (h_mem h') (sp - 4 * (Z.of_nat n + 1)) = v) /\
    (forall x, x < sp - 4 * Z.of_nat (length vs) \/ sp <= x -> ld (h_mem h') x = ld (h_mem h) x).
Proof.
  induction vs as [|v vs IH]; intros sp h Hh Hl Hsp; cbn [foldl].
  - exists h. split; [simpl; f_equal; lia|]. by split_and!.
  - pose proof (live_range _ _ _ _ _ _ _ Hh Hl) as (_ & Hb & He & _).
    pose proof (hr_base _ _ (hi_rep _ _ _ _ _ Hh)) as Hb0. pose proof (hr_bound _ _ (hi_rep _ _ _ _ _ Hh)) as Hbd.
    rewrite (hi_base _ _ _ _ _ Hh) in Hb0, Hbd. rewrite (hi_size _ _ _ _ _ Hh) in Hbd. simpl length in Hsp.
    unfold push_word at 2. cbn [fst snd]. rewrite u32_small by wsolve.
    set (h1 := with_mem h (st (h_mem h) (sp - 4) v)).
    assert (heap_inv base size h1 live l) as Hh1 by (apply (store_inv _ _ _ _ _ stack k); [done|done|lia]).
    destruct (IH (sp - 4) h1 Hh1 Hl ltac:(lia)) as (h' & E & Hh' & Hw & Ho). exists h'.
    rewrite E. simpl length. split; [f_equal; lia|]. split; [done|]. split.
    + intros [|n] w Hn.
      * injection Hn as ->. rewrite Ho by lia. simpl. replace (sp - 4 * (0 + 1)) with (sp - 4) by lia. apply ld_st_eq.
      * simpl in Hn. rewrite <- (Hw n w Hn). f_equal. lia.
    + intros x Hx. rewrite Ho by lia. simpl. apply ld_st_ne. lia.
Qed.

(** The words of a new thread's stack, from the top downward. *)
Definition frame_words (thread_exit entry arg : Z) : list Z :=
  [arg; thread_exit; entry; default_eflags; 0; 0; 0; 0].

Lemma build_frame_words te entry arg top h :
  build_frame te entry arg top h = foldl (fun x v => push_word v x) (top, h) (frame_words te entry arg).
Proof. reflexivity. Qed.

(** The control block of a new kernel thread. *)
Definition new_thread (name : list Z) (pid ppid prio stack : Z) : process :=
  Process pid ppid name READY prio prio SCHED_QUANTUM_TICKS 0 0 None stack (stack + STACK_SIZE)
    (stack + STACK_SIZE - 32) 0 0 0 0 0 0 0.

Definition thread_name (name : option (list Z)) : list Z := p_name (copy_name name zero_process).

Section Allocate.
Variables (base size : Z) (other : gmap Z Z).

(** A fresh stack belongs to nobody yet. *)
Lemma malloc_stack_ok s : stacks_ok base size other s ->
  exists p h, kmalloc STACK_SIZE (kheap s) = Some (p, h) /\
    (p = 0 -> stacks_ok base size other (with_kheap h s)) /\
    (p <> 0 -> stacks_ok base size (<[p := STACK_SIZE]> other) (with_kheap h s) /\ other !! p = None).
Proof.
  intros (live & l & Hh & [H1 H2 H3 H4 H5]).
  destruct (malloc_frame _ _ _ _ _ STACK_SIZE Hh) as (p & h & E & Hfresh & _); [unfold STACK_SIZE; lia..|].
  exists p, h. split; [done|].
  destruct (malloc_inv _ _ _ _ _ STACK_SIZE p h Hh ltac:(done) ltac:(done) E) as (l' & Hh').
  split.
  - intros ->. exists live, l'. split; [exact Hh'|]. by split.
  - intros Hp. pose proof (Hfresh Hp) as Hf. rewrite (proj2 (Z.eqb_neq p 0) Hp) in Hh'.
    assert (other !! p = None) as Hno.
    { destruct (other !! p) as [k|] eqn:Ek; [|done]. rewrite (lookup_weaken _ _ _ _ Ek H4) in Hf. done. }
    split; [|done]. exists (<[p := STACK_SIZE]> live), l'. split; [exact Hh'|]. split.
    + intros x Hx Hnz. destruct (H1 x Hx Hnz) as [Ha Hb]. assert (p <> stack_at s x) by congruence.
      by rewrite !lookup_insert_ne.
    + intros x y. apply (H2 x y).
    + intros q k [[-> ->]|[Hne Hq]]%lookup_insert_Some; [left; by rewrite lookup_insert_eq|].
      rewrite lookup_insert_ne by done. by apply H3.
    + by apply insert_mono.
    + intros i. apply H5.
Qed.

(** A stack that belongs to nobody becomes the stack of a slot. *)
Lemma adopt_stack_ok s s' x u : stacks_ok base size (<[u := STACK_SIZE]> other) s -> other !! u = None -> u <> 0 ->
  (fst x < PROCESS_MAX)%nat -> stack_at s x = 0 -> stack_at s' x = u ->
  (forall y, y <> x -> stack_at s' y = stack_at s y) ->
  (forall i, (i < PROCESS_MAX)%nat -> p_state (proc s' i) = UNUSED -> p_state (proc s i) = UNUSED /\ i <> fst x) ->
  kheap s' = kheap s -> stacks_ok base size other s'.
Proof.
  intros (live & l & Hh & [H1 H2 H3 H4 H5]) Hno Hu Hx Hz Hsx Hrest Hun Hheap.
  assert (live !! u = Some STACK_SIZE) as Hlu by (apply (lookup_weaken _ _ _ _ (lookup_insert_eq _ _ _) H4)).
  assert (forall y, (fst y < PROCESS_MAX)%nat -> stack_at s y <> 0 -> stack_at s y <> u) as Hfresh.
  { intros y Hy Hny E. destruct (H1 y Hy Hny) as [_ Hn]. by rewrite E, lookup_insert_eq in Hn. }
  exists live, l. rewrite Hheap. split; [done|]. split.
  - intros y Hy. destruct (decide (y = x)) as [->|Hne]; [by rewrite Hsx|]. rewrite Hrest by done. intros Hny.
    destruct (H1 y Hy Hny) as [Ha Hb]. rewrite lookup_insert_ne in Hb; [done|]. symmetry. by apply Hfresh.
  - intros y z Hy Hz'. destruct (decide (y = x)) as [->|Hyx], (decide (z = x)) as [->|Hzx]; [done|..];
      rewrite ?Hsx, ?Hrest by done; intros E Hn; try by apply H2.
    + by destruct (Hfresh z Hz'); [congruence|].
    + by destruct (Hfresh y Hy).
  - intros p k Hp. destruct (H3 p k Hp) as [[[<- <-]|[Hne Hq]]%lookup_insert_Some|(y & Hy & E)].
    + right. by exists x.
    + by left.
    + right. exists y. split; [done|]. rewrite Hrest; [done|]. intros ->. rewrite Hz in E. subst p.
      pose proof (live_range _ _ _ _ _ _ _ Hh Hp) as (_ & _ & _ & ?). done.
  - apply map_subseteq_spec. intros p k Hp. apply (fun H => lookup_weaken _ _ _ _ H H4).
    rewrite lookup_insert_ne; [done|congruence].
  - intros i Hi Hs. destruct (Hun i Hi Hs) as [Hs' Hne]. destruct (H5 i Hi Hs') as [E1 E2].
    split; [refine (eq_trans (Hrest (i, true) _) E1)|refine (eq_trans (Hrest (i, false) _) E2)]; by intros <-.
Qed.

(** A stack that belongs to nobody is given back. *)
Lemma return_stack_ok s u : stacks_ok base size (<[u := STACK_SIZE]> other) s -> other !! u = None ->
  stacks_ok base size other (with_kheap (kfree u (kheap s)) s).
Proof.
  intros (live & l & Hh & [H1 H2 H3 H4 H5]) Hno.
  assert (live !! u = Some STACK_SIZE) as Hlu by (apply (lookup_weaken _ _ _ _ (lookup_insert_eq _ _ _) H4)).
  destruct (free_inv _ _ _ _ _ _ _ Hh Hlu) as (l' & Hh'). exists (delete u live), l'. split; [done|]. split.
  - intros y Hy Hny. destruct (H1 y Hy Hny) as [Ha Hb]. change (stack_at (with_kheap _ s) y) with (stack_at s y) in *.
    assert (u <> stack_at s y) as Hne by (intros E; by rewrite <- E, lookup_insert_eq in Hb).
    rewrite lookup_insert_ne in Hb by done. by rewrite lookup_delete_ne.
  - intros x y. apply (H2 x y).
  - intros p k [Hne Hp]%lookup_delete_Some. destruct (H3 p k Hp) as [[[-> _]|[_ Hq]]%lookup_insert_Some|(y & Hy & E)].
    + done.
    + by left.
    + right. by exists y.
  - apply map_subseteq_spec. intros p k Hp. assert (u <> p) by congruence. rewrite lookup_delete_ne by done.
    apply (fun H => lookup_weaken _ _ _ _ H H4). by rewrite lookup_insert_ne.
  - intros i. apply H5.
Qed.
End Allocate.

(** What a successful [process_create] leaves. *)
Record created (base size : Z) (other : gmap Z Z) (te : Z) (name : option (list Z)) (entry arg prio : Z)
    (s : sys) (qs : queue_view) (c i : nat) (s' : sys) : Prop := {
  cr_slot : (i < PROCESS_MAX)%nat /\ i <> c /\ p_state (proc s i) = UNUSED;
  cr_inv : proc_inv base size other s' (push prio i qs) c;
  cr_pcb : exists stack, pub (proc s' i) =
    pub (new_thread (thread_name name) (next_pid s) (p_pid (proc s c)) prio stack) /\
    forall n v, frame_words te entry arg !! n = Some v ->
      ld (h_mem (kheap s')) (stack + STACK_SIZE - 4 * (Z.of_nat n + 1)) = v;
  cr_other : forall j, j <> i -> pub (proc s' j) = pub (proc s j);
  cr_next : next_pid s' = next_pid s + 1
}.

Section Create.
Variables (base size : Z) (other : gmap Z Z) (te : Z) (name : option (list Z)) (entry arg prio : Z).
Variables (s : sys) (qs : queue_view) (c : nat).
Hypotheses (Hinv : proc_inv base size other s qs c) (Hentry : entry <> 0) (Hprio : level prio)
  (Hnext : next_pid s + 1 < 2 ^ 32).

Lemma idle_pid : p_pid (proc s 0) = 0 /\ p_state (proc s 0) <> UNUSED /\ 0 < next_pid s.
Proof.
  destruct Hinv as [[Hc Hr] _ _ _ [Hb _]]. assert ((0 < PROCESS_MAX)%nat) as H0 by (unfold PROCESS_MAX; lia).
  destruct (so_idle _ _ _ _ (co_slots _ _ _ Hc 0%nat H0) eq_refl) as [E Hst].
  assert (p_state (proc s 0) <> UNUSED) as Hu by (destruct Hst; congruence).
  split; [done|]. split; [done|]. pose proof (Hb 0%nat H0 Hu). lia.
Qed.

(** The new pid is not in use. *)
Lemma new_pids i s' : (i < PROCESS_MAX)%nat -> p_state (proc s i) = UNUSED ->
  p_pid (proc s' i) = next_pid s -> next_pid s' = next_pid s + 1 ->
  (forall j, j <> i -> p_pid (proc s' j) = p_pid (proc s j) /\ p_state (proc s' j) = p_state (proc s j)) -> pids_ok s'.
Proof.
  intros Hi Hu Hp Hn Ho. destruct (pv_pids _ _ _ _ _ _ Hinv) as [H1 H2]. pose proof idle_pid as (_ & _ & Hpos). split.
  - intros j Hj Hs. rewrite Hn. destruct (decide (j = i)) as [->|Hne]; [lia|].
    destruct (Ho j Hne) as [-> Es]. pose proof (H1 j Hj ltac:(congruence)). lia.
  - intros j k Hj Hk Hsj Hsk. destruct (decide (j = i)) as [->|Hji], (decide (k = i)) as [->|Hki]; [done|..].
    + destruct (Ho k Hki) as [-> Es]. rewrite Hp. pose proof (H1 k Hk ltac:(congruence)). lia.
    + destruct (Ho j Hji) as [-> Es]. rewrite Hp. pose proof (H1 j Hj ltac:(congruence)). lia.
    + destruct (Ho j Hji) as [-> Es], (Ho k Hki) as [-> Es']. apply H2; congruence.
Qed.

(** The state when the control block is complete, except for its state. *)
Section Filled.
Variables (stack : Z) (h : heap) (i : nat) (s2 : sys).
Hypotheses (Hnz : stack <> 0) (Hno : other !! stack = None)
  (Hst : stacks_ok base size (<[stack := STACK_SIZE]> other) (with_kheap h s))
  (Hi : (i < PROCESS_MAX)%nat) (Hun : p_state (proc s i) = UNUSED)
  (Hp2 : proc s2 i = set_pid (next_pid s) zero_process) (Ho2 : forall j, j <> i -> proc s2 j = proc s j)
  (Ht2 : length (table s2) = PROCESS_MAX) (Hh2 : queue_head s2 = queue_head s) (Hta2 : queue_tail s2 = queue_tail s)
  (Hr2 : rest_same (with_next_pid (u32 (next_pid s + 1)) (with_kheap h s)) s2).

Let s3 :=
  let s := upd i (copy_name name) s2 in
  let s := upd i (set_ppid (match current_process s with Some c => p_pid (proc s c) | None => 0 end)) s in
  let s := upd i (set_priority prio) s in
  let s := upd i (set_base_priority prio) s in
  let s := upd i (set_quantum_left SCHED_QUANTUM_TICKS) s in
  let s := upd i (set_kstack stack) s in
  let s := upd i (set_kstack_top (u32 (stack + PROCESS_KSTACK_SIZE))) s in
  upd i (set_is_user 0) s.

Lemma slot_not_current : i <> c.
Proof. intros ->. pose proof (proj2 (pv_sched _ _ _ _ _ _ Hinv)). congruence. Qed.

Lemma stack_bounds : is_u32 (stack + STACK_SIZE).
Proof.
  destruct Hst as (live & l & Hh & Ho). pose proof (ow_other _ _ _ Ho) as Hsub.
  pose proof (lookup_weaken _ _ _ _ (lookup_insert_eq other stack STACK_SIZE) Hsub) as Hl.
  pose proof (live_range _ _ _ _ _ _ _ Hh Hl) as (_ & Hb & He & _).
  pose proof (hr_base _ _ (hi_rep _ _ _ _ _ Hh)) as Hb0. pose proof (hr_bound _ _ (hi_rep _ _ _ _ _ Hh)) as Hbd.
  rewrite (hi_base _ _ _ _ _ Hh) in Hb0, Hbd. rewrite (hi_size _ _ _ _ _ Hh) in Hbd. unfold is_u32, STACK_SIZE in |- *.
  unfold STACK_SIZE in He. lia.
Qed.

Lemma filled_self : proc s3 i =
  Process (next_pid s) (p_pid (proc s c)) (thread_name name) UNUSED prio prio SCHED_QUANTUM_TICKS 0 0 None stack
    (stack + STACK_SIZE) 0 0 0 0 0 0 0 0.
Proof.
  pose proof stack_bounds as Hb. pose proof slot_not_current as Hne.
  assert (current_process s2 = Some c) as Ec
    by (rewrite (re_cur _ _ Hr2); apply (co_current _ _ _ (proj1 (pv_sched _ _ _ _ _ _ Hinv)))).
  unfold s3. change (current_process (upd i (copy_name name) s2)) with (current_process s2). rewrite Ec. cbv zeta.
  rewrite (proc_upd_ne s2 i c) by done. rewrite Ho2 by done.
  rewrite !proc_upd_eq by (rewrite ?table_upd; lia). rewrite Hp2. unfold PROCESS_KSTACK_SIZE. fold STACK_SIZE.
  rewrite u32_small by exact Hb. reflexivity.
Qed.
Lemma filled_other j : j <> i -> proc s3 j = proc s j.
Proof. intros Hj. unfold s3. cbv zeta. rewrite !proc_upd_ne by done. by apply Ho2. Qed.
Lemma filled_table : length (table s3) = PROCESS_MAX.
Proof. unfold s3. cbv zeta. by rewrite !table_upd. Qed.
Lemma filled_rest : rest_same (with_next_pid (next_pid s + 1) (with_kheap h s)) s3 /\
  queue_head s3 = queue_head s /\ queue_tail s3 = queue_tail s.
Proof.
  pose proof Hr2 as [r1 r2 r3 r4 r5 r6 r7 r8]. split; [|split; [exact Hh2|exact Hta2]].
  split; try done. change (next_pid s3) with (next_pid s2). rewrite r1. simpl. apply u32_small.
  pose proof idle_pid. unfold is_u32. lia.
Qed.

(** The frame is built on the new stack. *)
Lemma frame_built : exists hf, build_frame te entry arg (stack + STACK_SIZE) (kheap s3) = (stack + STACK_SIZE - 32, hf) /\
  stacks_ok base size (<[stack := STACK_SIZE]> other) (with_kheap hf s) /\
  forall n v, frame_words te entry arg !! n = Some v -> ld (h_mem hf) (stack + STACK_SIZE - 4 * (Z.of_nat n + 1)) = v.
Proof.
  destruct filled_rest as [R _]. rewrite (re_heap _ _ R). simpl kheap.
  destruct Hst as (live & l & Hh & Ho). pose proof (ow_other _ _ _ Ho) as Hsub.
  pose proof (lookup_weaken _ _ _ _ (lookup_insert_eq other stack STACK_SIZE) Hsub) as Hl.
  destruct (push_words_spec base size live l stack STACK_SIZE (frame_words te entry arg) (stack + STACK_SIZE) h Hh Hl)
    as (hf & E & Hhf & Hw & _); [simpl; unfold STACK_SIZE; lia|].
  exists hf. rewrite build_frame_words. split; [exact E|]. split; [|exact Hw].
  exists live, l. split; [exact Hhf|]. destruct Ho as [O1 O2 O3 O4 O5]. by split.
Qed.

(** The state just before the thread becomes READY. *)
Lemma filled_frame hf :
  let s4 := upd i (set_esp (stack + STACK_SIZE - 32)) (with_kheap hf s3) in
  proc s4 i = set_state UNUSED (new_thread (thread_name name) (next_pid s) (p_pid (proc s c)) prio stack) /\
  (forall j, j <> i -> proc s4 j = proc s j) /\ length (table s4) = PROCESS_MAX /\
  queue_head s4 = queue_head s /\ queue_tail s4 = queue_tail s /\
  rest_same (with_next_pid (next_pid s + 1) (with_kheap hf s)) s4.
Proof.
  pose proof filled_table as T3. destruct filled_rest as ([r1 r2 r3 r4 r5 r6 r7 r8] & H3 & Ta3).
  intros s4. split; [|split; [|split; [|split; [exact H3|split; [exact Ta3|by split]]]]].
  - unfold s4. rewrite proc_upd_eq by (change (table (with_kheap hf s3)) with (table s3); lia).
    rewrite proc_kheap, filled_self. reflexivity.
  - intros j Hj. unfold s4. rewrite proc_upd_ne, proc_kheap by done. by apply filled_other.
  - unfold s4. rewrite table_upd. exact T3.
Qed.
End Filled.

(** The thread enters its ready queue. *)
Section Entered.
Variables (stack : Z) (i : nat) (hf : heap) (s4 : sys).
Hypotheses (Hnz : stack <> 0) (Hno : other !! stack = None)
  (Hok : stacks_ok base size (<[stack := STACK_SIZE]> other) (with_kheap hf s))
  (Hi : (i < PROCESS_MAX)%nat) (Hun : p_state (proc s i) = UNUSED)
  (P4 : proc s4 i = set_state UNUSED (new_thread (thread_name name) (next_pid s) (p_pid (proc s c)) prio stack))
  (O4 : forall j, j <> i -> proc s4 j = proc s j)
  (T4 : length (table s4) = PROCESS_MAX) (H4 : queue_head s4 = queue_head s) (Ta4 : queue_tail s4 = queue_tail s)
  (R4 : rest_same (with_next_pid (next_pid s + 1) (with_kheap hf s)) s4)
  (Hw : forall n v, frame_words te entry arg !! n = Some v -> ld (h_mem hf) (stack + STACK_SIZE - 4 * (Z.of_nat n + 1)) = v).

Lemma entered_core : core s4 qs c /\ i <> 0%nat /\ i <> c.
Proof.
  pose proof (pv_sched _ _ _ _ _ _ Hinv) as [Hc Hrun]. pose proof idle_pid as (Hp0 & Hu0 & Hpos).
  assert (~ queued qs i) as Hnq by (intros Hq; apply (core_slot _ _ _ _ Hc) in Hq as (_ & _ & ?); congruence).
  split; [|split; intros ->; congruence].
  apply (core_change s qs c i s4 Hc Hnq); [|exact H4|exact Ta4|exact (re_cur _ _ R4)|exact O4|].
  - rewrite T4. symmetry. apply (qu_table _ _ (co_queues _ _ _ Hc)).
  - intros _. rewrite P4. destruct (co_slots _ _ _ Hc i Hi) as [S1 S2 S3 S4 S5 S6 S7].
    split; try done; [split; [done|]; intros [? _]; done|intros q Hl Hq; destruct Hnq; by exists q|..].
    + intros E. congruence.
Qed.

Lemma entered_stacks s5 : kheap s5 = hf -> p_kstack (proc s5 i) = stack -> p_ustack (proc s5 i) = 0 ->
  p_state (proc s5 i) = READY -> (forall j, j <> i -> pub (proc s5 j) = pub (proc s j)) -> stacks_ok base size other s5.
Proof.
  intros Hh F8 F9 F3 O5. destruct (pv_stacks _ _ _ _ _ _ Hinv) as (live & l & _ & Ho).
  destruct (ow_unused _ _ _ Ho i Hi Hun) as [E1 E2].
  apply (adopt_stack_ok base size other (with_kheap hf s) s5 (i, true) stack Hok Hno Hnz Hi); try done.
  - intros [j b] Hjb. unfold stack_at. simpl. rewrite proc_kheap. destruct (decide (j = i)) as [->|Hj].
    + destruct b; [done|]. congruence.
    + by destruct (pub_fields _ _ (O5 j Hj)) as (_ & _ & _ & _ & _ & _ & _ & -> & -> & _).
  - intros j Hj Hs. simpl. rewrite proc_kheap. destruct (decide (j = i)) as [->|Hji]; [congruence|].
    split; [|done]. by destruct (pub_fields _ _ (O5 j Hji)) as (_ & _ & <- & _).
Qed.

Lemma entered_created :
  created base size other te name entry arg prio s qs c i (scheduler_enqueue (Some i) (upd i (set_state READY) s4)).
Proof.
  destruct entered_core as (C4 & Hi0 & Hne). pose proof idle_pid as (Hp0 & Hu0 & Hpos).
  destruct (enter_ready s4 qs c i C4 Hi Hi0) as (C5 & R5 & P5); rewrite ?P4; [done|simpl; lia|exact Hprio|exact Hprio|].
  rewrite P4 in C5, P5. change (p_priority (set_state UNUSED _)) with prio in C5.
  set (s5 := scheduler_enqueue (Some i) (upd i (set_state READY) s4)) in *. clearbody s5.
  assert (forall j, j <> i -> pub (proc s5 j) = pub (proc s j)) as O5 by (intros j Hj; rewrite P5, decide_False, O4 by done; done).
  pose proof (P5 i) as Pi. rewrite decide_True in Pi by done.
  destruct (pub_fields _ _ Pi) as (F1 & _ & F3 & _ & _ & _ & _ & F8 & F9 & _).
  destruct (pub_fields _ _ (O5 c ltac:(done))) as (_ & _ & G3 & _ & _ & G6 & _).
  assert (next_pid s5 = next_pid s + 1) as Hn5 by (rewrite (re_pid _ _ R5); exact (re_pid _ _ R4)).
  assert (kheap s5 = hf) as Hh5 by (rewrite (re_heap _ _ R5); exact (re_heap _ _ R4)).
  split; [done| | |exact O5|exact Hn5].
  - split.
    + split; [done|]. rewrite G3. apply (pv_sched _ _ _ _ _ _ Hinv).
    + rewrite (re_started _ _ R5), (re_started _ _ R4). apply (pv_started _ _ _ _ _ _ Hinv).
    + rewrite G6. apply (pv_quantum _ _ _ _ _ _ Hinv).
    + by apply (entered_stacks s5).
    + apply (new_pids i); [done|done|exact F1|done|]. intros j Hj. by destruct (pub_fields _ _ (O5 j Hj)) as (-> & _ & -> & _).
  - exists stack. split; [exact Pi|]. rewrite Hh5. exact Hw.
Qed.
End Entered.

Lemma create_proc_spec : exists r s', process_create te name entry arg prio s = Some (r, s') /\
  match r with
  | Some i => created base size other te name entry arg prio s qs c i s'
  | None => proc_inv base size other s' qs c /\ next_pid s' = next_pid s /\ (forall j, proc s' j = proc s j) /\
      ((exists h, kmalloc PROCESS_KSTACK_SIZE (kheap s) = Some (0, h)) \/
       forall i, (i < PROCESS_MAX)%nat -> p_state (proc s i) <> UNUSED)
  end.
Proof.
  unfold process_create. rewrite (proj2 (Z.eqb_neq _ _) Hentry). cbn [orb].
  assert ((PRIORITY_LEVELS <=? prio) = false) as -> by (apply Z.leb_gt; unfold level, PRIORITY_LEVELS in *; lia).
  destruct (malloc_stack_ok base size other s (pv_stacks _ _ _ _ _ _ Hinv)) as (stack & h & E & H0 & Hn0).
  change (kmalloc PROCESS_KSTACK_SIZE (kheap s)) with (kmalloc STACK_SIZE (kheap s)). rewrite E.
  destruct Hinv as [[Hc Hr] Hs Hq Hok Hp].
  assert (forall h', stacks_ok base size other (with_kheap h' s) -> proc_inv base size other (with_kheap h' s) qs c) as Hfail.
  { intros h' Hok'. destruct Hp as [Hp1 Hp2]. split; try done. split; [|done]. destruct Hc as [C1 C2 C3 C4]. split; try done.
    by apply (queues_same s). }
  destruct (Z.eqb_spec stack 0) as [Ez|Ez].
  { eexists None, _. split; [reflexivity|]. split; [by apply Hfail, H0|]. split; [done|]. split; [done|].
    left. exists h. by rewrite Ez. }
  destruct (Hn0 Ez) as [Hst Hno]. pose proof (qu_table _ _ (co_queues _ _ _ Hc)) as Ht.
  pose proof (alloc_pcb_spec (with_kheap h s) Ht) as Ha. destruct (alloc_pcb (with_kheap h s)) as [[i s2]|].
  2: { eexists None, _. split; [reflexivity|]. split; [|split; [done|split; [done|by right]]].
       apply Hfail. exact (return_stack_ok base size other _ stack Hst Hno). }
  destruct Ha as (Hi & Hun & Hp2 & Ho2 & Ht2 & Hh2 & Hta2 & Hr2).
  assert (proc_inv base size other s qs c) as Hi' by (split; try done; by split).
  cbv zeta. set (s3 := upd i (set_is_user 0) _).
  assert (p_kstack_top (proc s3 i) = stack + STACK_SIZE) as ->
    by (unfold s3; erewrite filled_self by eassumption; reflexivity).
  edestruct (frame_built stack h i s2) as (hf & Ef & Hokf & Hwf); [eassumption..|]. cbv zeta in Ef. fold s3 in Ef. rewrite Ef.
  eexists (Some i), _. split; [reflexivity|].
  edestruct (filled_frame stack h i s2) with (hf := hf) as (A1 & A2 & A3 & A4 & A5 & A6); [eassumption..|].
  cbv zeta in A1, A2, A3, A4, A5, A6. fold s3 in A1, A2, A3, A4, A5, A6.
  apply (entered_created stack i hf); try done.
Qed.
End Create.

(** ** Assignments that the scheduler and the allocator do not read *)

Definition sched_fields (p : process) : Z * process_state * Z * Z * Z * option nat :=
  (p_pid p, p_state p, p_priority p, p_base_priority p, p_wait_ticks p, p_next p).

Lemma core_fields s qs c i f : core s qs c -> (i < PROCESS_MAX)%nat ->
  (forall p, sched_fields (f p) = sched_fields p) -> core (upd i f s) qs c.
Proof.
  intros Hc Hi Hf. apply core_upd; [done|done| |].
  - intros p. specialize (Hf p). unfold sched_fields in Hf. by injection Hf.
  - specialize (Hf (proc s i)). unfold sched_fields in Hf. injection Hf as E1 E2 E3 E4 E5 _.
    destruct (co_slots _ _ _ Hc i Hi) as [S1 S2 S3 S4 S5 S6 S7]. split; rewrite ?E1, ?E2, ?E3, ?E4, ?E5; done.
Qed.

Lemma inv_fields base size other s qs c i f : proc_inv base size other s qs c -> (i < PROCESS_MAX)%nat ->
  (forall p, sched_fields (f p) = sched_fields p /\ p_kstack (f p) = p_kstack p /\ p_ustack (f p) = p_ustack p /\
    p_quantum_left (f p) = p_quantum_left p) ->
  proc_inv base size other (upd i f s) qs c.
Proof.
  intros [[Hc Hr] Hs Hq Hok Hp] Hi Hf. pose proof (qu_table _ _ (co_queues _ _ _ Hc)) as Ht.
  assert (forall j, sched_fields (proc (upd i f s) j) = sched_fields (proc s j) /\
    p_kstack (proc (upd i f s) j) = p_kstack (proc s j) /\ p_ustack (proc (upd i f s) j) = p_ustack (proc s j) /\
    p_quantum_left (proc (upd i f s) j) = p_quantum_left (proc s j)) as H.
  { intros j. destruct (decide (i = j)) as [<-|Hne]; [rewrite proc_upd_eq by lia; apply Hf|by rewrite proc_upd_ne]. }
  assert (forall j, p_state (proc (upd i f s) j) = p_state (proc s j) /\ p_pid (proc (upd i f s) j) = p_pid (proc s j)) as H'.
  { intros j. destruct (H j) as (E & _). unfold sched_fields in E. by injection E. }
  assert (stacks_same s (upd i f s)) as Hss.
  { split; try done; intros j; [apply H|apply H| |apply H']. by rewrite (proj1 (H' j)). }
  split; try done.
  - split; [apply core_fields; [done|done|apply Hf]|]. by rewrite (proj1 (H' c)).
  - destruct (H c) as (_ & _ & _ & ->). done.
  - by apply (stacks_ok_same _ _ _ s).
  - by apply (pids_same s).
Qed.

(** ** User processes *)

(** The user-mode fields of a new process. *)
Definition with_user (ustack entry : Z) (p : process) : process :=
  set_user_entry entry (set_ustack_top (u32 (Z.land (u32 (ustack + PROCESS_USTACK_SIZE)) (Z.lnot 0xF) - 16))
    (set_ustack ustack (set_is_user 1 p))).

Lemma pub_with_user u entry p p' : pub p = pub p' -> pub (with_user u entry p) = pub (with_user u entry p').
Proof. destruct p, p'. unfold pub, set_next, with_user. simpl. intros [=]. by subst. Qed.

Lemma other_inv base size other s qs c h u : proc_inv base size other s qs c ->
  stacks_ok base size u (with_kheap h s) -> proc_inv base size u (with_kheap h s) qs c.
Proof.
  intros [[Hc Hr] Hs Hq Hok [Hp1 Hp2]] Hok'. split; try done. split; [|done].
  destruct Hc as [C1 C2 C3 C4]. split; try done. by apply (queues_same s).
Qed.

Section CreateUser.
Variables (base size : Z) (other : gmap Z Z) (te tr : Z) (name : option (list Z)) (entry prio : Z).
Variables (s : sys) (qs : queue_view) (c : nat).
Hypotheses (Hinv : proc_inv base size other s qs c) (Htr : tr <> 0) (Hprio : level prio)
  (Hnext : next_pid s + 1 < 2 ^ 32).

Lemma adopt_user i u s1 : proc_inv base size (<[u := STACK_SIZE]> other) s1 (push prio i qs) c ->
  other !! u = None -> u <> 0 -> (i < PROCESS_MAX)%nat -> i <> c -> p_state (proc s1 i) <> UNUSED ->
  p_ustack (proc s1 i) = 0 ->
  let s2 := upd i (set_user_entry entry)
      (upd i (set_ustack_top (u32 (Z.land (u32 (u + PROCESS_USTACK_SIZE)) (Z.lnot 0xF) - 16)))
        (upd i (set_ustack u) (upd i (set_is_user 1) s1))) in
  proc_inv base size other s2 (push prio i qs) c /\ proc s2 i = with_user u entry (proc s1 i) /\
  (forall j, j <> i -> proc s2 j = proc s1 j) /\ next_pid s2 = next_pid s1 /\ kheap s2 = kheap s1.
Proof.
  intros Hi1 Hno Hnz Hi Hic Hun Hus. pose proof Hi1 as [[Hc Hr] Hs Hq Hok Hp].
  pose proof (qu_table _ _ (co_queues _ _ _ Hc)) as Ht. intros s2.
  assert (proc s2 i = with_user u entry (proc s1 i)) as P2 by (unfold s2; by procs).
  assert (forall j, j <> i -> proc s2 j = proc s1 j) as O2 by (intros; unfold s2; by procs).
  assert (core s2 (push prio i qs) c) as C2 by (unfold s2; by do 4 (apply core_fields; [|done|done])).
  split; [|by split_and!]. split; [|exact Hs| | |].
  - split; [done|]. by rewrite O2.
  - by rewrite O2.
  - apply (adopt_stack_ok base size other s1 s2 (i, false) u Hok Hno Hnz Hi); try done.
    + unfold stack_at. simpl. by rewrite P2.
    + intros [j b] Hjb. unfold stack_at. simpl. destruct (decide (j = i)) as [->|Hj]; [|by rewrite O2].
      rewrite P2. by destruct b.
    + intros j Hj Hs2. simpl. destruct (decide (j = i)) as [->|Hji]; [by rewrite P2 in Hs2|]. by rewrite O2 in Hs2.
  - apply (pids_ext s1); [|done| |done]; intros j; (destruct (decide (j = i)) as [->|Hj]; [by rewrite P2|by rewrite O2]).
Qed.

Lemma create_user_spec : exists r s', process_create_user te tr name entry prio s = Some (r, s') /\
  match r with
  | Some i => proc_inv base size other s' (push prio i qs) c /\ (i < PROCESS_MAX)%nat /\
      p_state (proc s i) = UNUSED /\ (forall j, j <> i -> pub (proc s' j) = pub (proc s j)) /\
      next_pid s' = next_pid s + 1 /\
      exists kstack ustack, pub (proc s' i) = pub (with_user ustack entry
          (new_thread (thread_name name) (next_pid s) (p_pid (proc s c)) prio kstack)) /\
        forall n v, frame_words te tr 0 !! n = Some v ->
          ld (h_mem (kheap s')) (kstack + STACK_SIZE - 4 * (Z.of_nat n + 1)) = v
  | None => proc_inv base size other s' qs c /\ next_pid s' = next_pid s /\ forall j, proc s' j = proc s j
  end.
Proof.
  unfold process_create_user.
  destruct (malloc_stack_ok base size other s (pv_stacks _ _ _ _ _ _ Hinv)) as (u & h & E & H0 & Hn0).
  change (kmalloc PROCESS_USTACK_SIZE (kheap s)) with (kmalloc STACK_SIZE (kheap s)). rewrite E.
  destruct (Z.eqb_spec u 0) as [Ez|Ez].
  { eexists None, _. split; [reflexivity|]. split; [|done]. by apply (other_inv _ _ other), H0. }
  destruct (Hn0 Ez) as [Hst Hno]. cbv zeta.
  assert (proc_inv base size (<[u := STACK_SIZE]> other) (with_kheap h s) qs c) as Hi0 by by apply (other_inv _ _ other).
  destruct (create_proc_spec base size (<[u := STACK_SIZE]> other) te name tr 0 prio _ qs c Hi0 Htr Hprio Hnext)
    as (r & s1 & E1 & Hr). rewrite E1. destruct r as [i|].
  - destruct Hr as [(Hi & Hic & Hun) Hi1 (k & Hk & Hw) Ho Hnx].
    destruct (pub_fields _ _ Hk) as (_ & _ & F3 & _ & _ & _ & _ & _ & F9 & _). simpl in F3, F9.
    destruct (adopt_user i u s1 Hi1 Hno Ez Hi Hic) as (Hi2 & P2 & O2 & N2 & K2); [congruence|done|].
    eexists (Some i), _. split; [reflexivity|]. split; [exact Hi2|]. split; [done|]. split; [done|].
    split; [intros j Hj; rewrite O2 by done; by apply Ho|]. split; [by rewrite N2|].
    exists k, u. rewrite P2, K2. split; [|exact Hw]. exact (pub_with_user u entry _ _ Hk).
  - destruct Hr as (Hi1 & Hn1 & Ho & _). eexists None, _. split; [reflexivity|]. split; [|split; [done|exact Ho]].
    apply (other_inv _ _ (<[u := STACK_SIZE]> other)); [done|].
    apply return_stack_ok; [|done]. apply (pv_stacks _ _ _ _ _ _ Hi1).
Qed.
End CreateUser.

(** ** Exit, kill, wait and sleep *)

Lemma by_pid_spec pid s i : process_by_pid pid s = Some i ->
  (i < PROCESS_MAX)%nat /\ p_state (proc s i) <> UNUSED /\ p_pid (proc s i) = pid.
Proof.
  unfold process_by_pid. intros [H Hi]%find_slot. apply andb_prop in H as [H1 H2]. apply Z.eqb_eq in H2.
  unfold is_unused in H1. apply negb_true_iff, bool_decide_eq_false_1 in H1. by split_and!.
Qed.

(** [wake_parent] only queues a blocked parent. *)
Lemma wake_parent_spec s qs c i : core s qs c ->
  exists qs', core (wake_parent i s) qs' c /\ rest_same s (wake_parent i s) /\ stacks_same s (wake_parent i s) /\
    forall j, p_state (proc s j) <> BLOCKED -> pub (proc (wake_parent i s) j) = pub (proc s j).
Proof.
  intros Hc. unfold wake_parent.
  assert (core s qs c /\ rest_same s s /\ stacks_same s s /\
    forall j, p_state (proc s j) <> BLOCKED -> pub (proc s j) = pub (proc s j)) as Hid by (by split_and!).
  destruct (process_by_pid _ s) as [p|] eqn:Ep; [|by exists qs]. destruct (_ && _) eqn:Eb; [|by exists qs]. clear Hid.
  apply andb_prop in Eb as [_ Eb]. apply bool_decide_eq_true_1 in Eb. destruct (by_pid_spec _ _ _ Ep) as (Hp & _ & _).
  destruct (unblock_spec s qs c p Hc Hp) as (C & R & P).
  eexists. split; [exact C|]. split; [done|].
  assert (blocked (proc s p) = true) as Hbl by (unfold blocked; by rewrite bool_decide_eq_true_2).
  rewrite Hbl in P. split.
  - assert (forall j, p_kstack (proc (scheduler_unblock (Some p) s) j) = p_kstack (proc s j) /\
      p_ustack (proc (scheduler_unblock (Some p) s) j) = p_ustack (proc s j) /\
      p_pid (proc (scheduler_unblock (Some p) s) j) = p_pid (proc s j) /\
      (p_state (proc (scheduler_unblock (Some p) s) j) = UNUSED <-> p_state (proc s j) = UNUSED)) as K.
    { intros j. pose proof (P j) as Pj. destruct (decide (j = p)) as [->|];
        destruct (pub_fields _ _ Pj) as (-> & _ & -> & _ & _ & _ & _ & -> & -> & _); [|done]. simpl. rewrite Eb. done. }
    destruct R. split; try done; apply K.
  - intros j Hj. rewrite P. destruct (decide (j = p)) as [->|]; [congruence|done].
Qed.

(** Freeing the user stack keeps everything else. *)
Lemma free_ustack_spec base size other s qs c i : core s qs c -> (i < PROCESS_MAX)%nat ->
  stacks_ok base size other s /\ pids_ok s ->
  core (free_ustack i s) qs c /\ (stacks_ok base size other (free_ustack i s) /\ pids_ok (free_ustack i s)) /\
  started (free_ustack i s) = started s /\
  proc (free_ustack i s) i = set_ustack 0 (proc s i) /\ (forall j, j <> i -> proc (free_ustack i s) j = proc s j).
Proof.
  intros Hc Hi [Hok Hp]. pose proof (qu_table _ _ (co_queues _ _ _ Hc)) as Ht. unfold free_ustack.
  destruct (Z.eqb_spec (p_ustack (proc s i)) 0) as [E|E]; cbn [negb].
  { rewrite set_ustack_id by done. by split_and!. }
  pose proof (upd_ustack_ok base size other s i Hi Ht Hok) as Hok'. unfold free_stack in Hok'.
  rewrite (proj2 (Z.eqb_neq _ 0) E) in Hok'. cbn [negb] in Hok'.
  set (s1 := with_kheap _ s) in *.
  assert (core s1 qs c) as C1. { destruct Hc as [C1 C2 C3 C4]. split; try done. by apply (queues_same s). }
  assert (proc (upd i (set_ustack 0) s1) i = set_ustack 0 (proc s i)) as P by (by rewrite proc_upd_eq by (simpl; lia)).
  assert (forall j, j <> i -> proc (upd i (set_ustack 0) s1) j = proc s j) as O by (intros j Hj; by rewrite proc_upd_ne by done).
  split; [by apply core_fields|]. split; [split; [done|]|by split_and!].
  apply (pids_ext s); try done; intros j; (destruct (decide (j = i)) as [->|Hj]; [by rewrite P|by rewrite O]).
Qed.

(** Turning a process into a zombie: the part [process_exit] and [process_kill] share. *)
Definition make_zombie (i : nat) (code : Z) (s : sys) : sys :=
  wake_parent i (free_ustack i (upd i (set_state ZOMBIE) (upd i (set_exit_code code) s))).

Definition zombie_of (code : Z) (p : process) : process := set_ustack 0 (set_state ZOMBIE (set_exit_code code p)).

Lemma pub_zombie code p p' : pub p = pub p' -> pub (zombie_of code p) = pub (zombie_of code p').
Proof. destruct p, p'. unfold pub, set_next, zombie_of. simpl. intros [=]. by subst. Qed.

Lemma make_zombie_spec base size other s0 qs0 s qs c i code : core s0 qs0 c -> queues s qs -> rest_same s0 s ->
  (forall j, pub (proc s j) = pub (proc s0 j)) -> (forall q j, level q -> j ∈ qs q <-> j ∈ qs0 q /\ j <> i) ->
  (i < PROCESS_MAX)%nat -> i <> 0%nat -> p_state (proc s0 i) <> UNUSED ->
  stacks_ok base size other s0 -> pids_ok s0 ->
  exists qs', core (make_zombie i code s) qs' c /\ stacks_ok base size other (make_zombie i code s) /\
    pids_ok (make_zombie i code s) /\ started (make_zombie i code s) = started s0 /\
    pub (proc (make_zombie i code s) i) = pub (zombie_of code (proc s0 i)) /\
    (forall j, j <> i -> p_state (proc s0 j) <> BLOCKED -> pub (proc (make_zombie i code s) j) = pub (proc s0 j)).
Proof.
  intros Hc0 Hq R0 Hpub Hv Hi Hi0 Hun Hok Hp. pose proof (qu_table _ _ Hq) as Ht.
  set (s1 := upd i (set_state ZOMBIE) (upd i (set_exit_code code) s)).
  assert (proc s1 i = set_state ZOMBIE (set_exit_code code (proc s i))) as P1 by (unfold s1; by procs).
  assert (forall j, j <> i -> proc s1 j = proc s j) as O1 by (intros; unfold s1; by procs).
  destruct (pub_fields _ _ (Hpub i)) as (E1 & _ & E3 & E4 & E5 & _ & E7 & E8 & E9 & _).
  assert (core s1 qs c) as C1.
  { apply (core_update s0 qs0 c s1 qs c i Hc0).
    - unfold s1. by do 2 (apply queues_upd; [|done]).
    - change (current_process s1) with (current_process s). rewrite (re_cur _ _ R0). apply (co_current _ _ _ Hc0).
    - apply (co_cur_slot _ _ _ Hc0).
    - intros j Hj Hne. rewrite O1 by done. split; [apply Hpub|]. split; [intros q Hl; rewrite Hv by done; tauto|].
      apply (co_slots _ _ _ Hc0 j Hj).
    - intros _. rewrite P1. assert (forall q, level q -> (i ∉ qs q)) as Hnq by (intros q Hl [_ ?]%Hv; done).
      destruct (co_slots _ _ _ Hc0 i Hi) as [S1 S2 S3 S4 S5 S6 S7]. split; simpl; rewrite ?E1, ?E4, ?E5; try done.
      + split; [intros (q & Hl & Hin); by destruct (Hnq q Hl)|intros [? _]; done].
      + intros q Hl Hin. by destruct (Hnq q Hl).
      + intros (q & Hl & Hin). by destruct (Hnq q Hl).
      + intros Hz _. by apply S6.
      + intros _. by apply S7. }
  assert (stacks_same s0 s1) as Hss.
  { destruct R0. split; try done; intros j; destruct (decide (j = i)) as [->|Hj]; rewrite ?P1, ?O1 by done; simpl; try congruence;
      try (destruct (pub_fields _ _ (Hpub j)) as (G1 & _ & G3 & _ & _ & _ & _ & G8 & G9 & _); rewrite ?G3; done).
    split; [done|]. congruence. }
  destruct (free_ustack_spec base size other s1 qs c i C1 Hi) as (C2 & (Hok2 & Hp2) & St2 & P2 & O2).
  { split; [by apply (stacks_ok_same _ _ _ s0)|by apply (pids_same s0)]. }
  unfold make_zombie. fold s1. set (s2 := free_ustack i s1) in *. clearbody s2.
  destruct (wake_parent_spec s2 qs c i C2) as (qs' & C3 & R3 & S3 & P3).
  exists qs'. split; [exact C3|]. split; [by apply (stacks_ok_same _ _ _ s2)|]. split; [by apply (pids_same s2)|].
  split; [rewrite (re_started _ _ R3), St2; apply (re_started _ _ R0)|]. split.
  - rewrite P3 by (rewrite P2, P1; done). rewrite P2, P1. by apply pub_zombie.
  - intros j Hj Hb. rewrite P3, O2, O1 by (try rewrite O2, O1 by done; try done;
      by destruct (pub_fields _ _ (Hpub j)) as (_ & _ & -> & _)). apply Hpub.
Qed.

Lemma running_not_queued s qs c q : sched_inv s qs c -> level q -> (c ∉ qs q).
Proof.
  intros [Hc Hr] Hl Hi. destruct (core_slot _ _ _ c Hc) as (_ & _ & ?); [by exists q|]. congruence.
Qed.

(** The process that leaves the processor is not the one that runs next. *)
Lemma view_changes s qs c : core s qs c -> p_state (proc s c) <> RUNNING -> p_state (proc s c) <> READY ->
  snd (schedule_view qs c (proc s c)) <> c.
Proof.
  intros Hc Hr Hn. unfold schedule_view. destruct (top_level qs) as [q|] eqn:Etop.
  - apply List.find_some in Etop as [Hin Hne].
    assert (level q) as Hl by (unfold levels, level in *; simpl in Hin; lia).
    destruct (qs q) as [|n l] eqn:E; [done|]. simpl. intros ->.
    destruct (core_slot _ _ _ c Hc) as (_ & _ & ?); [exists q; split; [done|rewrite E; left]|]. done.
  - rewrite bool_decide_eq_false_2 by done. simpl. intros <-.
    destruct (so_idle _ _ _ _ (co_slots _ _ _ Hc 0%nat (co_cur_slot _ _ _ Hc)) eq_refl) as [_ [?|?]]; done.
Qed.

Lemma pub_set_esp v p p' : pub p = pub p' -> pub (set_esp v p) = pub (set_esp v p').
Proof. destruct p, p'. unfold pub, set_next. simpl. intros [=]. by subst. Qed.

Lemma switched_away s qs c : core s qs c -> started s = true ->
  p_state (proc s c) <> RUNNING -> p_state (proc s c) <> READY -> p_state (proc s c) <> UNUSED ->
  snd (schedule_view qs c (proc s c)) <> c /\
  exists v, pub (proc (schedule s) c) = pub (set_esp v (proc s c)).
Proof.
  intros Hc Hs N1 N2 N3. pose proof (view_changes s qs c Hc N1 N2) as Hv. split; [done|].
  destruct (schedule_spec s qs c Hc Hs N2 N3) as [_ _ _ _ _ _ _ D8]. destruct (D8 Hv) as [v Hpv]. exists v.
  unfold requeued in Hpv. by rewrite bool_decide_eq_false_2 in Hpv.
Qed.

Lemma by_pid_ext pid s s' : (forall j, (j < PROCESS_MAX)%nat -> p_pid (proc s' j) = p_pid (proc s j) /\
    (p_state (proc s' j) = UNUSED <-> p_state (proc s j) = UNUSED)) -> process_by_pid pid s' = process_by_pid pid s.
Proof.
  intros H. unfold process_by_pid, slots.
  assert (forall n k, (k + n <= PROCESS_MAX)%nat ->
    List.find (fun i => negb (is_unused (proc s' i)) && (p_pid (proc s' i) =? pid)) (seq k n) =
    List.find (fun i => negb (is_unused (proc s i)) && (p_pid (proc s i) =? pid)) (seq k n)) as Hg.
  { induction n as [|n IH]; intros k Hk; [done|]. cbn [seq List.find]. destruct (H k ltac:(lia)) as [-> Hu].
    assert (is_unused (proc s' k) = is_unused (proc s k)) as -> by (unfold is_unused; by apply bool_decide_ext).
    rewrite IH by lia. done. }
  apply Hg. lia.
Qed.

(** A waiting parent is queued when its child becomes a zombie. *)
Lemma zombie_wakes s code i p : (i < PROCESS_MAX)%nat -> length (table s) = PROCESS_MAX -> p_state (proc s i) <> UNUSED ->
  process_by_pid (p_ppid (proc s i)) s = Some p -> p <> i -> p_parent_waiting (proc s p) <> 0 ->
  p_state (proc s p) = BLOCKED -> p_pid (proc s p) <> 0 ->
  p_state (proc (make_zombie i code s) p) = READY.
Proof.
  intros Hi Ht Hu Hp Hne Hw Hb Hpid. destruct (by_pid_spec _ _ _ Hp) as (Hpr & _).
  set (s1 := upd i (set_state ZOMBIE) (upd i (set_exit_code code) s)).
  assert (proc s1 i = set_state ZOMBIE (set_exit_code code (proc s i))) as P1 by (unfold s1; by procs).
  assert (forall j, j <> i -> proc s1 j = proc s j) as O1 by (intros; unfold s1; by procs).
  assert (length (table s1) = PROCESS_MAX) as T1 by (unfold s1; by rewrite !table_upd).
  unfold make_zombie. fold s1. clearbody s1.
  set (s2 := free_ustack i s1).
  assert (exists v, proc s2 i = set_ustack v (proc s1 i)) as [v P2].
  { unfold s2, free_ustack. destruct (negb _); [exists 0; by rewrite proc_upd_eq by (simpl; lia)|].
    exists (p_ustack (proc s1 i)). by destruct (proc s1 i). }
  assert (forall j, j <> i -> proc s2 j = proc s1 j) as O2.
  { intros j Hj. unfold s2, free_ustack. destruct (negb _); [by rewrite proc_upd_ne by done|done]. }
  assert (length (table s2) = PROCESS_MAX) as T2 by (unfold s2, free_ustack; destruct (negb _); [by rewrite table_upd|done]).
  clearbody s2. unfold wake_parent. rewrite P2, P1. change (p_ppid (set_ustack _ _)) with (p_ppid (proc s i)).
  rewrite (by_pid_ext _ s), Hp.
  2: { intros j Hj. destruct (decide (j = i)) as [->|Hji]; [|by rewrite O2, O1]. rewrite P2, P1. simpl. split; [done|].
       split; [done|]. intros ?. done. }
  rewrite O2, O1 by done. rewrite (proj2 (Z.eqb_neq _ 0) Hw), Hb. rewrite bool_decide_eq_true_2 by done. cbn [negb andb].
  unfold scheduler_unblock. rewrite O2, O1 by done. rewrite Hb. rewrite bool_decide_eq_true_2 by done. cbn [orb].
  set (s3 := upd p (set_state READY) s2).
  assert (proc s3 p = set_state READY (proc s p)) as P3 by (unfold s3; rewrite proc_upd_eq by lia; by rewrite O2, O1).
  unfold scheduler_enqueue. rewrite P3. simpl p_pid. rewrite (proj2 (Z.eqb_neq _ 0) Hpid).
  set (s4 := upd p (set_wait_ticks 0) _).
  assert (p_state (proc s4 p) = READY /\ length (table s4) = PROCESS_MAX) as [P4 T4].
  { assert (length (table s3) = PROCESS_MAX) as T3 by (unfold s3; by rewrite table_upd).
    unfold s4. rewrite !proc_upd_eq by (rewrite ?table_upd; lia). rewrite P3. split; [done|by rewrite !table_upd]. }
  clearbody s4. cbv zeta. destruct (tail_of _ s4) as [t|]; [|exact P4].
  change (proc (set_tail _ _ ?x) p) with (proc x p). destruct (decide (t = p)) as [->|Htp].
  - rewrite proc_upd_eq by lia. exact P4.
  - by rewrite proc_upd_ne by done.
Qed.

Lemma exit_inv base size other s qs c code : proc_inv base size other s qs c -> c <> 0%nat ->
  exists qs' c', proc_inv base size other (process_exit code s) qs' c' /\ c' <> c /\
    (exists v, pub (proc (process_exit code s) c) = pub (set_esp v (zombie_of code (proc s c)))) /\
    (forall p, process_by_pid (p_ppid (proc s c)) s = Some p -> p_parent_waiting (proc s p) <> 0 ->
       p_state (proc s p) = BLOCKED -> p_state (proc (process_exit code s) p) = READY \/ p = c').
Proof.
  intros [[Hc Hr] Hs Hq Hok Hp] Hc0. pose proof (co_cur_slot _ _ _ Hc) as Hcs.
  destruct (make_zombie_spec base size other s qs s qs c c code Hc (co_queues _ _ _ Hc) (rest_refl s))
    as (qs' & C & Hok' & Hp' & Hst & Pc & _); try done; [|congruence|].
  { intros q j Hl. split; [|tauto]. intros Hj. split; [done|]. intros ->. by apply (running_not_queued s qs c q). }
  destruct (pub_fields _ _ Pc) as (_ & _ & F3 & _). change (p_state (zombie_of code (proc s c))) with ZOMBIE in F3.
  unfold process_exit. rewrite (co_current _ _ _ Hc). fold (make_zombie c code s).
  set (s1 := make_zombie c code s) in *.
  destruct (switched_away s1 qs' c C) as (Hv & v & Hpv); [congruence..|].
  eexists _, _. split; [apply schedule_inv; try done; congruence|]. split; [exact Hv|]. split.
  - exists v. rewrite Hpv. by apply pub_set_esp.
  - intros p Hpid Hw Hb. destruct (by_pid_spec _ _ _ Hpid) as (Hpr & Hpu & _).
    assert (p <> c) as Hpc by congruence.
    assert (p <> 0%nat) as Hp0 by (intros ->; by destruct (so_idle _ _ _ _ (co_slots _ _ _ Hc 0%nat Hpr) eq_refl) as [_ [?|?]]; congruence).
    assert (p_state (proc s1 p) = READY) as Hrd.
    { apply zombie_wakes; try done; [apply (qu_table _ _ (co_queues _ _ _ Hc))|congruence|].
      by apply (so_pid _ _ _ _ (co_slots _ _ _ Hc p Hpr)). }
    destruct (schedule_spec s1 qs' c C) as [_ _ _ _ _ D6 _ _]; [congruence..|].
    destruct (decide (p = snd (schedule_view qs' c (proc s1 c)))) as [|Hne]; [by right|left].
    by destruct (pub_fields _ _ (D6 p Hpr Hrd Hne)) as (_ & _ & -> & _).
Qed.

Lemma kill_inv base size other s qs c pid : proc_inv base size other s qs c ->
  exists r s' qs' c', process_kill pid s = Some (r, s') /\ proc_inv base size other s' qs' c' /\
    (r = Some 0 -> exists i, process_by_pid pid s = Some i /\ p_state (proc s' i) = ZOMBIE /\ p_exit_code (proc s' i) = -1).
Proof.
  intros Hinv. pose proof Hinv as [[Hc Hr] Hs Hq Hok Hp]. unfold process_kill.
  destruct (Z.eqb_spec pid 0) as [E0|E0]; [by eexists _, _, _, _|].
  destruct (process_by_pid pid s) as [i|] eqn:Ei; [|by eexists _, _, _, _].
  destruct (by_pid_spec _ _ _ Ei) as (Hi & Hu & Hpid).
  destruct (_ || _) eqn:Eb; [by eexists _, _, _, _|]. apply orb_false_elim in Eb as [_ Hz].
  apply bool_decide_eq_false_1 in Hz.
  assert (i <> 0%nat) as Hi0.
  { intros ->. destruct (so_idle _ _ _ _ (co_slots _ _ _ Hc 0%nat Hi) eq_refl) as [? _]. congruence. }
  rewrite (co_current _ _ _ Hc). destruct (bool_decide_reflect (Some i = Some c)) as [Ec|Ec].
  - injection Ec as ->. destruct (exit_inv base size other s qs c (-1) Hinv Hi0) as (qs' & c' & H & _).
    by eexists _, _, _, _.
  - destruct (dequeue_spec s qs i (co_queues _ _ _ Hc)) as (s1 & -> & Q1 & R1 & P1 & _).
    destruct (make_zombie_spec base size other s qs s1 (unqueue i qs) c i (-1) Hc Q1 R1 P1)
      as (qs' & C & Hok' & Hp' & Hst & Pi & Po); try done; [intros q j _; apply unqueue_elem|].
    cbv zeta. fold (make_zombie i (-1) s1).
    assert (pub (proc (make_zombie i (-1) s1) c) = pub (proc s c)) as Pc by (apply Po; congruence).
    destruct (pub_fields _ _ Pc) as (_ & _ & F3 & _ & _ & F6 & _).
    eexists _, _, qs', c. split; [reflexivity|]. split.
    + split; try done; [split; [done|congruence]|congruence|by rewrite F6].
    + intros _. exists i. split; [done|]. destruct (pub_fields _ _ Pi) as (_ & _ & -> & _). split; [done|].
      revert Pi. destruct (proc (make_zombie i (-1) s1) i), (proc s i). unfold pub, set_next, zombie_of. simpl. by intros [=].
Qed.

(** Blocking the current process in state [st]. *)
Lemma block_inv base size other s qs c f : proc_inv base size other s qs c -> c <> 0%nat ->
  (forall p, p_pid (f p) = p_pid p /\ p_priority (f p) = p_priority p /\ p_base_priority (f p) = p_base_priority p /\
    p_next (f p) = p_next p /\ p_kstack (f p) = p_kstack p /\ p_ustack (f p) = p_ustack p /\
    (p_state (f p) = BLOCKED \/ p_state (f p) = SLEEPING)) ->
  exists qs' c', proc_inv base size other (schedule (upd c f s)) qs' c' /\ c' <> c /\
    exists v, pub (proc (schedule (upd c f s)) c) = pub (set_esp v (f (proc s c))).
Proof.
  intros [[Hc Hr] Hs Hq Hok Hp] Hc0 Hf. pose proof (co_cur_slot _ _ _ Hc) as Hcs.
  pose proof (qu_table _ _ (co_queues _ _ _ Hc)) as Ht.
  destruct (Hf (proc s c)) as (F1 & F2 & F3 & F4 & F5 & F6 & F7).
  assert (p_state (f (proc s c)) <> UNUSED /\ p_state (f (proc s c)) <> READY /\ p_state (f (proc s c)) <> RUNNING) as (N1 & N2 & N3)
    by (destruct F7; split_and!; congruence).
  assert (proc (upd c f s) c = f (proc s c)) as P by (by rewrite proc_upd_eq by lia).
  assert (core (upd c f s) qs c) as C.
  { apply core_upd; [done|done|apply Hf|]. destruct (co_slots _ _ _ Hc c Hcs) as [S1 S2 S3 S4 S5 S6 S7].
    assert (~ queued qs c) as Hnq by (intros [? _]%S1; congruence).
    split; rewrite ?F1, ?F2, ?F3; try done.
    - split; [done|]. intros [? _]. done.
    - intros Hz _. apply S6; congruence.
    - intros _. apply S7. congruence. }
  assert (stacks_same s (upd c f s)) as Hss.
  { split; try done; intros j; (destruct (decide (j = c)) as [->|]; [rewrite P|by rewrite proc_upd_ne]); try done.
    split; [done|congruence]. }
  eexists _, _. split; [apply schedule_inv; try done; rewrite ?P; try done|].
  - by apply (stacks_ok_same _ _ _ s).
  - by apply (pids_same s).
  - rewrite <- P. apply (switched_away _ qs c); rewrite ?P; done.
Qed.

Lemma upd_upd i f g s : upd i f (upd i g s) = upd i (fun p => f (g p)) s.
Proof.
  unfold upd, with_table. simpl. f_equal. apply list_eq. intros j.
  destruct (decide (i = j)) as [<-|Hne]; [|by rewrite !list_lookup_alter_ne].
  rewrite !list_lookup_alter_eq. by destruct (table s !! i).
Qed.

Lemma sleep_inv base size other s qs c ms : proc_inv base size other s qs c -> c <> 0%nat -> ms <> 0 ->
  exists qs' c', proc_inv base size other (process_sleep ms s) qs' c' /\ c' <> c /\
    exists v, pub (proc (process_sleep ms s) c) =
      pub (set_esp v (set_state SLEEPING (set_sleep_until (u64 (timer_ticks s + u32 (ms + 9) / 10)) (proc s c)))).
Proof.
  intros Hinv Hc0 Hms. unfold process_sleep. rewrite (proj2 (Z.eqb_neq _ _) Hms).
  rewrite (co_current _ _ _ (proj1 (pv_sched _ _ _ _ _ _ Hinv))). cbv zeta. rewrite upd_upd.
  apply (block_inv base size other s qs c (fun p => set_state SLEEPING (set_sleep_until (u64 (timer_ticks s + u32 (ms + 9) / 10)) p)));
    [done|done|]. intros p. simpl. auto 10.
Qed.

Lemma yield_inv base size other s qs c : proc_inv base size other s qs c ->
  exists qs' c', proc_inv base size other (scheduler_yield s) qs' c'.
Proof.
  intros [[Hc Hr] Hs Hq Hok Hp]. pose proof (co_cur_slot _ _ _ Hc) as Hcs.
  pose proof (qu_table _ _ (co_queues _ _ _ Hc)) as Ht.
  unfold scheduler_yield. rewrite Hs, (co_current _ _ _ Hc).
  assert (proc (upd c (set_quantum_left 0) s) c = set_quantum_left 0 (proc s c)) as P by (by rewrite proc_upd_eq by lia).
  assert (stacks_same s (upd c (set_quantum_left 0) s)) as Hss.
  { split; try done; intros j; (destruct (decide (j = c)) as [->|]; [by rewrite P|by rewrite proc_upd_ne]). }
  eexists _, _. apply schedule_inv; try done.
  - by apply core_fields.
  - rewrite P. simpl. congruence.
  - rewrite P. simpl. congruence.
  - by apply (stacks_ok_same _ _ _ s).
  - by apply (pids_same s).
Qed.

(** A child of [c] other than itself. *)
Definition child (s : sys) (c i : nat) : Prop :=
  p_state (proc s i) <> UNUSED /\ p_ppid (proc s i) = p_pid (proc s c) /\ i <> c.

Lemma wait_scan_spec c s : forall todo have,
  match wait_scan todo c have s with
  | (_, Some i) => i ∈ todo /\ child s c i /\ p_state (proc s i) = ZOMBIE
  | (true, None) => (forall i, i ∈ todo -> child s c i -> p_state (proc s i) <> ZOMBIE) /\
      (have = true \/ exists i, i ∈ todo /\ child s c i)
  | (false, None) => have = false /\ forall i, i ∈ todo -> ~ child s c i
  end.
Proof.
  induction todo as [|i todo IH]; intros have; cbn [wait_scan].
  { destruct have; [split; [|by left]|split; [done|]]; intros i Hi; by apply elem_of_nil in Hi. }
  assert (forall have', have' = true \/ (have' = have /\ ~ child s c i) -> (have' = true -> have = true \/ child s c i) ->
    (child s c i -> p_state (proc s i) <> ZOMBIE) ->
    match wait_scan todo c have' s with
    | (_, Some i0) => i0 ∈ i :: todo /\ child s c i0 /\ p_state (proc s i0) = ZOMBIE
    | (true, None) => (forall i0, i0 ∈ i :: todo -> child s c i0 -> p_state (proc s i0) <> ZOMBIE) /\
        (have = true \/ exists i0, i0 ∈ i :: todo /\ child s c i0)
    | (false, None) => have = false /\ forall i0, i0 ∈ i :: todo -> ~ child s c i0
    end) as Hgen.
  { intros have' H1 H2 H3. specialize (IH have'). destruct (wait_scan todo c have' s) as [[] [i0|]].
    - destruct IH as (Ha & Hb). split; [by right|done].
    - destruct IH as [Ha Hb]. split.
      + intros i0 [->|Hi0]%elem_of_cons; [done|by apply Ha].
      + destruct Hb as [Hb|(i0 & Hi0 & Hb)]; [|right; exists i0; split; [by right|done]].
        destruct (H2 Hb) as [?|?]; [by left|right; exists i; split; [left|done]].
    - destruct IH as (Ha & Hb). split; [by right|done].
    - destruct IH as [-> Ha]. destruct H1 as [?|[<- Hn]]; [done|]. split; [done|].
      intros i0 [->|Hi0]%elem_of_cons; [done|by apply Ha]. }
  destruct (bool_decide_reflect (p_state (proc s i) = UNUSED)) as [E1|E1].
  { assert (~ child s c i) by (by intros [? _]). apply Hgen; tauto. }
  destruct (Z.eqb_spec (p_ppid (proc s i)) (p_pid (proc s c))) as [E2|E2]; cbn [negb orb].
  2: { assert (~ child s c i) by (by intros (_ & ? & _)). apply Hgen; tauto. }
  destruct (bool_decide_reflect (i = c)) as [E3|E3].
  { assert (~ child s c i) by (by intros (_ & _ & ?)). apply Hgen; tauto. }
  destruct (bool_decide_reflect (p_state (proc s i) = ZOMBIE)) as [E4|E4].
  - split; [left|]. by split.
  - apply Hgen; [by left|intros _; right; by split|done].
Qed.

Lemma slots_elem i : i ∈ slots <-> (i < PROCESS_MAX)%nat.
Proof. unfold slots. rewrite elem_of_seq. lia. Qed.

Lemma wait_inv base size other s qs c : proc_inv base size other s qs c -> c <> 0%nat ->
  exists qs' c', proc_inv base size other (snd (process_wait s)) qs' c' /\
  match fst (process_wait s) with
  | WaitReaped pid st => c' = c /\ exists i, (i < PROCESS_MAX)%nat /\ child s c i /\ p_state (proc s i) = ZOMBIE /\
      pid = s32 (p_pid (proc s i)) /\ st = p_exit_code (proc s i) /\ p_state (proc (snd (process_wait s)) i) = UNUSED
  | WaitNoChildren => c' = c /\ (forall i, (i < PROCESS_MAX)%nat -> ~ child s c i) /\ snd (process_wait s) = s
  | WaitBlocked => c' <> c /\ (exists i, (i < PROCESS_MAX)%nat /\ child s c i) /\
      forall i, (i < PROCESS_MAX)%nat -> child s c i -> p_state (proc s i) <> ZOMBIE
  end.
Proof.
  intros Hinv Hc0. pose proof Hinv as [[Hc Hr] Hs Hq Hok Hp]. unfold process_wait. rewrite (co_current _ _ _ Hc).
  pose proof (wait_scan_spec c s slots false) as Hsc.
  assert (forall i, i ∈ slots /\ child s c i /\ p_state (proc s i) = ZOMBIE ->
    proc_inv base size other (process_release (Some i) s) qs c /\
    (i < PROCESS_MAX)%nat /\ p_state (proc (process_release (Some i) s) i) = UNUSED) as Hreap.
  { intros i (Hi%slots_elem & Hch & Hz). pose proof Hch as (_ & _ & Hne).
    pose proof (qu_table _ _ (co_queues _ _ _ Hc)) as Ht.
    destruct (release_spec i s) as [R1 R2 R3 R4 R5 R6 R7]; [lia|rewrite (co_current _ _ _ Hc); congruence|].
    split; [|split; [done|by rewrite R4]].
    split; [split; [by apply release_core|by rewrite R5]|by rewrite (re_started _ _ R7)|by rewrite R5|
            by apply (release_ok _ _ _ _ qs c)|by apply (release_pids _ qs c)]. }
  destruct (wait_scan slots c false s) as [[] [i|]]; cbn [fst snd].
  - exists qs, c. destruct (Hreap i Hsc) as (H1 & H2 & H3). destruct Hsc as (_ & Hch & Hz).
    split; [done|]. split; [done|]. by exists i.
  - destruct Hsc as [Hz [?|(i & Hi%slots_elem & Hch)]]; [done|].
    unfold scheduler_block_current. rewrite upd_upd.
    destruct (block_inv base size other s qs c (fun p => set_state BLOCKED (set_parent_waiting 1 p)) Hinv Hc0) as (qs' & c' & H & Hne & _).
    { intros p. simpl. auto 10. }
    exists qs', c'. split; [done|]. split; [done|]. split; [by exists i|]. intros j Hj. apply Hz. by apply slots_elem.
  - exists qs, c. destruct (Hreap i Hsc) as (H1 & H2 & H3). destruct Hsc as (_ & Hch & Hz).
    split; [done|]. split; [done|]. by exists i.
  - destruct Hsc as [_ Hno]. exists qs, c. split; [done|]. split; [done|]. split; [|done]. intros i Hi. by apply Hno, slots_elem.
Qed.

Lemma resume_inv base size other s qs c : proc_inv base size other s qs c ->
  proc_inv base size other (process_wait_resume s) qs c.
Proof.
  intros Hinv. pose proof (proj1 (pv_sched _ _ _ _ _ _ Hinv)) as Hc. unfold process_wait_resume.
  rewrite (co_current _ _ _ Hc). by apply inv_fields; [|apply (co_cur_slot _ _ _ Hc)|].
Qed.

(** ** Traces *)

(** One operation of the running process, one timer interrupt, or one store of the
    running process into a stack of its own. Idle does not exit, wait or sleep, and the
    pid counter has not wrapped around. *)
Inductive proc_step (te tr : Z) : sys -> sys -> Prop :=
| st_create name entry arg prio s r s' :
    0 <= prio -> next_pid s + 1 < 2 ^ 32 -> process_create te name entry arg prio s = Some (r, s') ->
    proc_step te tr s s'
| st_create_user name entry prio s r s' :
    level prio -> next_pid s + 1 < 2 ^ 32 -> process_create_user te tr name entry prio s = Some (r, s') ->
    proc_step te tr s s'
| st_exit code s : current_process s <> Some 0%nat -> proc_step te tr s (process_exit code s)
| st_kill pid s r s' : process_kill pid s = Some (r, s') ->
    (current_process s = Some 0%nat -> r <> None) -> proc_step te tr s s'
| st_wait s : current_process s <> Some 0%nat -> proc_step te tr s (snd (process_wait s))
| st_resume s : proc_step te tr s (process_wait_resume s)
| st_sleep ms s : current_process s <> Some 0%nat -> ms <> 0 -> proc_step te tr s (process_sleep ms s)
| st_yield s : proc_step te tr s (scheduler_yield s)
| st_tick s s' : timer_handler s = Some s' -> proc_step te tr s s'
| st_store c b x v s : current_process s = Some c -> stack_at s (c, b) <> 0 ->
    stack_at s (c, b) <= x < stack_at s (c, b) + STACK_SIZE ->
    proc_step te tr s (with_kheap (with_mem (kheap s) (st (h_mem (kheap s)) x v)) s).

Lemma store_inv_sys base size other s qs c i b x v : proc_inv base size other s qs c -> (i < PROCESS_MAX)%nat ->
  stack_at s (i, b) <> 0 -> stack_at s (i, b) <= x < stack_at s (i, b) + STACK_SIZE ->
  proc_inv base size other (with_kheap (with_mem (kheap s) (st (h_mem (kheap s)) x v)) s) qs c.
Proof.
  intros Hinv Hi Hnz Hx. apply (other_inv _ _ other); [done|].
  destruct (pv_stacks _ _ _ _ _ _ Hinv) as (live & l & Hh & Ho). exists live, l. split.
  - destruct (ow_live _ _ _ Ho (i, b) Hi Hnz) as [Hl _]. by apply (store_inv _ _ _ _ _ (stack_at s (i, b)) STACK_SIZE).
  - destruct Ho as [O1 O2 O3 O4 O5]. by split.
Qed.

Lemma create_any base size other te name entry arg prio s qs c r s' : proc_inv base size other s qs c -> 0 <= prio ->
  next_pid s + 1 < 2 ^ 32 -> process_create te name entry arg prio s = Some (r, s') ->
  exists qs', proc_inv base size other s' qs' c.
Proof.
  intros Hinv Hp Hn E. destruct (decide (entry = 0 \/ PRIORITY_LEVELS <= prio)) as [Hbad|Hgood].
  - unfold process_create in E. replace ((entry =? 0) || (PRIORITY_LEVELS <=? prio)) with true in E
      by (symmetry; apply orb_true_iff; rewrite Z.eqb_eq, Z.leb_le; tauto).
    injection E as <- <-. by exists qs.
  - assert (entry <> 0 /\ level prio) as [He Hl] by (unfold level, PRIORITY_LEVELS in *; lia).
    destruct (create_proc_spec base size other te name entry arg prio s qs c Hinv He Hl Hn) as (r1 & s1 & E1 & H).
    rewrite E1 in E. injection E as -> ->. destruct r as [i|]; [destruct H as [_ H _ _ _]|destruct H as [H _]]; by eexists.
Qed.

Lemma proc_step_inv base size other te tr s qs c s' : tr <> 0 -> proc_inv base size other s qs c ->
  proc_step te tr s s' -> exists qs' c', proc_inv base size other s' qs' c'.
Proof.
  intros Htr Hinv Hst. pose proof (co_current _ _ _ (proj1 (pv_sched _ _ _ _ _ _ Hinv))) as Hcur.
  assert (current_process s <> Some 0%nat -> c <> 0%nat) as Hc0 by (intros H ->; done).
  destruct Hst as [name entry arg prio s r s' Hp Hn E|name entry prio s r s' Hp Hn E|code s H|pid s r s' E _|s H|s|ms s H Hms|s|s s' E|c' b x v s E Hnz Hx].
  - destruct (create_any _ _ _ _ _ _ _ _ _ _ _ _ _ Hinv Hp Hn E) as (qs' & H). by exists qs', c.
  - destruct (create_user_spec base size other te tr name entry prio s qs c Hinv Htr Hp Hn) as (r1 & s1 & E1 & H).
    rewrite E1 in E. injection E as -> ->. destruct r as [i|]; destruct H as [H _]; by eexists _, _.
  - destruct (exit_inv base size other s qs c code Hinv (Hc0 H)) as (qs' & c' & H' & _). by exists qs', c'.
  - destruct (kill_inv base size other s qs c pid Hinv) as (r1 & s1 & qs' & c' & E1 & H & _).
    rewrite E1 in E. injection E as -> ->. by exists qs', c'.
  - destruct (wait_inv base size other s qs c Hinv (Hc0 H)) as (qs' & c' & H' & _). by exists qs', c'.
  - exists qs, c. by apply resume_inv.
  - destruct (sleep_inv base size other s qs c ms Hinv (Hc0 H) Hms) as (qs' & c' & H' & _). by exists qs', c'.
  - apply (yield_inv base size other s qs c Hinv).
  - destruct (tick_inv base size other s qs c Hinv) as (s1 & qs' & c' & E1 & H). rewrite E1 in E. injection E as ->.
    by exists qs', c'.
  - assert (c' = c) as -> by congruence. exists qs, c. apply (store_inv_sys base size other s qs c c b); try done.
    apply (co_cur_slot _ _ _ (proj1 (pv_sched _ _ _ _ _ _ Hinv))).
Qed.

Lemma proc_trace_inv base size other te tr s s' : tr <> 0 -> rtc (proc_step te tr) s s' ->
  (exists qs c, proc_inv base size other s qs c) -> exists qs c, proc_inv base size other s' qs c.
Proof.
  intros Htr Hr. induction Hr as [s|s1 s2 s3 Hst _ IH]; [done|]. intros (qs & c & H).
  apply IH. by apply (proc_step_inv _ _ _ te tr s1 qs c).
Qed.

(** The system after [heap_init], [process_init] and [scheduler_start]. *)
Definition boot_state (d start size : Z) (h : heap) : sys := scheduler_start (boot_sys (heap_init d start size h)).

Lemma boot_fields h : kheap (boot_sys h) = h /\ next_pid (boot_sys h) = 1.
Proof. split; reflexivity. Qed.

Lemma boot_table h i : (i < PROCESS_MAX)%nat -> p_kstack (proc (boot_sys h) i) = 0 /\ p_ustack (proc (boot_sys h) i) = 0.
Proof.
  intros Hi. unfold PROCESS_MAX in Hi.
  do 64 (destruct i as [|i]; [split; vm_compute; reflexivity|]). lia.
Qed.

Lemma start_fields s : (forall i, proc (scheduler_start s) i = proc s i) /\ next_pid (scheduler_start s) = next_pid s /\
  kheap (scheduler_start s) = kheap s /\ started (scheduler_start s) = true.
Proof. by split_and!. Qed.

Lemma boot_unused h i : (i < PROCESS_MAX)%nat -> i <> 0%nat -> p_state (proc (boot_sys h) i) = UNUSED.
Proof.
  destruct (process_init_inv (Sys (replicate 64 zero_process) 1 None [None; None; None] [None; None; None] false 0 0 0 0x9000 h))
    as (_ & Hun & _); [done..|]. apply Hun.
Qed.

#[local] Opaque process_init boot_sys scheduler_start.

Lemma boot_proc_inv d start size h : good_region start size ->
  proc_inv start size ∅ (boot_state d start size h) no_queues 0.
Proof.
  intros Hg. set (h1 := heap_init d start size h). pose proof (boot_inv h1) as [Hc Hr].
  pose proof (boot_unused h1) as Hun.
  destruct (start_fields (boot_sys h1)) as (E & En & Eh & Es). destruct (boot_fields h1) as [Bh Bn].
  unfold boot_state. fold h1. split.
  - split; [by apply start_core|]. by rewrite E.
  - exact Es.
  - rewrite E. assert (p_quantum_left (proc (boot_sys h1) 0) = SCHED_QUANTUM_TICKS) as -> by (vm_compute; reflexivity).
    unfold SCHED_QUANTUM_TICKS. lia.
  - exists ∅, [Block (size - 16) true]. rewrite Eh, Bh. split; [by apply heap_init_inv|]. split; try done.
    + intros [i b] Hi Hnz. destruct (boot_table h1 i Hi) as [E1 E2]. unfold stack_at in Hnz. simpl in Hnz. rewrite E in Hnz.
      by destruct b.
    + intros [i b] y Hi _ _ Hnz. destruct (boot_table h1 i Hi) as [E1 E2]. unfold stack_at in Hnz. simpl in Hnz. rewrite E in Hnz.
      by destruct b.
    + intros i Hi _. rewrite E. by apply boot_table.
  - split.
    + intros i Hi Hu. rewrite E in Hu |- *. destruct (decide (i = 0%nat)) as [->|Hne]; [|by rewrite Hun in Hu].
      assert (p_pid (proc (boot_sys h1) 0) = 0) as -> by (vm_compute; reflexivity).
      rewrite En, Bn. lia.
    + intros i j Hi Hj Hu Hv _. rewrite E in Hu, Hv.
      destruct (decide (i = 0%nat)) as [->|Hne]; [|by rewrite Hun in Hu].
      destruct (decide (j = 0%nat)) as [->|Hne]; [done|by rewrite Hun in Hv].
Qed.

(** *** A small run: a thread is created, runs, creates a child and kills it. *)
Definition small_boot : sys := boot_state 0x8000 0x100000 0x20000 (Heap ∅ 0x8000 65536 0).
Definition after (r : option (option nat * sys)) (s : sys) : sys := match r with Some (_, s') => s' | None => s end.
Definition run1 : sys := after (process_create 0x5000 None 0x6000 7 1 small_boot) small_boot.
Definition run2 : sys := scheduler_yield run1.
Definition run3 : sys := after (process_create 0x5000 None 0x6000 8 1 run2) run2.
Definition run4 : sys := match process_kill 2 run3 with Some (_, s') => s' | None => run3 end.

Lemma small_region : good_region 0x100000 0x20000.
Proof. unfold good_region. lia. Qed.

Lemma small_steps : rtc (proc_step 0x5000 0x5100) small_boot run1 /\ rtc (proc_step 0x5000 0x5100) run1 run2 /\
  rtc (proc_step 0x5000 0x5100) run2 run3 /\ rtc (proc_step 0x5000 0x5100) run3 run4.
Proof.
  split_and!; apply rtc_once.
  - apply (st_create _ _ None 0x6000 7 1 _ (Some 1%nat)); [lia|vm_compute; reflexivity|vm_compute; reflexivity].
  - apply st_yield.
  - apply (st_create _ _ None 0x6000 8 1 _ (Some 2%nat)); [lia|vm_compute; reflexivity|vm_compute; reflexivity].
  - apply (st_kill _ _ 2 _ (Some 0)); [vm_compute; reflexivity|]. intros _. done.
Qed.

Lemma small_trace : rtc (proc_step 0x5000 0x5100) small_boot run2 /\ rtc (proc_step 0x5000 0x5100) small_boot run4.
Proof.
  destruct small_steps as (S1 & S2 & S3 & S4). split.
  - transitivity run1; [exact S1|exact S2].
  - transitivity run1; [exact S1|]. transitivity run2; [exact S2|]. transitivity run3; [exact S3|exact S4].
Qed.

#[local] Opaque run1 run2 run3 run4.

Lemma run_inv s : rtc (proc_step 0x5000 0x5100) small_boot s ->
  exists qs c, proc_inv 0x100000 0x20000 ∅ s qs c /\ current_process s = Some c.
Proof.
  intros Hr. destruct (proc_trace_inv 0x100000 0x20000 ∅ 0x5000 0x5100 _ _ ltac:(done) Hr) as (qs & c & H).
  { exists no_queues, 0%nat. apply boot_proc_inv, small_region. }
  exists qs, c. split; [done|]. apply (co_current _ _ _ (proj1 (pv_sched _ _ _ _ _ _ H))).
Qed.

Lemma run2_inv : exists qs, proc_inv 0x100000 0x20000 ∅ run2 qs 1.
Proof.
  destruct (run_inv run2 (proj1 small_trace)) as (qs & c & H & E).
  assert (current_process run2 = Some 1%nat) as E' by (vm_compute; reflexivity).
  rewrite E' in E. injection E as <-. by exists qs.
Qed.
Lemma run4_inv : exists qs, proc_inv 0x100000 0x20000 ∅ run4 qs 1.
Proof.
  destruct (run_inv run4 (proj2 small_trace)) as (qs & c & H & E).
  assert (current_process run4 = Some 1%nat) as E' by (vm_compute; reflexivity).
  rewrite E' in E. injection E as <-. by exists qs.
Qed.

(** Without stacks in use the heap is one free block. *)
Lemma no_stacks_heap base size s : stacks_ok base size ∅ s ->
  (forall i, (i < PROCESS_MAX)%nat -> p_kstack (proc s i) = 0 /\ p_ustack (proc s i) = 0) ->
  exists n, heap_rep (kheap s) [Block n true].
Proof.
  intros (live & l & Hh & Ho) Hz.
  assert (live = ∅) as ->.
  { apply map_empty. intros p. destruct (live !! p) as [k|] eqn:E; [|done].
    destruct (ow_all _ _ _ Ho p k E) as [?|([i b] & Hi & Ep)]; [done|]. destruct (Hz i Hi) as [E1 E2].
    pose proof (live_range _ _ _ _ _ _ _ Hh E) as (_ & _ & _ & Hp). unfold stack_at in Ep. simpl in Ep. destruct b; congruence. }
  destruct (packed_all_free base l) as [n ->]; [apply (hi_packed _ _ _ _ _ Hh)|apply (hr_some _ _ (hi_rep _ _ _ _ _ Hh))| |].
  - intros p n Hal. by destruct (hi_all _ _ _ _ _ Hh p n Hal).
  - exists n. apply (hi_rep _ _ _ _ _ Hh).
Qed.

Lemma stacks_apart base size other s x y : stacks_ok base size other s -> (fst x < PROCESS_MAX)%nat ->
  (fst y < PROCESS_MAX)%nat -> x <> y -> stack_at s x <> 0 -> stack_at s y <> 0 ->
  base + 16 <= stack_at s x /\ stack_at s x + STACK_SIZE <= base + size /\
  (stack_at s x + STACK_SIZE <= stack_at s y \/ stack_at s y + STACK_SIZE <= stack_at s x).
Proof.
  intros (live & l & Hh & Ho) Hx Hy Hne Nx Ny. destruct (ow_live _ _ _ Ho x Hx Nx) as [Lx _].
  destruct (ow_live _ _ _ Ho y Hy Ny) as [Ly _]. pose proof (live_range _ _ _ _ _ _ _ Hh Lx) as (_ & ? & ? & _).
  split; [done|]. split; [done|]. apply (live_apart _ _ _ _ _ _ _ _ _ Hh Lx Ly).
  intros E. apply Hne. by apply (ow_inj _ _ _ Ho).
Qed.

(** ** Properties *)



(** [process_create] with a valid entry and priority always returns. It fails, with
    no slot or memory taken, exactly for lack of stack memory or of a free slot;
    otherwise a free slot becomes a READY process at the back of its queue, with a fresh
    pid, the caller as parent, and a stack whose top holds the frame that
    [context_switch] pops: four zero registers, EFLAGS with interrupts on, the entry
    point, then [process_thread_exit] as return address and the argument. No other
    process changes. *)
Theorem process_create_correct base size other te name entry arg prio s qs c :
  proc_inv base size other s qs c -> entry <> 0 -> level prio -> next_pid s + 1 < 2 ^ 32 ->
  exists r s', process_create te name entry arg prio s = Some (r, s') /\
  match r with
  | Some i =>
      (i < PROCESS_MAX)%nat /\ i <> c /\ p_state (proc s i) = UNUSED /\
      proc_inv base size other s' (push prio i qs) c /\ next_pid s' = next_pid s + 1 /\
      (forall j, j <> i -> pub (proc s' j) = pub (proc s j)) /\
      exists stack, pub (proc s' i) =
          pub (new_thread (thread_name name) (next_pid s) (p_pid (proc s c)) prio stack) /\
        (fun n => ld (h_mem (kheap s')) (p_esp (proc s' i) + 4 * n)) <$> seqZ 0 8 =
          [0; 0; 0; 0; 0x202; entry; te; arg]
  | None => proc_inv base size other s' qs c /\ (forall j, proc s' j = proc s j) /\
      ((exists h, kmalloc PROCESS_KSTACK_SIZE (kheap s) = Some (0, h)) \/
       forall i, (i < PROCESS_MAX)%nat -> p_state (proc s i) <> UNUSED)
  end.
Proof.
  intros Hinv He Hl Hn. destruct (create_proc_spec base size other te name entry arg prio s qs c Hinv He Hl Hn) as (r & s' & E & H).
  exists r, s'. split; [done|]. destruct r as [i|].
  - destruct H as [(Hi & Hic & Hu) Hinv' (stack & Hp & Hw) Ho Hnx].
    split; [done|]. split; [done|]. split; [done|]. split; [done|]. split; [done|]. split; [done|].
    exists stack. split; [done|].
    assert (p_esp (proc s' i) = stack + STACK_SIZE - 32) as ->.
    { revert Hp. generalize (thread_name name). intros nm. destruct (proc s' i). unfold pub, set_next, new_thread. simpl. by intros [=]. }
    change (seqZ 0 8) with [0; 1; 2; 3; 4; 5; 6; 7]. cbn [fmap list_fmap].
    assert (forall n v, frame_words te entry arg !! n = Some v ->
      ld (h_mem (kheap s')) (stack + STACK_SIZE - 32 + 4 * (7 - Z.of_nat n)) = v) as Hw'
      by (intros n v Hv; rewrite <- (Hw n v Hv); f_equal; lia).
    by rewrite (Hw' 7%nat 0 eq_refl : ld _ (_ + 4 * 0) = 0), (Hw' 6%nat 0 eq_refl : ld _ (_ + 4 * 1) = 0),
      (Hw' 5%nat 0 eq_refl : ld _ (_ + 4 * 2) = 0), (Hw' 4%nat 0 eq_refl : ld _ (_ + 4 * 3) = 0),
      (Hw' 3%nat _ eq_refl : ld _ (_ + 4 * 4) = _), (Hw' 2%nat _ eq_refl : ld _ (_ + 4 * 5) = _),
      (Hw' 1%nat _ eq_refl : ld _ (_ + 4 * 6) = _), (Hw' 0%nat _ eq_refl : ld _ (_ + 4 * 7) = _).
  - by destruct H as (H1 & _ & H2 & H3).
Qed.

Lemma process_create_correct_witness :
  exists r s', process_create 0x5000 None 0x6000 7 1 small_boot = Some (r, s') /\ r = Some 1%nat /\
    (fun n => ld (h_mem (kheap s')) (p_esp (proc s' 1) + 4 * n)) <$> seqZ 0 8 = [0; 0; 0; 0; 0x202; 0x6000; 0x5000; 7].
Proof.
  destruct (process_create_correct 0x100000 0x20000 ∅ 0x5000 None 0x6000 7 1 small_boot no_queues 0
    (boot_proc_inv _ _ _ _ small_region)) as (r & s' & E & H).
  - discriminate.
  - split; discriminate || reflexivity.
  - vm_compute. reflexivity.
  - exists r, s'. split; [exact E|].
    assert (r = Some 1%nat) as -> by (vm_compute in E; injection E as <- _; reflexivity).
    split; [reflexivity|]. destruct H as (_ & _ & _ & _ & _ & _ & stack & _ & Hw). exact Hw.
Defined.

(** A user process gets a second stack of its own: [process_create_user] either
    leaves no trace (both allocations undone), or the new process carries a 16-byte
    aligned user stack pointer inside its user stack and enters the kernel-side
    trampoline first. *)
Theorem process_create_user_correct base size other te tr name entry prio s qs c :
  proc_inv base size other s qs c -> tr <> 0 -> level prio -> next_pid s + 1 < 2 ^ 32 ->
  exists r s', process_create_user te tr name entry prio s = Some (r, s') /\
  match r with
  | Some i =>
      (i < PROCESS_MAX)%nat /\ p_state (proc s i) = UNUSED /\
      proc_inv base size other s' (push prio i qs) c /\
      (forall j, j <> i -> pub (proc s' j) = pub (proc s j)) /\
      p_is_user (proc s' i) = 1 /\ p_user_entry (proc s' i) = entry /\ p_pid (proc s' i) = next_pid s /\
      p_ustack (proc s' i) <= p_ustack_top (proc s' i) <= p_ustack (proc s' i) + STACK_SIZE - 16 /\
      p_ustack_top (proc s' i) mod 16 = 0
  | None => proc_inv base size other s' qs c /\ forall j, proc s' j = proc s j
  end.
Proof.
  intros Hinv Htr Hl Hn. destruct (create_user_spec base size other te tr name entry prio s qs c Hinv Htr Hl Hn) as (r & s' & E & H).
  exists r, s'. split; [done|]. destruct r as [i|]; [|by destruct H as (H1 & _ & H2)].
  destruct H as (Hinv' & Hi & Hu & Ho & Hnx & kst & ust & Hp & _).
  split; [done|]. split; [done|]. split; [done|]. split; [done|].
  assert (p_ustack (proc s' i) = ust /\ p_is_user (proc s' i) = 1 /\ p_user_entry (proc s' i) = entry /\
    p_pid (proc s' i) = next_pid s /\
    p_ustack_top (proc s' i) = u32 (Z.land (u32 (ust + STACK_SIZE)) (Z.lnot 0xF) - 16)) as (E1 & E2 & E3 & E4 & E5).
  { revert Hp. generalize (thread_name name). intros nm. destruct (proc s' i). unfold pub, set_next, new_thread, with_user. simpl. by intros [=]. }
  split; [done|]. split; [done|]. split; [done|].
  destruct (pv_stacks _ _ _ _ _ _ Hinv') as (live & l & Hh & Hown).
  assert (ust <> 0 -> 0 < ust /\ ust + STACK_SIZE < 2 ^ 32) as Hb.
  { intros Hnz. rewrite <- E1 in Hnz. destruct (ow_live _ _ _ Hown (i, false) Hi Hnz) as [Hlv _].
    change (stack_at s' (i, false)) with (p_ustack (proc s' i)) in Hlv. rewrite E1 in Hlv.
    pose proof (live_range _ _ _ _ _ _ _ Hh Hlv) as (_ & Hb1 & Hb2 & _).
    pose proof (hr_base _ _ (hi_rep _ _ _ _ _ Hh)) as Hb0. pose proof (hr_bound _ _ (hi_rep _ _ _ _ _ Hh)) as Hbd.
    rewrite (hi_base _ _ _ _ _ Hh) in Hb0, Hbd. rewrite (hi_size _ _ _ _ _ Hh) in Hbd. lia. }
  assert (0 <= ust /\ ust + STACK_SIZE < 2 ^ 32) as [Hb1 Hb2].
  { destruct (decide (ust = 0)) as [->|Hnz]; [unfold STACK_SIZE; lia|]. specialize (Hb Hnz). lia. }
  rewrite E5, E1, (u32_small (ust + STACK_SIZE)) by (unfold is_u32, STACK_SIZE in *; lia).
  replace (Z.land (ust + STACK_SIZE) (Z.lnot 0xF)) with (16 * ((ust + STACK_SIZE) / 16)).
  2: { rewrite <- Z.ldiff_land. change 0xF with (Z.ones 4). rewrite Z.ldiff_ones_r by lia.
       rewrite Z.shiftl_mul_pow2, Z.shiftr_div_pow2 by lia. change (2 ^ 4) with 16. lia. }
  clear - Hb1 Hb2. unfold STACK_SIZE in *. rewrite u32_small by wsolve. dlia.
Qed.

Lemma process_create_user_correct_witness :
  exists r s', process_create_user 0x5000 0x5100 None 0x7000 1 small_boot = Some (r, s') /\ r = Some 1%nat /\
    p_ustack_top (proc s' 1) mod 16 = 0.
Proof.
  destruct (process_create_user_correct 0x100000 0x20000 ∅ 0x5000 0x5100 None 0x7000 1 small_boot no_queues 0
    (boot_proc_inv _ _ _ _ small_region)) as (r & s' & E & H).
  - discriminate.
  - split; discriminate || reflexivity.
  - vm_compute. reflexivity.
  - exists r, s'. split; [exact E|].
    assert (r = Some 1%nat) as -> by (vm_compute in E; injection E as <- _; reflexivity).
    split; [reflexivity|]. apply H.
Defined.

(** [process_exit] never leaves the caller running: another process takes over, the
    caller is a zombie with the given exit code and without a user stack, and a parent
    blocked in [process_wait] is ready or already running. *)
Theorem process_exit_correct base size other s qs c code :
  proc_inv base size other s qs c -> c <> 0%nat ->
  exists qs' n, proc_inv base size other (process_exit code s) qs' n /\ n <> c /\
    (exists v, pub (proc (process_exit code s) c) = pub (set_esp v (zombie_of code (proc s c)))) /\
    (forall p, process_by_pid (p_ppid (proc s c)) s = Some p -> p_parent_waiting (proc s p) <> 0 ->
       p_state (proc s p) = BLOCKED -> p_state (proc (process_exit code s) p) = READY \/ p = n).
Proof. apply exit_inv. Qed.

Lemma process_exit_correct_witness :
  exists qs' n, proc_inv 0x100000 0x20000 ∅ (process_exit 3 run2) qs' n /\ n <> 1%nat.
Proof.
  destruct run2_inv as [qs H].
  destruct (process_exit_correct 0x100000 0x20000 ∅ run2 qs 1 3 H ltac:(discriminate)) as (qs' & n & H1 & H2 & _).
  exists qs', n. split; [exact H1|exact H2].
Defined.

(** [process_kill] always returns or exits. On success the victim, found by its pid,
    is a zombie with exit code -1 that no queue holds; the invariant, and with it the
    ownership of every stack, is kept on every path. *)
Theorem process_kill_correct base size other s qs c pid : proc_inv base size other s qs c ->
  exists r s' qs' n, process_kill pid s = Some (r, s') /\ proc_inv base size other s' qs' n /\
    (r = Some 0 -> exists i, process_by_pid pid s = Some i /\ p_state (proc s' i) = ZOMBIE /\
       p_exit_code (proc s' i) = -1 /\ ~ queued qs' i).
Proof.
  intros Hinv. destruct (kill_inv base size other s qs c pid Hinv) as (r & s' & qs' & n & E & H & Hr).
  exists r, s', qs', n. split; [done|]. split; [done|]. intros Hr0. destruct (Hr Hr0) as (i & Hi & Hz & Hx).
  exists i. split; [done|]. split; [done|]. split; [done|]. intros Hq.
  destruct (core_slot _ _ _ i (proj1 (pv_sched _ _ _ _ _ _ H)) Hq) as (_ & _ & ?). congruence.
Qed.

Lemma process_kill_correct_witness :
  exists r s' qs' n, process_kill 1 run2 = Some (r, s') /\ proc_inv 0x100000 0x20000 ∅ s' qs' n.
Proof.
  destruct run2_inv as [qs H].
  destruct (process_kill_correct 0x100000 0x20000 ∅ run2 qs 1 1 H) as (r & s' & qs' & n & H1 & H2 & _).
  exists r, s', qs', n. split; [exact H1|exact H2].
Defined.

(** One round of [process_wait]: a zombie child is reaped, its pid and exit code
    returned and its slot freed; without children -1 is returned and nothing changes;
    with only live children the caller blocks and another process runs. *)
Theorem process_wait_correct base size other s qs c : proc_inv base size other s qs c -> c <> 0%nat ->
  exists qs' n, proc_inv base size other (snd (process_wait s)) qs' n /\
  match fst (process_wait s) with
  | WaitReaped pid st => n = c /\ exists i, (i < PROCESS_MAX)%nat /\ child s c i /\ p_state (proc s i) = ZOMBIE /\
      pid = s32 (p_pid (proc s i)) /\ st = p_exit_code (proc s i) /\ p_state (proc (snd (process_wait s)) i) = UNUSED
  | WaitNoChildren => n = c /\ (forall i, (i < PROCESS_MAX)%nat -> ~ child s c i) /\ snd (process_wait s) = s
  | WaitBlocked => n <> c /\ (exists i, (i < PROCESS_MAX)%nat /\ child s c i) /\
      forall i, (i < PROCESS_MAX)%nat -> child s c i -> p_state (proc s i) <> ZOMBIE
  end.
Proof. apply wait_inv. Qed.

Lemma process_wait_correct_witness :
  fst (process_wait run4) = WaitReaped 2 (-1) /\
  exists qs', proc_inv 0x100000 0x20000 ∅ (snd (process_wait run4)) qs' 1.
Proof.
  assert (fst (process_wait run4) = WaitReaped 2 (-1)) as E by (vm_compute; reflexivity).
  split; [exact E|]. destruct run4_inv as [qs H].
  destruct (process_wait_correct 0x100000 0x20000 ∅ run4 qs 1 H ltac:(discriminate)) as (qs' & n & H1 & H2).
  rewrite E in H2. destruct H2 as [-> _]. exists qs'. exact H1.
Defined.

(** [process_sleep] puts the caller to sleep until the tick that ends its interval,
    rounded up to 10 ms; but from [ms = 2^32 - 9] on the 32-bit sum wraps around and the
    deadline is the current tick. *)
Theorem process_sleep_correct base size other s qs c ms : proc_inv base size other s qs c -> c <> 0%nat ->
  0 < ms < 2 ^ 32 -> 0 <= timer_ticks s < 2 ^ 63 ->
  exists qs' n, proc_inv base size other (process_sleep ms s) qs' n /\ n <> c /\
    p_state (proc (process_sleep ms s) c) = SLEEPING /\
    p_sleep_until (proc (process_sleep ms s) c) =
      timer_ticks s + (if ms <? 2 ^ 32 - 9 then (ms + 9) / 10 else 0).
Proof.
  intros Hinv Hc0 Hms Ht. destruct (sleep_inv base size other s qs c ms Hinv Hc0 ltac:(lia)) as (qs' & n & H & Hne & v & Hp).
  exists qs', n. split; [done|]. split; [done|].
  destruct (pub_fields _ _ Hp) as (_ & _ & F3 & _ & _ & _ & _ & _ & _ & F10 & _). rewrite F3, F10. split; [done|]. simpl.
  assert (u32 (ms + 9) / 10 = if ms <? 2 ^ 32 - 9 then (ms + 9) / 10 else 0) as ->.
  { destruct (Z.ltb_spec ms (2 ^ 32 - 9)) as [Hlt|Hge]; [by rewrite u32_small by wsolve|].
    unfold u32. replace (ms + 9) with (ms + 9 - 2 ^ 32 + 1 * 2 ^ 32) by lia. rewrite Z_mod_plus_full, Z.mod_small by lia.
    apply Z.div_small. lia. }
  unfold u64. apply Z.mod_small. change (2 ^ 63) with 9223372036854775808 in Ht. change (2 ^ 64) with 18446744073709551616.
  change (2 ^ 32) with 4294967296 in *. zcases; dlia.
Qed.

Lemma process_sleep_correct_witness :
  p_sleep_until (proc (process_sleep 25 run2) 1) = timer_ticks run2 + 3 /\
  p_sleep_until (proc (process_sleep (2 ^ 32 - 1) run2) 1) = timer_ticks run2.
Proof.
  destruct run2_inv as [qs H].
  assert (0 <= timer_ticks run2 < 2 ^ 63) as Ht by (vm_compute; split; discriminate || reflexivity).
  destruct (process_sleep_correct 0x100000 0x20000 ∅ run2 qs 1 25 H ltac:(discriminate) ltac:(lia) Ht) as (q1 & n1 & _ & _ & _ & E1).
  destruct (process_sleep_correct 0x100000 0x20000 ∅ run2 qs 1 (2 ^ 32 - 1) H ltac:(discriminate) ltac:(lia) Ht) as (q2 & n2 & _ & _ & _ & E2).
  split; [exact E1|]. rewrite E2. apply Z.add_0_r.
Defined.
