(* ===== verification/Context.v ===== *)
(** * Context switching (arch/x86/context.S)

    The assembly routines as programs on the registers they touch and on the word
    memory: [context_switch], [enter_user_mode] and [fork_child_return]. The theorems
    connect them to the stack frames that [process_create] and the switch itself leave
    behind. *)
From S2P Require Import Prelude Mem Heap Proc Sched Process.

Record cpu := Cpu {
  r_eax : Z; r_ecx : Z; r_edx : Z; r_ebx : Z; r_esp : Z; r_ebp : Z; r_esi : Z; r_edi : Z;
  r_eip : Z; r_eflags : Z;
  r_cs : Z; r_ss : Z; r_ds : Z; r_es : Z; r_fs : Z; r_gs : Z
}.

(** A machine state: registers and memory. *)
Definition mach : Type := cpu * mem.

Definition KERNEL_CODE_SEGMENT : Z := 0x08.
Definition KERNEL_DATA_SEGMENT : Z := 0x10.
Definition USER_CODE_SELECTOR : Z := 0x1B.
Definition USER_DATA_SELECTOR : Z := 0x23.

(** Register assignments. *)
Definition w_esp (v : Z) (c : cpu) : cpu :=
  Cpu (r_eax c) (r_ecx c) (r_edx c) (r_ebx c) v (r_ebp c) (r_esi c) (r_edi c) (r_eip c) (r_eflags c)
    (r_cs c) (r_ss c) (r_ds c) (r_es c) (r_fs c) (r_gs c).
Definition w_eax (v : Z) (c : cpu) : cpu :=
  Cpu v (r_ecx c) (r_edx c) (r_ebx c) (r_esp c) (r_ebp c) (r_esi c) (r_edi c) (r_eip c) (r_eflags c)
    (r_cs c) (r_ss c) (r_ds c) (r_es c) (r_fs c) (r_gs c).
Definition w_ecx (v : Z) (c : cpu) : cpu :=
  Cpu (r_eax c) v (r_edx c) (r_ebx c) (r_esp c) (r_ebp c) (r_esi c) (r_edi c) (r_eip c) (r_eflags c)
    (r_cs c) (r_ss c) (r_ds c) (r_es c) (r_fs c) (r_gs c).
Definition w_edx (v : Z) (c : cpu) : cpu :=
  Cpu (r_eax c) (r_ecx c) v (r_ebx c) (r_esp c) (r_ebp c) (r_esi c) (r_edi c) (r_eip c) (r_eflags c)
    (r_cs c) (r_ss c) (r_ds c) (r_es c) (r_fs c) (r_gs c).
Definition w_ebx (v : Z) (c : cpu) : cpu :=
  Cpu (r_eax c) (r_ecx c) (r_edx c) v (r_esp c) (r_ebp c) (r_esi c) (r_edi c) (r_eip c) (r_eflags c)
    (r_cs c) (r_ss c) (r_ds c) (r_es c) (r_fs c) (r_gs c).
Definition w_ebp (v : Z) (c : cpu) : cpu :=
  Cpu (r_eax c) (r_ecx c) (r_edx c) (r_ebx c) (r_esp c) v (r_esi c) (r_edi c) (r_eip c) (r_eflags c)
    (r_cs c) (r_ss c) (r_ds c) (r_es c) (r_fs c) (r_gs c).
Definition w_esi (v : Z) (c : cpu) : cpu :=
  Cpu (r_eax c) (r_ecx c) (r_edx c) (r_ebx c) (r_esp c) (r_ebp c) v (r_edi c) (r_eip c) (r_eflags c)
    (r_cs c) (r_ss c) (r_ds c) (r_es c) (r_fs c) (r_gs c).
Definition w_edi (v : Z) (c : cpu) : cpu :=
  Cpu (r_eax c) (r_ecx c) (r_edx c) (r_ebx c) (r_esp c) (r_ebp c) (r_esi c) v (r_eip c) (r_eflags c)
    (r_cs c) (r_ss c) (r_ds c) (r_es c) (r_fs c) (r_gs c).
Definition w_eip (v : Z) (c : cpu) : cpu :=
  Cpu (r_eax c) (r_ecx c) (r_edx c) (r_ebx c) (r_esp c) (r_ebp c) (r_esi c) (r_edi c) v (r_eflags c)
    (r_cs c) (r_ss c) (r_ds c) (r_es c) (r_fs c) (r_gs c).
Definition w_eflags (v : Z) (c : cpu) : cpu :=
  Cpu (r_eax c) (r_ecx c) (r_edx c) (r_ebx c) (r_esp c) (r_ebp c) (r_esi c) (r_edi c) (r_eip c) v
    (r_cs c) (r_ss c) (r_ds c) (r_es c) (r_fs c) (r_gs c).
Definition w_cs (v : Z) (c : cpu) : cpu :=
  Cpu (r_eax c) (r_ecx c) (r_edx c) (r_ebx c) (r_esp c) (r_ebp c) (r_esi c) (r_edi c) (r_eip c) (r_eflags c)
    v (r_ss c) (r_ds c) (r_es c) (r_fs c) (r_gs c).
Definition w_ss (v : Z) (c : cpu) : cpu :=
  Cpu (r_eax c) (r_ecx c) (r_edx c) (r_ebx c) (r_esp c) (r_ebp c) (r_esi c) (r_edi c) (r_eip c) (r_eflags c)
    (r_cs c) v (r_ds c) (r_es c) (r_fs c) (r_gs c).
Definition w_data (v : Z) (c : cpu) : cpu :=
  Cpu (r_eax c) (r_ecx c) (r_edx c) (r_ebx c) (r_esp c) (r_ebp c) (r_esi c) (r_edi c) (r_eip c) (r_eflags c)
    (r_cs c) (r_ss c) v v v v.
Definition w_ds (v : Z) (c : cpu) : cpu :=
  Cpu (r_eax c) (r_ecx c) (r_edx c) (r_ebx c) (r_esp c) (r_ebp c) (r_esi c) (r_edi c) (r_eip c) (r_eflags c)
    (r_cs c) (r_ss c) v (r_es c) (r_fs c) (r_gs c).
Definition w_es (v : Z) (c : cpu) : cpu :=
  Cpu (r_eax c) (r_ecx c) (r_edx c) (r_ebx c) (r_esp c) (r_ebp c) (r_esi c) (r_edi c) (r_eip c) (r_eflags c)
    (r_cs c) (r_ss c) (r_ds c) v (r_fs c) (r_gs c).
Definition w_fs (v : Z) (c : cpu) : cpu :=
  Cpu (r_eax c) (r_ecx c) (r_edx c) (r_ebx c) (r_esp c) (r_ebp c) (r_esi c) (r_edi c) (r_eip c) (r_eflags c)
    (r_cs c) (r_ss c) (r_ds c) (r_es c) v (r_gs c).
Definition w_gs (v : Z) (c : cpu) : cpu :=
  Cpu (r_eax c) (r_ecx c) (r_edx c) (r_ebx c) (r_esp c) (r_ebp c) (r_esi c) (r_edi c) (r_eip c) (r_eflags c)
    (r_cs c) (r_ss c) (r_ds c) (r_es c) (r_fs c) v.

(** *** Instructions *)

Definition push (v : Z) (x : mach) : mach :=
  let sp := u32 (r_esp (fst x) - 4) in (w_esp sp (fst x), st (snd x) sp v).
Definition push_r (r : cpu -> Z) (x : mach) : mach := push (r (fst x)) x.
Definition pop (w : Z -> cpu -> cpu) (x : mach) : mach :=
  (w (ld (snd x) (r_esp (fst x))) (w_esp (u32 (r_esp (fst x) + 4)) (fst x)), snd x).
(** [mov off(%esp), reg], [mov %esp, (%eax)], [mov $v, %ax] and moves of a constant
    to the data segment registers. *)
Definition load_esp (off : Z) (w : Z -> cpu -> cpu) (x : mach) : mach :=
  (w (ld (snd x) (u32 (r_esp (fst x) + off))) (fst x), snd x).
Definition store_esp (x : mach) : mach := (fst x, st (snd x) (r_eax (fst x)) (r_esp (fst x))).
Definition mov_ax (v : Z) (x : mach) : mach := (w_eax (Z.lor (Z.land (r_eax (fst x)) 0xFFFF0000) v) (fst x), snd x).
Definition mov_data (v : Z) (x : mach) : mach := (w_data v (fst x), snd x).
Definition skip_word (x : mach) : mach := (w_esp (u32 (r_esp (fst x) + 4)) (fst x), snd x).
(** A segment register takes the low half of the word it is popped from. *)
Definition seg (w : Z -> cpu -> cpu) (v : Z) (c : cpu) : cpu := w (u16 v) c.
(** The part of [iret] that leaves for an outer privilege level: ESP and SS. *)
Definition pop_stack (x : mach) : mach :=
  (w_ss (u16 (ld (snd x) (u32 (r_esp (fst x) + 4)))) (w_esp (ld (snd x) (r_esp (fst x))) (fst x)), snd x).

Fixpoint run (code : list (mach -> mach)) (x : mach) : mach :=
  match code with [] => x | f :: code => run code (f x) end.

Definition iret_user : list (mach -> mach) := [pop w_eip; pop (seg w_cs); pop w_eflags; pop_stack].
Definition popa : list (mach -> mach) :=
  [pop w_edi; pop w_esi; pop w_ebp; skip_word; pop w_ebx; pop w_edx; pop w_ecx; pop w_eax].

Definition context_switch_asm : list (mach -> mach) :=
  [push_r r_eflags; push_r r_ebp; push_r r_ebx; push_r r_esi; push_r r_edi;
   load_esp 24 w_eax; store_esp;
   load_esp 28 w_esp;
   pop w_edi; pop w_esi; pop w_ebx; pop w_ebp; pop w_eflags; pop w_eip].

Definition enter_user_mode : list (mach -> mach) :=
  [load_esp 4 w_ecx; load_esp 8 w_edx;
   mov_ax USER_DATA_SELECTOR; mov_data USER_DATA_SELECTOR;
   push USER_DATA_SELECTOR; push_r r_edx; push 0x202; push USER_CODE_SELECTOR; push_r r_ecx] ++ iret_user.

Definition fork_child_return : list (mach -> mach) :=
  [pop (seg w_gs); pop (seg w_fs); pop (seg w_es); pop (seg w_ds)] ++ popa ++ iret_user.

(** *** Stepping *)

Lemma run_app l1 l2 x : run (l1 ++ l2) x = run l2 (run l1 x).
Proof. revert x. induction l1 as [|f l1 IH]; intros x; simpl; [done|]. apply IH. Qed.

Section Steps.
Variables (eax ecx edx ebx esp ebp esi edi eip fl cs ss ds es fs gs : Z) (m : mem).
Let c := Cpu eax ecx edx ebx esp ebp esi edi eip fl cs ss ds es fs gs.

Lemma push_step v : 4 <= esp < 2 ^ 32 -> push v (c, m) = (w_esp (esp - 4) c, st m (esp - 4) v).
Proof. intros H. unfold push. cbn [fst snd]. unfold c at 1 3. cbn [r_esp]. by rewrite u32_small by wsolve. Qed.
Lemma pop_step w : 0 <= esp < 2 ^ 32 - 4 -> pop w (c, m) = (w (ld m esp) (w_esp (esp + 4) c), m).
Proof. intros H. unfold pop. cbn [fst snd]. unfold c at 1 2. cbn [r_esp]. by rewrite u32_small by wsolve. Qed.
Lemma load_step off w : 0 <= esp + off < 2 ^ 32 -> load_esp off w (c, m) = (w (ld m (esp + off)) c, m).
Proof. intros H. unfold load_esp. cbn [fst snd]. unfold c at 1. cbn [r_esp]. by rewrite u32_small by wsolve. Qed.
Lemma skip_step : 0 <= esp < 2 ^ 32 - 4 -> skip_word (c, m) = (w_esp (esp + 4) c, m).
Proof. intros H. unfold skip_word. cbn [fst snd]. unfold c at 1. cbn [r_esp]. by rewrite u32_small by wsolve. Qed.
Lemma stack_step : 0 <= esp < 2 ^ 32 - 4 -> pop_stack (c, m) = (w_ss (u16 (ld m (esp + 4))) (w_esp (ld m esp) c), m).
Proof. intros H. unfold pop_stack. cbn [fst snd]. unfold c at 1 2. cbn [r_esp]. by rewrite u32_small by wsolve. Qed.
End Steps.

(** One instruction of a straight-line program on an explicit machine state. *)
Ltac asm_step :=
  match goal with |- context [run (?f :: ?l) ?x] => change (run (f :: l) x) with (run l (f x)) end;
  try match goal with |- context [push_r ?r (?c, ?m)] => change (push_r r (c, m)) with (push (r c) (c, m)) end;
  try match goal with |- context [store_esp (?c, ?m)] => change (store_esp (c, m)) with (c, st m (r_eax c) (r_esp c)) end;
  try match goal with |- context [mov_ax ?v (?c, ?m)] => change (mov_ax v (c, m)) with (w_eax (Z.lor (Z.land (r_eax c) 0xFFFF0000) v) c, m) end;
  try match goal with |- context [mov_data ?v (?c, ?m)] => change (mov_data v (c, m)) with (w_data v c, m) end;
  first [rewrite push_step by lia | rewrite pop_step by lia | rewrite load_step by lia
    | rewrite skip_step by lia | rewrite stack_step by lia | idtac];
  try match goal with |- context [seg ?w ?v ?c] => change (seg w v c) with (w (u16 v) c) end;
  cbv beta iota zeta delta [fst snd w_eax w_ecx w_edx w_ebx w_esp w_ebp w_esi w_edi w_eip w_eflags w_cs w_ss w_data w_ds w_es w_fs w_gs
       r_eax r_ecx r_edx r_ebx r_esp r_ebp r_esi r_edi r_eip r_eflags r_cs r_ss r_ds r_es r_fs r_gs].

(** ** Properties *)

(** The callee-saved part of a context. *)
Definition saved (c : cpu) : Z * Z * Z * Z * Z := (r_edi c, r_esi c, r_ebx c, r_ebp c, r_eflags c).

(** The words at [a], upward. *)
Definition words (m : mem) (a : Z) (n : nat) : list Z := (fun i => ld m (a + 4 * Z.of_nat i)) <$> seq 0 n.

(** A call of [context_switch(old_ptr, new_esp)]: the two arguments are above the return
    address, there is room for the frame below it, and the pointer is not into the
    frame. *)
Record switch_call (c : cpu) (m : mem) (old_ptr new_esp : Z) : Prop := {
  sc_room : 20 <= r_esp c /\ r_esp c + 12 < 2 ^ 32;
  sc_arg1 : ld m (r_esp c + 4) = old_ptr;
  sc_arg2 : ld m (r_esp c + 8) = new_esp;
  sc_new : 0 <= new_esp /\ new_esp + 24 < 2 ^ 32;
  sc_old : old_ptr + 4 <= r_esp c - 20 \/ r_esp c + 12 <= old_ptr
}.

(** The [n] bytes at [sp] are clear of the stack and of the pointer the call writes. *)
Definition frame_clear (c : cpu) (old_ptr sp n : Z) : Prop :=
  (sp + n <= r_esp c - 20 \/ r_esp c <= sp) /\ (old_ptr + 4 <= sp \/ sp + n <= old_ptr).

Section Switch.
Variables (c : cpu) (m : mem) (old_ptr new_esp : Z).
Hypothesis Hcall : switch_call c m old_ptr new_esp.

(** Memory when the outgoing context has been saved. *)
Definition saved_mem : mem :=
  st (st (st (st (st (st m (r_esp c - 4) (r_eflags c)) (r_esp c - 8) (r_ebp c)) (r_esp c - 12) (r_ebx c))
    (r_esp c - 16) (r_esi c)) (r_esp c - 20) (r_edi c)) old_ptr (r_esp c - 20).

Lemma switch_spec :
  run context_switch_asm (c, m) =
  (Cpu old_ptr (r_ecx c) (r_edx c) (ld saved_mem (new_esp + 8)) (new_esp + 24) (ld saved_mem (new_esp + 12))
     (ld saved_mem (new_esp + 4)) (ld saved_mem new_esp) (ld saved_mem (new_esp + 20)) (ld saved_mem (new_esp + 16))
     (r_cs c) (r_ss c) (r_ds c) (r_es c) (r_fs c) (r_gs c), saved_mem).
Proof.
  destruct Hcall as [[Hsp Hsp2] Ha1 Ha2 Hnew Hptr]. clear Hcall. unfold saved_mem. destruct c as [eax ecx edx ebx esp ebp esi edi eip fl cs ss ds es fs gs].
  cbn [r_esp r_eflags r_ebp r_ebx r_esi r_edi r_ecx r_edx r_cs r_ss r_ds r_es r_fs r_gs] in *.
  assert (forall n, 4 <= n <= 20 -> old_ptr <> esp - n) as Hn1 by lia.
  unfold context_switch_asm. do 5 asm_step. asm_step.
  replace (esp - 4 - 4 - 4 - 4 - 4 + 24) with (esp + 4) by lia. rewrite !(ld_st_ne _ _ (esp + 4)), Ha1 by lia.
  asm_step. asm_step. replace (esp - 4 - 4 - 4 - 4 - 4 + 28) with (esp + 8) by lia.
  rewrite !(ld_st_ne _ _ (esp + 8)), Ha2 by lia.
  replace (esp - 4 - 4 - 4 - 4 - 4) with (esp - 20) by lia. replace (esp - 4 - 4 - 4 - 4) with (esp - 16) by lia.
  replace (esp - 4 - 4 - 4) with (esp - 12) by lia. replace (esp - 4 - 4) with (esp - 8) by lia.
  set (m' := st _ old_ptr _). do 6 asm_step. cbn [run].
  replace (new_esp + 4 + 4 + 4 + 4 + 4 + 4) with (new_esp + 24) by lia.
  replace (new_esp + 4 + 4 + 4 + 4 + 4) with (new_esp + 20) by lia.
  replace (new_esp + 4 + 4 + 4 + 4) with (new_esp + 16) by lia.
  replace (new_esp + 4 + 4 + 4) with (new_esp + 12) by lia.
  replace (new_esp + 4 + 4) with (new_esp + 8) by lia. reflexivity.
Qed.

Lemma ld_st_at a b v m0 : a = b -> ld (st m0 a v) b = v.
Proof. intros ->. apply ld_st_eq. Qed.

(** What the switch leaves of the caller. *)
Lemma saved_frame :
  ld saved_mem old_ptr = r_esp c - 20 /\
  words saved_mem (r_esp c - 20) 6 = [r_edi c; r_esi c; r_ebx c; r_ebp c; r_eflags c; ld m (r_esp c)].
Proof.
  destruct Hcall as [[Hsp Hsp2] Ha1 Ha2 Hnew Hptr]. unfold saved_mem, words. split; [apply ld_st_eq|].
  cbn [seq fmap list_fmap]. replace (r_esp c - 20 + 4 * Z.of_nat 5) with (r_esp c) by lia.
  rewrite !(ld_st_ne _ _ (r_esp c)) by lia.
  repeat f_equal; repeat first [rewrite ld_st_ne by lia | rewrite ld_st_at by lia]; done.
Qed.

(** What it leaves of the frame of another context. *)
Lemma saved_other sp n a : frame_clear c old_ptr sp n -> sp <= a < sp + n -> ld saved_mem a = ld m a.
Proof. intros [H1 H2] Ha. unfold saved_mem. by rewrite !ld_st_ne by lia. Qed.
End Switch.

(** C18. A context survives being switched away from. If a thread calls [context_switch],
    and any later call switches to the stack pointer recorded for it, with its six frame
    words as they were left, then that later call returns to the first thread's caller
    with EDI, ESI, EBX, EBP and EFLAGS as they were and the stack popped by the return
    address. *)
Theorem context_switch_roundtrip c m old new c' m' old' :
  switch_call c m old new ->
  let m1 := snd (run context_switch_asm (c, m)) in
  let sp := ld m1 old in
  switch_call c' m' old' sp -> frame_clear c' old' sp 24 -> words m' sp 6 = words m1 sp 6 ->
  let r := fst (run context_switch_asm (c', m')) in
  saved r = saved c /\ r_eip r = ld m (r_esp c) /\ r_esp r = r_esp c + 4.
Proof.
  intros Hc m1 sp Hc' Hf Hw r.
  assert (m1 = saved_mem c m old) as E1 by (unfold m1; by rewrite (switch_spec c m old new Hc)).
  destruct (saved_frame c m old new Hc) as [Esp Ew]. rewrite <- E1 in Esp, Ew. fold sp in Esp.
  rewrite Esp in Hw. rewrite Ew in Hw. unfold words in Hw. cbn [seq fmap list_fmap] in Hw.
  assert (forall k, 0 <= k < 24 -> ld (saved_mem c' m' old') (sp + k) = ld m' (r_esp c - 20 + k)) as Hl.
  { intros k Hk. rewrite (saved_other c' m' old' sp 24) by (done || lia). by rewrite Esp. }
  pose proof (Hl 0 ltac:(lia)) as H0. rewrite (Z.add_0_r sp) in H0.
  injection Hw as W0 W1 W2 W3 W4 W5. unfold r, saved. rewrite (switch_spec c' m' old' sp Hc').
  cbn [fst r_edi r_esi r_ebx r_ebp r_eflags r_eip r_esp].
  rewrite <- W0, <- W1, <- W2, <- W3, <- W4, <- W5.
  rewrite H0, (Hl 4), (Hl 8), (Hl 12), (Hl 16), (Hl 20) by lia.
  split; [done|]. split; [done|]. lia.
Qed.

(** Two threads of a small machine: the first, at stack 0x2000, switches to the second,
    whose frame at 0x3000 is ready; the second then switches back. *)
Definition thread1 : cpu := Cpu 0 0 0 11 0x2000 12 13 14 0x100 0x246 8 16 16 16 16 16.
Definition threads : mem :=
  st (st (st (st (st (st ∅ 0x2000 0x777) 0x2004 0x9000) 0x2008 0x3000) 0x3014 0x888) 0x301C 0x9004) 0x3018 0x999.

Lemma context_switch_roundtrip_witness :
  let x := run context_switch_asm (thread1, threads) in
  let y := (w_esp 0x3018 (fst x), st (snd x) 0x3020 (ld (snd x) 0x9000)) in
  let r := fst (run context_switch_asm y) in
  saved r = (14, 13, 11, 12, 0x246) /\ r_eip r = 0x777 /\ r_esp r = 0x2004.
Proof.
  intros x y r.
  apply (context_switch_roundtrip thread1 threads 0x9000 0x3000 (fst y) (snd y) 0x9004).
  - constructor; vm_compute; first [split; congruence | reflexivity | right; congruence].
  - constructor; vm_compute; first [split; congruence | reflexivity | right; congruence].
  - split; vm_compute; [left|right]; congruence.
  - vm_compute. reflexivity.
Defined.

(** C19. A new kernel thread starts at its entry point. The first switch to a thread made
    by [process_create] ends at [entry] with cleared registers and interrupts enabled,
    on its own stack, where the two words are those of a C call of [entry]: the return
    address [process_thread_exit] and the argument. *)
Theorem first_switch_enters_thread base size other te name entry arg prio s qs cur i s' c m old :
  proc_inv base size other s qs cur -> entry <> 0 -> level prio -> next_pid s + 1 < 2 ^ 32 ->
  process_create te name entry arg prio s = Some (Some i, s') ->
  let sp := p_esp (proc s' i) in
  switch_call c m old sp -> frame_clear c old sp 32 -> same_on (h_mem (kheap s')) m sp 32 ->
  let x := run context_switch_asm (c, m) in
  saved (fst x) = (0, 0, 0, 0, 0x202) /\ r_eip (fst x) = entry /\
  r_esp (fst x) = p_kstack_top (proc s' i) - 8 /\ words (snd x) (r_esp (fst x)) 2 = [te; arg].
Proof.
  intros Hinv He Hl Hn E sp Hc Hf Hs.
  destruct (create_proc_spec base size other te name entry arg prio s qs cur Hinv He Hl Hn) as (r & s2 & E2 & H).
  rewrite E in E2. injection E2 as <- <-. destruct H as [_ _ (stack & Hp & Hw) _ _].
  assert (p_esp (proc s' i) = stack + STACK_SIZE - 32 /\ p_kstack_top (proc s' i) = stack + STACK_SIZE) as [Esp Etop].
  { revert Hp. generalize (thread_name name). intros nm. destruct (proc s' i). unfold pub, set_next, new_thread. simpl. by intros [=]. }
  assert (forall n v, frame_words te entry arg !! n = Some v -> ld (saved_mem c m old) (sp + (28 - 4 * Z.of_nat n)) = v) as Hv.
  { intros n v Hv. assert ((n < 8)%nat) as Hn8 by (apply lookup_lt_Some in Hv; exact Hv).
    rewrite (saved_other c m old sp 32) by (done || lia). rewrite (Hs (28 - 4 * Z.of_nat n)) by lia.
    rewrite <- (Hw n v Hv). f_equal. unfold sp. lia. }
  rewrite (switch_spec c m old sp Hc).
  pose proof (Hv 7%nat _ eq_refl) as H0. rewrite (Z.add_0_r sp : sp + (28 - 4 * Z.of_nat 7) = sp) in H0.
  unfold saved, words. cbn [fst snd r_edi r_esi r_ebx r_ebp r_eflags r_eip r_esp seq fmap list_fmap].
  rewrite H0, (Hv 6%nat _ eq_refl : ld _ (sp + 4) = _), (Hv 5%nat _ eq_refl : ld _ (sp + 8) = _),
    (Hv 4%nat _ eq_refl : ld _ (sp + 12) = _), (Hv 3%nat _ eq_refl : ld _ (sp + 16) = _),
    (Hv 2%nat _ eq_refl : ld _ (sp + 20) = _).
  replace (sp + 24 + 4 * Z.of_nat 0) with (sp + 24) by lia. replace (sp + 24 + 4 * Z.of_nat 1) with (sp + 28) by lia.
  rewrite (Hv 1%nat _ eq_refl : ld _ (sp + 24) = _), (Hv 0%nat _ eq_refl : ld _ (sp + 28) = _).
  split; [done|]. split; [done|]. split; [unfold sp; lia|done].
Qed.

(** The idle process, about to switch to a thread it has created on the small boot
    system; its own stack is below the heap. *)
Definition new_sys : sys :=
  match process_create 0x5000 None 0x6000 7 1 small_boot with Some (_, s) => s | None => small_boot end.
Definition new_call : mem := st (st (h_mem (kheap new_sys)) 0x2004 0x9000) 0x2008 (p_esp (proc new_sys 1)).

Lemma first_switch_enters_thread_witness :
  let x := run context_switch_asm (thread1, new_call) in
  saved (fst x) = (0, 0, 0, 0, 0x202) /\ r_eip (fst x) = 0x6000 /\
  r_esp (fst x) = p_kstack_top (proc new_sys 1) - 8 /\ words (snd x) (r_esp (fst x)) 2 = [0x5000; 7].
Proof.
  apply (first_switch_enters_thread 0x100000 0x20000 ∅ 0x5000 None 0x6000 7 1 small_boot no_queues 0 1 new_sys
    thread1 new_call 0x9000 (boot_proc_inv _ _ _ _ small_region)).
  - discriminate.
  - split; discriminate || reflexivity.
  - vm_compute. reflexivity.
  - vm_compute. reflexivity.
  - constructor; vm_compute; first [split; congruence | reflexivity | right; congruence].
  - split; vm_compute; [right|left]; congruence.
  - intros k Hk. unfold new_call. rewrite !ld_st_ne; [reflexivity| |].
    + assert (p_esp (proc new_sys 1) > 0x9000) by (vm_compute; reflexivity). lia.
    + assert (p_esp (proc new_sys 1) > 0x9000) by (vm_compute; reflexivity). lia.
Defined.

Lemma user_mode_spec c m entry ustack :
  20 <= r_esp c -> r_esp c + 8 < 2 ^ 32 ->
  ld m (r_esp c + 4) = entry -> ld m (r_esp c + 8) = ustack ->
  exists m', run enter_user_mode (c, m) =
    (Cpu (Z.lor (Z.land (r_eax c) 0xFFFF0000) USER_DATA_SELECTOR) entry ustack (r_ebx c) ustack (r_ebp c) (r_esi c) (r_edi c)
       entry 0x202 USER_CODE_SELECTOR USER_DATA_SELECTOR
       USER_DATA_SELECTOR USER_DATA_SELECTOR USER_DATA_SELECTOR USER_DATA_SELECTOR, m').
Proof.
  intros H1 H2 Ha1 Ha2. destruct c as [eax ecx edx ebx esp ebp esi edi eip fl cs ss ds es fs gs].
  cbn [r_esp] in *. eexists. unfold enter_user_mode, iret_user. cbn [app]. do 2 asm_step. rewrite Ha1, Ha2.
  do 11 asm_step. cbn [run]. replace (esp - 4 - 4 - 4 - 4 - 4 + 4 + 4 + 4 + 4) with (esp - 4) by lia.
  replace (esp - 4 - 4 - 4 - 4 - 4 + 4 + 4 + 4) with (esp - 8) by lia.
  replace (esp - 4 - 4 - 4 - 4 - 4 + 4 + 4) with (esp - 12) by lia.
  replace (esp - 4 - 4 - 4 - 4 - 4 + 4) with (esp - 16) by lia.
  replace (esp - 4 - 4 - 4 - 4 - 4) with (esp - 20) by lia. replace (esp - 4 - 4 - 4 - 4) with (esp - 16) by lia.
  replace (esp - 4 - 4 - 4) with (esp - 12) by lia. replace (esp - 4 - 4) with (esp - 8) by lia.
  ldst. rewrite !u16_small by (vm_compute; split; congruence). reflexivity.
Qed.

(** [enter_user_mode] leaves for ring 3: user code and stack selectors, user data
    segments, interrupts enabled, at the entry point and on the user stack of its
    arguments. *)
Theorem enter_user_mode_correct c m entry ustack :
  20 <= r_esp c -> r_esp c + 8 < 2 ^ 32 ->
  ld m (r_esp c + 4) = entry -> ld m (r_esp c + 8) = ustack ->
  let r := fst (run enter_user_mode (c, m)) in
  r_eip r = entry /\ r_esp r = ustack /\ r_eflags r = 0x202 /\
  r_cs r = USER_CODE_SELECTOR /\ r_ss r = USER_DATA_SELECTOR /\
  (r_ds r, r_es r, r_fs r, r_gs r) =
    (USER_DATA_SELECTOR, USER_DATA_SELECTOR, USER_DATA_SELECTOR, USER_DATA_SELECTOR) /\
  Z.land (r_cs r) 3 = 3.
Proof.
  intros H1 H2 Ha1 Ha2. destruct (user_mode_spec c m entry ustack H1 H2 Ha1 Ha2) as [m' ->]. repeat split.
Qed.

Lemma enter_user_mode_correct_witness :
  let r := fst (run enter_user_mode (thread1, st (st ∅ 0x2004 0x400000) 0x2008 0x500000)) in
  r_eip r = 0x400000 /\ r_esp r = 0x500000 /\ r_cs r = USER_CODE_SELECTOR.
Proof.
  destruct (enter_user_mode_correct thread1 (st (st ∅ 0x2004 0x400000) 0x2008 0x500000) 0x400000 0x500000)
    as (H1 & H2 & _ & H3 & _).
  - vm_compute. congruence.
  - vm_compute. reflexivity.
  - reflexivity.
  - reflexivity.
  - split; [exact H1|]. split; [exact H2|exact H3].
Defined.
