(* ===== verification/CString.v ===== *)
(** * Strings and memory blocks (kernel/string.c)

    The functions on byte memory, with C strings as NUL-terminated runs of bytes. Loops
    whose length is that of a string take fuel; a theorem about a call says how much its
    strings need. The specification of a string in memory is [cstr], of a block [bytes]. *)
From S2P Require Import Prelude Mem.

Definition string_length_from (m : mem) (str : Z) : nat -> Z -> option Z :=
  fix go fuel len :=
    match fuel with
    | O => None
    | S fuel => if ld m (str + len) =? 0 then Some len else go fuel (len + 1)
    end.
Definition string_length (fuel : nat) (m : mem) (str : Z) : option Z := string_length_from m str fuel 0.

Fixpoint string_compare (fuel : nat) (m : mem) (str1 str2 : Z) : option Z :=
  match fuel with
  | O => None
  | S fuel =>
      if negb (ld m str1 =? 0) && negb (ld m str2 =? 0) && (ld m str1 =? ld m str2)
      then string_compare fuel m (str1 + 1) (str2 + 1)
      else Some (ld m str1 - ld m str2)
  end.

Fixpoint string_copy (fuel : nat) (m : mem) (dest src : Z) : option mem :=
  match fuel with
  | O => None
  | S fuel =>
      if negb (ld m src =? 0) then string_copy fuel (st m dest (ld m src)) (dest + 1) (src + 1)
      else Some (st m dest 0)
  end.

Fixpoint string_end (fuel : nat) (m : mem) (dest : Z) : option Z :=
  match fuel with
  | O => None
  | S fuel => if negb (ld m dest =? 0) then string_end fuel m (dest + 1) else Some dest
  end.
Definition string_concat (fuel : nat) (m : mem) (dest src : Z) : option mem :=
  match string_end fuel m dest with Some e => string_copy fuel m e src | None => None end.

Definition is_whitespace (c : Z) : bool := (c =? 32) || (c =? 9) || (c =? 10) || (c =? 13).

(** *** Tokens *)

(** The [for] loop over the delimiters. *)
Fixpoint is_delim (fuel : nat) (m : mem) (c d : Z) : option bool :=
  match fuel with
  | O => None
  | S fuel => if ld m d =? 0 then Some false else if c =? ld m d then Some true else is_delim fuel m c (d + 1)
  end.

Fixpoint skip_delims (fuel : nat) (m : mem) (str delim : Z) : option Z :=
  match fuel with
  | O => None
  | S fuel' =>
      if ld m str =? 0 then Some str
      else match is_delim fuel m (ld m str) delim with
           | None => None
           | Some false => Some str
           | Some true => skip_delims fuel' m (str + 1) delim
           end
  end.

(** The end of the token: the address of the delimiter that ends it, or [None] at the
    end of the string. *)
Fixpoint token_end (fuel : nat) (m : mem) (str delim : Z) : option (option Z) :=
  match fuel with
  | O => None
  | S fuel' =>
      if ld m str =? 0 then Some None
      else match is_delim fuel m (ld m str) delim with
           | None => None
           | Some true => Some (Some str)
           | Some false => token_end fuel' m (str + 1) delim
           end
  end.

(** The state is the memory and [tokenize_last]. *)
Definition string_tokenize (fuel : nat) (x : mem * Z) (str delim : Z) : option (Z * (mem * Z)) :=
  let '(m, tokenize_last) := x in
  let str := if str =? 0 then tokenize_last else str in
  if (str =? 0) || (ld m str =? 0) then Some (0, x)
  else match skip_delims fuel m str delim with
       | None => None
       | Some str =>
           if ld m str =? 0 then Some (0, (m, 0))
           else match token_end fuel m str delim with
                | None => None
                | Some (Some e) => Some (str, (st m e 0, e + 1))
                | Some None => Some (str, (m, 0))
                end
       end.

(** *** Standard names *)

Definition strlen : nat -> mem -> Z -> option Z := string_length.
Definition strcmp : nat -> mem -> Z -> Z -> option Z := string_compare.
Definition strcpy : nat -> mem -> Z -> Z -> option mem := string_copy.

Fixpoint strncpy_copy (n : nat) (m : mem) (dest src i : Z) : mem * Z * nat :=
  match n with
  | O => (m, i, O)
  | S n' => if ld m (src + i) =? 0 then (m, i, n)
            else strncpy_copy n' (st m (dest + i) (ld m (src + i))) dest src (i + 1)
  end.
Fixpoint zero_fill (n : nat) (m : mem) (dest i : Z) : mem :=
  match n with O => m | S n => zero_fill n (st m (dest + i) 0) dest (i + 1) end.
Definition strncpy (m : mem) (dest src : Z) (n : nat) : mem :=
  let '(m, i, rest) := strncpy_copy n m dest src 0 in zero_fill rest m dest i.

Definition memcpy (m : mem) (dest src n : Z) : mem :=
  for_range 0 n (fun i m => st m (dest + i) (ld m (src + i))) m.
Definition memset (m : mem) (ptr value num : Z) : mem :=
  for_range 0 num (fun i m => st m (ptr + i) (u8 value)) m.

Fixpoint strchr (fuel : nat) (m : mem) (str ch : Z) : option Z :=
  match fuel with
  | O => None
  | S fuel => if ld m str =? 0 then Some 0 else if ld m str =? u8 ch then Some str else strchr fuel m (str + 1) ch
  end.

Fixpoint strncmp_from (n : nat) (m : mem) (str1 str2 : Z) : Z :=
  match n with
  | O => 0
  | S n =>
      if negb (ld m str1 =? ld m str2) then ld m str1 - ld m str2
      else if ld m str1 =? 0 then 0 else strncmp_from n m (str1 + 1) (str2 + 1)
  end.
Definition strncmp (m : mem) (str1 str2 : Z) (n : nat) : Z := strncmp_from n m str1 str2.

(** *** Integer to ASCII *)

(** ["0123456789abcdefghijklmnopqrstuvwxyz"[d]]. *)
Definition digit_char (d : Z) : Z := if d <? 10 then 48 + d else 87 + d.

(** The [do]/[while] loop; [Z.quot] is C division. It returns the memory, the end of the
    digits and [tmp_value]. *)
Fixpoint itoa_digits (fuel : nat) (m : mem) (ptr value base : Z) : option (mem * Z * Z) :=
  match fuel with
  | O => None
  | S fuel =>
      let tmp_value := value in
      let value := Z.quot value base in
      let digit_value := tmp_value - value * base in
      let digit_value := if digit_value <? 0 then - digit_value else digit_value in
      let m := st m ptr (digit_char digit_value) in
      if value =? 0 then Some (m, ptr + 1, tmp_value) else itoa_digits fuel m (ptr + 1) value base
  end.

Fixpoint itoa_reverse (fuel : nat) (m : mem) (ptr1 ptr : Z) : option mem :=
  if ptr1 <? ptr then
    match fuel with
    | O => None
    | S fuel => itoa_reverse fuel (st (st m ptr (ld m ptr1)) ptr1 (ld m ptr)) (ptr1 + 1) (ptr - 1)
    end
  else Some m.

(** 32 digits are the most an [int] has, so the fuel is a constant. *)
Definition itoa (value str base : Z) (m : mem) : option mem :=
  if (base <? 2) || (36 <? base) then Some (st m str 0)
  else
    match itoa_digits 33 m str value base with
    | None => None
    | Some (m, ptr, tmp_value) =>
        let '(m, ptr) := if (tmp_value <? 0) && (base =? 10) then (st m ptr 45, ptr + 1) else (m, ptr) in
        itoa_reverse 33 (st m ptr 0) str (ptr - 1)
    end.

(** ** Strings in memory *)

Fixpoint bytes (m : mem) (a : Z) (l : list Z) : Prop :=
  match l with [] => True | v :: l => ld m a = v /\ bytes m (a + 1) l end.
Fixpoint cstr (m : mem) (a : Z) (l : list Z) : Prop :=
  match l with [] => ld m a = 0 | v :: l => v <> 0 /\ ld m a = v /\ cstr m (a + 1) l end.

Abbreviation len l := (Z.of_nat (length l)).

(** Nothing outside [[a, a + n)] differs. *)
Definition same_out (m m' : mem) (a n : Z) : Prop := forall b, b < a \/ a + n <= b -> ld m' b = ld m b.

Lemma bytes_app m a l1 l2 : bytes m a (l1 ++ l2) <-> bytes m a l1 /\ bytes m (a + len l1) l2.
Proof.
  revert a. induction l1 as [|v l1 IH]; intros a; cbn [app bytes length].
  - rewrite Z.add_0_r. tauto.
  - rewrite IH. replace (a + 1 + len l1) with (a + Z.of_nat (S (length l1))) by lia. tauto.
Qed.
Lemma cstr_bytes m a l : cstr m a l <-> bytes m a l /\ Forall (fun v => v <> 0) l /\ ld m (a + len l) = 0.
Proof.
  revert a. induction l as [|v l IH]; intros a; cbn [cstr bytes length].
  - rewrite Z.add_0_r. split; [|tauto]. intros H. split; [done|]. split; [constructor|done].
  - rewrite IH, Forall_cons_iff. replace (a + 1 + len l) with (a + Z.of_nat (S (length l))) by lia. tauto.
Qed.
Lemma bytes_same m m' a l : (forall b, a <= b < a + len l -> ld m' b = ld m b) -> bytes m a l -> bytes m' a l.
Proof.
  revert a. induction l as [|v l IH]; intros a Hs; cbn [bytes length] in *; [done|].
  intros [H1 H2]. split; [rewrite Hs by lia; done|]. apply IH; [|done]. intros b Hb. apply Hs. lia.
Qed.
Lemma cstr_same m m' a l : (forall b, a <= b <= a + len l -> ld m' b = ld m b) -> cstr m a l -> cstr m' a l.
Proof.
  intros Hs. rewrite !cstr_bytes. intros (H1 & H2 & H3). split; [|split; [done|rewrite Hs by lia; done]].
  apply (bytes_same m); [|done]. intros b Hb. apply Hs. lia.
Qed.
Lemma same_out_trans m1 m2 m3 a n : same_out m1 m2 a n -> same_out m2 m3 a n -> same_out m1 m3 a n.
Proof. intros H1 H2 b Hb. by rewrite H2, H1. Qed.
Lemma same_out_sub m m' a n a' n' : same_out m m' a n -> a' <= a -> a + n <= a' + n' -> same_out m m' a' n'.
Proof. intros H ? ? b Hb. apply H. lia. Qed.
Lemma same_out_st m a v : same_out m (st m a v) a 1.
Proof. intros b Hb. apply ld_st_ne. lia. Qed.
Lemma cstr_head m a l : cstr m a l -> (ld m a =? 0) = match l with [] => true | _ => false end.
Proof. destruct l as [|v l]; cbn [cstr]; [intros ->; done|]. intros (Hv & -> & _). by rewrite (proj2 (Z.eqb_neq _ _)). Qed.

(** The string a [char] array holds. *)
Fixpoint c_string (l : list Z) : list Z :=
  match l with
  | [] => []
  | c :: l => if c =? 0 then [] else c :: c_string l
  end.

(** The text at [a], up to its terminator. *)
Fixpoint text (fuel : nat) (m : mem) (a : Z) : option (list Z) :=
  match fuel with
  | O => None
  | S fuel => if ld m a =? 0 then Some [] else option_map (cons (ld m a)) (text fuel m (a + 1))
  end.
Lemma text_cstr m a l fuel : cstr m a l -> (length l < fuel)%nat -> text fuel m a = Some l.
Proof.
  revert a fuel. induction l as [|v l IH]; intros a [|fuel] Hc Hf; cbn [length cstr text] in *; try lia.
  - by rewrite Hc.
  - destruct Hc as (Hv & Ha & Hc). rewrite Ha, (proj2 (Z.eqb_neq _ _) Hv), (IH (a + 1) fuel Hc) by lia. done.
Qed.

(** *** Length, comparison and copying *)

Lemma length_from m a n l : cstr m (a + n) l -> forall fuel, (length l < fuel)%nat ->
  string_length_from m a fuel n = Some (n + len l).
Proof.
  revert n. induction l as [|v l IH]; intros n Hc [|fuel] Hf; cbn [length cstr] in *; try lia; cbn [string_length_from].
  - rewrite Hc. cbn. f_equal. lia.
  - destruct Hc as (Hv & Ha & Hc). rewrite Ha, (proj2 (Z.eqb_neq _ _) Hv).
    fold (string_length_from m a). rewrite IH; [f_equal; lia| |lia]. by replace (a + (n + 1)) with (a + n + 1) by lia.
Qed.

(** Comparison of byte strings as [strcmp] orders them. *)
Fixpoint lex (l1 l2 : list Z) : Z :=
  match l1, l2 with
  | [], [] => 0
  | [], b :: _ => - b
  | a :: _, [] => a
  | a :: l1, b :: l2 => if a =? b then lex l1 l2 else a - b
  end.

Lemma compare_spec m a b l1 l2 fuel : cstr m a l1 -> cstr m b l2 -> (length l1 < fuel)%nat ->
  string_compare fuel m a b = Some (lex l1 l2).
Proof.
  revert a b l2 fuel. induction l1 as [|x l1 IH]; intros a b l2 [|fuel] H1 H2 Hf; cbn [length] in Hf; try lia;
    cbn [string_compare]; rewrite (cstr_head _ _ _ H1), (cstr_head _ _ _ H2).
  - cbn [cstr] in H1. cbn. destruct l2 as [|y l2]; cbn [cstr] in H2; [by rewrite H1, H2|].
    destruct H2 as (_ & E & _). rewrite H1, E. done.
  - cbn [cstr] in H1. destruct H1 as (Hx & Ex & H1). destruct l2 as [|y l2]; cbn [cstr] in H2; cbn.
    + rewrite Ex, H2. f_equal. lia.
    + destruct H2 as (Hy & Ey & H2). rewrite Ex, Ey. destruct (x =? y); [|done]. apply IH; [done|done|lia].
Qed.

Lemma lex_eq l1 l2 : Forall (fun v => 0 < v) l1 -> Forall (fun v => 0 < v) l2 -> lex l1 l2 = 0 <-> l1 = l2.
Proof.
  revert l2. induction l1 as [|x l1 IH]; intros [|y l2] H1 H2; cbn [lex].
  - done.
  - apply Forall_cons_iff in H2. split; [intros; exfalso; lia|done].
  - apply Forall_cons_iff in H1. split; [intros; exfalso; lia|done].
  - apply Forall_cons_iff in H1. apply Forall_cons_iff in H2. destruct (Z.eqb_spec x y) as [->|].
    + rewrite IH by tauto. split; congruence.
    + split; [intros; exfalso; lia|congruence].
Qed.

Lemma copy_spec m dest src l fuel : cstr m src l -> (length l < fuel)%nat ->
  dest + len l < src \/ src + len l < dest ->
  exists m', string_copy fuel m dest src = Some m' /\ cstr m' dest l /\ same_out m m' dest (len l + 1).
Proof.
  revert m dest src fuel. induction l as [|v l IH]; intros m dest src [|fuel] Hc Hf Hd; cbn [length] in *; try lia;
    cbn [string_copy]; rewrite (cstr_head _ _ _ Hc); cbn [cstr] in *.
  - cbn. eexists. split; [done|]. split; [apply ld_st_eq|]. apply (same_out_sub _ _ dest 1); [apply same_out_st|lia|lia].
  - destruct Hc as (Hv & Ea & Hc). cbn. rewrite Ea.
    destruct (IH (st m dest v) (dest + 1) (src + 1) fuel) as (m' & -> & Hc' & Hs); [|lia|lia|].
    + apply (cstr_same m); [|done]. intros b Hb. apply ld_st_ne. lia.
    + exists m'. split; [done|]. split.
      * split; [done|]. split; [|done]. rewrite Hs by lia. apply ld_st_eq.
      * intros b Hb. rewrite Hs by lia. apply ld_st_ne. lia.
Qed.

Lemma end_spec m a l fuel : cstr m a l -> (length l < fuel)%nat -> string_end fuel m a = Some (a + len l).
Proof.
  revert a fuel. induction l as [|v l IH]; intros a [|fuel] Hc Hf; cbn [length] in *; try lia;
    cbn [string_end]; rewrite (cstr_head _ _ _ Hc); cbn [cstr] in Hc; cbn.
  - f_equal. lia.
  - destruct Hc as (_ & _ & Hc). rewrite IH by (done || lia). f_equal. lia.
Qed.

Lemma concat_spec m dest src l1 l2 fuel : cstr m dest l1 -> cstr m src l2 ->
  (length l1 < fuel)%nat -> (length l2 < fuel)%nat ->
  dest + len l1 + len l2 < src \/ src + len l2 < dest ->
  exists m', string_concat fuel m dest src = Some m' /\ cstr m' dest (l1 ++ l2) /\
    same_out m m' (dest + len l1) (len l2 + 1).
Proof.
  intros H1 H2 Hf1 Hf2 Hd. unfold string_concat. rewrite (end_spec m dest l1) by done.
  destruct (copy_spec m (dest + len l1) src l2 fuel) as (m' & -> & Hc & Hs); [done|done|lia|].
  exists m'. split; [done|]. split; [|done]. revert Hc. rewrite !cstr_bytes, bytes_app, Forall_app. rewrite cstr_bytes in H1.
  intros (B2 & F2 & E). destruct H1 as (B1 & F1 & _). split; [split; [|done]|].
  - apply (bytes_same m); [|done]. intros b Hb. apply Hs. lia.
  - split; [done|]. rewrite length_app. rewrite <- E. f_equal. lia.
Qed.

(** *** Tokens *)

(** What a string splits into at the delimiters, empty pieces left out. *)
Fixpoint pieces (d : Z -> bool) (l : list Z) : list (list Z) :=
  match l with
  | [] => [[]]
  | c :: l => if d c then [] :: pieces d l
              else match pieces d l with p :: ps => (c :: p) :: ps | [] => [[c]] end
  end.
Definition tokens (d : Z -> bool) (l : list Z) : list (list Z) := filter (fun p => p <> []) (pieces d l).

Definition is_in (ds : list Z) (c : Z) : bool := existsb (Z.eqb c) ds.

Lemma pieces_token d t c r : Forall (fun v => d v = false) t -> d c = true -> pieces d (t ++ c :: r) = t :: pieces d r.
Proof.
  intros Ht Hc. induction Ht as [|v t Hv _ IH]; cbn [app pieces]; [by rewrite Hc|]. by rewrite Hv, IH.
Qed.
Lemma pieces_last d t : Forall (fun v => d v = false) t -> pieces d t = [t].
Proof. intros Ht. induction Ht as [|v t Hv _ IH]; cbn [pieces]; [done|]. by rewrite Hv, IH. Qed.
Lemma tokens_skip d pre l : Forall (fun v => d v = true) pre -> tokens d (pre ++ l) = tokens d l.
Proof. intros H. unfold tokens. induction H as [|v pre Hv _ IH]; cbn [app pieces]; [done|]. rewrite Hv. exact IH. Qed.
Lemma tokens_token d t c r : t <> [] -> Forall (fun v => d v = false) t -> d c = true ->
  tokens d (t ++ c :: r) = t :: tokens d r.
Proof. intros Hn Ht Hc. unfold tokens. rewrite pieces_token by done. by rewrite filter_cons_True. Qed.
Lemma tokens_last d t : t <> [] -> Forall (fun v => d v = false) t -> tokens d t = [t].
Proof. intros Hn Ht. unfold tokens. rewrite pieces_last by done. by rewrite filter_cons_True. Qed.

(** Leading delimiters, and the token that follows. *)
Lemma split_while (d : Z -> bool) l : exists pre l', l = pre ++ l' /\ Forall (fun v => d v = true) pre /\
  (l' = [] \/ exists c r, l' = c :: r /\ d c = false).
Proof.
  induction l as [|c l (pre & l' & -> & Hp & Hl)]; [by exists [], []; auto|].
  destruct (d c) eqn:E.
  - exists (c :: pre), l'. split; [done|]. split; [by constructor|done].
  - exists [], (c :: pre ++ l'). split; [done|]. split; [done|]. right. eauto.
Qed.

Section Tokenize.
Variables (delim : Z) (ds : list Z).

Lemma is_delim_spec m c d l fuel : cstr m d l -> (length l < fuel)%nat -> is_delim fuel m c d = Some (is_in l c).
Proof.
  revert d fuel. induction l as [|v l IH]; intros d [|fuel] Hc Hf; cbn [length] in *; try lia;
    cbn [is_delim is_in existsb]; rewrite (cstr_head _ _ _ Hc); cbn; [done|].
  cbn [cstr] in Hc. destruct Hc as (_ & -> & Hc). destruct (c =? v); cbn; [done|]. apply IH; [done|lia].
Qed.

Lemma skip_spec m a pre l fuel : cstr m delim ds -> cstr m a (pre ++ l) -> Forall (fun v => is_in ds v = true) pre ->
  (l = [] \/ exists c r, l = c :: r /\ is_in ds c = false) -> (length pre + length ds < fuel)%nat ->
  skip_delims fuel m a delim = Some (a + len pre).
Proof.
  intros Hd Hc Hp Hl. revert a Hc fuel. induction Hp as [|v pre Hv Hp IH]; intros a Hc [|fuel] Hf; cbn [length app] in *; try lia;
    cbn [skip_delims]; rewrite (cstr_head _ _ _ Hc).
  - destruct Hl as [->|(c & r & -> & Hv)]; cbn [app]; [f_equal; lia|]. cbn [cstr] in Hc. destruct Hc as (_ & -> & _).
    rewrite (is_delim_spec m c delim ds) by (done || lia). rewrite Hv. f_equal. lia.
  - cbn [app]. cbn [cstr] in Hc. destruct Hc as (_ & -> & Hc). rewrite (is_delim_spec m v delim ds) by (done || lia).
    rewrite Hv, IH by (done || lia). f_equal. lia.
Qed.

Lemma token_end_spec m a t l fuel : cstr m delim ds -> cstr m a (t ++ l) -> Forall (fun v => is_in ds v = false) t ->
  (l = [] \/ exists c r, l = c :: r /\ is_in ds c = true) -> (length t + length ds < fuel)%nat ->
  token_end fuel m a delim = Some (match l with [] => None | _ => Some (a + len t) end).
Proof.
  intros Hd Hc Hp Hl. revert a Hc fuel. induction Hp as [|v t Hv Hp IH]; intros a Hc [|fuel] Hf; cbn [length app] in *; try lia;
    cbn [token_end]; rewrite (cstr_head _ _ _ Hc).
  - destruct Hl as [->|(c & r & -> & Hv)]; cbn [app]; [done|]. cbn [cstr] in Hc. destruct Hc as (_ & -> & _).
    rewrite (is_delim_spec m c delim ds) by (done || lia). rewrite Hv. do 2 f_equal. lia.
  - cbn [app]. cbn [cstr] in Hc. destruct Hc as (_ & -> & Hc). rewrite (is_delim_spec m v delim ds) by (done || lia).
    rewrite Hv, IH by (done || lia). destruct l; [done|]. do 2 f_equal. lia.
Qed.

(** What is left to tokenize: [tokenize_last] is NULL, or points at [r]. *)
Definition rest_at (m : mem) (last : Z) (r : list Z) : Prop := (last = 0 /\ r = []) \/ (0 < last /\ cstr m last r).

(** Outcome of a call that has [r] at [last] to go. *)
Record token_found (m m' : mem) (last last' p : Z) (r t : list Z) (ts : list (list Z)) : Prop := {
  tf_ptr : 0 < p /\ last <= p /\ p + len t <= last + len r;
  tf_str : cstr m' p t;
  tf_rest : exists r', rest_at m' last' r' /\ tokens (is_in ds) r' = ts /\ (length r' < length r)%nat /\
    (last' = 0 \/ (last' = p + len t + 1 /\ last' + len r' = last + len r));
  tf_out : same_out m m' (p + len t) 1
}.

Lemma tokenize_spec m last r fuel : rest_at m last r -> cstr m delim ds ->
  delim + len ds < last \/ last + len r < delim -> (length r + length ds < fuel)%nat ->
  exists p m' last', string_tokenize fuel (m, last) 0 delim = Some (p, (m', last')) /\
  match tokens (is_in ds) r with
  | [] => p = 0 /\ m' = m
  | t :: ts => token_found m m' last last' p r t ts
  end.
Proof.
  intros Hr Hd Hdis Hf. unfold string_tokenize. cbn [Z.eqb].
  destruct Hr as [[-> ->]|[Hpos Hc]]; [by exists 0, m, 0|]. rewrite (proj2 (Z.eqb_neq last 0)) by lia.
  rewrite (cstr_head _ _ _ Hc). destruct (decide (r = [])) as [->|Hn]; [by exists 0, m, last|].
  assert (match r with [] => true | _ => false end = false) as -> by (by destruct r). cbn [orb].
  destruct (split_while (is_in ds) r) as (pre & l & -> & Hp & Hl). rewrite tokens_skip by done.
  rewrite length_app in Hf. rewrite (skip_spec m last pre l) by (done || lia).
  pose proof Hc as Hc2. apply cstr_bytes in Hc2 as (B & F & E). rewrite bytes_app, length_app in *. apply Forall_app in F as [Fp Fl].
  assert (cstr m (last + len pre) l) as Hcl.
  { apply cstr_bytes. split; [tauto|]. split; [done|]. rewrite <- E. f_equal. lia. }
  rewrite (cstr_head _ _ _ Hcl). destruct l as [|c l]; [by exists 0, m, 0|].
  destruct Hl as [|(c' & r' & [= <- <-] & Hdc)]; [done|].
  destruct (split_while (fun v => negb (is_in ds v)) (c :: l)) as (t & l' & Et & Ht & Hl').
  assert (t <> []) as Htn.
  { intros ->. destruct Hl' as [->|(c' & r' & -> & Hdc')]; [discriminate|]. injection Et as <- <-. by rewrite Hdc in Hdc'. }
  assert (Forall (fun v => is_in ds v = false) t) as Ht' by (refine (Forall_impl _ _ Ht); intros v; by destruct (is_in ds v)).
  rewrite Et in *. rewrite length_app in *.
  assert (l' = [] \/ exists c r, l' = c :: r /\ is_in ds c = true) as Hl2.
  { destruct Hl' as [->|(c' & r' & -> & Hdc')]; [by left|]. right. exists c', r'. split; [done|]. by destruct (is_in ds c'). }
  rewrite (token_end_spec m (last + len pre) t l') by (done || lia).
  apply Forall_app in Fl as [Ft Fl']. destruct B as [_ B]. apply bytes_app in B as [Bt Bl].
  destruct Hl2 as [->|(c2 & r2 & -> & Hd2)].
  - eexists _, _, _. split; [done|]. rewrite app_nil_r. rewrite tokens_last by done. rewrite app_nil_r in Hcl. split.
    + rewrite length_app. lia.
    + done.
    + exists []. split; [by left|]. split; [done|]. split; [|by left]. rewrite length_app. destruct t; [done|]. cbn [length]. lia.
    + intros b _. done.
  - eexists _, _, _. split; [done|]. rewrite tokens_token by done. cbn [length] in *. split.
    + rewrite !length_app. cbn [length]. lia.
    + apply cstr_bytes. split; [|split; [done|apply ld_st_eq]]. apply (bytes_same m); [|done].
      intros b Hb'. apply ld_st_ne. lia.
    + exists r2. split; [|split; [done|rewrite !length_app; cbn [length]; split; [lia|right; lia]]]. right. split; [lia|]. apply cstr_bytes.
      cbn [bytes] in Bl. apply Forall_cons_iff in Fl' as [_ Fr]. split; [|split; [done|]].
      * apply (bytes_same m); [|tauto]. intros b Hb'. apply ld_st_ne. lia.
      * rewrite ld_st_ne by lia. rewrite <- E. f_equal. lia.
    + apply same_out_st.
Qed.
End Tokenize.

(** *** Numerals *)

Definition digit_value (c : Z) : Z := if c <? 58 then c - 48 else c - 87.
Definition of_digits (base : Z) (l : list Z) : Z := foldl (fun a c => a * base + digit_value c) 0 l.
(** The integer a numeral with an optional minus sign stands for. *)
Definition read_int (base : Z) (l : list Z) : Z :=
  match l with c :: l' => if c =? 45 then - of_digits base l' else of_digits base l | [] => 0 end.

Definition digit_of (base c : Z) : Prop := exists d, 0 <= d < base /\ c = digit_char d.

Lemma digit_round base d : base <= 36 -> 0 <= d < base -> digit_value (digit_char d) = d.
Proof. intros ? ?. unfold digit_value, digit_char. zcases; lia. Qed.
Lemma digit_ascii base c : base <= 36 -> digit_of base c -> 48 <= c.
Proof. intros Hb (d & Hd & ->). unfold digit_char. zcases; lia. Qed.

Lemma of_digits_snoc base l c : of_digits base (l ++ [c]) = of_digits base l * base + digit_value c.
Proof. unfold of_digits. by rewrite foldl_app. Qed.

Lemma quot_bound v base k : 2 <= base -> 0 <= k -> Z.abs v < base ^ (k + 1) -> Z.abs (Z.quot v base) < base ^ k.
Proof.
  intros Hb Hk Hv. rewrite Z.pow_add_r, Z.pow_1_r in Hv by lia. rewrite <- (Z.quot_abs v base) by lia.
  rewrite (Z.abs_eq base) by lia. rewrite Z.quot_div_nonneg by lia. apply Z.div_lt_upper_bound; lia.
Qed.

(** One division step: quotient, digit and signs. *)
Lemma digit_step v base : 2 <= base ->
  let q := Z.quot v base in
  let d := v - q * base in
  let d := if d <? 0 then - d else d in
  0 <= d < base /\ Z.abs v = Z.abs q * base + d /\ (q <> 0 -> (q <? 0) = (v <? 0)).
Proof.
  intros Hb q d1. assert (d1 = Z.rem v base) as E1 by (pose proof (Z.quot_rem v base ltac:(lia)); unfold d1, q; lia).
  cbv zeta. assert ((if d1 <? 0 then - d1 else d1) = Z.abs (Z.rem v base)) as -> by (rewrite E1; zcases; lia).
  pose proof (Z.rem_bound_abs v base ltac:(lia)).
  assert (Z.abs v = Z.abs q * base + Z.abs (Z.rem v base)) as Ev.
  { unfold q. rewrite <- (Z.quot_abs v base), <- (Z.rem_abs v base) by lia. rewrite (Z.abs_eq base) by lia.
    pose proof (Z.quot_rem (Z.abs v) base ltac:(lia)). lia. }
  split; [lia|]. split; [done|]. intros Hq.
  destruct (Z.ltb_spec q 0), (Z.ltb_spec v 0); try done; exfalso.
  - pose proof (Z.quot_pos v base). lia.
  - assert (0 <= Z.quot (- v) base) by (apply Z.quot_pos; lia). rewrite Z.quot_opp_l in * by lia. lia.
Qed.

(** [ds], least significant digit first, is the numeral of [v] and was written at [ptr]. *)
Record numeral (base : Z) (m : mem) (ptr v : Z) (m' : mem) (ds : list Z) (tmp : Z) (k : nat) : Prop := {
  nu_bytes : bytes m' ptr ds;
  nu_out : same_out m m' ptr (len ds);
  nu_value : of_digits base (rev ds) = Z.abs v;
  nu_sign : (tmp <? 0) = (v <? 0);
  nu_digits : Forall (digit_of base) ds;
  nu_length : (1 <= length ds <= S k)%nat;
  nu_lead : list.last ds = Some 48 -> ds = [48] /\ v = 0
}.

Lemma digits_spec base : 2 <= base <= 36 -> forall fuel k m ptr v, (k < fuel)%nat -> Z.abs v < base ^ (Z.of_nat k + 1) ->
  exists m' ds tmp, itoa_digits fuel m ptr v base = Some (m', ptr + len ds, tmp) /\ numeral base m ptr v m' ds tmp k.
Proof.
  intros Hb. induction fuel as [|fuel IH]; intros k m ptr v Hk Hv; [lia|]. cbn [itoa_digits].
  destruct (digit_step v base ltac:(lia)) as (Hd & Ev & Hs). set (q := Z.quot v base) in *.
  set (d := if v - q * base <? 0 then _ else _) in *. clearbody d.
  assert (digit_value (digit_char d) = d) as Ed by (apply (digit_round base); lia).
  assert (digit_of base (digit_char d)) as Hdo by (exists d; done).
  assert (digit_char d = 48 -> d = 0) as H48 by (unfold digit_char; zcases; lia).
  destruct (Z.eqb_spec q 0) as [Eq|Hq].
  - exists (st m ptr (digit_char d)), [digit_char d], v. split; [done|]. split.
    + split; [apply ld_st_eq|done].
    + apply same_out_st.
    + unfold of_digits. cbn [rev app foldl]. rewrite Ed. lia.
    + done.
    + by constructor.
    + cbn [length]. lia.
    + cbn. intros [= E]. rewrite E. split; [done|]. pose proof (H48 E). nia.
  - destruct k as [|k]; [exfalso; rewrite Z.pow_1_r in Hv; nia|].
    destruct (IH k (st m ptr (digit_char d)) (ptr + 1) q ltac:(lia)) as (m' & ds & tmp & -> & [B O V S D L Z']).
    { apply quot_bound; [lia|lia|]. by replace (Z.of_nat k + 1 + 1) with (Z.of_nat (Datatypes.S k) + 1) by lia. }
    exists m', (digit_char d :: ds), tmp. split; [cbn [length]; do 3 f_equal; lia|]. split; cbn [length].
    + split; [rewrite O by lia; apply ld_st_eq|done].
    + intros b Hb'. rewrite O by lia. apply ld_st_ne. lia.
    + cbn [rev]. rewrite of_digits_snoc, V, Ed. lia.
    + by rewrite S, Hs.
    + by constructor.
    + lia.
    + destruct ds as [|c ds]; [cbn [length] in L; lia|]. intros E. destruct (Z' E) as [_ E0]. done.
Qed.

Lemma reverse_spec fuel : forall m a l, bytes m a l -> (length l <= 2 * fuel + 1)%nat ->
  exists m', itoa_reverse fuel m a (a + len l - 1) = Some m' /\ bytes m' a (rev l) /\ same_out m m' a (len l).
Proof.
  induction fuel as [|fuel IH]; intros m a l B Hl; cbn [itoa_reverse].
  - destruct (Z.ltb_spec a (a + len l - 1)); [lia|]. exists m. split; [done|].
    destruct l as [|x [|y l]]; [done|done|cbn [length] in *; lia].
  - destruct (Z.ltb_spec a (a + len l - 1)) as [Hlt|Hge].
    2: { exists m. split; [done|]. destruct l as [|x [|y l]]; [done|done|cbn [length] in *; lia]. }
    destruct l as [|x l]; [cbn [length] in *; lia|]. destruct (exists_last (l := l)) as (mid & y & ->).
    { intros ->. cbn [length] in *. lia. }
    cbn [length] in *. rewrite length_app in *. cbn [length] in *.
    cbn [bytes] in B. destruct B as [Ex B]. apply bytes_app in B as [Bm [Ey _]].
    replace (a + Z.of_nat (S (length mid + 1)) - 1) with (a + 1 + len mid) by lia. rewrite Ex, Ey.
    destruct (IH (st (st m (a + 1 + len mid) x) a y) (a + 1) mid) as (m' & E & B' & O); [|lia|].
    { apply (bytes_same m); [|done]. intros b Hb. rewrite !ld_st_ne by lia. done. }
    rewrite E. exists m'. split; [done|]. split.
    + cbn [rev]. rewrite rev_app_distr. cbn [rev app]. split; [rewrite O by lia; apply ld_st_eq|].
      apply bytes_app. rewrite length_rev. split; [done|]. split; [|done]. rewrite O by lia.
      rewrite ld_st_ne by lia. apply ld_st_eq.
    + intros b Hb. rewrite O by lia. rewrite !ld_st_ne by lia. done.
Qed.

(** *** Blocks *)

(** The copy loop, cell by cell. *)
Lemma memcpy_cells m dest src n : 0 <= n -> dest + n <= src \/ src + n <= dest ->
  (forall i, 0 <= i < n -> ld (memcpy m dest src n) (dest + i) = ld m (src + i)) /\ same_out m (memcpy m dest src n) dest n.
Proof.
  intros Hn Hd. unfold memcpy.
  assert (forall k, 0 <= k <= n -> let m' := for_range 0 k (fun i m => st m (dest + i) (ld m (src + i))) m in
    (forall i, 0 <= i < k -> ld m' (dest + i) = ld m (src + i)) /\ same_out m m' dest k) as H.
  { intros k Hk. apply (for_range_ind (fun k m' => (forall i, 0 <= i < k -> ld m' (dest + i) = ld m (src + i)) /\ same_out m m' dest k)); [lia| |].
    - split; [lia|]. intros b _. done.
    - intros j m' Hj [H1 H2]. split.
      + intros i Hi. destruct (decide (i = j)) as [->|].
        * rewrite ld_st_eq. apply H2. lia.
        * rewrite ld_st_ne by lia. apply H1. lia.
      + intros b Hb. rewrite ld_st_ne by lia. apply H2. lia. }
  exact (H n ltac:(lia)).
Qed.
Lemma memcpy_spec m dest src l : bytes m src l -> dest + len l <= src \/ src + len l <= dest ->
  bytes (memcpy m dest src (len l)) dest l /\ same_out m (memcpy m dest src (len l)) dest (len l).
Proof.
  intros B Hd. destruct (memcpy_cells m dest src (len l) ltac:(lia) Hd) as [H1 H2]. split; [|done].
  revert H1. generalize (memcpy m dest src (len l)). clear -B. intros m' H1.
  revert dest src B H1. induction l as [|v l IH]; intros dest src B H1; cbn [bytes length] in *; [done|]. destruct B as [E B]. split.
  - rewrite <- E. specialize (H1 0 ltac:(lia)). by rewrite !Z.add_0_r in H1.
  - apply (IH _ (src + 1)); [done|]. intros i Hi. specialize (H1 (i + 1) ltac:(lia)).
    replace (dest + 1 + i) with (dest + (i + 1)) by lia. by replace (src + 1 + i) with (src + (i + 1)) by lia.
Qed.

Lemma zero_fill_spec n m dest i :
  bytes (zero_fill n m dest i) (dest + i) (replicate n 0) /\ same_out m (zero_fill n m dest i) (dest + i) (Z.of_nat n).
Proof.
  revert m i. induction n as [|n IH]; intros m i; cbn [zero_fill replicate bytes]; [done|].
  destruct (IH (st m (dest + i) 0) (i + 1)) as [B O]. replace (dest + (i + 1)) with (dest + i + 1) in * by lia.
  split; [split; [|done]|].
  - rewrite O by lia. apply ld_st_eq.
  - intros b Hb. rewrite O by lia. apply ld_st_ne. lia.
Qed.

Lemma strncpy_copy_spec n : forall m dest src i l, 0 <= i -> cstr m (src + i) l ->
  src + i + len l < dest \/ dest + i + Z.of_nat n <= src ->
  exists m', strncpy_copy n m dest src i = (m', i + Z.of_nat (n `min` length l), (n - length l)%nat) /\
    bytes m' (dest + i) (take n l) /\ same_out m m' (dest + i) (Z.of_nat (n `min` length l)).
Proof.
  induction n as [|n IH]; intros m dest src i l Hi Hc Hd; cbn [strncpy_copy].
  - exists m. split; [f_equal; f_equal; lia|]. split; [done|]. intros b _. done.
  - rewrite (cstr_head _ _ _ Hc). destruct l as [|v l].
    + exists m. cbn [length take]. split; [f_equal; f_equal; lia|]. split; [done|]. intros b _. done.
    + cbn [cstr length] in *. destruct Hc as (Hv & -> & Hc).
      destruct (IH (st m (dest + i) v) dest src (i + 1) l) as (m' & -> & B & O); [lia|..].
      { apply (cstr_same m); [|by replace (src + (i + 1)) with (src + i + 1) by lia]. intros b Hb. apply ld_st_ne. lia. }
      { lia. }
      replace (dest + (i + 1)) with (dest + i + 1) in * by lia. exists m'. split; [f_equal; f_equal; lia|].
      cbn [take bytes]. split; [split; [|done]|].
      * rewrite O by lia. apply ld_st_eq.
      * intros b Hb. rewrite O by lia. apply ld_st_ne. lia.
Qed.

Lemma strchr_spec m a l ch fuel : cstr m a l -> (length l < fuel)%nat ->
  strchr fuel m a ch = Some (match list_find (fun v => v = u8 ch) l with Some (i, _) => a + Z.of_nat i | None => 0 end).
Proof.
  revert a fuel. induction l as [|v l IH]; intros a [|fuel] Hc Hf; cbn [length] in *; try lia;
    cbn [strchr]; rewrite (cstr_head _ _ _ Hc); [done|].
  cbn [cstr] in Hc. destruct Hc as (_ & -> & Hc). cbn [list_find]. destruct (Z.eqb_spec v (u8 ch)) as [E|E].
  - rewrite decide_True by done. f_equal. lia.
  - rewrite decide_False by done. rewrite IH by (done || lia). f_equal.
    destruct (list_find _ l) as [[i w]|]; cbn; [lia|done].
Qed.

Lemma strncmp_spec m a b l1 l2 n : cstr m a l1 -> cstr m b l2 -> strncmp m a b n = lex (take n l1) (take n l2).
Proof.
  unfold strncmp. revert a b l1 l2. induction n as [|n IH]; intros a b l1 l2 H1 H2; cbn [strncmp_from].
  - destruct l1, l2; done.
  - destruct l1 as [|x l1], l2 as [|y l2]; cbn [cstr take lex] in *.
    + by rewrite H1, H2.
    + destruct H2 as (Hy & -> & _). rewrite H1. destruct (Z.eqb_spec 0 y); [congruence|]. cbn. lia.
    + destruct H1 as (Hx & -> & _). rewrite H2. destruct (Z.eqb_spec x 0); [congruence|]. cbn. lia.
    + destruct H1 as (Hx & -> & H1), H2 as (Hy & -> & H2). destruct (Z.eqb_spec x y) as [->|]; cbn [negb]; [|done].
      rewrite (proj2 (Z.eqb_neq y 0) Hy). by apply IH.
Qed.

Lemma read_unsigned base l : base <= 36 -> Forall (digit_of base) l -> read_int base l = of_digits base l.
Proof.
  intros Hb. destruct l as [|c l]; [done|]. intros [Hc _]%Forall_cons_iff. cbn [read_int].
  pose proof (digit_ascii base c Hb Hc). by rewrite (proj2 (Z.eqb_neq c 45)) by lia.
Qed.


Lemma itoa_spec m str value base : - 2 ^ 31 <= value < 2 ^ 31 -> 2 <= base <= 36 ->
  exists m' l, itoa value str base m = Some m' /\ cstr m' str l /\
    read_int base l = (if base =? 10 then value else Z.abs value) /\
    len l <= 32 /\ same_out m m' str (len l + 1) /\ (hd_error l = Some 48 -> l = [48]).
Proof.
  intros Hv Hb. unfold itoa. rewrite (proj2 (Z.ltb_ge base 2)), (proj2 (Z.ltb_ge 36 base)) by lia. cbn [orb].
  set (k := if base =? 10 then 9%nat else 31%nat).
  destruct (digits_spec base Hb 33 k m str value) as (m1 & ds & tmp & -> & [B O V S D L Hz]).
  { unfold k. destruct (base =? 10); lia. }
  { unfold k. destruct (Z.eqb_spec base 10) as [->|]; [lia|].
    assert (2 ^ 32 <= base ^ 32) by (apply Z.pow_le_mono_l; lia). lia. }
  rewrite S. set (neg := (value <? 0) && (base =? 10)). set (l := if neg then ds ++ [45] else ds).
  assert (exists m2, (if neg then (st m1 (str + len ds) 45, str + len ds + 1) else (m1, str + len ds)) = (m2, str + len l) /\
    bytes m2 str l /\ same_out m m2 str (len l)) as (m2 & -> & B2 & O2).
  { unfold l. destruct neg.
    - eexists. rewrite length_app. cbn [length]. split; [f_equal; lia|]. split.
      + apply bytes_app. split; [|split; [apply ld_st_eq|done]]. apply (bytes_same m1); [|done].
        intros b Hb'. apply ld_st_ne. lia.
      + intros b Hb'. rewrite ld_st_ne by lia. apply O. lia.
    - by eexists. }
  assert (len l <= 32) as Hlen.
  { unfold l, neg, k in *. destruct (Z.eqb_spec base 10), (value <? 0); cbn [andb]; rewrite ?length_app; cbn [length]; lia. }
  destruct (reverse_spec 33 (st m2 (str + len l) 0) str l) as (m3 & -> & B3 & O3); [|lia|].
  { apply (bytes_same m2); [|done]. intros b Hb'. apply ld_st_ne. lia. }
  exists m3, (rev l). rewrite length_rev. split; [done|]. split; [|split; [|split; [done|split]]].
  - apply cstr_bytes. split; [done|]. rewrite length_rev. split; [|rewrite O3 by lia; apply ld_st_eq].
    apply List.Forall_rev. unfold l. assert (Forall (fun v => v <> 0) ds) as Hn.
    { refine (Forall_impl _ _ D). intros c Hc. pose proof (digit_ascii base c ltac:(lia) Hc). lia. }
    destruct neg; [|done]. apply Forall_app. split; [done|]. by repeat constructor.
  - unfold l, neg in *. destruct (Z.eqb_spec base 10) as [->|Hne], (Z.ltb_spec value 0) as [Hn|Hn]; cbn [andb].
    1: rewrite rev_app_distr; cbn [rev app read_int Z.eqb Pos.eqb]; lia.
    all: rewrite read_unsigned; [lia|lia|by apply List.Forall_rev].
  - intros b Hb'. rewrite O3 by lia. rewrite ld_st_ne by lia. apply O2. lia.
  - unfold l. destruct neg; [rewrite rev_app_distr; done|]. intros Eh.
    assert (list.last ds = Some 48) as El.
    { rewrite <- (rev_involutive ds). destruct (rev ds) as [|c rs]; [done|]. cbn [rev hd_error] in *. rewrite last_snoc. done. }
    destruct (Hz El) as [-> _]. done.
Qed.

(** ** Properties *)

(** Conversion to text is exact: [itoa] of any [int] in any base from 2 to 36
    returns, writes a string of at most 32 characters and its terminator and nothing
    else, and the numeral reads back as the integer (its absolute value in bases other
    than ten); it has no leading zero. *)
Theorem itoa_correct m str value base : - 2 ^ 31 <= value < 2 ^ 31 -> 2 <= base <= 36 ->
  exists m' l, itoa value str base m = Some m' /\ cstr m' str l /\
    read_int base l = (if base =? 10 then value else Z.abs value) /\
    len l <= 32 /\ same_out m m' str (len l + 1) /\ (hd_error l = Some 48 -> l = [48]).
Proof. apply itoa_spec. Qed.

Lemma itoa_correct_witness : exists m' l, itoa (- 2147483648) 100 10 ∅ = Some m' /\ cstr m' 100 l /\
  read_int 10 l = - 2147483648.
Proof.
  destruct (itoa_correct ∅ 100 (- 2147483648) 10) as (m' & l & E & Hc & Hr & Hl & _).
  - split; [vm_compute; congruence|vm_compute; reflexivity].
  - lia.
  - exists m', l. split; [exact E|]. split; [exact Hc|exact Hr].
Defined.

(** Copying a string makes an equal string: after [string_copy(dest, src)] to a place
    that does not overlap it, [dest] and [src] have the same length and compare equal,
    and nothing outside the [string_length(src) + 1] bytes at [dest] has changed. Any
    fuel above the length is enough for each of the three. *)
Theorem string_copy_compare m dest src l fuel :
  cstr m src l -> Forall (fun v => 0 < v) l -> (length l < fuel)%nat ->
  dest + len l < src \/ src + len l < dest ->
  exists m', string_copy fuel m dest src = Some m' /\
    string_compare fuel m' dest src = Some 0 /\
    string_length fuel m' dest = string_length fuel m src /\
    same_out m m' dest (len l + 1).
Proof.
  intros Hc Hpos Hf Hd. destruct (copy_spec m dest src l fuel Hc Hf Hd) as (m' & -> & Hc' & O).
  assert (cstr m' src l) as Hs by (apply (cstr_same m); [|done]; intros b Hb; apply O; lia).
  exists m'. split; [done|]. split; [|split; [|done]].
  - rewrite (compare_spec m' dest src l l) by done. f_equal. by apply lex_eq.
  - unfold string_length. by rewrite (length_from m' dest 0 l), (length_from m src 0 l) by (done || by rewrite Z.add_0_r).
Qed.

Definition abc : mem := st (st (st (st ∅ 50 97) 51 98) 52 99) 53 0.

Lemma string_copy_compare_witness :
  exists m', string_copy 4 abc 60 50 = Some m' /\ string_compare 4 m' 60 50 = Some 0 /\
    string_length 4 m' 60 = Some 3.
Proof.
  destruct (string_copy_compare abc 60 50 [97; 98; 99] 4) as (m' & E & E1 & E2 & _).
  - vm_compute. repeat split; discriminate.
  - repeat constructor.
  - cbn [length]. lia.
  - cbn [length]. lia.
  - exists m'. split; [exact E|]. split; [exact E1|]. rewrite E2. vm_compute. reflexivity.
Defined.

(** The loop of a caller: tokenize [str], then ask for the next token until there is
    none. *)
Fixpoint tokenize_all (n fuel : nat) (x : mem * Z) (str delim : Z) : option (list Z * (mem * Z)) :=
  match n with
  | O => None
  | S n =>
      match string_tokenize fuel x str delim with
      | None => None
      | Some (p, x) =>
          if p =? 0 then Some ([], x)
          else match tokenize_all n fuel x 0 delim with
               | None => None
               | Some (ps, x) => Some (p :: ps, x)
               end
      end
  end.

Lemma tokenize_rest delim ds fuel : forall n m last r, rest_at m last r -> cstr m delim ds ->
  delim + len ds < last \/ last + len r < delim -> (length r + length ds < fuel)%nat -> (length r < n)%nat ->
  exists ps m' last', tokenize_all n fuel (m, last) 0 delim = Some (ps, (m', last')) /\
    Forall2 (cstr m') ps (tokens (is_in ds) r) /\ same_out m m' last (len r + 1).
Proof.
  induction n as [|n IH]; intros m last r Hr Hd Hdis Hf Hn; [lia|]. cbn [tokenize_all].
  destruct (tokenize_spec delim ds m last r fuel Hr Hd Hdis Hf) as (p & m1 & last1 & -> & H).
  destruct (tokens (is_in ds) r) as [|t ts].
  - destruct H as [-> ->]. exists [], m, last1. split; [done|]. split; [constructor|]. intros b _. done.
  - destruct H as [Hp Hs (r' & Hr' & <- & Hl & Hl1) O]. rewrite (proj2 (Z.eqb_neq p 0)) by lia.
    assert (cstr m1 delim ds) as Hd1 by (apply (cstr_same m); [|done]; intros b Hb; apply O; lia).
    destruct Hl1 as [->|[El1 El2]].
    + destruct Hr' as [[_ ->]|[? _]]; [|lia]. destruct n as [|n]; [lia|]. cbn [tokenize_all string_tokenize Z.eqb orb].
      exists [p], m1, 0. split; [done|]. split; [by repeat constructor|].
      apply (same_out_sub _ _ (p + len t) 1); [done|lia|lia].
    + destruct (IH m1 last1 r' Hr' Hd1 ltac:(lia) ltac:(lia) ltac:(lia)) as (ps & m2 & last2 & -> & F & O2).
      exists (p :: ps), m2, last2. split; [done|]. split.
      * constructor; [|done]. apply (cstr_same m1); [|done]. intros b Hb. apply O2. lia.
      * intros b Hb. rewrite O2 by lia. apply O. lia.
Qed.

(** Tokenizing finds exactly the pieces between delimiters. Calling
    [string_tokenize] on a string and then with NULL until it returns NULL, as its
    callers do, ends after at most one call more than there are characters; the pointers
    it returned are strings, in order, equal to the non-empty pieces of the original
    string, all still intact at the end, and only the string itself was written. *)
Theorem string_tokenize_correct m old str delim l ds fuel n :
  0 < str -> cstr m str l -> cstr m delim ds -> delim + len ds < str \/ str + len l < delim ->
  (length l + length ds < fuel)%nat -> (length l < n)%nat ->
  exists ps m' last', tokenize_all n fuel (m, old) str delim = Some (ps, (m', last')) /\
    Forall2 (cstr m') ps (tokens (is_in ds) l) /\ same_out m m' str (len l + 1).
Proof.
  intros Hpos Hc Hd Hdis Hf Hn. destruct (decide (l = [])) as [->|Hne].
  - destruct n as [|n]; [cbn [length] in Hn; lia|]. cbn [tokenize_all string_tokenize]. cbn [cstr] in Hc.
    rewrite (proj2 (Z.eqb_neq str 0)), Hc by lia. rewrite orb_true_r. exists [], m, old.
    split; [done|]. split; [constructor|]. intros b _. done.
  - destruct (tokenize_rest delim ds fuel n m str l) as (ps & m' & last' & E & F & O); [by right|done|done|done|done|].
    exists ps, m', last'. split; [|done]. rewrite <- E. destruct n as [|n]; [done|]. cbn [tokenize_all string_tokenize].
    rewrite (proj2 (Z.eqb_neq str 0)) by lia. cbn [Z.eqb]. rewrite (proj2 (Z.eqb_neq str 0)) by lia.
    rewrite (cstr_head _ _ _ Hc). by destruct l.
Qed.

(** "a//bc" at 100, "/" at 50. *)
Definition path_mem : mem :=
  st (st (st (st (st (st (st ∅ 100 97) 101 47) 102 47) 103 98) 104 99) 50 47) 51 0.

Lemma string_tokenize_correct_witness :
  exists ps m' last', tokenize_all 6 7 (path_mem, 0) 100 50 = Some (ps, (m', last')) /\
    Forall2 (cstr m') ps [[97]; [98; 99]].
Proof.
  destruct (string_tokenize_correct path_mem 0 100 50 [97; 47; 47; 98; 99] [47] 7 6) as (ps & m' & last' & E & F & _).
  - lia.
  - vm_compute. repeat split; discriminate.
  - vm_compute. repeat split; discriminate.
  - cbn [length]. lia.
  - cbn [length]. lia.
  - cbn [length]. lia.
  - exists ps, m', last'. split; [exact E|exact F].
Defined.
