(* ===== verification/Ipc.v ===== *)
(** * Inter-process communication (kernel/ipc.c, include/ipc.h)

    Pipes and message queues: static tables of ring buffers. A pointer to a pipe or a
    queue is an index of its table ([None] is NULL), an array is a map from its indices.
    The ring buffers refine bounded FIFO lists, and over any interleaving of the
    operations what has been received is a prefix of what has been sent. *)
From stdpp Require Import functions.
From S2P Require Import Prelude.

Definition MAX_PIPES : nat := 32.
Definition MAX_MSG_QUEUES : nat := 32.
Definition PIPE_BUF_SIZE : Z := 4096.
Definition MSG_QUEUE_SIZE : Z := 16.
Definition MSG_MAX_SIZE : Z := 256.

Record pipe_t := Pipe {
  buffer : gmap Z Z; read_pos : Z; write_pos : Z; p_count : Z; reader_pid : Z; writer_pid : Z; p_open : bool
}.
Record message_t := Message { sender_pid : Z; m_type : Z; m_size : Z; m_data : list Z }.
Record msg_queue_t := Queue {
  messages : gmap Z message_t; q_head : Z; q_tail : Z; q_count : Z; owner_pid : Z; q_open : bool
}.

Definition zero_pipe : pipe_t := Pipe ∅ 0 0 0 0 0 false.
Definition zero_message : message_t := Message 0 0 0 (replicate 256 0).
Definition zero_queue : msg_queue_t := Queue ∅ 0 0 0 0 false.

Record ipc := Ipc { pipes : list pipe_t; msg_queues : list msg_queue_t; ipc_initialized : bool }.

(** The static tables before [ipc_init]. *)
Definition ipc_bss : ipc := Ipc (replicate MAX_PIPES zero_pipe) (replicate MAX_MSG_QUEUES zero_queue) false.

Definition pipe_at (i : nat) (s : ipc) : pipe_t := default zero_pipe (pipes s !! i).
Definition queue_at (i : nat) (s : ipc) : msg_queue_t := default zero_queue (msg_queues s !! i).
Definition set_pipe (i : nat) (p : pipe_t) (s : ipc) : ipc := Ipc (<[i := p]> (pipes s)) (msg_queues s) (ipc_initialized s).
Definition set_queue (i : nat) (q : msg_queue_t) (s : ipc) : ipc := Ipc (pipes s) (<[i := q]> (msg_queues s)) (ipc_initialized s).

Definition ipc_init (s : ipc) : ipc :=
  if ipc_initialized s then s
  else Ipc ((fun p => Pipe (buffer p) 0 0 0 (reader_pid p) (writer_pid p) false) <$> pipes s)
           ((fun q => Queue (messages q) 0 0 0 (owner_pid q) false) <$> msg_queues s) true.

(** ** Pipes *)

Definition pipe_create (reader writer : Z) (s : ipc) : option nat * ipc :=
  match list_find (fun p => p_open p = false) (pipes s) with
  | Some (i, p) => (Some i, set_pipe i (Pipe (buffer p) 0 0 0 reader writer true) s)
  | None => (None, s)
  end.

Definition pipe_put (v : Z) (p : pipe_t) : pipe_t :=
  Pipe (<[write_pos p := v]> (buffer p)) (read_pos p) ((write_pos p + 1) mod PIPE_BUF_SIZE) (p_count p + 1)
    (reader_pid p) (writer_pid p) (p_open p).
Definition pipe_head (p : pipe_t) : Z := default 0 (buffer p !! read_pos p).
Definition pipe_drop (p : pipe_t) : pipe_t :=
  Pipe (buffer p) ((read_pos p + 1) mod PIPE_BUF_SIZE) (write_pos p) (p_count p - 1)
    (reader_pid p) (writer_pid p) (p_open p).

(** The loop of [pipe_write] with [n] bytes to go; [src] is what is left of the data. *)
Fixpoint pipe_write_loop (n : nat) (src : list Z) (written : Z) (p : pipe_t) : Z * pipe_t :=
  match n with
  | O => (written, p)
  | S n => if p_count p <? PIPE_BUF_SIZE then pipe_write_loop n (tail src) (written + 1) (pipe_put (hd 0 src) p)
           else (written, p)
  end.
Definition pipe_write (pipe : option nat) (data : option (list Z)) (size : Z) (s : ipc) : Z * ipc :=
  match pipe, data with
  | Some i, Some src =>
      if negb (p_open (pipe_at i s)) then (-1, s)
      else let '(written, p) := pipe_write_loop (Z.to_nat size) src 0 (pipe_at i s) in (s32 written, set_pipe i p s)
  | _, _ => (-1, s)
  end.

(** The loop of [pipe_read] with [n] bytes of the buffer to go; it returns the bytes
    stored in [buffer], in order. *)
Fixpoint pipe_read_loop (n : nat) (dst : list Z) (p : pipe_t) : list Z * pipe_t :=
  match n with
  | O => (dst, p)
  | S n => if 0 <? p_count p then pipe_read_loop n (dst ++ [pipe_head p]) (pipe_drop p) else (dst, p)
  end.
(** [have] says that [buffer] is not NULL. *)
Definition pipe_read (pipe : option nat) (have : bool) (size : Z) (s : ipc) : Z * list Z * ipc :=
  match pipe with
  | Some i =>
      if negb (p_open (pipe_at i s)) || negb have then (-1, [], s)
      else let '(dst, p) := pipe_read_loop (Z.to_nat size) [] (pipe_at i s) in (s32 (Z.of_nat (length dst)), dst, set_pipe i p s)
  | None => (-1, [], s)
  end.

Definition pipe_close (pipe : option nat) (s : ipc) : ipc :=
  match pipe with
  | Some i => let p := pipe_at i s in
      set_pipe i (Pipe (buffer p) (read_pos p) (write_pos p) (p_count p) (reader_pid p) (writer_pid p) false) s
  | None => s
  end.

(** ** Message queues *)

Definition msgqueue_create (owner : Z) (s : ipc) : option nat * ipc :=
  match list_find (fun q => q_open q = false) (msg_queues s) with
  | Some (i, q) => (Some i, set_queue i (Queue (messages q) 0 0 0 owner true) s)
  | None => (None, s)
  end.

Definition slot (q : msg_queue_t) (i : Z) : message_t := default zero_message (messages q !! i).

(** [memcpy(msg->data, data, size)] when there is something to copy. *)
Definition fill_data (data : option (list Z)) (size : Z) (old : list Z) : list Z :=
  match data with
  | Some d => if 0 <? size then take (Z.to_nat size) d ++ drop (Z.to_nat size) old else old
  | None => old
  end.

Definition msgqueue_send (queue : option nat) (sender type : Z) (data : option (list Z)) (size : Z) (s : ipc) : Z * ipc :=
  match queue with
  | None => (-1, s)
  | Some i =>
      let q := queue_at i s in
      if negb (q_open q) || (MSG_MAX_SIZE <? size) then (-1, s)
      else if MSG_QUEUE_SIZE <=? q_count q then (-1, s)
      else
        let msg := Message sender type size (fill_data data size (m_data (slot q (q_tail q)))) in
        (0, set_queue i (Queue (<[q_tail q := msg]> (messages q)) (q_head q) ((q_tail q + 1) mod MSG_QUEUE_SIZE)
                           (q_count q + 1) (owner_pid q) (q_open q)) s)
  end.

Definition msgqueue_receive (queue : option nat) (have : bool) (s : ipc) : Z * option message_t * ipc :=
  match queue with
  | None => (-1, None, s)
  | Some i =>
      let q := queue_at i s in
      if negb (q_open q) || negb have then (-1, None, s)
      else if q_count q =? 0 then (-1, None, s)
      else (0, Some (slot q (q_head q)),
            set_queue i (Queue (messages q) ((q_head q + 1) mod MSG_QUEUE_SIZE) (q_tail q) (q_count q - 1)
                           (owner_pid q) (q_open q)) s)
  end.

Definition msgqueue_close (queue : option nat) (s : ipc) : ipc :=
  match queue with
  | Some i => let q := queue_at i s in
      set_queue i (Queue (messages q) (q_head q) (q_tail q) (q_count q) (owner_pid q) false) s
  | None => s
  end.

(** ** Ring buffers *)

Section Ring.
Context {A : Type} (d : A) (N : Z).

(** The [n] elements from position [r] on, in order. *)
Definition ring (buf : gmap Z A) (r n : Z) : list A := (fun i => default d (buf !! ((r + i) mod N))) <$> seqZ 0 n.

Lemma ring_nil buf r : ring buf r 0 = [].
Proof. done. Qed.
Lemma ring_length buf r n : 0 <= n -> Z.of_nat (length (ring buf r n)) = n.
Proof. intros. unfold ring. rewrite length_fmap, length_seqZ. lia. Qed.

Lemma ring_push buf r n v : 0 <= n < N -> ring (<[(r + n) mod N := v]> buf) r (n + 1) = ring buf r n ++ [v].
Proof.
  intros Hn. unfold ring. rewrite (seqZ_app 0 n 1), fmap_app by lia. f_equal.
  - apply list_fmap_ext. intros i x Hx. apply lookup_seqZ in Hx as [-> Hi]. rewrite lookup_insert_ne; [done|].
    intros E. assert ((r + n - (r + (0 + Z.of_nat i))) mod N = 0) as Hm.
    { rewrite Zminus_mod, E, Z.sub_diag. apply Z.mod_0_l. lia. }
    rewrite Z.mod_small in Hm; lia.
  - rewrite seqZ_cons, seqZ_nil by lia. cbn [fmap list_fmap]. by rewrite Z.add_0_l, lookup_insert_eq.
Qed.

Lemma ring_pop buf r n : 0 <= r < N -> 0 < n ->
  ring buf r n = default d (buf !! r) :: ring buf ((r + 1) mod N) (n - 1).
Proof.
  intros Hr Hn. unfold ring. rewrite (seqZ_cons 0 n) by lia. cbn [fmap list_fmap].
  rewrite Z.add_0_r, Z.mod_small by lia. f_equal. replace (Z.pred n) with (n - 1) by lia.
  replace (Z.succ 0) with (0 + 1) by lia. rewrite <- (fmap_add_seqZ 1 0). rewrite <- list_fmap_compose.
  apply list_fmap_ext. intros i x _. cbn. rewrite Zplus_mod_idemp_l. do 3 f_equal. lia.
Qed.
End Ring.

(** ** The FIFO a pipe or a queue implements *)

Record pipe_ok (p : pipe_t) : Prop := {
  po_read : 0 <= read_pos p < PIPE_BUF_SIZE;
  po_count : 0 <= p_count p <= PIPE_BUF_SIZE;
  po_write : write_pos p = (read_pos p + p_count p) mod PIPE_BUF_SIZE
}.
Definition contents (p : pipe_t) : list Z := ring 0 PIPE_BUF_SIZE (buffer p) (read_pos p) (p_count p).

Record queue_ok (q : msg_queue_t) : Prop := {
  qo_head : 0 <= q_head q < MSG_QUEUE_SIZE;
  qo_count : 0 <= q_count q <= MSG_QUEUE_SIZE;
  qo_tail : q_tail q = (q_head q + q_count q) mod MSG_QUEUE_SIZE
}.
Definition pending (q : msg_queue_t) : list message_t := ring zero_message MSG_QUEUE_SIZE (messages q) (q_head q) (q_count q).

Lemma pipe_put_ok v p : pipe_ok p -> p_count p < PIPE_BUF_SIZE -> pipe_ok (pipe_put v p) /\ contents (pipe_put v p) = contents p ++ [v].
Proof.
  intros [Hr Hc Hw] Hlt. split.
  - constructor; cbn; [done|lia|]. rewrite Hw, Zplus_mod_idemp_l. f_equal. lia.
  - unfold contents. cbn [buffer read_pos p_count pipe_put]. rewrite Hw. apply ring_push. lia.
Qed.
Lemma pipe_drop_ok p : pipe_ok p -> 0 < p_count p ->
  pipe_ok (pipe_drop p) /\ contents p = pipe_head p :: contents (pipe_drop p).
Proof.
  intros [Hr Hc Hw] Hlt. split.
  - constructor; cbn; [apply Z.mod_pos_bound; done|lia|]. rewrite Hw, Zplus_mod_idemp_l. f_equal. lia.
  - unfold contents, pipe_head. by rewrite ring_pop.
Qed.

Lemma write_loop_spec n : forall src w p, pipe_ok p -> (n <= length src)%nat ->
  exists k p', pipe_write_loop n src w p = (w + Z.of_nat k, p') /\
    k = Nat.min n (Z.to_nat (PIPE_BUF_SIZE - p_count p)) /\ pipe_ok p' /\
    contents p' = contents p ++ take k src /\ p_open p' = p_open p.
Proof.
  induction n as [|n IH]; intros src w p Hp Hn; cbn [pipe_write_loop].
  - exists 0%nat, p. rewrite Z.add_0_r, take_0, app_nil_r. done.
  - destruct (Z.ltb_spec (p_count p) PIPE_BUF_SIZE) as [Hlt|Hge].
    + destruct src as [|v src]; cbn [length] in Hn; [lia|]. cbn [hd tail].
      destruct (pipe_put_ok v p Hp Hlt) as [Hp1 Hc1].
      destruct (IH src (w + 1) (pipe_put v p) Hp1 ltac:(lia)) as (k & p' & -> & Ek & Hp' & Hc & Ho).
      exists (S k), p'. split; [f_equal; lia|]. split; [cbn in Ek; lia|]. split; [done|].
      split; [|done]. cbn [take]. rewrite Hc, Hc1, <- app_assoc. done.
    + exists 0%nat, p. rewrite Z.add_0_r, take_0, app_nil_r. split; [done|]. split; [lia|]. done.
Qed.

Lemma read_loop_spec n : forall dst p, pipe_ok p ->
  exists k p', pipe_read_loop n dst p = (dst ++ take k (contents p), p') /\
    k = Nat.min n (Z.to_nat (p_count p)) /\ pipe_ok p' /\
    contents p' = drop k (contents p) /\ p_open p' = p_open p.
Proof.
  induction n as [|n IH]; intros dst p Hp; cbn [pipe_read_loop].
  - exists 0%nat, p. rewrite take_0, app_nil_r. done.
  - destruct (Z.ltb_spec 0 (p_count p)) as [Hlt|Hge].
    + destruct (pipe_drop_ok p Hp Hlt) as [Hp1 Hc1].
      destruct (IH (dst ++ [pipe_head p]) (pipe_drop p) Hp1) as (k & p' & -> & Ek & Hp' & Hc & Ho).
      exists (S k), p'. rewrite Hc1. cbn [take drop]. split; [by rewrite <- app_assoc|].
      split; [cbn in Ek; lia|]. done.
    + exists 0%nat, p. rewrite take_0, app_nil_r. split; [done|]. split; [lia|]. done.
Qed.

(** The tables. *)
Record ipc_ok (s : ipc) : Prop := {
  io_pipes : length (pipes s) = MAX_PIPES;
  io_queues : length (msg_queues s) = MAX_MSG_QUEUES;
  io_pipe : forall i, pipe_ok (pipe_at i s);
  io_queue : forall i, queue_ok (queue_at i s)
}.

Lemma zero_pipe_ok : pipe_ok zero_pipe.
Proof. constructor; cbn; try lia; done. Qed.
Lemma zero_queue_ok : queue_ok zero_queue.
Proof. constructor; cbn; try lia; done. Qed.

Lemma pipe_at_set i j p s : length (pipes s) = MAX_PIPES -> (i < MAX_PIPES)%nat ->
  pipe_at j (set_pipe i p s) = if decide (j = i) then p else pipe_at j s.
Proof.
  intros Hl Hi. unfold pipe_at. cbn. destruct (decide (j = i)) as [->|]; [rewrite list_lookup_insert_eq by lia; done|].
  by rewrite list_lookup_insert_ne.
Qed.
Lemma queue_at_set i j q s : length (msg_queues s) = MAX_MSG_QUEUES -> (i < MAX_MSG_QUEUES)%nat ->
  queue_at j (set_queue i q s) = if decide (j = i) then q else queue_at j s.
Proof.
  intros Hl Hi. unfold queue_at. cbn. destruct (decide (j = i)) as [->|]; [rewrite list_lookup_insert_eq by lia; done|].
  by rewrite list_lookup_insert_ne.
Qed.
Lemma ipc_ok_pipe i p s : ipc_ok s -> (i < MAX_PIPES)%nat -> pipe_ok p -> ipc_ok (set_pipe i p s).
Proof.
  intros [Hp Hq H1 H2] Hi Hok. constructor; [cbn; by rewrite length_insert|done| |done].
  intros j. rewrite pipe_at_set by done. by destruct (decide (j = i)).
Qed.
Lemma ipc_ok_queue i q s : ipc_ok s -> (i < MAX_MSG_QUEUES)%nat -> queue_ok q -> ipc_ok (set_queue i q s).
Proof.
  intros [Hp Hq H1 H2] Hi Hok. constructor; [done|cbn; by rewrite length_insert|done|].
  intros j. rewrite queue_at_set by done. by destruct (decide (j = i)).
Qed.
Lemma open_pipe_lt i s : length (pipes s) = MAX_PIPES -> p_open (pipe_at i s) = true -> (i < MAX_PIPES)%nat.
Proof.
  intros Hl. unfold pipe_at. destruct (pipes s !! i) eqn:E; cbn; [|done]. intros _. apply lookup_lt_Some in E. lia.
Qed.
Lemma open_queue_lt i s : length (msg_queues s) = MAX_MSG_QUEUES -> q_open (queue_at i s) = true -> (i < MAX_MSG_QUEUES)%nat.
Proof.
  intros Hl. unfold queue_at. destruct (msg_queues s !! i) eqn:E; cbn; [|done]. intros _. apply lookup_lt_Some in E. lia.
Qed.

(** ** Operations on the tables *)

Lemma pipe_write_spec i data size s : ipc_ok s -> p_open (pipe_at i s) = true -> 0 <= size <= Z.of_nat (length data) ->
  exists k p', pipe_write (Some i) (Some data) size s = (k, set_pipe i p' s) /\
    k = Z.min size (PIPE_BUF_SIZE - p_count (pipe_at i s)) /\ 0 <= k /\ pipe_ok p' /\ p_open p' = true /\
    contents p' = contents (pipe_at i s) ++ take (Z.to_nat k) data.
Proof.
  intros Hs Ho Hsz. unfold pipe_write. rewrite Ho. cbn [negb].
  destruct (write_loop_spec (Z.to_nat size) data 0 (pipe_at i s) (io_pipe s Hs i) ltac:(lia)) as (k & p' & -> & Ek & Hp & Hc & Ho').
  pose proof (po_count _ (io_pipe s Hs i)) as Hcnt. change PIPE_BUF_SIZE with 4096 in *.
  exists (Z.of_nat k), p'. rewrite s32_small by lia. rewrite Nat2Z.id. split; [done|]. split; [lia|]. split; [lia|].
  split; [done|]. split; [congruence|done].
Qed.

Lemma pipe_read_spec i size s : ipc_ok s -> p_open (pipe_at i s) = true -> 0 <= size ->
  exists k dst p', pipe_read (Some i) true size s = (k, dst, set_pipe i p' s) /\
    k = Z.min size (p_count (pipe_at i s)) /\ dst = take (Z.to_nat k) (contents (pipe_at i s)) /\
    pipe_ok p' /\ p_open p' = true /\ contents p' = drop (Z.to_nat k) (contents (pipe_at i s)).
Proof.
  intros Hs Ho Hsz. unfold pipe_read. rewrite Ho. cbn [negb orb].
  destruct (read_loop_spec (Z.to_nat size) [] (pipe_at i s) (io_pipe s Hs i)) as (k & p' & -> & Ek & Hp & Hc & Ho').
  pose proof (po_count _ (io_pipe s Hs i)) as Hcnt. cbn [app].
  assert (Z.of_nat (length (contents (pipe_at i s))) = p_count (pipe_at i s)) as Hl by (apply ring_length; lia).
  rewrite length_take. change PIPE_BUF_SIZE with 4096 in *.
  replace (Nat.min k (length (contents (pipe_at i s)))) with k by lia.
  exists (Z.of_nat k), (take k (contents (pipe_at i s))), p'. rewrite s32_small by lia. rewrite Nat2Z.id.
  split; [done|]. split; [lia|]. split; [done|]. split; [done|]. split; [congruence|done].
Qed.

(** A message that carries the data of a send; without data the payload is whatever the
    slot held. *)
Definition request : Type := Z * Z * option (list Z) * Z.
Definition carries (msg : message_t) (r : request) : Prop :=
  let '(sender, type, data, size) := r in
  sender_pid msg = sender /\ m_type msg = type /\ m_size msg = size /\
  match data with Some d => take (Z.to_nat size) (m_data msg) = take (Z.to_nat size) d | None => True end.

Lemma fill_carries sender type data size old :
  match data with Some d => 0 <= size <= Z.of_nat (length d) | None => True end ->
  carries (Message sender type size (fill_data data size old)) (sender, type, data, size).
Proof.
  intros Hd. split; [done|]. split; [done|]. split; [done|]. destruct data as [d|]; [|done]. cbn [m_data fill_data].
  destruct (Z.ltb_spec 0 size).
  - rewrite take_app_le by (rewrite length_take; lia). rewrite take_take. f_equal. lia.
  - replace size with 0 by lia. done.
Qed.

Lemma msgqueue_send_spec i sender type data size s : ipc_ok s -> q_open (queue_at i s) = true ->
  match data with Some d => 0 <= size <= Z.of_nat (length d) | None => True end ->
  (size <= MSG_MAX_SIZE /\ q_count (queue_at i s) < MSG_QUEUE_SIZE /\
   exists q' msg, msgqueue_send (Some i) sender type data size s = (0, set_queue i q' s) /\
     queue_ok q' /\ q_open q' = true /\ pending q' = pending (queue_at i s) ++ [msg] /\
     carries msg (sender, type, data, size)) \/
  ((MSG_MAX_SIZE < size \/ q_count (queue_at i s) = MSG_QUEUE_SIZE) /\
   msgqueue_send (Some i) sender type data size s = (-1, s)).
Proof.
  intros Hs Ho Hd. unfold msgqueue_send. cbv zeta. rewrite Ho. cbn [negb orb]. destruct (io_queue s Hs i) as [Hh Hc Ht].
  destruct (Z.ltb_spec MSG_MAX_SIZE size); [right; auto|].
  destruct (Z.leb_spec MSG_QUEUE_SIZE (q_count (queue_at i s))); [right; split; [right; lia|done]|].
  left. split; [done|]. split; [done|]. eexists _, _. split; [done|]. split; [|split; [done|split]].
  - constructor; cbn; [done|lia|]. rewrite Ht, Zplus_mod_idemp_l. f_equal. lia.
  - unfold pending. cbn [messages q_head q_count]. rewrite Ht. apply ring_push. lia.
  - by apply fill_carries.
Qed.

Lemma msgqueue_receive_spec i s : ipc_ok s -> q_open (queue_at i s) = true ->
  match pending (queue_at i s) with
  | [] => msgqueue_receive (Some i) true s = (-1, None, s)
  | msg :: ms => exists q', msgqueue_receive (Some i) true s = (0, Some msg, set_queue i q' s) /\
      queue_ok q' /\ q_open q' = true /\ pending q' = ms
  end.
Proof.
  intros Hs Ho. unfold msgqueue_receive. cbv zeta. rewrite Ho. cbn [negb orb]. destruct (io_queue s Hs i) as [Hh Hc Ht].
  destruct (Z.eqb_spec (q_count (queue_at i s)) 0) as [E|E].
  - unfold pending. by rewrite E.
  - unfold pending at 1. rewrite ring_pop by lia. eexists. split; [done|]. split; [|done].
    constructor; cbn; [apply Z.mod_pos_bound; done|lia|]. rewrite Ht, Zplus_mod_idemp_l. f_equal. lia.
Qed.

Lemma find_pipe s i p : list_find (fun p => p_open p = false) (pipes s) = Some (i, p) ->
  pipes s !! i = Some p /\ p_open p = false.
Proof. intros H. apply list_find_Some in H. tauto. Qed.
Lemma find_queue s i q : list_find (fun q => q_open q = false) (msg_queues s) = Some (i, q) ->
  msg_queues s !! i = Some q /\ q_open q = false.
Proof. intros H. apply list_find_Some in H. tauto. Qed.

Lemma fresh_pipe_ok buf r w b : pipe_ok (Pipe buf 0 0 0 r w b).
Proof. constructor; cbn; [done|done|done]. Qed.
Lemma fresh_queue_ok ms o b : queue_ok (Queue ms 0 0 0 o b).
Proof. constructor; cbn; [done|done|done]. Qed.

(** ** Histories

    The operations in any order, with a record, for every pipe and queue since it was
    last created, of what was accepted from senders and what receivers got. *)

Inductive event :=
  | PCreate (reader writer : Z)
  | PWrite (i : nat) (data : list Z) (size : Z)
  | PRead (i : nat) (size : Z)
  | PClose (i : nat)
  | QCreate (owner : Z)
  | QSend (i : nat) (r : request)
  | QReceive (i : nat)
  | QClose (i : nat).

Definition valid (e : event) : Prop :=
  match e with
  | PWrite i data size => 0 <= size <= Z.of_nat (length data)
  | PRead i size => 0 <= size
  | QSend i (_, _, data, size) => match data with Some d => 0 <= size <= Z.of_nat (length d) | None => True end
  | _ => True
  end.

Record history := History {
  p_sent : nat -> list Z; p_got : nat -> list Z; q_sent : nat -> list request; q_got : nat -> list message_t
}.

Definition run_event (x : ipc * history) (e : event) : ipc * history :=
  let '(s, h) := x in
  match e with
  | PCreate r w =>
      let '(res, s) := pipe_create r w s in
      (s, match res with
          | Some i => History (<[i := []]> (p_sent h)) (<[i := []]> (p_got h)) (q_sent h) (q_got h)
          | None => h end)
  | PWrite i data size =>
      let '(k, s) := pipe_write (Some i) (Some data) size s in
      (s, History (<[i := p_sent h i ++ take (Z.to_nat k) data]> (p_sent h)) (p_got h) (q_sent h) (q_got h))
  | PRead i size =>
      let '(_, dst, s) := pipe_read (Some i) true size s in
      (s, History (p_sent h) (<[i := p_got h i ++ dst]> (p_got h)) (q_sent h) (q_got h))
  | PClose i => (pipe_close (Some i) s, h)
  | QCreate o =>
      let '(res, s) := msgqueue_create o s in
      (s, match res with
          | Some i => History (p_sent h) (p_got h) (<[i := []]> (q_sent h)) (<[i := []]> (q_got h))
          | None => h end)
  | QSend i r =>
      let '(sender, type, data, size) := r in
      let '(k, s) := msgqueue_send (Some i) sender type data size s in
      (s, if k =? 0 then History (p_sent h) (p_got h) (<[i := q_sent h i ++ [r]]> (q_sent h)) (q_got h) else h)
  | QReceive i =>
      let '(_, msg, s) := msgqueue_receive (Some i) true s in
      (s, match msg with
          | Some msg => History (p_sent h) (p_got h) (q_sent h) (<[i := q_got h i ++ [msg]]> (q_got h))
          | None => h end)
  | QClose i => (msgqueue_close (Some i) s, h)
  end.

Definition run_events (es : list event) (x : ipc * history) : ipc * history := foldl run_event x es.

Record fifo_inv (s : ipc) (h : history) : Prop := {
  fi_ok : ipc_ok s;
  fi_pipe : forall i, p_open (pipe_at i s) = true -> p_sent h i = p_got h i ++ contents (pipe_at i s);
  fi_queue : forall i, q_open (queue_at i s) = true -> Forall2 carries (q_got h i ++ pending (queue_at i s)) (q_sent h i)
}.

(** Replacing one pipe (one queue) and its record preserves the rest. *)
Lemma fifo_set_pipe s h i p sent got : fifo_inv s h -> (i < MAX_PIPES)%nat -> pipe_ok p ->
  (p_open p = true -> sent = got ++ contents p) ->
  fifo_inv (set_pipe i p s) (History (<[i := sent]> (p_sent h)) (<[i := got]> (p_got h)) (q_sent h) (q_got h)).
Proof.
  intros [Hok Hp Hq] Hi Hpo Hc. constructor; [by apply ipc_ok_pipe| |exact Hq].
  intros j. rewrite pipe_at_set by (done || apply Hok). cbn [p_sent p_got].
  destruct (decide (j = i)) as [->|Hne]; [by rewrite !fn_lookup_insert|]. rewrite !fn_lookup_insert_ne by done. apply Hp.
Qed.
Lemma fifo_set_queue s h i q sent got : fifo_inv s h -> (i < MAX_MSG_QUEUES)%nat -> queue_ok q ->
  (q_open q = true -> Forall2 carries (got ++ pending q) sent) ->
  fifo_inv (set_queue i q s) (History (p_sent h) (p_got h) (<[i := sent]> (q_sent h)) (<[i := got]> (q_got h))).
Proof.
  intros [Hok Hp Hq] Hi Hqo Hc. constructor; [by apply ipc_ok_queue|exact Hp|].
  intros j. rewrite queue_at_set by (done || apply Hok). cbn [q_sent q_got].
  destruct (decide (j = i)) as [->|Hne]; [by rewrite !fn_lookup_insert|]. rewrite !fn_lookup_insert_ne by done. apply Hq.
Qed.

(** Histories matter pointwise only. *)
Lemma fifo_ext s h h' : fifo_inv s h -> (forall i, p_sent h' i = p_sent h i /\ p_got h' i = p_got h i /\
  q_sent h' i = q_sent h i /\ q_got h' i = q_got h i) -> fifo_inv s h'.
Proof.
  intros [Hok Hp Hq] He. constructor; [done| |].
  - intros i Hi. destruct (He i) as (-> & -> & _). auto.
  - intros i Hi. destruct (He i) as (_ & _ & -> & ->). auto.
Qed.
Lemma fn_keep {A} (f : nat -> A) i j : <[i := f i]> f j = f j.
Proof. destruct (decide (j = i)) as [->|]; [by rewrite fn_lookup_insert|by rewrite fn_lookup_insert_ne]. Qed.

Lemma closed_write i data size s : p_open (pipe_at i s) = false -> pipe_write (Some i) (Some data) size s = (-1, s).
Proof. intros H. unfold pipe_write. by rewrite H. Qed.
Lemma closed_read i size s : p_open (pipe_at i s) = false -> pipe_read (Some i) true size s = (-1, [], s).
Proof. intros H. unfold pipe_read. by rewrite H. Qed.

Lemma pipe_create_inv s h r w : fifo_inv s h ->
  fifo_inv (fst (run_event (s, h) (PCreate r w))) (snd (run_event (s, h) (PCreate r w))).
Proof.
  intros Hf. cbn [run_event]. unfold pipe_create. destruct (list_find _ (pipes s)) as [[i p]|] eqn:E; [|done].
  apply find_pipe in E as [E _]. cbn [fst snd]. apply fifo_set_pipe; [done| |apply fresh_pipe_ok|done].
  apply lookup_lt_Some in E. by rewrite (io_pipes s (fi_ok _ _ Hf)) in E.
Qed.
Lemma msgqueue_create_inv s h o : fifo_inv s h ->
  fifo_inv (fst (run_event (s, h) (QCreate o))) (snd (run_event (s, h) (QCreate o))).
Proof.
  intros Hf. cbn [run_event]. unfold msgqueue_create. destruct (list_find _ (msg_queues s)) as [[i q]|] eqn:E; [|done].
  apply find_queue in E as [E _]. cbn [fst snd]. apply fifo_set_queue; [done| |apply fresh_queue_ok|constructor].
  apply lookup_lt_Some in E. by rewrite (io_queues s (fi_ok _ _ Hf)) in E.
Qed.

Lemma pipe_write_inv s h i data size : fifo_inv s h -> 0 <= size <= Z.of_nat (length data) ->
  fifo_inv (fst (run_event (s, h) (PWrite i data size))) (snd (run_event (s, h) (PWrite i data size))).
Proof.
  intros Hf Hv. cbn [run_event]. destruct (p_open (pipe_at i s)) eqn:Ho.
  - destruct (pipe_write_spec i data size s (fi_ok _ _ Hf) Ho Hv) as (k & p' & -> & _ & _ & Hp & Ho' & Hc). cbn [fst snd].
    pose proof (open_pipe_lt i s (io_pipes s (fi_ok _ _ Hf)) Ho) as Hi.
    eapply fifo_ext; [apply (fifo_set_pipe s h i p' (p_sent h i ++ take (Z.to_nat k) data) (p_got h i)); [done|done|done|]|].
    + intros _. rewrite Hc, (fi_pipe _ _ Hf i Ho). by rewrite app_assoc.
    + intros j. cbn. by rewrite fn_keep.
  - rewrite closed_write by done. cbn [fst snd Z.to_nat]. eapply fifo_ext; [exact Hf|]. intros j. cbn.
    rewrite app_nil_r. by rewrite fn_keep.
Qed.
Lemma pipe_read_inv s h i size : fifo_inv s h -> 0 <= size ->
  fifo_inv (fst (run_event (s, h) (PRead i size))) (snd (run_event (s, h) (PRead i size))).
Proof.
  intros Hf Hv. cbn [run_event]. destruct (p_open (pipe_at i s)) eqn:Ho.
  - destruct (pipe_read_spec i size s (fi_ok _ _ Hf) Ho Hv) as (k & dst & p' & -> & _ & -> & Hp & Ho' & Hc). cbn [fst snd].
    pose proof (open_pipe_lt i s (io_pipes s (fi_ok _ _ Hf)) Ho) as Hi.
    eapply fifo_ext; [apply (fifo_set_pipe s h i p' (p_sent h i) (p_got h i ++ take (Z.to_nat k) (contents (pipe_at i s)))); [done|done|done|]|].
    + intros _. rewrite Hc, <- app_assoc, take_drop. by apply (fi_pipe _ _ Hf).
    + intros j. cbn. by rewrite fn_keep.
  - rewrite closed_read by done. cbn [fst snd]. eapply fifo_ext; [exact Hf|]. intros j. cbn.
    rewrite app_nil_r. by rewrite fn_keep.
Qed.

Lemma msgqueue_send_inv s h i r : fifo_inv s h -> valid (QSend i r) ->
  fifo_inv (fst (run_event (s, h) (QSend i r))) (snd (run_event (s, h) (QSend i r))).
Proof.
  intros Hf Hv. cbn [run_event]. destruct r as [[[sender type] data] size]. cbn [valid] in Hv. destruct (q_open (queue_at i s)) eqn:Ho.
  - destruct (msgqueue_send_spec i sender type data size s (fi_ok _ _ Hf) Ho Hv)
      as [(_ & _ & q' & msg & -> & Hq & _ & Hp & Hc)|[_ ->]]; cbn [fst snd Z.eqb]; [|done].
    pose proof (open_queue_lt i s (io_queues s (fi_ok _ _ Hf)) Ho) as Hi.
    eapply fifo_ext; [apply (fifo_set_queue s h i q' (q_sent h i ++ [(sender, type, data, size)]) (q_got h i)); [done|done|done|]|].
    + intros _. rewrite Hp, app_assoc. apply Forall2_app; [by apply (fi_queue _ _ Hf)|]. constructor; [exact Hc|constructor].
    + intros j. cbn. by rewrite fn_keep.
  - unfold msgqueue_send. rewrite Ho. cbn [negb orb fst snd Z.eqb]. done.
Qed.
Lemma msgqueue_receive_inv s h i : fifo_inv s h ->
  fifo_inv (fst (run_event (s, h) (QReceive i))) (snd (run_event (s, h) (QReceive i))).
Proof.
  intros Hf. cbn [run_event]. destruct (q_open (queue_at i s)) eqn:Ho.
  - pose proof (msgqueue_receive_spec i s (fi_ok _ _ Hf) Ho) as Hr. pose proof (fi_queue _ _ Hf i Ho) as Hfq.
    destruct (pending (queue_at i s)) as [|msg ms] eqn:E; [by rewrite Hr|].
    destruct Hr as (q' & -> & Hq & _ & Hp). cbn [fst snd].
    pose proof (open_queue_lt i s (io_queues s (fi_ok _ _ Hf)) Ho) as Hi.
    eapply fifo_ext; [apply (fifo_set_queue s h i q' (q_sent h i) (q_got h i ++ [msg])); [done|done|done|]|].
    + intros _. by rewrite Hp, <- app_assoc.
    + intros j. cbn. by rewrite fn_keep.
  - unfold msgqueue_receive. rewrite Ho. cbn [negb orb fst snd]. done.
Qed.

Lemma pipe_close_inv s h i : fifo_inv s h -> fifo_inv (pipe_close (Some i) s) h.
Proof.
  intros Hf. destruct (decide (i < MAX_PIPES)%nat) as [Hi|Hi].
  - eapply fifo_ext; [apply (fifo_set_pipe s h i _ (p_sent h i) (p_got h i)); [done|done| |done]|].
    + destruct (io_pipe s (fi_ok _ _ Hf) i). by constructor.
    + intros j. cbn. by rewrite !fn_keep.
  - replace (pipe_close (Some i) s) with s; [done|]. unfold pipe_close, set_pipe. rewrite list_insert_ge; [by destruct s|].
    rewrite (io_pipes s (fi_ok _ _ Hf)). lia.
Qed.
Lemma msgqueue_close_inv s h i : fifo_inv s h -> fifo_inv (msgqueue_close (Some i) s) h.
Proof.
  intros Hf. destruct (decide (i < MAX_MSG_QUEUES)%nat) as [Hi|Hi].
  - eapply fifo_ext; [apply (fifo_set_queue s h i _ (q_sent h i) (q_got h i)); [done|done| |done]|].
    + destruct (io_queue s (fi_ok _ _ Hf) i). by constructor.
    + intros j. cbn. by rewrite !fn_keep.
  - replace (msgqueue_close (Some i) s) with s; [done|]. unfold msgqueue_close, set_queue. rewrite list_insert_ge; [by destruct s|].
    rewrite (io_queues s (fi_ok _ _ Hf)). lia.
Qed.

Lemma run_event_inv s h e : fifo_inv s h -> valid e -> fifo_inv (fst (run_event (s, h) e)) (snd (run_event (s, h) e)).
Proof.
  intros Hf Hv. destruct e; [by apply pipe_create_inv|by apply pipe_write_inv|by apply pipe_read_inv|by apply pipe_close_inv|
    by apply msgqueue_create_inv|by apply msgqueue_send_inv|by apply msgqueue_receive_inv|by apply msgqueue_close_inv].
Qed.
Lemma run_events_inv es s h : fifo_inv s h -> Forall valid es ->
  fifo_inv (fst (run_events es (s, h))) (snd (run_events es (s, h))).
Proof.
  intros Hf Hv. revert s h Hf. unfold run_events. induction Hv as [|e es He _ IH]; intros s h Hf; cbn [foldl]; [done|].
  pose proof (run_event_inv s h e Hf He) as H. destruct (run_event (s, h) e) as [s' h']. by apply IH.
Qed.

Definition no_history : history := History (fun _ => []) (fun _ => []) (fun _ => []) (fun _ => []).

Lemma init_inv : fifo_inv (ipc_init ipc_bss) no_history.
Proof.
  assert (forall i, pipe_at i (ipc_init ipc_bss) = zero_pipe) as Hp.
  { intros i. unfold pipe_at. change (pipes (ipc_init ipc_bss)) with (replicate MAX_PIPES zero_pipe).
    destruct (replicate MAX_PIPES zero_pipe !! i) eqn:E; [|done]. by apply lookup_replicate in E as [-> _]. }
  assert (forall i, queue_at i (ipc_init ipc_bss) = zero_queue) as Hq.
  { intros i. unfold queue_at. change (msg_queues (ipc_init ipc_bss)) with (replicate MAX_MSG_QUEUES zero_queue).
    destruct (replicate MAX_MSG_QUEUES zero_queue !! i) eqn:E; [|done]. by apply lookup_replicate in E as [-> _]. }
  constructor.
  - constructor; [done|done| |]; intros i; [rewrite Hp; apply zero_pipe_ok|rewrite Hq; apply zero_queue_ok].
  - intros i. by rewrite Hp.
  - intros i. by rewrite Hq.
Qed.

(** ** Properties *)

(** C28. Pipes and message queues are first-in first-out and lose nothing. After
    [ipc_init] and any sequence of creations, writes, reads, sends, receives and closes,
    in any interleaving: for every open pipe, the bytes accepted by [pipe_write] since it
    was created are those handed out by [pipe_read] followed by those in the ring buffer,
    of which there are at most 4096; for every open queue, the accepted messages are
    those received followed by at most 16 pending ones, each with the sender, type, size
    and data it was sent with. *)
Theorem ipc_fifo es : Forall valid es ->
  let '(s, h) := run_events es (ipc_init ipc_bss, no_history) in
  (forall i, p_open (pipe_at i s) = true ->
     p_sent h i = p_got h i ++ contents (pipe_at i s) /\ Z.of_nat (length (contents (pipe_at i s))) <= PIPE_BUF_SIZE) /\
  (forall i, q_open (queue_at i s) = true ->
     Forall2 carries (q_got h i ++ pending (queue_at i s)) (q_sent h i) /\
     Z.of_nat (length (pending (queue_at i s))) <= MSG_QUEUE_SIZE).
Proof.
  intros Hv. pose proof (run_events_inv es _ _ init_inv Hv) as H. destruct (run_events es _) as [s h]. cbn [fst snd] in H.
  destruct H as [Hok Hp Hq]. split; intros i Ho.
  - split; [by apply Hp|]. destruct (io_pipe s Hok i). unfold contents. rewrite ring_length; lia.
  - split; [by apply Hq|]. destruct (io_queue s Hok i). unfold pending. rewrite ring_length; lia.
Qed.

Definition demo_events : list event :=
  [PCreate 1 2; QCreate 3; PWrite 0 [10; 20; 30] 3; QSend 0 (7, 1, Some [65; 66], 2); PRead 0 2; QReceive 0; PWrite 0 [40] 1].

Lemma ipc_fifo_witness :
  let '(s, h) := run_events demo_events (ipc_init ipc_bss, no_history) in
  p_sent h 0%nat = [10; 20; 30; 40] /\ p_got h 0%nat = [10; 20] /\
  p_sent h 0%nat = p_got h 0%nat ++ contents (pipe_at 0 s).
Proof.
  pose proof (ipc_fifo demo_events) as H.
  assert (Forall valid demo_events) as Hv by (repeat constructor; cbn; lia).
  specialize (H Hv). destruct (run_events demo_events _) as [s h] eqn:E.
  split; [vm_compute in E; injection E as _ <-; vm_compute; reflexivity|].
  split; [vm_compute in E; injection E as _ <-; vm_compute; reflexivity|].
  destruct H as [H _]. apply (H 0%nat). vm_compute in E. injection E as <- _. vm_compute. reflexivity.
Defined.

(** A message sent without data hands its receiver what the slot held before, here the
    payload of a queue that has been closed since and belonged to another process. *)
Lemma msgqueue_null_data_leak :
  let s := ipc_init ipc_bss in
  let s := snd (msgqueue_create 1 s) in
  let s := snd (msgqueue_send (Some 0%nat) 1 0 (Some [115; 101; 99]) 3 s) in
  let s := msgqueue_close (Some 0%nat) s in
  let s := snd (msgqueue_create 2 s) in
  let s := snd (msgqueue_send (Some 0%nat) 2 0 None 3 s) in
  let '(r, msg, _) := msgqueue_receive (Some 0%nat) true s in
  r = 0 /\ (fun m => take 3 (m_data m)) <$> msg = Some [115; 101; 99].
Proof. vm_compute. split; reflexivity. Qed.
