(* ===== verification/Vfs.v ===== *)
(** * The virtual file system (fs/vfs.c, fs/vfs.h)

    A static pool of nodes, with the RAM file system's operations. A node pointer is an
    index of the pool ([None] is NULL); a name is the string in the node's name array.
    Operations that would write outside an array of the node have no result ([None]).
    Path resolution works on byte memory, through [string_copy] and [string_tokenize]. *)
From stdpp Require Import strings.
From S2P Require Import Prelude Mem CString.

Definition VFS_MAX_NODES : nat := 128.
Definition VFS_MAX_CHILDREN : Z := 32.
Definition VFS_MAX_FILE_SIZE : Z := 4096.
Definition VFS_NAME_LENGTH : Z := 128.
Definition VFS_MAX_PATH_LENGTH : Z := 256.

Inductive vfs_node_type := NODE_FILE | NODE_DIRECTORY.
#[global] Instance vfs_node_type_eq_dec : EqDecision vfs_node_type.
Proof. solve_decision. Defined.

(** [ops] says that the node's function pointers are set (to the ramfs functions, the
    only ones there are). *)
Record vfs_node := Node {
  n_name : list Z; n_type : vfs_node_type; n_inode : Z; n_length : Z; n_flags : Z; n_parent : option nat;
  n_children : list (option nat); n_count : Z; n_content : gmap Z Z; n_ops : bool
}.

Definition zero_node : vfs_node :=
  Node [] NODE_FILE 0 0 0 None (replicate (Z.to_nat VFS_MAX_CHILDREN) None) 0 ∅ false.

Record vfs := Vfs { node_pool : list vfs_node; node_pool_bitmap : list bool; next_inode : Z; vfs_root : option nat }.

Definition vfs_bss : vfs := Vfs (replicate VFS_MAX_NODES zero_node) (replicate VFS_MAX_NODES false) 1 None.

Definition node_at (i : nat) (s : vfs) : vfs_node := default zero_node (node_pool s !! i).
Definition used (i : nat) (s : vfs) : bool := default false (node_pool_bitmap s !! i).
Definition set_node (i : nat) (n : vfs_node) (s : vfs) : vfs :=
  Vfs (<[i := n]> (node_pool s)) (node_pool_bitmap s) (next_inode s) (vfs_root s).
Definition set_used (i : nat) (b : bool) (s : vfs) : vfs :=
  Vfs (node_pool s) (<[i := b]> (node_pool_bitmap s)) (next_inode s) (vfs_root s).

Definition with_name (v : list Z) (n : vfs_node) : vfs_node :=
  Node v (n_type n) (n_inode n) (n_length n) (n_flags n) (n_parent n) (n_children n) (n_count n) (n_content n) (n_ops n).
Definition with_type (v : vfs_node_type) (n : vfs_node) : vfs_node :=
  Node (n_name n) v (n_inode n) (n_length n) (n_flags n) (n_parent n) (n_children n) (n_count n) (n_content n) (n_ops n).
Definition with_length (v : Z) (n : vfs_node) : vfs_node :=
  Node (n_name n) (n_type n) (n_inode n) v (n_flags n) (n_parent n) (n_children n) (n_count n) (n_content n) (n_ops n).
Definition with_parent (v : option nat) (n : vfs_node) : vfs_node :=
  Node (n_name n) (n_type n) (n_inode n) (n_length n) (n_flags n) v (n_children n) (n_count n) (n_content n) (n_ops n).
Definition with_children (v : list (option nat)) (k : Z) (n : vfs_node) : vfs_node :=
  Node (n_name n) (n_type n) (n_inode n) (n_length n) (n_flags n) (n_parent n) v k (n_content n) (n_ops n).
Definition with_content (v : gmap Z Z) (n : vfs_node) : vfs_node :=
  Node (n_name n) (n_type n) (n_inode n) (n_length n) (n_flags n) (n_parent n) (n_children n) (n_count n) v (n_ops n).

(** ** Nodes *)

(** A fresh node with the ramfs operations. *)
Definition fresh_node (inode : Z) : vfs_node :=
  Node [] NODE_FILE inode 0 0 None (replicate (Z.to_nat VFS_MAX_CHILDREN) None) 0 ∅ true.

Definition allocate_node (s : vfs) : option nat * vfs :=
  match list_find (fun b => b = false) (node_pool_bitmap s) with
  | Some (i, _) =>
      let s := set_used i true s in
      (Some i, set_node i (fresh_node (next_inode s)) (Vfs (node_pool s) (node_pool_bitmap s) (u32 (next_inode s + 1)) (vfs_root s)))
  | None => (None, s)
  end.

Definition free_node (node : nat) (s : vfs) : vfs :=
  if decide (node < VFS_MAX_NODES)%nat then set_used node false s else s.

(** [string_copy] into a name array. *)
Definition copy_name (name : list Z) : option (list Z) :=
  if Z.of_nat (length name) <? VFS_NAME_LENGTH then Some name else None.

(** ** Files *)

(** The copy loops, with [n] bytes to go. *)
Fixpoint read_loop (n : nat) (content : gmap Z Z) (pos : Z) : option (list Z) :=
  match n with
  | O => Some []
  | S n => if u32 pos <? VFS_MAX_FILE_SIZE
           then match read_loop n content (pos + 1) with
                | Some l => Some (default 0 (content !! u32 pos) :: l)
                | None => None
                end
           else None
  end.
Fixpoint write_loop (n : nat) (content : gmap Z Z) (pos : Z) (src : list Z) : option (gmap Z Z) :=
  match n with
  | O => Some content
  | S n => if u32 pos <? VFS_MAX_FILE_SIZE then write_loop n (<[u32 pos := hd 0 src]> content) (pos + 1) (tail src)
           else None
  end.

Definition ramfs_read (node : option nat) (offset size : Z) (s : vfs) : option (Z * list Z) :=
  match node with
  | None => Some (-1, [])
  | Some i =>
      let n := node_at i s in
      if decide (n_type n <> NODE_FILE) then Some (-1, [])
      else if n_length n <=? offset then Some (0, [])
      else
        let bytes_to_read := if n_length n <? u32 (offset + size) then u32 (n_length n - offset) else size in
        match read_loop (Z.to_nat bytes_to_read) (n_content n) offset with
        | Some l => Some (s32 bytes_to_read, l)
        | None => None
        end
  end.

Definition ramfs_write (node : option nat) (offset size : Z) (src : list Z) (s : vfs) : option (Z * vfs) :=
  match node with
  | None => Some (-1, s)
  | Some i =>
      let n := node_at i s in
      if decide (n_type n <> NODE_FILE) then Some (-1, s)
      else
        let size := if VFS_MAX_FILE_SIZE <? u32 (offset + size) then u32 (VFS_MAX_FILE_SIZE - offset) else size in
        match write_loop (Z.to_nat size) (n_content n) offset src with
        | None => None
        | Some c =>
            let n := with_content c n in
            let n := if n_length n <? u32 (offset + size) then with_length (u32 (offset + size)) n else n in
            Some (s32 size, set_node i n s)
        end
  end.

(** The entry is copied to a static structure; it is returned here. *)
Definition ramfs_readdir (node : option nat) (index : Z) (s : vfs) : option (list Z * Z) :=
  match node with
  | None => None
  | Some i =>
      let n := node_at i s in
      if decide (n_type n <> NODE_DIRECTORY) then None
      else if n_count n <=? index then None
      else match mjoin (n_children n !! Z.to_nat index) with
           | None => None
           | Some c => Some (n_name (node_at c s), n_inode (node_at c s))
           end
  end.

Definition has_ops (node : option nat) (s : vfs) : bool :=
  match node with Some i => n_ops (node_at i s) | None => false end.
Definition vfs_read (node : option nat) (offset size : Z) (s : vfs) : option (Z * list Z) :=
  if has_ops node s then ramfs_read node offset size s else Some (-1, []).
Definition vfs_write (node : option nat) (offset size : Z) (src : list Z) (s : vfs) : option (Z * vfs) :=
  if has_ops node s then ramfs_write node offset size src s else Some (-1, s).
Definition vfs_readdir (node : option nat) (index : Z) (s : vfs) : option (list Z * Z) :=
  if has_ops node s then ramfs_readdir node index s else None.

(** ** Directories *)

Definition vfs_create_node (name : list Z) (type : vfs_node_type) (s : vfs) : option (option nat * vfs) :=
  match allocate_node s with
  | (None, s) => Some (None, s)
  | (Some i, s) =>
      match copy_name name with
      | None => None
      | Some name => Some (Some i, set_node i (with_type type (with_name name (node_at i s))) s)
      end
  end.

(** [children[i] && string_compare(children[i]->name, name) == 0]; [lex] is what
    [string_compare] computes. *)
Definition child_named (s : vfs) (name : list Z) (c : option nat) : bool :=
  match c with Some j => lex (n_name (node_at j s)) name =? 0 | None => false end.
Definition find_child (p : nat) (name : list Z) (s : vfs) : option (nat * option nat) :=
  list_find (fun c => child_named s name c = true) (take (Z.to_nat (n_count (node_at p s))) (n_children (node_at p s))).

Definition vfs_find_node (parent : option nat) (name : list Z) (s : vfs) : option nat :=
  match parent with
  | None => None
  | Some p =>
      if decide (n_type (node_at p s) <> NODE_DIRECTORY) then None
      else match find_child p name s with Some (_, c) => c | None => None end
  end.

Definition vfs_add_child (parent child : option nat) (s : vfs) : Z * vfs :=
  match parent, child with
  | Some p, Some c =>
      let n := node_at p s in
      if decide (n_type n <> NODE_DIRECTORY) then (-1, s)
      else if VFS_MAX_CHILDREN <=? n_count n then (-1, s)
      else
        let s := set_node p (with_children (<[Z.to_nat (n_count n) := Some c]> (n_children n)) (n_count n + 1) n) s in
        (0, set_node c (with_parent (Some p) (node_at c s)) s)
  | _, _ => (-1, s)
  end.

(** The shift of the children after position [i], and the last place cleared. *)
Definition shift_children (i count : Z) (cs : list (option nat)) : list (option nat) :=
  <[Z.to_nat (count - 1) := None]>
    (for_range i (count - 1) (fun j cs => <[Z.to_nat j := mjoin (cs !! Z.to_nat (j + 1))]> cs) cs).

Definition vfs_remove_child (parent : option nat) (name : list Z) (s : vfs) : Z * vfs :=
  match parent with
  | None => (-1, s)
  | Some p =>
      if decide (n_type (node_at p s) <> NODE_DIRECTORY) then (-1, s)
      else match find_child p name s with
           | Some (i, Some c) =>
               let s := free_node c s in
               let n := node_at p s in
               (0, set_node p (with_children (shift_children (Z.of_nat i) (n_count n) (n_children n)) (n_count n - 1) n) s)
           | _ => (-1, s)
           end
  end.

(** The bytes of a string literal. *)
Definition str (l : String.string) : list Z := Z.of_N ∘ Ascii.N_of_ascii <$> String.list_ascii_of_string l.

(** Directory listing: the bytes written to the console. *)
Definition vfs_list_directory (dir : option nat) (s : vfs) : list Z :=
  match dir with
  | None => str "Not a directory" ++ [10]
  | Some d =>
      if decide (n_type (node_at d s) <> NODE_DIRECTORY) then str "Not a directory" ++ [10]
      else mjoin ((fun c => match c with
             | Some j => n_name (node_at j s) ++ (if decide (n_type (node_at j s) = NODE_DIRECTORY) then str "/" else []) ++ [10]
             | None => [] end) <$> take (Z.to_nat (n_count (node_at d s))) (n_children (node_at d s)))
  end.

(** ** Paths *)

(** The string at an address. *)
Fixpoint read_cstr (fuel : nat) (m : mem) (a : Z) : option (list Z) :=
  match fuel with
  | O => None
  | S fuel => if ld m a =? 0 then Some []
              else match read_cstr fuel m (a + 1) with Some l => Some (ld m a :: l) | None => None end
  end.

(** One path component: the new [current], or NULL is returned, or a NULL [current] is
    dereferenced. *)
Inductive walked := At (current : option nat) | Missing | Fault.

Definition walk_component (s : vfs) (current : option nat) (token : list Z) : walked :=
  if lex token [46] =? 0 then At current
  else if lex token [46; 46] =? 0 then
    match current with
    | Some c => At (Some (default c (n_parent (node_at c s))))
    | None => Fault
    end
  else match vfs_find_node current token s with Some next => At (Some next) | None => Missing end.

(** The [while (token)] loop. *)
Fixpoint walk_tokens (n fuel : nat) (s : vfs) (current : option nat) (token slash : Z) (x : mem * Z)
  : option (option nat * (mem * Z)) :=
  match n with
  | O => None
  | S n =>
      if token =? 0 then Some (current, x)
      else match read_cstr fuel (fst x) token with
           | None => None
           | Some t =>
               match walk_component s current t with
               | Fault => None
               | Missing => Some (None, x)
               | At next =>
                   match string_tokenize fuel x 0 slash with
                   | None => None
                   | Some (token, x) => walk_tokens n fuel s next token slash x
                   end
               end
           end
  end.

(** [path_copy] is the address of the local array, [slash] that of the literal; the state
    is memory and the tokenizer's position. *)
Definition vfs_resolve_path (n fuel : nat) (path path_copy slash : Z) (s : vfs) (x : mem * Z)
  : option (option nat * (mem * Z)) :=
  let '(m, last) := x in
  if (path =? 0) || (ld m path =? 0) then Some (None, x)
  else if negb (ld m path =? 47) then Some (None, x)
  else if ld m (path + 1) =? 0 then Some (vfs_root s, x)
  else match string_copy fuel m path_copy (path + 1) with
       | None => None
       | Some m =>
           match string_tokenize fuel (m, last) path_copy slash with
           | None => None
           | Some (token, x) => walk_tokens n fuel s (vfs_root s) token slash x
           end
       end.

(** ** Initialization *)

Definition motd : list Z := str "Welcome to OpenOS!" ++ [10] ++ str "This is a test file in the filesystem." ++ [10].

(** [if (child) vfs_add_child(root, child)]. *)
Definition add_if (parent child : option nat) (s : vfs) : vfs :=
  match child with Some _ => snd (vfs_add_child parent child s) | None => s end.

Definition vfs_init (s : vfs) : option vfs :=
  let s := Vfs (node_pool s) (replicate VFS_MAX_NODES false) (next_inode s) (vfs_root s) in
  let '(root, s) := allocate_node s in
  let s := Vfs (node_pool s) (node_pool_bitmap s) (next_inode s) root in
  match root with
  | None => Some s
  | Some r =>
      let s := set_node r (with_parent (Some r) (with_type NODE_DIRECTORY (with_name (str "/") (node_at r s)))) s in
      '(bin, s) ← vfs_create_node (str "bin") NODE_DIRECTORY s;
      '(etc, s) ← vfs_create_node (str "etc") NODE_DIRECTORY s;
      '(home, s) ← vfs_create_node (str "home") NODE_DIRECTORY s;
      '(tmp, s) ← vfs_create_node (str "tmp") NODE_DIRECTORY s;
      let s := add_if root bin s in
      let s := add_if root etc s in
      let s := add_if root home s in
      let s := add_if root tmp s in
      match etc with
      | None => Some s
      | Some _ =>
          '(m, s) ← vfs_create_node (str "motd.txt") NODE_FILE s;
          match m with
          | None => Some s
          | Some _ =>
              '(_, s) ← vfs_write m 0 (Z.of_nat (length motd)) motd s;
              Some (snd (vfs_add_child etc m s))
          end
      end
  end.

(** ** The tree *)

Lemma node_at_set i j n s : (i < length (node_pool s))%nat -> node_at j (set_node i n s) = if decide (j = i) then n else node_at j s.
Proof.
  intros Hi. unfold node_at. cbn. destruct (decide (j = i)) as [->|]; [by rewrite list_lookup_insert_eq by lia|].
  by rewrite list_lookup_insert_ne.
Qed.
Lemma used_set i j b s : (i < length (node_pool_bitmap s))%nat -> used j (set_used i b s) = if decide (j = i) then b else used j s.
Proof.
  intros Hi. unfold used. cbn. destruct (decide (j = i)) as [->|]; [by rewrite list_lookup_insert_eq by lia|].
  by rewrite list_lookup_insert_ne.
Qed.
Lemma used_lt i s : used i s = true -> (i < length (node_pool_bitmap s))%nat.
Proof. unfold used. destruct (node_pool_bitmap s !! i) eqn:E; [|done]. intros _. by apply lookup_lt_Some in E. Qed.

(** The entries of a directory. *)
Definition entries (s : vfs) (d : nat) : list (option nat) := take (Z.to_nat (n_count (node_at d s))) (n_children (node_at d s)).
Definition is_dir (s : vfs) (d : nat) : Prop := used d s = true /\ n_type (node_at d s) = NODE_DIRECTORY.
Definition child (s : vfs) (d c : nat) : Prop := is_dir s d /\ Some c ∈ entries s d.

Definition name_ok (l : list Z) : Prop := Z.of_nat (length l) < VFS_NAME_LENGTH /\ Forall (fun v => 0 < v) l.

(** What one used node must be like. *)
Record node_ok (s : vfs) (d : nat) : Prop := {
  nk_count : 0 <= n_count (node_at d s) <= VFS_MAX_CHILDREN;
  nk_children : Z.of_nat (length (n_children (node_at d s))) = VFS_MAX_CHILDREN;
  nk_ops : n_ops (node_at d s) = true;
  nk_length : 0 <= n_length (node_at d s) <= VFS_MAX_FILE_SIZE;
  nk_inode : 0 < n_inode (node_at d s) < next_inode s;
  nk_name : name_ok (n_name (node_at d s))
}.

Record dir_ok (s : vfs) (d : nat) : Prop := {
  dk_some : forall e, e ∈ entries s d -> exists c, e = Some c /\ used c s = true /\
    n_parent (node_at c s) = Some d /\ n_inode (node_at d s) < n_inode (node_at c s);
  dk_names : forall i j a b, entries s d !! i = Some (Some a) -> entries s d !! j = Some (Some b) ->
    n_name (node_at a s) = n_name (node_at b s) -> i = j
}.

Record tree (s : vfs) (r : nat) : Prop := {
  tr_pool : length (node_pool s) = VFS_MAX_NODES /\ length (node_pool_bitmap s) = VFS_MAX_NODES;
  tr_root : vfs_root s = Some r /\ is_dir s r /\ n_parent (node_at r s) = Some r;
  tr_node : forall d, used d s = true -> node_ok s d;
  tr_dir : forall d, is_dir s d -> dir_ok s d;
  tr_inodes : forall i j, used i s = true -> used j s = true -> n_inode (node_at i s) = n_inode (node_at j s) -> i = j
}.

Section Tree.
Variables (s : vfs) (r : nat).
Hypothesis Ht : tree s r.

Lemma tree_lt i : used i s = true -> (i < length (node_pool s))%nat /\ (i < VFS_MAX_NODES)%nat.
Proof. intros H. apply used_lt in H. destruct (tr_pool _ _ Ht). lia. Qed.

Lemma child_facts d c : child s d c -> used c s = true /\ n_parent (node_at c s) = Some d /\
  n_inode (node_at d s) < n_inode (node_at c s) /\ c <> d /\ c <> r.
Proof.
  intros [Hd Hc]. destruct (dk_some _ _ (tr_dir _ _ Ht d Hd) _ Hc) as (c' & [= <-] & Hu & Hp & Hi).
  split; [done|]. split; [done|]. split; [done|]. split; [intros ->; lia|].
  intros ->. destruct (tr_root _ _ Ht) as (_ & _ & Hr). rewrite Hr in Hp. injection Hp as ->. lia.
Qed.

(** Looking a name up. *)
Lemma child_named_spec name c : used c s = true -> Forall (fun v => 0 < v) name ->
  child_named s name (Some c) = true <-> n_name (node_at c s) = name.
Proof.
  intros Hc Hn. cbn. rewrite Z.eqb_eq. apply lex_eq; [|done]. apply (nk_name _ _ (tr_node _ _ Ht c Hc)).
Qed.

Lemma find_child_Some p name i e : is_dir s p -> Forall (fun v => 0 < v) name ->
  find_child p name s = Some (i, e) ->
  exists c, e = Some c /\ entries s p !! i = Some (Some c) /\ child s p c /\ n_name (node_at c s) = name.
Proof.
  intros Hp Hn H. apply list_find_Some in H as (H1 & H2 & _). fold (entries s p) in H1.
  destruct (dk_some _ _ (tr_dir _ _ Ht p Hp) e) as (c & -> & Hu & _); [by eapply list_elem_of_lookup_2|].
  exists c. split; [done|]. split; [done|]. split; [split; [done|by eapply list_elem_of_lookup_2]|].
  by apply child_named_spec.
Qed.
Lemma find_child_None p name : is_dir s p -> Forall (fun v => 0 < v) name ->
  find_child p name s = None <-> forall c, child s p c -> n_name (node_at c s) <> name.
Proof.
  intros Hp Hn. unfold find_child. rewrite list_find_None. fold (entries s p). rewrite list.Forall_forall. split.
  - intros H c Hc E. destruct (child_facts p c Hc) as [Hu _]. apply (H (Some c)); [apply Hc|]. by apply child_named_spec.
  - intros H e He E. destruct (dk_some _ _ (tr_dir _ _ Ht p Hp) e He) as (c & -> & Hu & _).
    apply (H c); [by split|]. by apply child_named_spec.
Qed.

Lemma vfs_find_spec p name : is_dir s p -> Forall (fun v => 0 < v) name ->
  match vfs_find_node (Some p) name s with
  | Some c => child s p c /\ n_name (node_at c s) = name
  | None => forall c, child s p c -> n_name (node_at c s) <> name
  end.
Proof.
  intros Hp Hn. cbn [vfs_find_node]. rewrite decide_False by (destruct Hp; congruence).
  destruct (find_child p name s) as [[i e]|] eqn:E.
  - destruct (find_child_Some p name i e Hp Hn E) as (c & -> & _ & Hc & En). done.
  - by apply find_child_None.
Qed.
End Tree.

Lemma dir_ok_same s s' d : dir_ok s d -> entries s' d = entries s d -> n_inode (node_at d s') = n_inode (node_at d s) ->
  (forall c, Some c ∈ entries s d -> used c s' = used c s /\ n_parent (node_at c s') = n_parent (node_at c s) /\
     n_inode (node_at c s') = n_inode (node_at c s) /\ n_name (node_at c s') = n_name (node_at c s)) -> dir_ok s' d.
Proof.
  intros [H1 H2] He Hi Hc. constructor; rewrite He.
  - intros e Hin. destruct (H1 e Hin) as (c & -> & Hu & Hp & Hlt). destruct (Hc c Hin) as (E1 & E2 & E3 & _).
    exists c. rewrite E1, E2, E3, Hi. done.
  - intros i j a b Ha Hb. destruct (Hc a) as (_ & _ & _ & ->); [by eapply list_elem_of_lookup_2|].
    destruct (Hc b) as (_ & _ & _ & ->); [by eapply list_elem_of_lookup_2|]. by apply H2.
Qed.

(** *** New nodes *)

Record added (s s' : vfs) (i : nat) (n : vfs_node) : Prop := {
  ad_free : used i s = false;
  ad_lt : (i < VFS_MAX_NODES)%nat;
  ad_length : length (node_pool s') = length (node_pool s) /\ length (node_pool_bitmap s') = length (node_pool_bitmap s);
  ad_root : vfs_root s' = vfs_root s;
  ad_next : next_inode s' = next_inode s + 1;
  ad_node : forall j, node_at j s' = if decide (j = i) then n else node_at j s;
  ad_used : forall j, used j s' = if decide (j = i) then true else used j s
}.

Lemma allocate_spec s r : tree s r -> 0 < next_inode s -> next_inode s + 1 < 2 ^ 32 ->
  match allocate_node s with
  | (None, s') => s' = s /\ forall i, (i < VFS_MAX_NODES)%nat -> used i s = true
  | (Some i, s') => added s s' i (fresh_node (next_inode s))
  end.
Proof.
  intros Ht Hpos Hn. destruct (tr_pool _ _ Ht) as [Hl1 Hl2]. unfold allocate_node.
  destruct (list_find _ (node_pool_bitmap s)) as [[i b]|] eqn:E.
  - apply list_find_Some in E as (E & -> & _). pose proof (lookup_lt_Some _ _ _ E) as Hlt.
    cbn [set_used node_pool node_pool_bitmap next_inode vfs_root]. rewrite u32_small by wsolve.
    constructor; cbn.
    + unfold used. by rewrite E.
    + lia.
    + by rewrite !length_insert.
    + done.
    + done.
    + intros j. unfold node_at, set_node. cbn. destruct (decide (j = i)) as [->|]; [by rewrite list_lookup_insert_eq by lia|].
      by rewrite list_lookup_insert_ne.
    + intros j. unfold used. cbn. destruct (decide (j = i)) as [->|]; [by rewrite list_lookup_insert_eq by lia|].
      by rewrite list_lookup_insert_ne.
  - split; [done|]. intros i Hi. apply list_find_None in E. unfold used.
    destruct (node_pool_bitmap s !! i) as [b|] eqn:Eb; [|apply lookup_ge_None in Eb; lia]. cbn.
    rewrite list.Forall_forall in E. destruct b; [done|]. exfalso. apply (E false); [by eapply list_elem_of_lookup_2|done].
Qed.

Lemma create_node_spec s r name type : tree s r -> 0 < next_inode s -> next_inode s + 1 < 2 ^ 32 -> name_ok name ->
  exists res s', vfs_create_node name type s = Some (res, s') /\
  match res with
  | None => s' = s /\ forall i, (i < VFS_MAX_NODES)%nat -> used i s = true
  | Some i => added s s' i (with_type type (with_name name (fresh_node (next_inode s))))
  end.
Proof.
  intros Ht Hpos Hn [Hlen _]. unfold vfs_create_node, copy_name. pose proof (allocate_spec s r Ht Hpos Hn) as Ha.
  destruct (allocate_node s) as [[i|] s1]; [|by exists None, s1]. rewrite (proj2 (Z.ltb_lt _ _) Hlen).
  eexists _, _. split; [done|]. destruct Ha as [A1 A2 [A3 A4] A5 A6 A7 A8].
  destruct (tr_pool _ _ Ht) as [L1 L2]. constructor; cbn.
  - done.
  - done.
  - by rewrite length_insert.
  - done.
  - done.
  - intros j. rewrite node_at_set by lia. rewrite (A7 i), (decide_True (P := i = i)) by done.
    destruct (decide (j = i)) as [->|]; [done|]. by rewrite (A7 j), decide_False.
  - exact A8.
Qed.

(** A node that is nobody's entry may be added to the pool. *)
Lemma tree_added s s' r i n : tree s r -> added s s' i n -> 0 < next_inode s ->
  n_count n = 0 -> Z.of_nat (length (n_children n)) = VFS_MAX_CHILDREN -> n_ops n = true -> n_length n = 0 ->
  n_inode n = next_inode s -> name_ok (n_name n) -> tree s' r.
Proof.
  intros Ht [A1 A2 [A3 A4] A5 A6 A7 A8] Hpos Hc Hch Ho Hlen Hin Hname.
  assert (forall j, used j s = true -> node_at j s' = node_at j s /\ used j s' = true /\ j <> i) as Hold.
  { intros j Hj. assert (j <> i) by congruence. by rewrite A7, A8, !decide_False. }
  destruct Ht as [[T1 T2] (T3 & T4 & T5) T6 T7 T8]. destruct (Hold r (proj1 T4)) as (Er & Eu & Hri). constructor.
  - lia.
  - rewrite A5. split; [done|]. unfold is_dir. rewrite Er, Eu. split; [|done]. split; [done|apply T4].
  - intros d Hd. rewrite A8 in Hd. destruct (decide (d = i)) as [->|Hne].
    + constructor; rewrite A7, decide_True by done; [rewrite Hc; done|done|done|rewrite Hlen; done|lia|done].
    + destruct (T6 d Hd) as [N1 N2 N3 N4 N5 N6]. constructor; rewrite A7, decide_False by done; [done..|lia|done].
  - intros d [Hd Hty]. rewrite A8 in Hd. rewrite A7 in Hty. destruct (decide (d = i)) as [->|Hne].
    + assert (entries s' i = []) as He by (unfold entries; rewrite A7, decide_True by done; by rewrite Hc).
      constructor; rewrite He; [intros e He'; by apply elem_of_nil in He'|intros ? ? ? ? Hl; by rewrite lookup_nil in Hl].
    + assert (is_dir s d) as Hds by done. destruct (Hold d Hd) as (En & _).
      apply (dir_ok_same s); [by apply T7|unfold entries; by rewrite En|by rewrite En|].
      intros c Hcin. destruct (dk_some _ _ (T7 d Hds) _ Hcin) as (c' & [= <-] & Hu & _).
      destruct (Hold c Hu) as (-> & -> & _). done.
  - intros a b Ha Hb. rewrite A8 in Ha, Hb. rewrite !A7.
    destruct (decide (a = i)) as [->|], (decide (b = i)) as [->|]; [done|..].
    + intros E. destruct (T6 b Hb). lia.
    + intros E. destruct (T6 a Ha). lia.
    + by apply T8.
Qed.

(** *** New entries *)

Section Attach.
Variables (s : vfs) (r p c : nat).
Hypotheses (Ht : tree s r) (Hp : is_dir s p) (Hc : used c s = true) (Hfree : forall d, ~ child s d c) (Hcr : c <> r)
  (Hino : n_inode (node_at p s) < n_inode (node_at c s))
  (Hname : forall c', child s p c' -> n_name (node_at c' s) <> n_name (node_at c s))
  (Hcount : n_count (node_at p s) < VFS_MAX_CHILDREN).

Definition attach : vfs := snd (vfs_add_child (Some p) (Some c) s).
Definition grown : vfs_node :=
  with_children (<[Z.to_nat (n_count (node_at p s)) := Some c]> (n_children (node_at p s))) (n_count (node_at p s) + 1) (node_at p s).

Lemma attach_ne : c <> p.
Proof. intros ->. lia. Qed.

Lemma attach_eq : vfs_add_child (Some p) (Some c) s = (0, attach).
Proof.
  unfold attach. cbn [vfs_add_child]. rewrite decide_False by (destruct Hp; congruence).
  rewrite (proj2 (Z.leb_gt _ _)) by done. done.
Qed.
Lemma attach_node j : node_at j attach =
  if decide (j = c) then with_parent (Some p) (node_at c s) else if decide (j = p) then grown else node_at j s.
Proof.
  pose proof attach_ne as Hne. pose proof (tree_lt s r Ht c Hc) as [H1 _]. pose proof (tree_lt s r Ht p (proj1 Hp)) as [H2 _].
  unfold attach. cbn [vfs_add_child]. rewrite decide_False by (destruct Hp; congruence).
  rewrite (proj2 (Z.leb_gt _ _)) by done. cbn [snd]. rewrite node_at_set by (cbn; by rewrite length_insert).
  destruct (decide (j = c)) as [->|]; [|by rewrite node_at_set]. by rewrite node_at_set, decide_False.
Qed.
Lemma attach_rest : (forall j, used j attach = used j s) /\ next_inode attach = next_inode s /\ vfs_root attach = vfs_root s /\
  length (node_pool attach) = length (node_pool s) /\ length (node_pool_bitmap attach) = length (node_pool_bitmap s).
Proof.
  unfold attach. cbn [vfs_add_child]. rewrite decide_False by (destruct Hp; congruence).
  rewrite (proj2 (Z.leb_gt _ _)) by done. cbn. by rewrite !length_insert.
Qed.
Lemma attach_fields j : n_name (node_at j attach) = n_name (node_at j s) /\ n_type (node_at j attach) = n_type (node_at j s) /\
  n_inode (node_at j attach) = n_inode (node_at j s) /\ n_ops (node_at j attach) = n_ops (node_at j s) /\
  n_length (node_at j attach) = n_length (node_at j s) /\ n_content (node_at j attach) = n_content (node_at j s) /\
  (j <> c -> n_parent (node_at j attach) = n_parent (node_at j s)).
Proof. rewrite attach_node. destruct (decide (j = c)) as [->|]; [done|]. destruct (decide (j = p)) as [->|]; done. Qed.

Lemma attach_entries d : entries attach d = if decide (d = p) then entries s p ++ [Some c] else entries s d.
Proof.
  pose proof attach_ne as Hne. unfold entries. rewrite attach_node. destruct (decide (d = c)) as [->|]; [by rewrite decide_False|].
  destruct (decide (d = p)) as [->|]; [|done]. unfold grown. cbn. destruct (tr_node _ _ Ht p (proj1 Hp)) as [N1 N2 _ _ _ _].
  replace (Z.to_nat (n_count (node_at p s) + 1)) with (S (Z.to_nat (n_count (node_at p s)))) by lia.
  rewrite (take_S_r _ _ (Some c)) by (apply list_lookup_insert_eq; lia). by rewrite take_insert_ge by lia.
Qed.

Lemma attach_dir d : is_dir attach d <-> is_dir s d.
Proof. unfold is_dir. destruct attach_rest as [-> _]. by destruct (attach_fields d) as (_ & -> & _). Qed.

Lemma attach_tree : tree attach r.
Proof.
  pose proof attach_ne as Hne. pose proof attach_rest as (E1 & E2 & E3 & E4 & E5).
  pose proof Ht as [[T1 T2] (T3 & T4 & T5) T6 T7 T8]. constructor.
  - lia.
  - rewrite E3. split; [done|]. split; [by apply attach_dir|]. by destruct (attach_fields r) as (_ & _ & _ & _ & _ & _ & ->).
  - intros d Hd. rewrite E1 in Hd. destruct (T6 d Hd) as [N1 N2 N3 N4 N5 N6].
    destruct (attach_fields d) as (F1 & _ & F2 & F3 & F4 & _).
    constructor; rewrite ?F1, ?F2, ?F3, ?F4, ?E2; [| |done..].
    + rewrite attach_node. destruct (decide (d = c)) as [->|]; [done|]. destruct (decide (d = p)) as [->|]; [cbn; lia|done].
    + rewrite attach_node. destruct (decide (d = c)) as [->|]; [done|].
      destruct (decide (d = p)) as [->|]; [cbn; by rewrite length_insert|done].
  - intros d Hd. rewrite attach_dir in Hd. pose proof (T7 d Hd) as Hok.
    assert (forall x, Some x ∈ entries s d -> x <> c) as Hnc by (intros x Hx ->; by apply (Hfree d)).
    destruct (decide (d = p)) as [->|Hdp].
    + constructor; rewrite attach_entries, decide_True by done.
      * intros e [He|He]%elem_of_app.
        -- destruct (dk_some _ _ Hok e He) as (x & -> & Hu & Hpar & Hlt). exists x. rewrite E1.
           destruct (attach_fields x) as (_ & _ & -> & _ & _ & _ & ->); [|by apply Hnc].
           by destruct (attach_fields p) as (_ & _ & -> & _).
        -- apply list_elem_of_singleton in He as ->. exists c. rewrite E1. destruct (attach_fields c) as (_ & _ & -> & _).
           destruct (attach_fields p) as (_ & _ & -> & _). rewrite attach_node, decide_True by done. done.
      * intros i j a b Ha Hb. destruct (attach_fields a) as (-> & _), (attach_fields b) as (-> & _). intros En.
        apply lookup_snoc_Some in Ha, Hb. destruct Ha as [[Hi Ha]|[Hi [= <-]]], Hb as [[Hj Hb]|[Hj [= <-]]]; [|..|lia].
        -- by apply (dk_names _ _ Hok i j a b).
        -- exfalso. apply (Hname a); [|done]. split; [done|by eapply list_elem_of_lookup_2].
        -- exfalso. apply (Hname b); [|done]. split; [done|by eapply list_elem_of_lookup_2].
    + apply (dir_ok_same s); [done|by rewrite attach_entries, decide_False|by destruct (attach_fields d) as (_ & _ & -> & _)|].
      intros x Hx. rewrite E1. destruct (attach_fields x) as (-> & _ & -> & _ & _ & _ & ->); [done|]. by apply Hnc.
  - intros a b. rewrite !E1. destruct (attach_fields a) as (_ & _ & -> & _), (attach_fields b) as (_ & _ & -> & _). apply T8.
Qed.
End Attach.

(** *** Removed entries *)

Definition shifted (cs : list (option nat)) (i k : Z) (cs' : list (option nat)) : Prop :=
  length cs' = length cs /\ forall j, cs' !! j = if decide (i <= Z.of_nat j < k) then cs !! S j else cs !! j.

Lemma shift_loop i k cs : 0 <= i <= k -> k < Z.of_nat (length cs) ->
  shifted cs i k (for_range i k (fun j cs => <[Z.to_nat j := mjoin (cs !! Z.to_nat (j + 1))]> cs) cs).
Proof.
  intros Hi Hk. apply (for_range_ind (shifted cs i)); [lia| |].
  - split; [done|]. intros j. by rewrite decide_False by lia.
  - intros n cs' Hn [Hl H]. split; [by rewrite length_insert|]. intros j.
    destruct (decide (j = Z.to_nat n)) as [->|Hne].
    + rewrite list_lookup_insert_eq by lia. rewrite decide_True by lia. rewrite H, decide_False by lia.
      replace (Z.to_nat (n + 1)) with (S (Z.to_nat n)) by lia.
      destruct (lookup_lt_is_Some_2 cs (S (Z.to_nat n))) as [x ->]; [lia|done].
    + rewrite list_lookup_insert_ne by done. rewrite H.
      destruct (decide (i <= Z.of_nat j < n)); [by rewrite decide_True by lia|by rewrite decide_False by lia].
Qed.

Lemma shift_spec i n cs : 0 <= i < n -> n <= Z.of_nat (length cs) ->
  length (shift_children i n cs) = length cs /\
  take (Z.to_nat (n - 1)) (shift_children i n cs) = delete (Z.to_nat i) (take (Z.to_nat n) cs).
Proof.
  intros Hi Hn. unfold shift_children. destruct (shift_loop i (n - 1) cs ltac:(lia) ltac:(lia)) as [Hl H].
  rewrite length_insert. split; [done|]. rewrite take_insert_ge by lia. apply list_eq. intros j.
  rewrite list_lookup_delete. destruct (decide (j < Z.to_nat (n - 1))%nat) as [Hj|Hj].
  - rewrite lookup_take_lt by lia. rewrite H. destruct (decide (j < Z.to_nat i)%nat).
    + rewrite decide_False by lia. by rewrite lookup_take_lt by lia.
    + rewrite decide_True by lia. by rewrite lookup_take_lt by lia.
  - rewrite lookup_take_ge by lia. destruct (decide (j < Z.to_nat i)%nat); [lia|]. by rewrite lookup_take_ge by lia.
Qed.

Section Detach.
Variables (s : vfs) (r p : nat) (name : list Z) (i c : nat).
Hypotheses (Ht : tree s r) (Hp : is_dir s p) (Hname : Forall (fun v => 0 < v) name)
  (Hfind : find_child p name s = Some (i, Some c)).

Definition detach : vfs := snd (vfs_remove_child (Some p) name s).
Definition shrunk : vfs_node :=
  with_children (shift_children (Z.of_nat i) (n_count (node_at p s)) (n_children (node_at p s))) (n_count (node_at p s) - 1) (node_at p s).

Lemma detach_child : child s p c /\ n_name (node_at c s) = name /\ entries s p !! i = Some (Some c) /\
  used c s = true /\ n_parent (node_at c s) = Some p /\ c <> p /\ c <> r /\ (c < VFS_MAX_NODES)%nat.
Proof.
  destruct (find_child_Some s r Ht p name i (Some c) Hp Hname Hfind) as (c' & [= <-] & He & Hc & En).
  destruct (child_facts s r Ht p c Hc) as (Hu & Hpar & _ & H1 & H2). repeat (split; [done|]). by apply (tree_lt s r).
Qed.

Lemma detach_eq : vfs_remove_child (Some p) name s = (0, detach).
Proof. unfold detach. cbn [vfs_remove_child]. rewrite decide_False by (destruct Hp; congruence). by rewrite Hfind. Qed.

Lemma detach_def : detach = set_node p shrunk (set_used c false s).
Proof.
  pose proof detach_child as (_ & _ & _ & _ & _ & _ & _ & Hlt).
  unfold detach. cbn [vfs_remove_child]. rewrite decide_False by (destruct Hp; congruence). rewrite Hfind.
  unfold free_node. rewrite decide_True by done. done.
Qed.
Lemma detach_node j : node_at j detach = if decide (j = p) then shrunk else node_at j s.
Proof. rewrite detach_def. rewrite node_at_set; [done|]. cbn. by apply (tree_lt s r Ht p (proj1 Hp)). Qed.
Lemma detach_used j : used j detach = if decide (j = c) then false else used j s.
Proof.
  pose proof detach_child as (_ & _ & _ & _ & _ & _ & _ & Hlt). rewrite detach_def. destruct (tr_pool _ _ Ht).
  rewrite <- (used_set c j false s) by lia. done.
Qed.
Lemma detach_fields j : n_name (node_at j detach) = n_name (node_at j s) /\ n_type (node_at j detach) = n_type (node_at j s) /\
  n_inode (node_at j detach) = n_inode (node_at j s) /\ n_ops (node_at j detach) = n_ops (node_at j s) /\
  n_length (node_at j detach) = n_length (node_at j s) /\ n_content (node_at j detach) = n_content (node_at j s) /\
  n_parent (node_at j detach) = n_parent (node_at j s).
Proof. rewrite detach_node. destruct (decide (j = p)) as [->|]; done. Qed.

Lemma detach_shift : length (shift_children (Z.of_nat i) (n_count (node_at p s)) (n_children (node_at p s))) = length (n_children (node_at p s)) /\
  entries detach p = delete i (entries s p).
Proof.
  pose proof detach_child as (_ & _ & He & _). destruct (tr_node _ _ Ht p (proj1 Hp)) as [N1 N2 _ _ _ _].
  unfold entries in *. apply lookup_take_Some in He as [_ He].
  destruct (shift_spec (Z.of_nat i) (n_count (node_at p s)) (n_children (node_at p s))) as [H1 H2]; [lia|lia|].
  split; [done|]. rewrite detach_node, decide_True by done. cbn. by rewrite H2, Nat2Z.id.
Qed.
Lemma detach_entries d : entries detach d = if decide (d = p) then delete i (entries s p) else entries s d.
Proof. destruct (decide (d = p)) as [->|]; [apply detach_shift|]. unfold entries. by rewrite detach_node, decide_False. Qed.

Lemma detach_dir d : is_dir detach d <-> is_dir s d /\ d <> c.
Proof.
  unfold is_dir. rewrite detach_used. destruct (detach_fields d) as (_ & -> & _). destruct (decide (d = c)); [|tauto].
  split; [intros [? _]; done|tauto].
Qed.

(** The removed node is no entry any more. *)
Lemma detach_gone d x : Some x ∈ entries detach d -> is_dir s d -> x <> c.
Proof.
  pose proof detach_child as (Hc & _ & Hi & _ & Hpar & _). rewrite detach_entries. destruct (decide (d = p)) as [->|Hne].
  - intros Hx _ ->. apply list_elem_of_lookup in Hx as [j Hx]. rewrite list_lookup_delete in Hx.
    assert (i = (if decide (j < i)%nat then j else S j)).
    { eapply (dk_names _ _ (tr_dir _ _ Ht p Hp)); [exact Hi|exact Hx|done]. }
    destruct (decide (j < i)%nat); lia.
  - intros Hx Hd ->. destruct (child_facts s r Ht d c (conj Hd Hx)) as (_ & Hpar2 & _). congruence.
Qed.

Lemma detach_tree : tree detach r.
Proof.
  pose proof detach_child as (Hc & _ & Hi & Hu & Hpar & Hcp & Hcr & _). pose proof detach_shift as [Hsl _].
  pose proof Ht as [[T1 T2] (T3 & T4 & T5) T6 T7 T8]. constructor.
  - rewrite detach_def. cbn. by rewrite !length_insert.
  - split; [by rewrite detach_def|]. split; [by apply detach_dir|]. by destruct (detach_fields r) as (_ & _ & _ & _ & _ & _ & ->).
  - intros d Hd. rewrite detach_used in Hd. destruct (decide (d = c)); [done|]. destruct (T6 d Hd) as [N1 N2 N3 N4 N5 N6].
    destruct (detach_fields d) as (F1 & _ & F2 & F3 & F4 & _).
    constructor; rewrite ?F1, ?F2, ?F3, ?F4; [| |done..|by rewrite detach_def|done].
    + rewrite detach_node. destruct (decide (d = p)) as [->|]; [|done]. cbn.
      apply lookup_lt_Some in Hi. unfold entries in Hi. rewrite length_take in Hi. lia.
    + rewrite detach_node. destruct (decide (d = p)) as [->|]; [|done]. cbn. by rewrite Hsl.
  - intros d Hd. apply detach_dir in Hd as [Hd Hdc]. pose proof (T7 d Hd) as Hok.
    assert (forall e, e ∈ entries detach d -> e ∈ entries s d) as Hsub.
    { intros e. rewrite detach_entries. destruct (decide (d = p)) as [->|]; [apply list_elem_of_delete_inv|done]. }
    constructor.
    + intros e He. destruct (dk_some _ _ Hok e (Hsub e He)) as (x & -> & Hx & Hpx & Hlt). exists x.
      rewrite detach_used, decide_False by (by eapply detach_gone).
      destruct (detach_fields x) as (_ & _ & -> & _ & _ & _ & ->). by destruct (detach_fields d) as (_ & _ & -> & _).
    + intros m n a b. destruct (detach_fields a) as (-> & _), (detach_fields b) as (-> & _). rewrite detach_entries.
      destruct (decide (d = p)) as [->|]; [|apply (dk_names _ _ Hok)]. rewrite !list_lookup_delete. intros Ha Hb En.
      pose proof (dk_names _ _ Hok _ _ _ _ Ha Hb En). destruct (decide (m < i)%nat), (decide (n < i)%nat); lia.
  - intros a b. rewrite !detach_used. destruct (decide (a = c)), (decide (b = c)); try done.
    destruct (detach_fields a) as (_ & _ & -> & _), (detach_fields b) as (_ & _ & -> & _). apply T8.
Qed.
End Detach.

(** *** File contents *)

Definition byte_at (c : gmap Z Z) (i : Z) : Z := default 0 (c !! i).

Lemma file_write_spec n : forall c pos src, 0 <= pos -> pos + Z.of_nat n <= VFS_MAX_FILE_SIZE -> (n <= length src)%nat ->
  exists c', write_loop n c pos src = Some c' /\
    ((fun k => byte_at c' (pos + k)) <$> seqZ 0 (Z.of_nat n)) = take n src /\
    forall j, j < pos \/ pos + Z.of_nat n <= j -> c' !! j = c !! j.
Proof.
  induction n as [|n IH]; intros c pos src Hpos Hle Hn; cbn [write_loop].
  - exists c. done.
  - assert (u32 pos = pos) as Eu by (apply u32_small; unfold is_u32; change VFS_MAX_FILE_SIZE with 4096 in Hle; lia). rewrite Eu.
    rewrite (proj2 (Z.ltb_lt _ _)) by lia.
    destruct src as [|v src]; cbn [length] in Hn; [lia|]. cbn [hd tail].
    destruct (IH (<[pos := v]> c) (pos + 1) src) as (c' & -> & H1 & H2); [lia|lia|lia|].
    exists c'. split; [done|]. split.
    + rewrite seqZ_cons by lia. cbn [fmap list_fmap take]. f_equal.
      * unfold byte_at. rewrite Z.add_0_r, H2 by lia. by rewrite lookup_insert_eq.
      * rewrite <- H1. replace (Z.pred (Z.of_nat (S n))) with (Z.of_nat n) by lia. change (Z.succ 0) with (1 + 0).
        rewrite <- (fmap_add_seqZ 1 0), <- list_fmap_compose. apply list_fmap_ext. intros k x _. cbn. f_equal. lia.
    + intros j Hj. rewrite H2 by lia. rewrite lookup_insert_ne by lia. done.
Qed.
Lemma file_read_spec n : forall c pos, 0 <= pos -> pos + Z.of_nat n <= VFS_MAX_FILE_SIZE ->
  read_loop n c pos = Some ((fun k => byte_at c (pos + k)) <$> seqZ 0 (Z.of_nat n)).
Proof.
  induction n as [|n IH]; intros c pos Hpos Hle; cbn [read_loop]; [done|].
  assert (u32 pos = pos) as Eu by (apply u32_small; unfold is_u32; change VFS_MAX_FILE_SIZE with 4096 in Hle; lia). rewrite Eu.
  rewrite (proj2 (Z.ltb_lt _ _)) by lia. rewrite IH by lia. f_equal. rewrite (seqZ_cons 0 (Z.of_nat (S n))) by lia. cbn [fmap list_fmap].
  rewrite Z.add_0_r. f_equal. replace (Z.pred (Z.of_nat (S n))) with (Z.of_nat n) by lia. change (Z.succ 0) with (1 + 0).
  rewrite <- (fmap_add_seqZ 1 0), <- list_fmap_compose. apply list_fmap_ext. intros k x _. cbn. f_equal. lia.
Qed.

(** What a write of [k] bytes leaves in the file. *)
Record written (s s' : vfs) (f : nat) (offset k : Z) (src : list Z) : Prop := {
  wr_only : exists c l, s' = set_node f (with_length l (with_content c (node_at f s))) s /\
    l = Z.max (n_length (node_at f s)) (offset + k) /\
    ((fun j => byte_at c (offset + j)) <$> seqZ 0 k) = take (Z.to_nat k) src /\
    forall j, j < offset \/ offset + k <= j -> c !! j = n_content (node_at f s) !! j
}.

Lemma write_spec s r f offset size src : tree s r -> used f s = true -> n_type (node_at f s) = NODE_FILE ->
  0 <= offset <= VFS_MAX_FILE_SIZE -> 0 <= size <= Z.of_nat (length src) -> offset + size < 2 ^ 32 ->
  let k := Z.min size (VFS_MAX_FILE_SIZE - offset) in
  exists s', vfs_write (Some f) offset size src s = Some (k, s') /\ written s s' f offset k src.
Proof.
  intros Ht Hf Hty Ho Hs Hsum k. pose proof (tr_node _ _ Ht f Hf) as [_ _ Hops Hlen _ _].
  change VFS_MAX_FILE_SIZE with 4096 in *.
  unfold vfs_write, has_ops. rewrite Hops. unfold ramfs_write. cbv zeta. rewrite decide_False by congruence.
  change VFS_MAX_FILE_SIZE with 4096. rewrite (u32_small (offset + size)) by (unfold is_u32; lia).
  assert ((if 4096 <? offset + size then u32 (4096 - offset) else size) = k) as ->.
  { unfold k. destruct (Z.ltb_spec 4096 (offset + size)); [|lia]. rewrite u32_small by (unfold is_u32; lia). lia. }
  destruct (file_write_spec (Z.to_nat k) (n_content (node_at f s)) offset src) as (c & -> & H1 & H2);
    [lia|change VFS_MAX_FILE_SIZE with 4096; lia|lia|]. rewrite Z2Nat.id in * by lia.
  rewrite (u32_small (offset + k)) by (unfold is_u32; lia). rewrite s32_small by lia.
  eexists. split; [done|]. constructor. exists c, (Z.max (n_length (node_at f s)) (offset + k)). split; [|done].
  cbn [n_length with_content]. f_equal. destruct (Z.ltb_spec (n_length (node_at f s)) (offset + k)).
  - f_equal. lia.
  - rewrite Z.max_l by lia. done.
Qed.

(** Nodes that differ in contents and length only. *)
Lemma tree_content s r f c l : tree s r -> used f s = true -> 0 <= l <= VFS_MAX_FILE_SIZE ->
  tree (set_node f (with_length l (with_content c (node_at f s))) s) r.
Proof.
  intros Ht Hf Hl. set (s' := set_node _ _ s). pose proof (tree_lt s r Ht f Hf) as [Hlt _].
  assert (forall j, node_at j s' = if decide (j = f) then with_length l (with_content c (node_at f s)) else node_at j s) as En
    by (intros j; by apply node_at_set).
  assert (forall j, n_name (node_at j s') = n_name (node_at j s) /\ n_type (node_at j s') = n_type (node_at j s) /\
    n_inode (node_at j s') = n_inode (node_at j s) /\ n_parent (node_at j s') = n_parent (node_at j s) /\
    entries s' j = entries s j) as Hsame.
  { intros j. unfold entries. rewrite En. destruct (decide (j = f)) as [->|]; done. }
  assert (forall d, is_dir s' d <-> is_dir s d) as Hdir by (intros d; unfold is_dir; by destruct (Hsame d) as (_ & -> & _)).
  destruct Ht as [[T1 T2] (T3 & T4 & T5) T6 T7 T8]. constructor.
  - split; [cbn; by rewrite length_insert|done].
  - split; [done|]. rewrite Hdir. split; [done|]. by destruct (Hsame r) as (_ & _ & _ & -> & _).
  - intros d Hd. destruct (T6 d Hd). constructor; rewrite En; destruct (decide (d = f)) as [->|]; done.
  - intros d Hd. apply Hdir in Hd. destruct (Hsame d) as (_ & _ & E1 & _ & E2).
    apply (dir_ok_same s); [by apply T7|done|done|]. intros x _. by destruct (Hsame x) as (-> & _ & -> & -> & _).
  - intros a b Ha Hb. destruct (Hsame a) as (_ & _ & -> & _), (Hsame b) as (_ & _ & -> & _). by apply T8.
Qed.

Lemma write_tree s s' r f offset k src : tree s r -> used f s = true -> 0 <= offset -> 0 <= k -> offset + k <= VFS_MAX_FILE_SIZE ->
  written s s' f offset k src -> tree s' r.
Proof.
  intros Ht Hf Ho Hk Hle [(c & l & -> & -> & _ & _)]. apply tree_content; [done|done|].
  destruct (tr_node _ _ Ht f Hf). lia.
Qed.

(** ** Path resolution on strings *)

(** The node a list of components leads to. *)
Fixpoint walk (s : vfs) (current : nat) (path : list (list Z)) : option nat :=
  match path with
  | [] => Some current
  | t :: path => match walk_component s (Some current) t with At (Some next) => walk s next path | _ => None end
  end.

Definition reach (s : vfs) (r : nat) : nat -> Prop := rtc (child s) r.

Lemma reach_used s r n : tree s r -> reach s r n -> used n s = true.
Proof.
  intros Ht Hr. destruct (rtc_inv_r _ _ Hr) as [<-|(d & _ & Hc)]; [apply (tr_root _ _ Ht)|].
  by destruct (child_facts s r Ht d n Hc).
Qed.
Lemma reach_parent s r n : tree s r -> reach s r n -> exists d, n_parent (node_at n s) = Some d /\ reach s r d.
Proof.
  intros Ht Hr. destruct (rtc_inv_r _ _ Hr) as [<-|(d & Hd & Hc)].
  - exists r. split; [apply (tr_root _ _ Ht)|constructor].
  - exists d. split; [by destruct (child_facts s r Ht d n Hc) as (_ & ? & _)|done].
Qed.

Lemma component_reach s r cur t : tree s r -> reach s r cur -> Forall (fun v => 0 < v) t ->
  match walk_component s (Some cur) t with At (Some n) => reach s r n | At None | Fault => False | Missing => True end.
Proof.
  intros Ht Hr Hp. unfold walk_component. destruct (lex t [46] =? 0); [done|]. destruct (lex t [46; 46] =? 0).
  - destruct (reach_parent s r cur Ht Hr) as (d & -> & Hd). done.
  - destruct (decide (n_type (node_at cur s) = NODE_DIRECTORY)) as [Hd|Hd].
    + assert (is_dir s cur) as Hdir by (split; [by apply (reach_used s r)|done]).
      pose proof (vfs_find_spec s r Ht cur t Hdir Hp) as Hf. destruct (vfs_find_node (Some cur) t s) as [c|]; [|done].
      eapply rtc_r; [exact Hr|apply Hf].
    + cbn [vfs_find_node]. by rewrite decide_True.
Qed.
Lemma walk_reach s r path : tree s r -> Forall (Forall (fun v => 0 < v)) path ->
  forall cur, reach s r cur -> match walk s cur path with Some n => reach s r n | None => True end.
Proof.
  intros Ht Hp. induction Hp as [|t path Htp _ IH]; intros cur Hr; cbn [walk]; [done|].
  pose proof (component_reach s r cur t Ht Hr Htp) as H. destruct (walk_component s (Some cur) t) as [[n|]| |]; [|done..].
  by apply IH.
Qed.

Lemma read_cstr_spec m a l fuel : cstr m a l -> (length l < fuel)%nat -> read_cstr fuel m a = Some l.
Proof.
  revert a fuel. induction l as [|v l IH]; intros a [|fuel] Hc Hf; cbn [length] in *; try lia; cbn [read_cstr];
    rewrite (cstr_head _ _ _ Hc); [done|]. cbn [cstr] in Hc. destruct Hc as (_ & -> & Hc). by rewrite IH by (done || lia).
Qed.

Lemma pieces_in d l t v : t ∈ pieces d l -> v ∈ t -> v ∈ l.
Proof.
  revert t. induction l as [|c l IH]; intros t; cbn [pieces].
  - intros ->%list_elem_of_singleton Hv. by apply elem_of_nil in Hv.
  - destruct (d c).
    + intros [->|Ht]%elem_of_cons Hv; [by apply elem_of_nil in Hv|]. right. by apply (IH t).
    + destruct (pieces d l) as [|p ps].
      * intros ->%list_elem_of_singleton ->%list_elem_of_singleton. left.
      * intros [->|Ht]%elem_of_cons Hv; [|right; apply (IH t); [by right|done]].
        apply elem_of_cons in Hv as [->|Hv]; [left|right]. apply (IH p); [left|done].
Qed.
Lemma tokens_forall (P : Z -> Prop) d l : Forall P l -> Forall (Forall P) (tokens d l).
Proof.
  intros H. apply list.Forall_forall. intros t Ht. apply list.Forall_forall. intros v Hv.
  rewrite list.Forall_forall in H. apply H. unfold tokens in Ht. apply list_elem_of_filter in Ht as [_ Ht]. by apply (pieces_in d l t).
Qed.

Section Resolve.
Variables (s : vfs) (slash : Z) (fuel : nat).
Let ds : list Z := [47].

(** What a call of the tokenizer returned, with [rst] to go from [last]. *)
Definition returned (m m' : mem) (last last' p : Z) (rst : list Z) : Prop :=
  match tokens (is_in ds) rst with
  | [] => p = 0 /\ m' = m
  | t :: ts => token_found ds m m' last last' p rst t ts
  end.

Lemma walk_tokens_spec n : forall m m' last last' p rst cur, returned m m' last last' p rst ->
  0 < slash -> cstr m slash ds -> slash + 1 < last \/ last + len rst < slash -> (length rst + 1 < fuel)%nat -> (length rst < n)%nat ->
  (forall c t, t ∈ tokens (is_in ds) rst -> walk_component s (Some c) t <> Fault /\ walk_component s (Some c) t <> At None) ->
  exists x, walk_tokens n fuel s (Some cur) p slash (m', last') = Some (walk s cur (tokens (is_in ds) rst), x) /\
    same_out m (fst x) last (len rst + 1).
Proof.
  induction n as [|n IH]; intros m m' last last' p rst cur Hr Hpos Hs Hd Hf Hn Hw; [lia|]. cbn [walk_tokens].
  unfold returned in Hr. destruct (tokens (is_in ds) rst) as [|t ts] eqn:Et.
  - destruct Hr as [-> ->]. eexists. split; [done|]. intros b _. done.
  - destruct Hr as [Hp Hc (r' & Hr' & Ets & Hl & Hl1) O]. rewrite (proj2 (Z.eqb_neq p 0)) by lia. cbn [fst].
    rewrite (read_cstr_spec m' p t) by (done || lia). cbn [walk].
    destruct (Hw cur t) as [Hf1 Hf2]; [left|].
    destruct (walk_component s (Some cur) t) as [[next|]| |]; [|done| |done].
    2: { eexists. split; [done|]. cbn [fst]. intros b Hb. apply O. lia. }
    assert (cstr m' slash ds) as Hs' by (apply (cstr_same m); [|done]; intros b Hb; apply O; cbn in Hb; lia).
    assert (slash + len ds < last' \/ last' + len r' < slash) as Hd'.
    { destruct Hl1 as [->|[El1 El2]]; [|cbn [length ds]; lia]. destruct Hr' as [[_ ->]|[? _]]; [right; cbn [length]; lia|lia]. }
    destruct (tokenize_spec slash ds m' last' r' fuel Hr' Hs' Hd') as (p2 & m2 & last2 & -> & H2); [cbn [length ds]; lia|].
    rewrite <- Ets. destruct Hl1 as [->|[El1 El2]].
    + destruct Hr' as [[_ ->]|[? _]]; [|lia]. destruct H2 as [-> ->]. destruct n as [|n]; [lia|]. cbn [walk_tokens Z.eqb].
      eexists. split; [done|]. intros b Hb. apply O. lia.
    + destruct (IH m' m2 last' last2 p2 r' next H2 Hpos Hs') as (x & -> & Ox); [cbn [length ds] in Hd'; lia|lia|lia| |].
      { intros c t' Ht'. apply Hw. right. by rewrite <- Ets. }
      exists x. split; [done|]. intros b Hb. rewrite Ox by lia. apply O. lia.
Qed.
End Resolve.

(** ** Steps of a client

    What the shell's commands do to the tree: create a node under a free name in a
    directory, remove an entry, write to a file. *)

Inductive vfs_step (s : vfs) : vfs -> Prop :=
  | step_create p name type c s1 : is_dir s p -> name_ok name -> next_inode s + 1 < 2 ^ 32 ->
      vfs_find_node (Some p) name s = None -> vfs_create_node name type s = Some (c, s1) ->
      vfs_step s (snd (vfs_add_child (Some p) c s1))
  | step_remove p name : is_dir s p -> Forall (fun v => 0 < v) name ->
      vfs_step s (snd (vfs_remove_child (Some p) name s))
  | step_write f offset size src k s' : used f s = true -> 0 <= offset <= VFS_MAX_FILE_SIZE ->
      0 <= size <= Z.of_nat (length src) -> offset + size < 2 ^ 32 ->
      vfs_write (Some f) offset size src s = Some (k, s') -> vfs_step s s'.

Lemma next_pos s r : tree s r -> 0 < next_inode s.
Proof. intros Ht. destruct (tr_root _ _ Ht) as (_ & [Hu _] & _). pose proof (nk_inode _ _ (tr_node _ _ Ht r Hu)). lia. Qed.

(** Creating a node: it appears under its name, and nothing else changes. *)
Record made (s s' : vfs) (r p c : nat) (name : list Z) (type : vfs_node_type) : Prop := {
  mk_tree : tree s' r;
  mk_free : used c s = false;
  mk_node : n_name (node_at c s') = name /\ n_type (node_at c s') = type /\ n_length (node_at c s') = 0 /\
    n_parent (node_at c s') = Some p;
  mk_entries : forall d, d <> c -> entries s' d = if decide (d = p) then entries s p ++ [Some c] else entries s d;
  mk_other : forall j, j <> c -> used j s' = used j s /\ n_name (node_at j s') = n_name (node_at j s) /\
    n_type (node_at j s') = n_type (node_at j s) /\ n_content (node_at j s') = n_content (node_at j s)
}.

Lemma create_in_dir_spec s r p name type : tree s r -> is_dir s p -> name_ok name -> next_inode s + 1 < 2 ^ 32 ->
  vfs_find_node (Some p) name s = None ->
  exists c s1, vfs_create_node name type s = Some (c, s1) /\ tree s1 r /\
  match c with
  | None => s1 = s /\ forall i, (i < VFS_MAX_NODES)%nat -> used i s = true
  | Some c =>
      if n_count (node_at p s) <? VFS_MAX_CHILDREN
      then exists s2, vfs_add_child (Some p) (Some c) s1 = (0, s2) /\ made s s2 r p c name type
      else vfs_add_child (Some p) (Some c) s1 = (-1, s1)
  end.
Proof.
  intros Ht Hp Hn Hnx Hf. pose proof (next_pos s r Ht) as Hpos.
  destruct (create_node_spec s r name type Ht Hpos Hnx Hn) as (c & s1 & E & H). exists c, s1. split; [done|].
  destruct c as [c|]; [|destruct H as [-> Hu]; done]. pose proof H as [A1 A2 [A3 A4] A5 A6 A7 A8].
  assert (tree s1 r) as Ht1 by (apply (tree_added s s1 r c _ Ht H Hpos); done). split; [done|].
  assert (c <> p) as Hcp by (intros ->; destruct Hp; congruence).
  assert (node_at p s1 = node_at p s) as Ep by (by rewrite A7, decide_False).
  assert (forall d, d <> c -> entries s1 d = entries s d) as Een by (intros d Hd; unfold entries; by rewrite A7, decide_False).
  assert (forall d x, child s1 d x -> child s d x /\ x <> c) as Hch.
  { intros d x [[Hd Hty] Hx]. rewrite A8 in Hd. rewrite A7 in Hty.
    destruct (decide (d = c)) as [->|Hne]; [unfold entries in Hx; rewrite A7, decide_True in Hx by done; by apply elem_of_nil in Hx|].
    assert (child s d x) as Hc by (split; [done|by rewrite <- Een]). split; [done|].
    destruct (child_facts s r Ht d x Hc) as (Hu & _). congruence. }
  destruct (Z.ltb_spec (n_count (node_at p s)) VFS_MAX_CHILDREN) as [Hlt|Hge].
  2: { cbn [vfs_add_child]. rewrite Ep. rewrite decide_False by (destruct Hp; congruence). by rewrite (proj2 (Z.leb_le _ _)). }
  assert (is_dir s1 p) as Hp1 by (unfold is_dir; rewrite Ep, A8, decide_False by done; done).
  assert (used c s1 = true) as Hc1 by (by rewrite A8, decide_True).
  assert (c <> r) as Hcr by (destruct (tr_root _ _ Ht) as (_ & [Hu _] & _); congruence).
  assert (n_inode (node_at p s1) < n_inode (node_at c s1)) as Hin.
  { rewrite Ep, A7, decide_True by done. cbn. apply (tr_node _ _ Ht p (proj1 Hp)). }
  assert (forall d, ~ child s1 d c) as Hfree by (intros d Hd; by destruct (Hch d c Hd)).
  assert (forall x, child s1 p x -> n_name (node_at x s1) <> n_name (node_at c s1)) as Hnm.
  { intros x Hx. destruct (Hch p x Hx) as [Hx' Hne]. rewrite !A7, decide_False, decide_True by done. cbn.
    pose proof (vfs_find_spec s r Ht p name Hp (proj2 Hn)) as Hfs. rewrite Hf in Hfs. by apply Hfs. }
  assert (n_count (node_at p s1) < VFS_MAX_CHILDREN) as Hct by (by rewrite Ep).
  pose proof (attach_fields s1 r p c Ht1 Hp1 Hc1 Hfree Hcr Hin Hnm Hct) as Hfl.
  exists (attach s1 p c). split; [by apply (attach_eq s1 p c)|]. constructor.
  - by apply attach_tree.
  - done.
  - destruct (Hfl c) as (-> & -> & _ & _ & -> & _). rewrite (attach_node s1 r p c Ht1 Hp1 Hc1 Hfree Hcr Hin Hnm Hct), decide_True by done.
    rewrite A7, decide_True by done. done.
  - intros d Hd. rewrite (attach_entries s1 r p c Ht1 Hp1 Hc1 Hfree Hcr Hin Hnm Hct). rewrite (Een p), (Een d) by done. done.
  - intros j Hj. destruct (attach_rest s1 p c Hp1 Hct) as [-> _]. destruct (Hfl j) as (-> & -> & _ & _ & _ & -> & _).
    rewrite A7, A8, !decide_False by done. done.
Qed.

(** Lookups are determined by the entries and their names. *)
Lemma find_iff s r p name c : tree s r -> is_dir s p -> Forall (fun v => 0 < v) name ->
  vfs_find_node (Some p) name s = Some c <-> child s p c /\ n_name (node_at c s) = name.
Proof.
  intros Ht Hp Hn. pose proof (vfs_find_spec s r Ht p name Hp Hn) as H. split.
  - intros E. by rewrite E in H.
  - intros [Hc En]. destruct (vfs_find_node (Some p) name s) as [c'|]; [|by destruct (H c Hc)].
    destruct H as [[_ Hc'] En']. destruct Hc as [_ Hc]. apply list_elem_of_lookup in Hc as [i Hi], Hc' as [j Hj].
    assert (i = j) as -> by (apply (dk_names _ _ (tr_dir _ _ Ht p Hp) i j c c'); congruence). congruence.
Qed.
Lemma find_ext s s' r p name : tree s r -> tree s' r -> is_dir s p -> is_dir s' p -> Forall (fun v => 0 < v) name ->
  (forall c, child s p c /\ n_name (node_at c s) = name <-> child s' p c /\ n_name (node_at c s') = name) ->
  vfs_find_node (Some p) name s' = vfs_find_node (Some p) name s.
Proof.
  intros Ht Ht' Hp Hp' Hn H. apply option_eq. intros c. rewrite (find_iff s' r), (find_iff s r) by done. by rewrite H.
Qed.

Lemma step_tree s s' r : tree s r -> vfs_step s s' -> tree s' r.
Proof.
  intros Ht Hs. destruct Hs as [p name type c s1 Hp Hn Hx Hf E|p name Hp Hn|f offset size src k s' Hf Ho Hsz Hsum E].
  - destruct (create_in_dir_spec s r p name type Ht Hp Hn Hx Hf) as (c' & s1' & E' & Ht1 & H). rewrite E in E'. injection E' as <- <-.
    destruct c as [c|]; [|done]. destruct (n_count (node_at p s) <? VFS_MAX_CHILDREN).
    + destruct H as (s2 & -> & [Ht2 _ _ _ _]). done.
    + by rewrite H.
  - destruct (find_child p name s) as [[i [c|]]|] eqn:E.
    + by apply (detach_tree s r p name i c).
    + destruct (find_child_Some s r Ht p name i None Hp Hn E) as (c & [=] & _).
    + unfold vfs_remove_child. rewrite decide_False by (destruct Hp; congruence). by rewrite E.
  - destruct (decide (n_type (node_at f s) = NODE_FILE)) as [Hty|Hty].
    + destruct (write_spec s r f offset size src Ht Hf Hty Ho Hsz Hsum) as (s2 & E2 & Hw). rewrite E in E2. injection E2 as -> ->.
      apply (write_tree s s2 r f offset (Z.min size (VFS_MAX_FILE_SIZE - offset)) src); [exact Ht|exact Hf|lia|lia|lia|exact Hw].
    + revert E. unfold vfs_write, has_ops. rewrite (nk_ops _ _ (tr_node _ _ Ht f Hf)). cbn [ramfs_write].
      rewrite decide_True by done. intros [= _ <-]. done.
Qed.
Lemma trace_tree s s' r : tree s r -> rtc vfs_step s s' -> tree s' r.
Proof. intros Ht Hs. induction Hs as [|s s1 s2 H1 _ IH]; [done|]. apply IH. by apply (step_tree s). Qed.

(** A boolean check of the invariant, for concrete states. *)
Definition entry_ok (s : vfs) (d : nat) (e : option nat) : bool :=
  match e with
  | Some c => used c s && bool_decide (n_parent (node_at c s) = Some d) && (n_inode (node_at d s) <? n_inode (node_at c s))
  | None => false
  end.
Definition entry_name (s : vfs) (e : option nat) : list Z := match e with Some c => n_name (node_at c s) | None => [] end.
Definition check_node (s : vfs) (d : nat) : bool :=
  negb (used d s) ||
  (0 <=? n_count (node_at d s)) && (n_count (node_at d s) <=? VFS_MAX_CHILDREN) &&
  (Z.of_nat (length (n_children (node_at d s))) =? VFS_MAX_CHILDREN) && n_ops (node_at d s) &&
  (0 <=? n_length (node_at d s)) && (n_length (node_at d s) <=? VFS_MAX_FILE_SIZE) &&
  (0 <? n_inode (node_at d s)) && (n_inode (node_at d s) <? next_inode s) &&
  (Z.of_nat (length (n_name (node_at d s))) <? VFS_NAME_LENGTH) && forallb (Z.ltb 0) (n_name (node_at d s)) &&
  (bool_decide (n_type (node_at d s) <> NODE_DIRECTORY) ||
   forallb (entry_ok s d) (entries s d) && bool_decide (NoDup (entry_name s <$> entries s d))).
Definition check_tree (s : vfs) (r : nat) : bool :=
  bool_decide (length (node_pool s) = VFS_MAX_NODES /\ length (node_pool_bitmap s) = VFS_MAX_NODES) &&
  bool_decide (vfs_root s = Some r) && used r s && bool_decide (n_type (node_at r s) = NODE_DIRECTORY) &&
  bool_decide (n_parent (node_at r s) = Some r) && forallb (check_node s) (seq 0 VFS_MAX_NODES) &&
  forallb (fun i => forallb (fun j => negb (used i s && used j s && (n_inode (node_at i s) =? n_inode (node_at j s))) || bool_decide (i = j))
    (seq 0 VFS_MAX_NODES)) (seq 0 VFS_MAX_NODES).

Lemma forallb_seq f n i : forallb f (seq 0 n) = true -> (i < n)%nat -> f i = true.
Proof. rewrite forallb_forall. intros H Hi. apply H. apply in_seq. lia. Qed.

Lemma check_sound s r : check_tree s r = true -> tree s r.
Proof.
  unfold check_tree. rewrite !andb_true_iff, !bool_decide_eq_true. intros ((((((H1 & H2) & H3) & H4) & H5) & H6) & H7).
  assert (forall d, used d s = true -> check_node s d = true) as Hn.
  { intros d Hd. apply (forallb_seq _ VFS_MAX_NODES); [done|]. apply used_lt in Hd. lia. }
  constructor; [done|done| | |].
  - intros d Hd. specialize (Hn d Hd). unfold check_node in Hn. rewrite Hd in Hn. cbn [negb orb] in Hn.
    rewrite !andb_true_iff, !Z.leb_le, !Z.ltb_lt, Z.eqb_eq, forallb_forall in Hn. constructor; try tauto; try lia.
    split; [lia|]. apply list.Forall_forall. intros v Hv. apply Z.ltb_lt. apply list_elem_of_In in Hv. tauto || (destruct Hn as [[_ Hn] _]; by apply Hn).
  - intros d [Hd Hty]. specialize (Hn d Hd). unfold check_node in Hn. rewrite Hd in Hn. cbn [negb orb] in Hn.
    apply andb_true_iff in Hn as [_ Hn]. rewrite bool_decide_eq_false_2 in Hn by (intros H; by apply H). cbn [orb] in Hn.
    apply andb_true_iff in Hn as [He Hnd]. apply bool_decide_eq_true in Hnd. rewrite forallb_forall in He. constructor.
    + intros e Hin. specialize (He e (proj1 (list_elem_of_In _ _) Hin)). destruct e as [c|]; [|done]. cbn [entry_ok] in He.
      rewrite !andb_true_iff, bool_decide_eq_true, Z.ltb_lt in He. exists c. tauto.
    + intros i j a b Ha Hb En. eapply (list.NoDup_lookup _ i j (n_name (node_at a s)) Hnd).
      * by rewrite list_lookup_fmap, Ha.
      * rewrite list_lookup_fmap, Hb. cbn. by rewrite En.
  - intros i j Hi Hj E. pose proof (used_lt _ _ Hi). pose proof (used_lt _ _ Hj).
    pose proof (forallb_seq _ _ i H7 ltac:(lia)) as H8. pose proof (forallb_seq _ _ j H8 ltac:(lia)) as H9. cbn beta in H9.
    rewrite Hi, Hj, (proj2 (Z.eqb_eq _ _) E) in H9. cbn in H9. by apply bool_decide_eq_true in H9.
Qed.

Lemma init_tree : match vfs_init vfs_bss with Some s => check_tree s 0 = true | None => False end.
Proof. vm_compute. reflexivity. Qed.

Lemma child_unique s r d d' c : tree s r -> child s d c -> child s d' c -> d = d'.
Proof. intros Ht H1 H2. destruct (child_facts s r Ht d c H1) as (_ & E1 & _), (child_facts s r Ht d' c H2) as (_ & E2 & _). congruence. Qed.
Lemma child_acyclic s r c : tree s r -> ~ tc (child s) c c.
Proof.
  intros Ht Hc. assert (forall a b, tc (child s) a b -> n_inode (node_at a s) < n_inode (node_at b s)) as H.
  { intros a b Hab. induction Hab as [a b Hab|a b e Hab _ IH]; destruct (child_facts s r Ht a b Hab) as (_ & _ & Hlt & _); lia. }
  specialize (H c c Hc). lia.
Qed.

Lemma boot_tree s : vfs_init vfs_bss = Some s -> tree s 0.
Proof. intros E. apply check_sound. pose proof init_tree as Hi. rewrite E in Hi. exact Hi. Qed.

(** ** Properties *)


(** The file system after boot. *)
Definition boot_vfs : vfs := match vfs_init vfs_bss with Some s => s | None => vfs_bss end.
(** ... with a directory [/home/a], and the directory [/tmp] removed. *)
Definition made_a : vfs :=
  match vfs_create_node (str "a") NODE_DIRECTORY boot_vfs with Some (c, s) => snd (vfs_add_child (Some 3%nat) c s) | None => boot_vfs end.
Definition no_tmp : vfs := snd (vfs_remove_child (Some 0%nat) (str "tmp") made_a).

Lemma demo_steps : rtc vfs_step boot_vfs no_tmp.
Proof.
  apply (rtc_l _ _ made_a).
  - unfold made_a. destruct (vfs_create_node (str "a") NODE_DIRECTORY boot_vfs) as [[c s]|] eqn:E; [|vm_compute in E; discriminate].
    apply (step_create boot_vfs 3 (str "a") NODE_DIRECTORY).
    + split; vm_compute; reflexivity.
    + split; [vm_compute; reflexivity|vm_compute; repeat constructor].
    + vm_compute. reflexivity.
    + vm_compute. reflexivity.
    + exact E.
  - apply rtc_once. apply (step_remove made_a 0 (str "tmp")).
    + split; vm_compute; reflexivity.
    + vm_compute. repeat constructor.
Qed.


(** Path resolution against walking the components. *)
Lemma resolve_spec s r m last path path_copy slash l n fuel :
  tree s r -> cstr m path (47 :: l) -> Forall (fun v => 0 < v) l -> 0 < path -> 0 < path_copy -> 0 < slash ->
  len l < VFS_MAX_PATH_LENGTH -> cstr m slash [47] ->
  path + len l + 1 < path_copy \/ path_copy + VFS_MAX_PATH_LENGTH <= path ->
  slash + 1 < path_copy \/ path_copy + VFS_MAX_PATH_LENGTH <= slash ->
  (length l + 2 <= fuel)%nat -> (length l < n)%nat ->
  exists x, vfs_resolve_path n fuel path path_copy slash s (m, last) = Some (walk s r (tokens (is_in [47]) l), x) /\
    same_out m (fst x) path_copy VFS_MAX_PATH_LENGTH /\
    match walk s r (tokens (is_in [47]) l) with Some c => reach s r c /\ used c s = true | None => True end.
Proof.
  intros Ht Hc Hl Hp Hpc Hs Hlen Hsl Hd1 Hd2 Hf Hn. destruct (tr_root _ _ Ht) as (Hroot & _ & _).
  assert (Forall (Forall (fun v => 0 < v)) (tokens (is_in [47]) l)) as Htok by (by apply tokens_forall).
  pose proof (walk_reach s r (tokens (is_in [47]) l) Ht Htok r ltac:(constructor)) as Hwr.
  assert (match walk s r (tokens (is_in [47]) l) with Some c => reach s r c /\ used c s = true | None => True end) as Hres.
  { destruct (walk s r (tokens (is_in [47]) l)); [|done]. split; [done|by apply (reach_used s r)]. }
  unfold vfs_resolve_path. rewrite (proj2 (Z.eqb_neq path 0)) by lia. pose proof Hc as Hc0. cbn [cstr] in Hc0. destruct Hc0 as (_ & -> & Hc1).
  cbn [orb negb Z.eqb Pos.eqb]. rewrite (cstr_head _ _ _ Hc1). rewrite Hroot. change VFS_MAX_PATH_LENGTH with 256 in *.
  destruct l as [|v l].
  { exists (m, last). split; [done|]. split; [intros b _; done|]. exact Hres. }
  set (w := v :: l) in *.
  destruct (copy_spec m path_copy (path + 1) w fuel Hc1 ltac:(lia) ltac:(lia)) as (m1 & -> & Hc2 & O1).
  assert (cstr m1 slash [47]) as Hsl1 by (apply (cstr_same m); [|done]; intros b Hb; apply O1; cbn [length] in Hb; lia).
  assert (string_tokenize fuel (m1, last) path_copy slash = string_tokenize fuel (m1, path_copy) 0 slash) as ->.
  { unfold string_tokenize. rewrite (proj2 (Z.eqb_neq path_copy 0)) by lia. cbn [Z.eqb].
    rewrite (proj2 (Z.eqb_neq path_copy 0)) by lia. by rewrite (cstr_head _ _ _ Hc2). }
  destruct (tokenize_spec slash [47] m1 path_copy w fuel) as (p & m2 & last2 & -> & H2);
    [right; done|done|cbn [length]; lia|cbn [length]; lia|].
  destruct (walk_tokens_spec s slash fuel n m1 m2 path_copy last2 p w r H2 Hs Hsl1) as (x & -> & Ox); [lia|lia|lia| |].
  - intros c t _. unfold walk_component.
    destruct (lex t [46] =? 0); [done|]. destruct (lex t [46; 46] =? 0); [done|]. by destruct (vfs_find_node (Some c) t s).
  - exists x. split; [done|]. split; [|exact Hres]. intros b Hb. rewrite Ox by lia. apply O1. lia.
Qed.


Fixpoint put_string (m : mem) (a : Z) (l : list Z) : mem :=
  match l with [] => st m a 0 | v :: l => put_string (st m a v) (a + 1) l end.
Definition etc_motd : list Z := str "home/.././etc//motd.txt".
Definition resolve_mem : mem := put_string (put_string ∅ 1000 (47 :: etc_motd)) 500 [47].


Lemma read_spec s r f offset size : tree s r -> used f s = true -> n_type (node_at f s) = NODE_FILE ->
  0 <= offset -> 0 <= size -> offset + size < 2 ^ 32 ->
  let k := Z.max 0 (Z.min size (n_length (node_at f s) - offset)) in
  vfs_read (Some f) offset size s = Some (k, (fun j => byte_at (n_content (node_at f s)) (offset + j)) <$> seqZ 0 k).
Proof.
  intros Ht Hf Hty Ho Hs Hsum k. pose proof (tr_node _ _ Ht f Hf) as [_ _ Hops Hlen _ _]. change VFS_MAX_FILE_SIZE with 4096 in *.
  unfold vfs_read, has_ops. rewrite Hops. unfold ramfs_read. cbv zeta. rewrite decide_False by congruence.
  destruct (Z.leb_spec (n_length (node_at f s)) offset).
  - replace k with 0 by lia. done.
  - rewrite (u32_small (offset + size)) by (unfold is_u32; lia).
    assert ((if n_length (node_at f s) <? offset + size then u32 (n_length (node_at f s) - offset) else size) = k) as ->.
    { unfold k. destruct (Z.ltb_spec (n_length (node_at f s)) (offset + size)); [|lia]. rewrite u32_small by (unfold is_u32; lia). lia. }
    rewrite file_read_spec by (change VFS_MAX_FILE_SIZE with 4096; lia). rewrite Z2Nat.id by lia. rewrite s32_small by lia. done.
Qed.

(** What is written to a file is read back. A write at an offset within the file
    array stores as many bytes as fit, [k], and says so; reading [k] bytes at that offset
    then returns exactly the bytes written, a read that lies before the offset returns
    what it returned before, no other node has changed and the tree invariant holds. *)
Theorem vfs_write_read s r f offset size src :
  tree s r -> used f s = true -> n_type (node_at f s) = NODE_FILE -> 0 <= offset <= VFS_MAX_FILE_SIZE ->
  0 <= size <= Z.of_nat (length src) -> offset + size < 2 ^ 32 ->
  let k := Z.min size (VFS_MAX_FILE_SIZE - offset) in
  exists s', vfs_write (Some f) offset size src s = Some (k, s') /\ tree s' r /\
    vfs_read (Some f) offset k s' = Some (k, take (Z.to_nat k) src) /\
    (forall o n, 0 <= o -> 0 <= n -> o + n <= offset -> o + n <= n_length (node_at f s) ->
       vfs_read (Some f) o n s' = vfs_read (Some f) o n s) /\
    (forall j, j <> f -> node_at j s' = node_at j s).
Proof.
  intros Ht Hf Hty Ho Hs Hsum k. destruct (write_spec s r f offset size src Ht Hf Hty Ho Hs Hsum) as (s' & E & Hw). fold k in E, Hw.
  assert (tree s' r) as Ht' by (apply (write_tree s s' r f offset k src Ht Hf); [lia|lia|lia|done]).
  exists s'. split; [done|]. split; [done|]. destruct Hw as [(c & l & -> & El & Hc & Hold)].
  assert (forall j, node_at j (set_node f (with_length l (with_content c (node_at f s))) s) =
    if decide (j = f) then with_length l (with_content c (node_at f s)) else node_at j s) as En.
  { intros j. apply node_at_set. by apply (tree_lt s r Ht f Hf). }
  set (s' := set_node _ _ s) in *.
  assert (n_type (node_at f s') = NODE_FILE /\ n_length (node_at f s') = l /\ n_content (node_at f s') = c) as (Hty' & Hl' & Hc')
    by (by rewrite En, decide_True).
  change VFS_MAX_FILE_SIZE with 4096 in *. split; [|split].
  - rewrite (read_spec s' r f offset k) by (done || lia). rewrite Hl', Hc'.
    replace (Z.max 0 (Z.min k (l - offset))) with k by lia. by rewrite Hc.
  - intros o n Ho1 Hn1 Hon Hle. rewrite (read_spec s' r f o n), (read_spec s r f o n) by (done || lia). rewrite Hl', Hc'.
    replace (Z.max 0 (Z.min n (l - o))) with n by lia. replace (Z.max 0 (Z.min n (n_length (node_at f s) - o))) with n by lia.
    do 2 f_equal. apply list_fmap_ext. intros i x Hx. apply lookup_seqZ in Hx as [-> Hi]. unfold byte_at. by rewrite Hold by lia.
  - intros j Hj. by rewrite En, decide_False.
Qed.

Lemma vfs_write_read_witness :
  exists s', vfs_write (Some 5%nat) 4094 4 [1; 2; 3; 4] boot_vfs = Some (2, s') /\
    vfs_read (Some 5%nat) 4094 2 s' = Some (2, [1; 2]).
Proof.
  destruct (vfs_write_read boot_vfs 0 5 4094 4 [1; 2; 3; 4]) as (s' & E & _ & Hr & _).
  - apply boot_tree. vm_compute. reflexivity.
  - vm_compute. reflexivity.
  - vm_compute. reflexivity.
  - vm_compute. split; congruence.
  - vm_compute. split; congruence.
  - vm_compute. reflexivity.
  - exists s'. split; [exact E|exact Hr].
Defined.

(** A write that starts beyond the end of the file array is not refused: the clipped
    size wraps around, and the first byte already goes outside the array. *)
Lemma vfs_write_out_of_bounds s r f offset size src : tree s r -> used f s = true -> n_type (node_at f s) = NODE_FILE ->
  VFS_MAX_FILE_SIZE < offset -> 0 < size -> offset + size < 2 ^ 32 -> vfs_write (Some f) offset size src s = None.
Proof.
  intros Ht Hf Hty Ho Hs Hsum. pose proof (tr_node _ _ Ht f Hf) as [_ _ Hops _ _ _]. change VFS_MAX_FILE_SIZE with 4096 in *.
  unfold vfs_write, has_ops. rewrite Hops. unfold ramfs_write. cbv zeta. rewrite decide_False by congruence.
  change VFS_MAX_FILE_SIZE with 4096. rewrite (u32_small (offset + size)) by (unfold is_u32; lia).
  rewrite (proj2 (Z.ltb_lt 4096 (offset + size))) by lia.
  assert (u32 (4096 - offset) = 2 ^ 32 + 4096 - offset) as Eu by (unfold u32; symmetry; apply (Z.mod_unique _ _ (-1)); lia).
  rewrite Eu.
  replace (Z.to_nat (2 ^ 32 + 4096 - offset)) with (S (Z.to_nat (2 ^ 32 + 4095 - offset))) by lia. cbn [write_loop].
  rewrite (u32_small offset) by (unfold is_u32; lia). change VFS_MAX_FILE_SIZE with 4096. by rewrite (proj2 (Z.ltb_ge _ _)) by lia.
Qed.

(** Lookups in a directory a node was created in. *)
Lemma made_find s s2 r p c name type : tree s r -> is_dir s p -> name_ok name -> made s s2 r p c name type ->
  is_dir s2 p /\ vfs_find_node (Some p) name s2 = Some c /\
  forall n, n <> name -> Forall (fun v => 0 < v) n -> vfs_find_node (Some p) n s2 = vfs_find_node (Some p) n s.
Proof.
  intros Ht Hp Hn [Ht2 Hfree (Nn & _) He Ho]. assert (p <> c) as Hpc by (intros ->; destruct Hp; congruence).
  assert (entries s2 p = entries s p ++ [Some c]) as Ep by (by rewrite He, decide_True).
  assert (is_dir s2 p) as Hp2 by (destruct (Ho p Hpc) as (E1 & _ & E2 & _); unfold is_dir; by rewrite E1, E2). split; [done|]. split.
  - apply (find_iff s2 r p name c Ht2 Hp2 (proj2 Hn)). split; [|done]. split; [done|]. rewrite Ep, elem_of_app, list_elem_of_singleton. by right.
  - intros n Hne Hnp. apply (find_ext s s2 r p n); [done..|]. intros x. unfold child. rewrite Ep, elem_of_app, list_elem_of_singleton.
    destruct (decide (x = c)) as [->|Hx].
    + rewrite Nn. split; [|by intros [_ <-]]. intros [Hc _]. destruct (child_facts s r Ht p c Hc). congruence.
    + destruct (Ho x Hx) as (_ & -> & _). split; [tauto|]. intros [[_ [H|[= ->]]] E]; [tauto|done].
Qed.

(** Lookups after a removal. *)
Lemma removed_child s r p name c : tree s r -> is_dir s p -> Forall (fun v => 0 < v) name -> vfs_find_node (Some p) name s = Some c ->
  exists s3, vfs_remove_child (Some p) name s = (0, s3) /\ tree s3 r /\ used c s3 = false /\ c <> p /\
    (forall d, is_dir s3 d <-> is_dir s d /\ d <> c) /\
    (forall d x, child s3 d x <-> child s d x /\ d <> c /\ x <> c) /\
    forall j, n_name (node_at j s3) = n_name (node_at j s) /\ n_type (node_at j s3) = n_type (node_at j s).
Proof.
  intros Ht Hp Hn Hf. pose proof (proj1 (find_iff s r p name c Ht Hp Hn) Hf) as [Hc En].
  destruct (find_child p name s) as [[i e]|] eqn:E; [|by destruct (proj1 (find_child_None s r Ht p name Hp Hn) E c Hc)].
  destruct (find_child_Some s r Ht p name i e Hp Hn E) as (c' & -> & Hi & Hc' & En').
  pose proof (proj2 (find_iff s r p name c' Ht Hp Hn) (conj Hc' En')) as F2. assert (c' = c) as -> by congruence.
  pose proof (detach_dir s r p name i c Ht Hp Hn E) as Hdir. destruct (child_facts s r Ht p c Hc) as (_ & _ & _ & Hcp & _).
  exists (detach s p name). split; [by apply (detach_eq s p name i c)|]. split; [exact (detach_tree s r p name i c Ht Hp Hn E)|].
  split; [by rewrite (detach_used s r p name i c Ht Hp Hn E), decide_True|]. split; [done|]. split; [exact Hdir|]. split.
  2:{ intros j. by destruct (detach_fields s r p name i c Ht Hp Hn E j) as (-> & -> & _). }
  intros d x. split.
  - intros [Hd Hx]. apply Hdir in Hd as [Hd Hdc]. split; [|split; [done|by apply (detach_gone s r p name i c Ht Hp Hn E d x Hx)]]. split; [done|].
    rewrite (detach_entries s r p name i c Ht Hp Hn E) in Hx. destruct (decide (d = p)) as [->|]; [by apply list_elem_of_delete_inv in Hx|done].
  - intros [[Hd Hx] [Hdc Hne]]. split; [by apply Hdir|]. rewrite (detach_entries s r p name i c Ht Hp Hn E). destruct (decide (d = p)) as [->|]; [|done].
    apply list_elem_of_lookup in Hx as [j Hj]. apply list_elem_of_lookup. assert (j <> i) as Hji by congruence.
    destruct (decide (j < i)%nat); [exists j|exists (pred j)]; rewrite list_lookup_delete.
    + by rewrite decide_True.
    + rewrite decide_False by lia. by replace (S (pred j)) with j by lia.
Qed.
Lemma removed_find s r p name c : tree s r -> is_dir s p -> Forall (fun v => 0 < v) name ->
  vfs_find_node (Some p) name s = Some c ->
  exists s3, vfs_remove_child (Some p) name s = (0, s3) /\ tree s3 r /\ is_dir s3 p /\ used c s3 = false /\
    vfs_find_node (Some p) name s3 = None /\
    forall n, n <> name -> Forall (fun v => 0 < v) n -> vfs_find_node (Some p) n s3 = vfs_find_node (Some p) n s.
Proof.
  intros Ht Hp Hn Hf. destruct (removed_child s r p name c Ht Hp Hn Hf) as (s3 & E & Ht3 & Hu & Hcp & Hdir & Hch & Hfl).
  assert (is_dir s3 p) as Hp3 by (by apply Hdir). exists s3. repeat (split; [done|]). split.
  - destruct (vfs_find_node (Some p) name s3) as [x|] eqn:Ex; [|done]. apply (find_iff s3 r p name x Ht3 Hp3 Hn) in Ex as [Hx Ex].
    apply Hch in Hx as (Hx & _ & Hne). destruct (Hfl x) as [F _]. rewrite F in Ex.
    pose proof (proj2 (find_iff s r p name x Ht Hp Hn) (conj Hx Ex)) as F2. congruence.
  - intros n Hne Hnp. apply (find_ext s _ r p n); [done..|]. intros x. destruct (Hfl x) as (-> & _). rewrite Hch.
    apply (find_iff s r p name c Ht Hp Hn) in Hf as [_ En].
    split; [intros [Hx Ex]; split; [split; [done|split; [done|]]|done]; intros ->; congruence|tauto].
Qed.

(** Creating, looking up and removing an entry. In a directory with room, a node
    created under a free name is found under that name; every other name still leads
    where it led. Removing it frees its node, makes the name free again and leaves every
    other name leading where it led. *)
Theorem vfs_create_find_remove s r p name type :
  tree s r -> is_dir s p -> name_ok name -> next_inode s + 1 < 2 ^ 32 -> vfs_find_node (Some p) name s = None ->
  n_count (node_at p s) < VFS_MAX_CHILDREN -> (exists i, (i < VFS_MAX_NODES)%nat /\ used i s = false) ->
  exists c s1 s2 s3, vfs_create_node name type s = Some (Some c, s1) /\ vfs_add_child (Some p) (Some c) s1 = (0, s2) /\
    vfs_find_node (Some p) name s2 = Some c /\ n_type (node_at c s2) = type /\
    vfs_remove_child (Some p) name s2 = (0, s3) /\ vfs_find_node (Some p) name s3 = None /\ used c s3 = false /\
    forall n, n <> name -> Forall (fun v => 0 < v) n ->
      vfs_find_node (Some p) n s2 = vfs_find_node (Some p) n s /\ vfs_find_node (Some p) n s3 = vfs_find_node (Some p) n s.
Proof.
  intros Ht Hp Hn Hx Hf Hct (i & Hi & Hu). destruct (create_in_dir_spec s r p name type Ht Hp Hn Hx Hf) as (c & s1 & E & _ & H).
  destruct c as [c|]; [|destruct H as [_ H]; rewrite (H i Hi) in Hu; done]. rewrite (proj2 (Z.ltb_lt _ _) Hct) in H.
  destruct H as (s2 & E2 & Hm). destruct (made_find s s2 r p c name type Ht Hp Hn Hm) as (Hp2 & F & Fo).
  destruct (removed_find s2 r p name c (mk_tree _ _ _ _ _ _ _ Hm) Hp2 (proj2 Hn) F) as (s3 & E3 & _ & _ & Hu3 & F3 & Fo3).
  exists c, s1, s2, s3. split; [done|]. split; [done|]. split; [done|].
  split; [apply (mk_node _ _ _ _ _ _ _ Hm)|]. split; [done|]. split; [done|]. split; [done|].
  intros n Hne Hnp. rewrite Fo3 by done. split; by apply Fo.
Qed.

Lemma vfs_create_find_remove_witness :
  exists c s1 s2 s3, vfs_create_node (str "x") NODE_FILE boot_vfs = Some (Some c, s1) /\
    vfs_add_child (Some 1%nat) (Some c) s1 = (0, s2) /\ vfs_find_node (Some 1%nat) (str "x") s2 = Some c /\
    vfs_remove_child (Some 1%nat) (str "x") s2 = (0, s3).
Proof.
  destruct (vfs_create_find_remove boot_vfs 0 1 (str "x") NODE_FILE) as (c & s1 & s2 & s3 & H1 & H2 & H3 & _ & H4 & _).
  - apply boot_tree. vm_compute. reflexivity.
  - split; vm_compute; reflexivity.
  - split; [vm_compute; reflexivity|vm_compute; repeat constructor].
  - vm_compute. reflexivity.
  - vm_compute. reflexivity.
  - vm_compute. reflexivity.
  - exists 100%nat. split; vm_compute; [repeat constructor|reflexivity].
  - exists c, s1, s2, s3. split; [exact H1|]. split; [exact H2|]. split; [exact H3|exact H4].
Defined.
