(* ===== verification/Syscall.v ===== *)
(** * System calls (kernel/syscall.c, kernel/syscall.h)

    The [int 0x80] dispatcher and the calls it makes, [sys_fork] above all. Memory cells
    hold the word at their address, as in the heap; copying a stack byte by byte moves
    every cell. The register frame of the interrupted program is a record. *)
From S2P Require Import Prelude Mem Heap Proc Sched Process Context CString.

Definition SYS_EXIT : Z := 0.
Definition SYS_WRITE : Z := 1.
Definition SYS_GETPID : Z := 2.
Definition SYS_FORK : Z := 3.
Definition SYS_YIELD : Z := 4.
Definition SYS_SLEEP : Z := 5.
Definition SYS_GETPPID : Z := 6.
Definition SYS_WAIT : Z := 7.

(** [regs_t], lowest address first. *)
Record regs := Regs {
  f_gs : Z; f_fs : Z; f_es : Z; f_ds : Z;
  f_edi : Z; f_esi : Z; f_ebp : Z; f_esp_dummy : Z; f_ebx : Z; f_edx : Z; f_ecx : Z; f_eax : Z;
  f_eip : Z; f_cs : Z; f_eflags : Z; f_useresp : Z; f_ss : Z
}.
Definition SIZEOF_REGS : Z := 68.
Definition regs_words (r : regs) : list Z :=
  [f_gs r; f_fs r; f_es r; f_ds r; f_edi r; f_esi r; f_ebp r; f_esp_dummy r; f_ebx r; f_edx r; f_ecx r; f_eax r;
   f_eip r; f_cs r; f_eflags r; f_useresp r; f_ss r].
Definition set_eax (v : Z) (r : regs) : regs :=
  Regs (f_gs r) (f_fs r) (f_es r) (f_ds r) (f_edi r) (f_esi r) (f_ebp r) (f_esp_dummy r) (f_ebx r) (f_edx r) (f_ecx r) v
    (f_eip r) (f_cs r) (f_eflags r) (f_useresp r) (f_ss r).

(** ** [sys_write] *)

(** The characters from [str] on, at most [n]. *)
Fixpoint write_chars (n : nat) (m : mem) (str : Z) : list Z :=
  match n with
  | O => []
  | S n => if ld m str =? 0 then [] else ld m str :: write_chars n m (str + 1)
  end.
(** Return value and characters put on the console; [m] is the byte memory of the user
    program. *)
Definition sys_write (m : mem) (str : Z) : Z * list Z :=
  if str =? 0 then (-1, [])
  else let cs := write_chars 4096 m str in (Z.of_nat (length cs), cs).

(** ** [sys_fork] *)

(** [for (;;)] over pids; [taken] is the inner loop. *)
Definition taken (child : nat) (pid : Z) (s : sys) : bool :=
  existsb (fun i => negb (bool_decide (i = child)) && negb (is_unused (proc s i)) && (p_pid (proc s i) =? pid)) slots.
Fixpoint free_pid (fuel : nat) (child : nat) (pid : Z) (s : sys) : option Z :=
  match fuel with
  | O => None
  | S fuel => if taken child pid s then free_pid fuel child (u32 (pid + 1)) s else Some pid
  end.

(** The loop that copies the user stack. *)
Definition copy_cells (n child parent : Z) (m : mem) : mem :=
  for_range 0 n (fun i m => st m (child + i) (ld m (parent + i))) m.

(** The walk along the saved frame pointers. *)
Fixpoint relocate (guard : nat) (ebp parent_lo parent_hi delta : Z) (m : mem) : mem :=
  match guard with
  | O => m
  | S guard =>
      if (parent_lo <=? ebp) && (ebp <=? u32 (parent_hi - 4)) && (Z.land ebp 3 =? 0) then
        let child_slot := u32 (ebp + delta) in
        let next_ebp := ld m child_slot in
        let m := if (parent_lo <=? next_ebp) && (next_ebp <=? parent_hi) then st m child_slot (u32 (next_ebp + delta)) else m in
        if next_ebp <=? ebp then m else relocate guard next_ebp parent_lo parent_hi delta m
      else m
  end.

(** Consecutive words from [a] up. *)
Fixpoint store_words (a : Z) (l : list Z) (m : mem) : mem :=
  match l with [] => m | v :: l => store_words (a + 4) l (st m a v) end.

(** The copied register frame at [sp], then fixed up. *)
Definition child_frame (r : regs) (sp parent_lo parent_hi delta : Z) (m : mem) : mem :=
  let m := store_words sp (regs_words r) m in
  let m := st m (sp + 44) 0 in
  let m := st m (sp + 60) (u32 (f_useresp r + delta)) in
  if (parent_lo <=? f_ebp r) && (f_ebp r <=? parent_hi) then st m (sp + 24) (u32 (f_ebp r + delta)) else m.

Section Fork.
Variable fork_child_return_addr : Z.

(** The context_switch frame beneath it. *)
Definition switch_frame (sp : Z) (h : heap) : Z * heap :=
  let x := (sp, h) in
  let x := push_word fork_child_return_addr x in
  let x := push_word 0x002 x in
  let x := push_word 0 x in
  let x := push_word 0 x in
  let x := push_word 0 x in
  push_word 0 x.

(** The child's control block and its pid, once a slot is found. *)
Definition fork_pcb (parent child : nat) (child_kstack child_ustack : Z) (s : sys) : option sys :=
  let s := upd child (fun _ => proc s parent) s in
  let s := upd child (set_next None) s in
  let s := upd child (set_parent_waiting 0) s in
  let s := upd child (set_cpu_ticks 0) s in
  let s := upd child (set_wait_ticks 0) s in
  match free_pid (S PROCESS_MAX) child 1 s with
  | None => None
  | Some pid =>
      let s := upd child (set_pid pid) s in
      let s := upd child (set_ppid (p_pid (proc s parent))) s in
      let s := upd child (set_kstack child_kstack) s in
      let s := upd child (set_kstack_top (u32 (child_kstack + PROCESS_KSTACK_SIZE))) s in
      let s := upd child (set_ustack child_ustack) s in
      Some (upd child (set_ustack_top (u32 (child_ustack + PROCESS_USTACK_SIZE
        - (p_ustack (proc s parent) + PROCESS_USTACK_SIZE - p_ustack_top (proc s parent))))) s)
  end.

(** The child's stacks: the new stack pointer and the heap. *)
Definition fork_stacks (r : regs) (parent_ustack child_ustack kstack_top : Z) (h : heap) : Z * heap :=
  let parent_lo := parent_ustack in
  let parent_hi := u32 (parent_lo + PROCESS_USTACK_SIZE) in
  let delta := s32 (child_ustack - parent_lo) in
  let m := copy_cells PROCESS_USTACK_SIZE child_ustack parent_ustack (h_mem h) in
  let m := relocate 64 (f_ebp r) parent_lo parent_hi delta m in
  let sp := u32 (kstack_top - SIZEOF_REGS) in
  let m := child_frame r sp parent_lo parent_hi delta m in
  switch_frame sp (with_mem h m).

Definition sys_fork (r : regs) (s : sys) : option (Z * sys) :=
  match current_process s with
  | None => Some (-1, s)
  | Some parent =>
      if (p_is_user (proc s parent) =? 0) || (p_ustack (proc s parent) =? 0) then Some (-1, s)
      else
        match kmalloc PROCESS_KSTACK_SIZE (kheap s) with
        | None => None
        | Some (child_kstack, h) =>
            let s := with_kheap h s in
            if child_kstack =? 0 then Some (-1, s)
            else
              match kmalloc PROCESS_USTACK_SIZE (kheap s) with
              | None => None
              | Some (child_ustack, h) =>
                  let s := with_kheap h s in
                  if child_ustack =? 0 then Some (-1, with_kheap (kfree child_kstack (kheap s)) s)
                  else
                    match List.find (fun i => is_unused (proc s i)) slots with
                    | None =>
                        let s := with_kheap (kfree child_kstack (kheap s)) s in
                        Some (-1, with_kheap (kfree child_ustack (kheap s)) s)
                    | Some child =>
                        match fork_pcb parent child child_kstack child_ustack s with
                        | None => None
                        | Some s =>
                            let '(csp, h) := fork_stacks r (p_ustack (proc s parent)) child_ustack
                                               (p_kstack_top (proc s child)) (kheap s) in
                            let s := with_kheap h s in
                            let s := upd child (set_esp csp) s in
                            let s := upd child (set_state READY) s in
                            let s := scheduler_enqueue (Some child) s in
                            Some (s32 (p_pid (proc s child)), s)
                        end
                    end
              end
        end
  end.

(** ** The dispatcher

    [um] is the byte memory of the user program. A call that ends or suspends the
    process leaves the frame to be returned to later; [SYS_WAIT] is one iteration of the
    loop in [process_wait], which runs again when the process is woken. *)

Inductive result :=
  | Returned (r : regs) (out : list Z) (stored : option (Z * Z)) (s : sys)
  | Exited (s : sys)
  | Suspended (s : sys).

Definition syscall_dispatch (um : mem) (r : regs) (s : sys) : option result :=
  if f_eax r =? SYS_EXIT then Some (Exited (process_exit (s32 (f_ebx r)) s))
  else if f_eax r =? SYS_WRITE then
    let '(n, out) := sys_write um (f_ebx r) in Some (Returned (set_eax (u32 n) r) out None s)
  else if f_eax r =? SYS_GETPID then Some (Returned (set_eax (process_getpid s) r) [] None s)
  else if f_eax r =? SYS_FORK then
    match sys_fork r s with
    | None => None
    | Some (pid, s) => Some (Returned (set_eax (u32 pid) r) [] None s)
    end
  else if f_eax r =? SYS_YIELD then Some (Returned (set_eax 0 r) [] None (scheduler_yield s))
  else if f_eax r =? SYS_SLEEP then Some (Returned (set_eax 0 r) [] None (process_sleep (f_ebx r) s))
  else if f_eax r =? SYS_GETPPID then Some (Returned (set_eax (process_getppid s) r) [] None s)
  else if f_eax r =? SYS_WAIT then
    let store status := if f_ebx r =? 0 then None else Some (f_ebx r, status) in
    match process_wait s with
    | (WaitReaped pid status, s) => Some (Returned (set_eax (u32 pid) r) [] (store status) s)
    | (WaitNoChildren, s) => Some (Returned (set_eax (u32 (-1)) r) [] (store 0) s)
    | (WaitBlocked, s) => Some (Suspended s)
    end
  else Some (Returned (set_eax (u32 (-1)) r) [] None s).
End Fork.

(** ** Free pids *)

Lemma taken_false child pid s : taken child pid s = false <->
  forall i, (i < PROCESS_MAX)%nat -> i <> child -> p_state (proc s i) <> UNUSED -> p_pid (proc s i) <> pid.
Proof.
  unfold taken. rewrite <- not_true_iff_false, existsb_exists. unfold slots. split.
  - intros H i Hi Hc Hu E. apply H. exists i. split; [apply in_seq; lia|].
    unfold is_unused. rewrite !bool_decide_eq_false_2 by done. cbn. by apply Z.eqb_eq.
  - intros H (i & Hi & Hb). apply in_seq in Hi. rewrite !andb_true_iff, !negb_true_iff in Hb. destruct Hb as [[H1 H2] H3].
    apply bool_decide_eq_false in H1. unfold is_unused in H2. apply bool_decide_eq_false in H2. apply Z.eqb_eq in H3.
    by apply (H i ltac:(lia)).
Qed.

(** Distinct pids below [pid] that are taken are the pids of distinct slots. *)
Lemma taken_below child s n : (forall k, 1 <= k <= Z.of_nat n -> taken child k s = true) -> (n <= PROCESS_MAX)%nat.
Proof.
  intros H.
  assert (exists l, length l = n /\ NoDup l /\ Forall (fun i => (i < PROCESS_MAX)%nat) l /\
    (fun i => p_pid (proc s i)) <$> l = seqZ 1 (Z.of_nat n)) as (l & Hl & Hnd & Hlt & _).
  { induction n as [|n IH]; [by exists []; repeat constructor|].
    destruct IH as (l & Hl & Hnd & Hlt & Hp); [intros k Hk; apply H; lia|].
    assert (taken child (Z.of_nat n + 1) s = true) as Ht by (apply H; lia). unfold taken in Ht. apply existsb_exists in Ht as (i & Hi & Hb).
    apply in_seq in Hi. rewrite !andb_true_iff in Hb. destruct Hb as [_ Hb]. apply Z.eqb_eq in Hb.
    exists (l ++ [i]). split; [rewrite length_app, Hl; cbn; lia|]. split; [|split].
    - apply list.NoDup_app. split; [done|]. split; [|apply list.NoDup_singleton].
      intros j Hj ->%list_elem_of_singleton. apply (list_elem_of_fmap_2 (fun i => p_pid (proc s i))) in Hj. rewrite Hp, Hb in Hj.
      apply elem_of_seqZ in Hj. lia.
    - apply Forall_app. split; [done|]. constructor; [lia|constructor].
    - rewrite fmap_app, Hp. cbn. rewrite Hb. replace (Z.of_nat (S n)) with (Z.of_nat n + 1) by lia.
      rewrite (seqZ_app 1 (Z.of_nat n) 1) by lia. f_equal. rewrite (seqZ_cons _ 1), seqZ_nil by lia.
      f_equal. lia. }
  rewrite <- Hl. change PROCESS_MAX with (length (seq 0 PROCESS_MAX)). apply submseteq_length, NoDup_submseteq; [done|].
  intros i Hi. apply elem_of_seq. rewrite list.Forall_forall in Hlt. specialize (Hlt i Hi). lia.
Qed.

Lemma free_pid_from child s fuel : forall pid, (forall k, 1 <= k < pid -> taken child k s = true) -> 1 <= pid ->
  Z.of_nat PROCESS_MAX + 1 < pid + Z.of_nat fuel ->
  exists p, free_pid fuel child pid s = Some p /\ 1 <= p <= Z.of_nat PROCESS_MAX + 1 /\ taken child p s = false /\
    forall k, 1 <= k < p -> taken child k s = true.
Proof.
  induction fuel as [|fuel IH]; intros pid Hb H1 Hf; cbn [free_pid].
  - exfalso. assert (Z.to_nat (pid - 1) <= PROCESS_MAX)%nat by (apply (taken_below child s); intros k Hk; apply Hb; lia). lia.
  - assert (Z.to_nat (pid - 1) <= PROCESS_MAX)%nat as Hle by (apply (taken_below child s); intros k Hk; apply Hb; lia).
    destruct (taken child pid s) eqn:E; [|exists pid; split; [done|]; split; [lia|done]].
    rewrite u32_small by (unfold is_u32, PROCESS_MAX in *; lia). apply IH; [|lia|lia].
    intros k Hk. destruct (decide (k = pid)) as [->|]; [done|]. apply Hb. lia.
Qed.

(** The scan ends with the smallest pid that no other process has. *)
Lemma free_pid_spec child s : exists p, free_pid (S PROCESS_MAX) child 1 s = Some p /\
  1 <= p <= Z.of_nat PROCESS_MAX + 1 /\ taken child p s = false /\ forall k, 1 <= k < p -> taken child k s = true.
Proof. apply free_pid_from; lia. Qed.

(** ** The child's memory *)

Lemma u32_s32 a b : u32 (a + s32 b) = u32 (a + b).
Proof.
  unfold s32, u32. replace (a + ((b + 2 ^ 31) mod 2 ^ 32 - 2 ^ 31)) with ((b + 2 ^ 31) mod 2 ^ 32 + (a - 2 ^ 31)) by lia.
  rewrite Zplus_mod_idemp_l. f_equal. lia.
Qed.

Lemma store_words_spec l : forall a m, same_out m (store_words a l m) a (4 * len l) /\
  forall i v, l !! i = Some v -> ld (store_words a l m) (a + 4 * Z.of_nat i) = v.
Proof.
  induction l as [|w l IH]; intros a m; cbn [store_words length]; [split; [intros b _; done|intros i v; by rewrite lookup_nil]|].
  destruct (IH (a + 4) (st m a w)) as [O H]. split.
  - intros b Hb. rewrite O by lia. apply ld_st_ne. lia.
  - intros [|i] v; cbn [lookup list_lookup].
    + intros [= ->]. rewrite O by lia. replace (a + 4 * Z.of_nat 0) with a by lia. apply ld_st_eq.
    + intros Hv. rewrite <- (H i v Hv). f_equal. lia.
Qed.

(** The frame pointers visited from [ebp] on, when [rd] reads the parent's stack. *)
Fixpoint frame_chain (guard : nat) (ebp lo hi : Z) (rd : Z -> Z) : list Z :=
  match guard with
  | O => []
  | S guard =>
      if (lo <=? ebp) && (ebp <=? hi - 4) && (Z.land ebp 3 =? 0)
      then ebp :: (if rd ebp <=? ebp then [] else frame_chain guard (rd ebp) lo hi rd)
      else []
  end.

(** A saved frame pointer moved from the parent's stack to the child's; anything else is
    kept. *)
Definition moved (lo hi d v : Z) : Z := if (lo <=? v) && (v <=? hi) then v + d else v.

Section Relocate.
Variables (lo cu : Z) (m0 : mem).
Let hi := lo + STACK_SIZE.
Hypotheses (Hlo : 0 <= lo) (Hhi : lo + STACK_SIZE < 2 ^ 32) (Hcu : 0 <= cu) (Hchi : cu + STACK_SIZE < 2 ^ 32).

Lemma slot_addr e : lo <= e <= hi -> u32 (e + s32 (cu - lo)) = e + (cu - lo).
Proof. intros He. rewrite u32_s32. apply u32_small. unfold is_u32, hi, STACK_SIZE in *. lia. Qed.

Lemma relocate_spec guard : forall ebp m,
  (forall x, ebp <= x < hi -> lo <= x -> ld m (x + (cu - lo)) = ld m0 x) ->
  let m' := relocate guard ebp lo (u32 (lo + STACK_SIZE)) (s32 (cu - lo)) m in
  same_out m m' cu STACK_SIZE /\
  forall x, lo <= x < hi -> ld m' (x + (cu - lo)) =
    if decide (x ∈ frame_chain guard ebp lo hi (ld m0)) then moved lo hi (cu - lo) (ld m0 x) else ld m (x + (cu - lo)).
Proof.
  assert (u32 (lo + STACK_SIZE) = hi) as -> by (apply u32_small; unfold is_u32, STACK_SIZE in *; lia).
  assert (u32 (hi - 4) = hi - 4) as Eh by (apply u32_small; unfold is_u32, hi, STACK_SIZE in *; lia).
  induction guard as [|guard IH]; intros ebp m Hm; cbn [relocate frame_chain].
  - split; [intros b _; done|]. intros x Hx. by rewrite decide_False by apply not_elem_of_nil.
  - rewrite Eh. destruct ((lo <=? ebp) && (ebp <=? hi - 4) && (Z.land ebp 3 =? 0)) eqn:Eg.
    2: { split; [intros b _; done|]. intros x Hx. by rewrite decide_False by apply not_elem_of_nil. }
    apply andb_true_iff in Eg as [Eg _]. apply andb_true_iff in Eg as [H1%Z.leb_le H2%Z.leb_le].
    cbv zeta. rewrite slot_addr by lia. rewrite (Hm ebp) by lia.
    set (next := ld m0 ebp). set (m1 := if (lo <=? next) && (next <=? hi) then _ else m).
    assert (same_out m m1 (ebp + (cu - lo)) 1 /\ ld m1 (ebp + (cu - lo)) = moved lo hi (cu - lo) next) as [O1 E1].
    { unfold m1, moved. destruct ((lo <=? next) && (next <=? hi)) eqn:En.
      - apply andb_true_iff in En as [N1%Z.leb_le N2%Z.leb_le]. split; [apply same_out_st|]. rewrite ld_st_eq. by apply slot_addr.
      - split; [intros b _; done|]. apply Hm; lia. }
    destruct (Z.leb_spec next ebp) as [Hle|Hgt].
    + split; [apply (same_out_sub _ _ (ebp + (cu - lo)) 1); [done|lia|unfold hi in *; lia]|]. intros x Hx.
      destruct (decide (x = ebp)) as [->|Hne]; [rewrite decide_True by (by left); done|].
      rewrite decide_False by (intros ?%list_elem_of_singleton; done). apply O1. lia.
    + destruct (IH next m1) as [O2 E2].
      { intros x Hx Hx2. rewrite O1 by lia. apply Hm; lia. }
      split; [intros b Hb; rewrite O2 by done; apply O1; unfold hi in *; lia|]. intros x Hx. rewrite E2 by done.
      assert (forall y, y ∈ frame_chain guard next lo hi (ld m0) -> next <= y) as Hasc.
      { clear. intros y. generalize next. induction guard as [|guard IH]; intros n; cbn [frame_chain]; [intros H; by apply elem_of_nil in H|].
        destruct (_ && _ && _); [|intros H; by apply elem_of_nil in H]. intros [->|H]%elem_of_cons; [lia|].
        destruct (Z.leb_spec (ld m0 n) n); [by apply elem_of_nil in H|]. apply IH in H. lia. }
      destruct (decide (x = ebp)) as [->|Hne].
      * rewrite decide_False by (intros H; apply Hasc in H; lia). rewrite decide_True by (by left). done.
      * destruct (decide (x ∈ frame_chain guard next lo hi (ld m0))) as [Hin|Hin].
        -- by rewrite decide_True by (by right).
        -- rewrite decide_False by (intros [|]%elem_of_cons; done). apply O1. lia.
Qed.
End Relocate.

(** The register frame the child starts with. *)
Definition child_regs (r : regs) (lo hi delta : Z) : regs :=
  Regs (f_gs r) (f_fs r) (f_es r) (f_ds r) (f_edi r) (f_esi r)
    (if (lo <=? f_ebp r) && (f_ebp r <=? hi) then u32 (f_ebp r + delta) else f_ebp r)
    (f_esp_dummy r) (f_ebx r) (f_edx r) (f_ecx r) 0 (f_eip r) (f_cs r) (f_eflags r) (u32 (f_useresp r + delta)) (f_ss r).

Lemma child_frame_spec r sp lo hi delta m :
  same_out m (child_frame r sp lo hi delta m) sp SIZEOF_REGS /\
  forall i v, regs_words (child_regs r lo hi delta) !! i = Some v -> ld (child_frame r sp lo hi delta m) (sp + 4 * Z.of_nat i) = v.
Proof.
  destruct (store_words_spec (regs_words r) sp m) as [O H]. unfold child_frame, SIZEOF_REGS in *.
  set (m1 := store_words sp (regs_words r) m) in *. cbn [length regs_words] in O. cbv zeta.
  set (c := (lo <=? f_ebp r) && (f_ebp r <=? hi)).
  assert (forall x, x <> sp + 24 -> ld (if c then st (st (st m1 (sp + 44) 0) (sp + 60) (u32 (f_useresp r + delta))) (sp + 24) (u32 (f_ebp r + delta))
    else st (st m1 (sp + 44) 0) (sp + 60) (u32 (f_useresp r + delta))) x = ld (st (st m1 (sp + 44) 0) (sp + 60) (u32 (f_useresp r + delta))) x) as Hc.
  { intros x Hx. destruct c; [|done]. by apply ld_st_ne. }
  split.
  - intros b Hb. rewrite Hc, !ld_st_ne by lia. apply O. lia.
  - assert (forall i v, regs_words r !! i = Some v -> i <> 6%nat -> i <> 11%nat -> i <> 15%nat -> ld m1 (sp + 4 * Z.of_nat i) = v) as H'
      by (intros i v Hi _ _ _; by apply H).
    intros i v Hv. destruct (decide (i = 6%nat)) as [->|H6].
    { cbn in Hv. injection Hv as <-. fold c. destruct c.
      - replace (sp + 4 * Z.of_nat 6) with (sp + 24) by lia. apply ld_st_eq.
      - rewrite !ld_st_ne by lia. apply (H 6%nat). done. }
    rewrite Hc by lia. destruct (decide (i = 15%nat)) as [->|H15].
    { cbn in Hv. injection Hv as <-. replace (sp + 4 * Z.of_nat 15) with (sp + 60) by lia. apply ld_st_eq. }
    rewrite ld_st_ne by lia. destruct (decide (i = 11%nat)) as [->|H11].
    { cbn in Hv. injection Hv as <-. replace (sp + 4 * Z.of_nat 11) with (sp + 44) by lia. apply ld_st_eq. }
    rewrite ld_st_ne by lia. apply H. rewrite <- Hv. do 17 (destruct i as [|i]; [done|]). done.
Qed.

Definition switch_words (fcr : Z) : list Z := [fcr; 2; 0; 0; 0; 0].
Lemma switch_frame_words fcr sp h : switch_frame fcr sp h = foldl (fun x v => push_word v x) (sp, h) (switch_words fcr).
Proof. reflexivity. Qed.

(** What is on the child's kernel stack, from its saved stack pointer up. *)
Definition child_kwords (fcr : Z) (cr : regs) : list Z := [0; 0; 0; 0; 2; fcr] ++ regs_words cr.

Lemma live_u32 base size live l h p : heap_inv base size h live l -> live !! p = Some STACK_SIZE -> 32 <= p /\ p + STACK_SIZE < 2 ^ 32.
Proof.
  intros Hh Hp. pose proof (live_range _ _ _ _ _ _ _ Hh Hp) as (_ & Hb & He & _).
  pose proof (hr_base _ _ (hi_rep _ _ _ _ _ Hh)) as Hb0. pose proof (hr_bound _ _ (hi_rep _ _ _ _ _ Hh)) as Hbd.
  rewrite (hi_base _ _ _ _ _ Hh) in Hb0, Hbd. rewrite (hi_size _ _ _ _ _ Hh) in Hbd. lia.
Qed.

Section Stacks.
Variables (base size : Z) (live : gmap Z Z) (l : list block) (h : heap) (r : regs) (fcr lo cu ks : Z).
Hypotheses (Hh : heap_inv base size h live l) (Hks : live !! ks = Some STACK_SIZE) (Hcu : live !! cu = Some STACK_SIZE)
  (Hlo : live !! lo = Some STACK_SIZE) (N1 : ks <> cu) (N2 : ks <> lo) (N3 : cu <> lo).

(** The cells of the child's user stack after the copy. *)
Definition stack_copied (m m' : mem) : Prop :=
  forall x, lo <= x < lo + STACK_SIZE -> ld m' (x + (cu - lo)) =
    if decide (x ∈ frame_chain 64 (f_ebp r) lo (lo + STACK_SIZE) (ld m)) then moved lo (lo + STACK_SIZE) (cu - lo) (ld m x) else ld m x.

Lemma fork_stacks_spec : exists csp h',
  fork_stacks fcr r lo cu (ks + STACK_SIZE) h = (csp, h') /\ csp = ks + STACK_SIZE - 92 /\
  heap_inv base size h' live l /\ stack_copied (h_mem h) (h_mem h') /\
  (forall i v, child_kwords fcr (child_regs r lo (lo + STACK_SIZE) (s32 (cu - lo))) !! i = Some v -> ld (h_mem h') (csp + 4 * Z.of_nat i) = v) /\
  (forall x, (x < ks \/ ks + STACK_SIZE <= x) -> (x < cu \/ cu + STACK_SIZE <= x) -> ld (h_mem h') x = ld (h_mem h) x).
Proof.
  pose proof (live_u32 _ _ _ _ _ ks Hh Hks) as [K1 K2]. pose proof (live_u32 _ _ _ _ _ cu Hh Hcu) as [C1 C2].
  pose proof (live_u32 _ _ _ _ _ lo Hh Hlo) as [L1 L2].
  pose proof (live_apart _ _ _ _ _ _ _ _ _ Hh Hks Hcu N1) as D1. pose proof (live_apart _ _ _ _ _ _ _ _ _ Hh Hks Hlo N2) as D2.
  pose proof (live_apart _ _ _ _ _ _ _ _ _ Hh Hcu Hlo N3) as D3. unfold fork_stacks. cbv zeta.
  change PROCESS_USTACK_SIZE with STACK_SIZE.
  assert (u32 (lo + STACK_SIZE) = lo + STACK_SIZE) as Eu by (apply u32_small; unfold is_u32, STACK_SIZE in *; lia). rewrite Eu.
  destruct (memcpy_cells (h_mem h) cu lo STACK_SIZE) as [Hcp Ocp]; [unfold STACK_SIZE; lia|lia|].
  change (memcpy (h_mem h) cu lo STACK_SIZE) with (copy_cells STACK_SIZE cu lo (h_mem h)) in Hcp, Ocp.
  set (m1 := copy_cells STACK_SIZE cu lo (h_mem h)) in *.
  assert (forall x, lo <= x < lo + STACK_SIZE -> ld m1 (x + (cu - lo)) = ld (h_mem h) x) as Hcx.
  { intros x Hx. pose proof (Hcp (x - lo) ltac:(lia)) as E. replace (cu + (x - lo)) with (x + (cu - lo)) in E by lia.
    by replace (lo + (x - lo)) with x in E by lia. }
  destruct (relocate_spec lo cu (h_mem h) ltac:(lia) L2 ltac:(lia) C2 64 (f_ebp r) m1) as [Or Hr]; [intros x Hx Hx2; apply Hcx; lia|].
  rewrite Eu in Or, Hr. set (m2 := relocate 64 (f_ebp r) lo (lo + STACK_SIZE) (s32 (cu - lo)) m1) in *.
  rewrite (u32_small (ks + STACK_SIZE - SIZEOF_REGS)) by (unfold is_u32, SIZEOF_REGS, STACK_SIZE in *; lia).
  destruct (child_frame_spec r (ks + STACK_SIZE - SIZEOF_REGS) lo (lo + STACK_SIZE) (s32 (cu - lo)) m2) as [Of Hf].
  set (m3 := child_frame _ _ _ _ _ m2) in *.
  assert (heap_inv base size (with_mem h m2) live l) as H2.
  { apply (write_inv base size h live l cu STACK_SIZE m2 Hh Hcu). intros x Hx. rewrite Or by lia. apply Ocp. lia. }
  assert (heap_inv base size (with_mem h m3) live l) as H3.
  { apply (write_inv base size _ live l ks STACK_SIZE m3 H2 Hks). intros x Hx. cbn [h_mem with_mem]. apply Of. unfold SIZEOF_REGS, STACK_SIZE in *. lia. }
  rewrite switch_frame_words.
  destruct (push_words_spec base size live l ks STACK_SIZE (switch_words fcr) (ks + STACK_SIZE - SIZEOF_REGS) _ H3 Hks)
    as (h' & -> & Hh' & Hw & Ho); [cbn [length switch_words]; unfold SIZEOF_REGS, STACK_SIZE; lia|].
  cbn [length switch_words] in *. unfold SIZEOF_REGS in *. eexists _, _. split; [reflexivity|]. split; [lia|]. split; [done|].
  cbn [h_mem with_mem] in Ho. split; [|split].
  - intros x Hx. rewrite Ho by (unfold STACK_SIZE in *; lia). rewrite Of by (unfold STACK_SIZE in *; lia). rewrite Hr by done.
    destruct (decide _); [done|]. by apply Hcx.
  - intros i v Hv. unfold child_kwords in Hv. apply lookup_app_Some in Hv as [Hv|[Hi Hv]].
    + assert (switch_words fcr !! (5 - i)%nat = Some v) as Hv' by (do 6 (destruct i as [|i]; [done|]); done).
      apply lookup_lt_Some in Hv. cbn [length] in Hv. rewrite <- (Hw _ _ Hv'). f_equal. lia.
    + cbn [length] in *. rewrite Ho by lia. rewrite <- (Hf _ _ Hv). f_equal. lia.
  - intros x Hx1 Hx2. rewrite Ho by (unfold STACK_SIZE in *; lia). rewrite Of by (unfold STACK_SIZE in *; lia). rewrite Or by lia. apply Ocp. lia.
Qed.
End Stacks.

(** ** The child's control block *)

Definition child_pcb (p : process) (pid ks cu csp : Z) : process :=
  Process pid (p_pid p) (p_name p) READY (p_priority p) (p_base_priority p) (p_quantum_left p) 0 0 None ks (ks + STACK_SIZE) csp
    (p_is_user p) cu (u32 (cu + STACK_SIZE - (p_ustack p + STACK_SIZE - p_ustack_top p))) (p_user_entry p) (p_sleep_until p)
    (p_exit_code p) 0.

Lemma fork_pcb_spec s c i ks cu : length (table s) = PROCESS_MAX -> (i < PROCESS_MAX)%nat -> i <> c -> is_u32 (ks + STACK_SIZE) ->
  exists pid s1, fork_pcb c i ks cu s = Some s1 /\ 1 <= pid <= 65 /\
    (forall j, (j < PROCESS_MAX)%nat -> j <> i -> p_state (proc s j) <> UNUSED -> p_pid (proc s j) <> pid) /\
    proc s1 i = set_state (p_state (proc s c)) (child_pcb (proc s c) pid ks cu (p_esp (proc s c))) /\
    (forall j, j <> i -> proc s1 j = proc s j) /\ length (table s1) = PROCESS_MAX /\
    queue_head s1 = queue_head s /\ queue_tail s1 = queue_tail s /\ rest_same s s1.
Proof.
  intros Ht Hi Hne Hk. unfold fork_pcb. cbv zeta. rewrite !upd_upd. cbv beta.
  set (s0 := upd i _ s). assert (forall j, j <> i -> proc s0 j = proc s j) as O0 by (intros j Hj; unfold s0; by rewrite proc_upd_ne).
  destruct (free_pid_spec i s0) as (pid & -> & Hp & Htk & _). rewrite taken_false in Htk. rewrite !upd_upd. cbv beta.
  eexists pid, _. split; [reflexivity|]. unfold PROCESS_MAX in Hp. split; [lia|]. split; [intros j Hj Hji; rewrite <- (O0 j Hji); by apply Htk|].
  assert (length (table s0) = PROCESS_MAX) as Ht0 by (unfold s0; by rewrite table_upd).
  split; [|split; [|split; [by rewrite table_upd|split; [done|split; [done|by split]]]]].
  - rewrite proc_upd_eq by lia. rewrite !proc_upd_ne by done. rewrite !O0 by done. unfold s0. rewrite proc_upd_eq by lia.
    change PROCESS_KSTACK_SIZE with STACK_SIZE. change PROCESS_USTACK_SIZE with STACK_SIZE. rewrite (u32_small (ks + STACK_SIZE)) by done. reflexivity.
  - intros j Hj. rewrite proc_upd_ne by done. by apply O0.
Qed.

(** Two fresh stacks become those of one slot. *)
Lemma adopt_two base size other s s' i ks cu hf : stacks_ok base size (<[cu := STACK_SIZE]> (<[ks := STACK_SIZE]> other)) (with_kheap hf s) ->
  other !! ks = None -> <[ks := STACK_SIZE]> other !! cu = None -> ks <> 0 -> cu <> 0 -> (i < PROCESS_MAX)%nat ->
  length (table s) = PROCESS_MAX -> p_kstack (proc s i) = 0 -> p_ustack (proc s i) = 0 ->
  p_kstack (proc s' i) = ks -> p_ustack (proc s' i) = cu -> p_state (proc s' i) <> UNUSED ->
  (forall j, j <> i -> pub (proc s' j) = pub (proc s j)) -> kheap s' = hf -> stacks_ok base size other s'.
Proof.
  intros Hok N1 N2 Z1 Z2 Hi Ht E1 E2 F1 F2 F3 Ho Hh.
  set (sm := upd i (fun p => set_state ZOMBIE (set_ustack cu p)) (with_kheap hf s)).
  assert (proc sm i = set_state ZOMBIE (set_ustack cu (proc s i))) as Pi by (unfold sm; by rewrite proc_upd_eq by (cbn; lia)).
  assert (forall j, j <> i -> proc sm j = proc s j) as Po by (intros j Hj; unfold sm; by rewrite proc_upd_ne).
  assert (stacks_ok base size (<[ks := STACK_SIZE]> other) sm) as Hm.
  { apply (adopt_stack_ok base size _ (with_kheap hf s) sm (i, false) cu Hok N2 Z2 Hi); [exact E2|unfold stack_at; cbn; by rewrite Pi| | |done].
    - intros [j b] Hjb. unfold stack_at. cbn. rewrite proc_kheap. destruct (decide (j = i)) as [->|Hj]; [|by rewrite Po].
      destruct b; [|done]. by rewrite Pi.
    - intros j Hj Hs. cbn. rewrite proc_kheap. destruct (decide (j = i)) as [->|Hji]; [by rewrite Pi in Hs|].
      rewrite Po in Hs by done. done. }
  apply (adopt_stack_ok base size other sm s' (i, true) ks Hm N1 Z1 Hi); [unfold stack_at; cbn; by rewrite Pi|done| | |done].
  - intros [j b] Hjb. unfold stack_at. cbn. destruct (decide (j = i)) as [->|Hj].
    + destruct b; [done|]. by rewrite Pi.
    + rewrite Po by done. by destruct (pub_fields _ _ (Ho j Hj)) as (_ & _ & _ & _ & _ & _ & _ & -> & -> & _).
  - intros j Hj Hs. cbn. destruct (decide (j = i)) as [->|Hji]; [done|]. rewrite Po by done. split; [|done].
    by destruct (pub_fields _ _ (Ho j Hji)) as (_ & _ & <- & _).
Qed.

(** Everything but the pids of [proc_inv]. *)
Record sys_safe (base size : Z) (other : gmap Z Z) (s : sys) (qs : queue_view) (c : nat) : Prop := {
  sf_sched : sched_inv s qs c;
  sf_started : started s = true;
  sf_quantum : 0 <= p_quantum_left (proc s c) <= SCHED_QUANTUM_TICKS;
  sf_stacks : stacks_ok base size other s
}.
Lemma proc_inv_safe base size other s qs c : proc_inv base size other s qs c -> sys_safe base size other s qs c.
Proof. intros [H1 H2 H3 H4 H5]. by split. Qed.

(** What a successful fork leaves: the child in slot [i]. *)
Record forked (base size : Z) (other : gmap Z Z) (fcr : Z) (r : regs) (s : sys) (qs : queue_view) (c i : nat) (s' : sys) : Prop := {
  fk_slot : (i < PROCESS_MAX)%nat /\ i <> c /\ p_state (proc s i) = UNUSED;
  fk_safe : sys_safe base size other s' (Sched.push (p_priority (proc s c)) i qs) c;
  fk_pid : 1 <= p_pid (proc s' i) <= 65 /\
    forall j, (j < PROCESS_MAX)%nat -> j <> i -> p_state (proc s' j) <> UNUSED -> p_pid (proc s' j) <> p_pid (proc s' i);
  fk_other : forall j, j <> i -> pub (proc s' j) = pub (proc s j);
  fk_child : exists ks cu, let lo := p_ustack (proc s c) in
    pub (proc s' i) = pub (child_pcb (proc s c) (p_pid (proc s' i)) ks cu (ks + STACK_SIZE - 92)) /\
    stack_copied r lo cu (h_mem (kheap s)) (h_mem (kheap s')) /\
    (forall x, lo <= x < lo + STACK_SIZE -> ld (h_mem (kheap s')) x = ld (h_mem (kheap s)) x) /\
    (forall k v, child_kwords fcr (child_regs r lo (lo + STACK_SIZE) (s32 (cu - lo))) !! k = Some v ->
       ld (h_mem (kheap s')) (ks + STACK_SIZE - 92 + 4 * Z.of_nat k) = v)
}.

Section ForkEnter.
Variables (base size : Z) (other : gmap Z Z) (s : sys) (qs : queue_view) (c i : nat) (ks cu csp pid : Z) (h2 hf : heap) (s1 : sys).
Hypotheses (Hinv : proc_inv base size other s qs c) (Hi : (i < PROCESS_MAX)%nat) (Hun : p_state (proc s i) = UNUSED) (Hne : i <> c)
  (Hpid : 1 <= pid) (P1 : proc s1 i = set_state (p_state (proc s c)) (child_pcb (proc s c) pid ks cu (p_esp (proc s c))))
  (O1 : forall j, j <> i -> proc s1 j = proc s j) (T1 : length (table s1) = PROCESS_MAX)
  (QH : queue_head s1 = queue_head s) (QT : queue_tail s1 = queue_tail s) (R1 : rest_same (with_kheap h2 s) s1).

Let s2 := upd i (set_esp csp) (with_kheap hf s1).
Let s' := scheduler_enqueue (Some i) (upd i (set_state READY) s2).

Lemma fork_entered : core s' (Sched.push (p_priority (proc s c)) i qs) c /\ rest_same (with_kheap hf s) s' /\
  forall j, pub (proc s' j) = if decide (j = i) then pub (child_pcb (proc s c) pid ks cu csp) else pub (proc s j).
Proof.
  pose proof (pv_sched _ _ _ _ _ _ Hinv) as [Hc Hrun]. pose proof (idle_pid base size other s qs c Hinv) as (_ & Hu0 & _).
  set (su := upd i (set_state UNUSED) s2).
  assert (proc s2 i = set_state (p_state (proc s c)) (child_pcb (proc s c) pid ks cu csp)) as P2.
  { unfold s2. rewrite proc_upd_eq by (cbn; lia). rewrite proc_kheap, P1. reflexivity. }
  assert (forall j, j <> i -> proc s2 j = proc s j) as O2 by (intros j Hj; unfold s2; rewrite proc_upd_ne, proc_kheap by done; by apply O1).
  assert (length (table s2) = PROCESS_MAX) as T2 by (unfold s2; by rewrite table_upd).
  assert (proc su i = set_state UNUSED (child_pcb (proc s c) pid ks cu csp)) as Pu by (unfold su; rewrite proc_upd_eq, P2 by lia; reflexivity).
  assert (forall j, j <> i -> proc su j = proc s j) as Ou by (intros j Hj; unfold su; rewrite proc_upd_ne by done; by apply O2).
  assert (s' = scheduler_enqueue (Some i) (upd i (set_state READY) su)) as Es by (unfold s', su; by rewrite upd_upd).
  assert (~ queued qs i) as Hnq by (intros Hq; apply (core_slot _ _ _ _ Hc) in Hq as (_ & _ & ?); congruence).
  assert (i <> 0%nat) as Hi0 by (intros ->; congruence).
  assert (level (p_priority (proc s c)) /\ level (p_base_priority (proc s c))) as [L1 L2]
    by (apply (so_prio _ _ _ _ (co_slots _ _ _ Hc c (co_cur_slot _ _ _ Hc))); congruence).
  assert (core su qs c) as Cu.
  { apply (core_change s qs c i su Hc Hnq); [|exact QH|exact QT|exact (re_cur _ _ R1)|exact Ou|].
    - unfold su. rewrite table_upd, T2. symmetry. apply (qu_table _ _ (co_queues _ _ _ Hc)).
    - intros _. rewrite Pu. split; try done; [split; [done|]; intros [? _]; done|intros q Hl Hq; destruct Hnq; by exists q|..]. }
  destruct (enter_ready su qs c i Cu Hi Hi0) as (C5 & R5 & P5); rewrite ?Pu; [done|cbn; lia|done|done|].
  rewrite Pu in C5, P5. rewrite <- Es in *. split; [exact C5|]. split.
  - destruct R1 as [r1 r2 r3 r4 r5 r6 r7 r8], R5 as [q1 q2 q3 q4 q5 q6 q7 q8]. split; [rewrite q1|rewrite q2|rewrite q3|rewrite q4|rewrite q5|rewrite q6|rewrite q7|rewrite q8]; done.
  - intros j. rewrite P5. destruct (decide (j = i)) as [->|Hj]; [done|]. by rewrite Ou.
Qed.
End ForkEnter.

Lemma malloc_kept base size other s p h x : stacks_ok base size other s -> kmalloc STACK_SIZE (kheap s) = Some (p, h) ->
  (fst x < PROCESS_MAX)%nat -> stack_at s x <> 0 ->
  forall a, stack_at s x <= a < stack_at s x + STACK_SIZE -> ld (h_mem h) a = ld (h_mem (kheap s)) a.
Proof.
  intros (live & l & Hh & Ho) E Hx Hnz a Ha. destruct (ow_live _ _ _ Ho x Hx Hnz) as [Hl _].
  destruct (malloc_frame _ _ _ _ _ STACK_SIZE Hh) as (p' & h' & E' & _ & K); [unfold STACK_SIZE; lia..|].
  rewrite E in E'. injection E' as <- <-. by apply (K (stack_at s x) STACK_SIZE).
Qed.

Lemma safe_heap base size other s qs c h : proc_inv base size other s qs c -> stacks_ok base size other (with_kheap h s) ->
  proc_inv base size other (with_kheap h s) qs c.
Proof. intros Hinv. by apply (other_inv base size other). Qed.

Lemma stacks_u32 base size other s k : stacks_ok base size (<[k := STACK_SIZE]> other) s -> is_u32 (k + STACK_SIZE).
Proof.
  intros (live & l & Hh & Ho).
  assert (live !! k = Some STACK_SIZE) as Hk by (apply (lookup_weaken _ _ _ _ (lookup_insert_eq _ _ _) (ow_other _ _ _ Ho))).
  pose proof (live_u32 _ _ _ _ _ k Hh Hk). unfold is_u32, STACK_SIZE in *. lia.
Qed.

(** The child, once its two stacks and its slot are there. *)
Section ForkChild.
Variables (base size : Z) (other : gmap Z Z) (fcr : Z) (r : regs) (s : sys) (qs : queue_view) (c i : nat) (ks cu : Z) (h2 : heap).
Hypotheses (Hinv : proc_inv base size other s qs c) (Hus : p_ustack (proc s c) <> 0) (Hi : (i < PROCESS_MAX)%nat)
  (Hun : p_state (proc s i) = UNUSED) (Hks : ks <> 0) (Hcu : cu <> 0) (Nk : other !! ks = None)
  (Nc : <[ks := STACK_SIZE]> other !! cu = None)
  (Hok : stacks_ok base size (<[cu := STACK_SIZE]> (<[ks := STACK_SIZE]> other)) (with_kheap h2 s))
  (Hkept : forall x, p_ustack (proc s c) <= x < p_ustack (proc s c) + STACK_SIZE -> ld (h_mem h2) x = ld (h_mem (kheap s)) x).

Lemma fork_child : exists pid s', 
  match fork_pcb c i ks cu (with_kheap h2 s) with
  | None => None
  | Some s =>
      let '(csp, h) := fork_stacks fcr r (p_ustack (proc s c)) cu (p_kstack_top (proc s i)) (kheap s) in
      let s := with_kheap h s in
      let s := upd i (set_esp csp) s in
      let s := upd i (set_state READY) s in
      let s := scheduler_enqueue (Some i) s in
      Some (s32 (p_pid (proc s i)), s)
  end = Some (pid, s') /\ pid = p_pid (proc s' i) /\ forked base size other fcr r s qs c i s'.
Proof.
  pose proof (pv_sched _ _ _ _ _ _ Hinv) as [Hc Hrun]. pose proof (qu_table _ _ (co_queues _ _ _ Hc)) as Ht.
  assert (i <> c) as Hne by congruence. pose proof (co_cur_slot _ _ _ Hc) as Hcl.
  assert (ks <> cu) as Hkc by (intros ->; by rewrite lookup_insert_eq in Nc).
  assert (other !! cu = None) as Nc' by (by rewrite lookup_insert_ne in Nc).
  assert (is_u32 (ks + STACK_SIZE)) as Hku.
  { apply (stacks_u32 base size (<[cu := STACK_SIZE]> other) (with_kheap h2 s)). by rewrite insert_insert_ne. }
  destruct (fork_pcb_spec (with_kheap h2 s) c i ks cu Ht Hi Hne Hku) as (pid & s1 & -> & Hpid & Huniq & P1 & O1 & T1 & QH & QT & R1).
  rewrite !proc_kheap in P1. assert (proc s1 c = proc s c) as Ec by (rewrite O1 by done; apply proc_kheap). rewrite Ec, P1.
  change (p_kstack_top (set_state _ _)) with (ks + STACK_SIZE). rewrite (re_heap _ _ R1). cbn [kheap with_kheap].
  destruct Hok as (live & l & Hh & Ho). pose proof (ow_other _ _ _ Ho) as Hsub. cbn [kheap with_kheap] in Hh.
  assert (live !! cu = Some STACK_SIZE) as Lc by (apply (lookup_weaken _ _ _ _ (lookup_insert_eq _ _ _) Hsub)).
  assert (live !! ks = Some STACK_SIZE) as Lk.
  { apply (fun H => lookup_weaken _ _ _ _ H Hsub). rewrite lookup_insert_ne by done. apply lookup_insert_eq. }
  destruct (ow_live _ _ _ Ho (c, false) Hcl Hus) as [Ll Nl]. cbn in Ll, Nl. change (proc (with_kheap h2 s) c) with (proc s c) in Ll, Nl.
  assert (ks <> p_ustack (proc s c) /\ cu <> p_ustack (proc s c)) as [Nkl Ncl].
  { split; intros E; rewrite <- E in Nl; [|by rewrite lookup_insert_eq in Nl]. rewrite lookup_insert_ne in Nl by done. by rewrite lookup_insert_eq in Nl. }
  destruct (fork_stacks_spec base size live l h2 r fcr (p_ustack (proc s c)) cu ks Hh Lk Lc Ll Hkc Nkl Ncl)
    as (csp & hf & -> & -> & Hhf & Hcopy & Hwords & Hrest).
  cbv zeta. set (s' := scheduler_enqueue _ _).
  destruct (fork_entered base size other s qs c i ks cu (ks + STACK_SIZE - 92) pid h2 hf s1 Hinv Hi Hun Hne ltac:(lia) P1)
    as (C' & R' & P'); [intros j Hj; rewrite O1 by done; apply proc_kheap|done|done|done|done|].
  fold s' in C', R', P'. clearbody s'. pose proof (P' i) as Pi. rewrite decide_True in Pi by done.
  assert (forall j, j <> i -> pub (proc s' j) = pub (proc s j)) as Po by (intros j Hj; by rewrite P', decide_False).
  destruct (pub_fields _ _ Pi) as (F1 & _ & F3 & _ & _ & _ & _ & F8 & F9 & _).
  cbn [child_pcb p_pid p_state p_kstack p_ustack] in F1, F3, F8, F9.
  exists pid, s'. rewrite F1. split; [rewrite s32_small by lia; done|]. split; [done|].
  assert (kheap s' = hf) as Eh by exact (re_heap _ _ R'). destruct (pub_fields _ _ (Po c ltac:(done))) as (_ & _ & G3 & _ & _ & G6 & _).
  destruct (ow_unused _ _ _ Ho i Hi ltac:(by rewrite proc_kheap)) as [U1 U2]. rewrite !proc_kheap in U1, U2.
  constructor.
  - done.
  - constructor.
    + split; [done|]. by rewrite G3.
    + rewrite (re_started _ _ R'). apply (pv_started _ _ _ _ _ _ Hinv).
    + rewrite G6. apply (pv_quantum _ _ _ _ _ _ Hinv).
    + apply (adopt_two base size other s s' i ks cu hf); try done; [|by rewrite F3].
      exists live, l. split; [exact Hhf|]. destruct Ho as [W1 W2 W3 W4 W5]. by split.
  - rewrite F1. split; [lia|]. intros j Hj Hji Hs. destruct (pub_fields _ _ (Po j Hji)) as (E1 & _ & E3 & _). rewrite E1. rewrite E3 in Hs.
    apply (Huniq j Hj Hji). by rewrite proc_kheap.
  - exact Po.
  - exists ks, cu. cbv zeta. rewrite F1, Eh. split; [exact Pi|]. split; [|split; [|exact Hwords]].
    + intros x Hx. rewrite Hcopy by done. rewrite Hkept by done.
      assert (frame_chain 64 (f_ebp r) (p_ustack (proc s c)) (p_ustack (proc s c) + STACK_SIZE) (ld (h_mem h2)) =
        frame_chain 64 (f_ebp r) (p_ustack (proc s c)) (p_ustack (proc s c) + STACK_SIZE) (ld (h_mem (kheap s)))) as ->; [|done].
      generalize (f_ebp r). generalize 64%nat. induction n as [|n IH]; intros e; cbn [frame_chain]; [done|].
      destruct (_ && _ && _) eqn:Eg; [|done]. apply andb_true_iff in Eg as [Eg _]. apply andb_true_iff in Eg as [B1%Z.leb_le B2%Z.leb_le].
      rewrite (Hkept e) by lia. by rewrite IH.
    + intros x Hx. rewrite Hrest; [by apply Hkept|..].
      * pose proof (live_apart _ _ _ _ _ _ _ _ _ Hh Lk Ll Nkl). lia.
      * pose proof (live_apart _ _ _ _ _ _ _ _ _ Hh Lc Ll Ncl). lia.
Qed.
End ForkChild.

Lemma fork_spec base size other fcr r s qs c : proc_inv base size other s qs c ->
  exists res s', sys_fork fcr r s = Some (res, s') /\
  ((res = -1 /\ proc_inv base size other s' qs c /\ (forall j, proc s' j = proc s j) /\
    (p_is_user (proc s c) = 0 \/ p_ustack (proc s c) = 0 \/ (exists h, kmalloc STACK_SIZE (kheap s) = Some (0, h)) \/
     (exists p h h', kmalloc STACK_SIZE (kheap s) = Some (p, h) /\ kmalloc STACK_SIZE h = Some (0, h')) \/
     forall i, (i < PROCESS_MAX)%nat -> p_state (proc s i) <> UNUSED)) \/
   (exists i, res = p_pid (proc s' i) /\ forked base size other fcr r s qs c i s')).
Proof.
  intros Hinv. pose proof (pv_sched _ _ _ _ _ _ Hinv) as [Hc _]. unfold sys_fork. rewrite (co_current _ _ _ Hc).
  destruct ((p_is_user (proc s c) =? 0) || (p_ustack (proc s c) =? 0)) eqn:Eu.
  { eexists _, _. split; [done|]. left. split; [done|]. split; [done|]. split; [done|].
    apply orb_true_iff in Eu as [H%Z.eqb_eq|H%Z.eqb_eq]; auto. }
  apply orb_false_iff in Eu as [_ Hus%Z.eqb_neq].
  change (kmalloc PROCESS_KSTACK_SIZE (kheap s)) with (kmalloc STACK_SIZE (kheap s)).
  destruct (malloc_stack_ok base size other s (pv_stacks _ _ _ _ _ _ Hinv)) as (ks & h1 & E1 & M0 & M1). rewrite E1.
  destruct (Z.eqb_spec ks 0) as [->|Hks].
  { eexists _, _. split; [done|]. left. split; [done|]. split; [by apply (other_inv base size other), M0|]. split; [done|]. eauto. }
  destruct (M1 Hks) as [Hok1 Nk]. cbv zeta.
  change (kmalloc PROCESS_USTACK_SIZE (kheap (with_kheap h1 s))) with (kmalloc STACK_SIZE (kheap (with_kheap h1 s))).
  destruct (malloc_stack_ok base size (<[ks := STACK_SIZE]> other) (with_kheap h1 s) Hok1) as (cu & h2 & E2 & M2 & M3). rewrite E2.
  destruct (Z.eqb_spec cu 0) as [->|Hcu].
  { eexists _, _. split; [done|]. left. split; [done|]. split; [|split; [done|]].
    - apply (other_inv base size (<[ks := STACK_SIZE]> other)); [|exact (return_stack_ok base size other _ ks (M2 eq_refl) Nk)].
      apply (other_inv base size (<[ks := STACK_SIZE]> other)); [by apply (other_inv base size other)|by apply M2].
    - right. right. right. left. by exists ks, h1, h2. }
  destruct (M3 Hcu) as [Hok2 Nc].
  destruct (List.find _ slots) as [i|] eqn:Ef.
  - apply find_slot in Ef as [Hu Hi]. unfold is_unused in Hu. apply bool_decide_eq_true_1 in Hu. fold PROCESS_MAX in Hi.
    destruct (fork_child base size other fcr r s qs c i ks cu h2) as (pid & s' & E & -> & Hf); try done.
    + intros x Hx. pose proof (malloc_kept base size _ (with_kheap h1 s) cu h2 (c, false) Hok1 E2 (co_cur_slot _ _ _ Hc) Hus x Hx) as K2.
      pose proof (malloc_kept base size _ s ks h1 (c, false) (pv_stacks _ _ _ _ _ _ Hinv) E1 (co_cur_slot _ _ _ Hc) Hus x Hx) as K1.
      cbn [kheap with_kheap] in K2. by rewrite K2, K1.
    + eexists _, _. split; [exact E|]. right. by exists i.
  - eexists _, _. split; [done|]. left. split; [done|]. split; [|split; [done|]].
    + assert (<[cu := STACK_SIZE]> (<[ks := STACK_SIZE]> other) = <[ks := STACK_SIZE]> (<[cu := STACK_SIZE]> other)) as Esw.
      { apply insert_insert_ne. intros ->. by rewrite lookup_insert_eq in Nc. }
      rewrite Esw in Hok2. assert (<[cu := STACK_SIZE]> other !! ks = None) as Nk2.
      { rewrite lookup_insert_ne; [done|]. intros ->. by rewrite lookup_insert_eq in Nc. }
      pose proof (return_stack_ok base size _ _ ks Hok2 Nk2) as Hok3.
      assert (other !! cu = None) as Nc' by (rewrite lookup_insert_ne in Nc; [done|]; intros ->; by rewrite lookup_insert_eq in Nc).
      pose proof (return_stack_ok base size _ _ cu Hok3 Nc') as Hok4.
      apply (other_inv base size (<[cu := STACK_SIZE]> other)); [|exact Hok4].
      apply (other_inv base size (<[ks := STACK_SIZE]> (<[cu := STACK_SIZE]> other))); [|exact Hok3].
      apply (other_inv base size (<[ks := STACK_SIZE]> other)); [|exact Hok2]. by apply (other_inv base size other).
    + right. right. right. right. intros i Hi Hu. pose proof (find_slot_none _ Ef i ltac:(unfold PROCESS_MAX in Hi; lia)) as H.
      unfold is_unused in H. by apply bool_decide_eq_false_1 in H.
Qed.

(** ** Returning to user mode in the child *)

(** [fork_child_return] on a stack that holds a register frame. *)
Lemma fork_return_spec c m cr : 0 <= r_esp c -> r_esp c + 68 < 2 ^ 32 ->
  (forall k v, regs_words cr !! k = Some v -> ld m (r_esp c + 4 * Z.of_nat k) = v) ->
  run fork_child_return (c, m) =
  (Cpu (f_eax cr) (f_ecx cr) (f_edx cr) (f_ebx cr) (f_useresp cr) (f_ebp cr) (f_esi cr) (f_edi cr) (f_eip cr) (f_eflags cr)
     (u16 (f_cs cr)) (u16 (f_ss cr)) (u16 (f_ds cr)) (u16 (f_es cr)) (u16 (f_fs cr)) (u16 (f_gs cr)), m).
Proof.
  intros H1 H2 Hw. destruct c as [eax ecx edx ebx esp ebp esi edi eip fl cs ss ds es fs gs]. cbn [r_esp] in *.
  assert (forall k v a, regs_words cr !! k = Some v -> a = esp + 4 * Z.of_nat k -> ld m a = v) as Hl by (intros k v a Hk ->; by apply Hw).
  unfold fork_child_return, popa, iret_user. cbn [app].
  do 16 asm_step. cbn [run].
  repeat match goal with |- context [ld m ?a] =>
    first [rewrite (Hl 0%nat _ a eq_refl) by lia | rewrite (Hl 1%nat _ a eq_refl) by lia | rewrite (Hl 2%nat _ a eq_refl) by lia
      | rewrite (Hl 3%nat _ a eq_refl) by lia | rewrite (Hl 4%nat _ a eq_refl) by lia | rewrite (Hl 5%nat _ a eq_refl) by lia
      | rewrite (Hl 6%nat _ a eq_refl) by lia | rewrite (Hl 8%nat _ a eq_refl) by lia | rewrite (Hl 9%nat _ a eq_refl) by lia
      | rewrite (Hl 10%nat _ a eq_refl) by lia | rewrite (Hl 11%nat _ a eq_refl) by lia | rewrite (Hl 12%nat _ a eq_refl) by lia
      | rewrite (Hl 13%nat _ a eq_refl) by lia | rewrite (Hl 14%nat _ a eq_refl) by lia | rewrite (Hl 15%nat _ a eq_refl) by lia
      | rewrite (Hl 16%nat _ a eq_refl) by lia] end.
  reflexivity.
Qed.

(** ** Properties *)

(** [fork] always returns. It fails, with no memory or slot taken and no process
    changed, only for a process without a user stack, for lack of memory or for lack of
    a slot. Otherwise a free slot holds a READY child of the caller, queued at its
    priority, with the smallest pid no other process has; the child's user stack is a
    copy of the parent's in which exactly the saved frame pointers of the chain from EBP
    are shifted to the new stack; the parent's stack and all other processes are
    unchanged, the scheduler's queues are intact and no two stacks overlap. *)
Theorem sys_fork_correct base size other fcr r s qs c : proc_inv base size other s qs c ->
  exists res s', sys_fork fcr r s = Some (res, s') /\
  ((res = -1 /\ proc_inv base size other s' qs c /\ (forall j, proc s' j = proc s j) /\
    (p_is_user (proc s c) = 0 \/ p_ustack (proc s c) = 0 \/ (exists h, kmalloc STACK_SIZE (kheap s) = Some (0, h)) \/
     (exists p h h', kmalloc STACK_SIZE (kheap s) = Some (p, h) /\ kmalloc STACK_SIZE h = Some (0, h')) \/
     forall i, (i < PROCESS_MAX)%nat -> p_state (proc s i) <> UNUSED)) \/
   (exists i, (i < PROCESS_MAX)%nat /\ p_state (proc s i) = UNUSED /\ p_state (proc s' i) = READY /\
      res = p_pid (proc s' i) /\ 1 <= res <= 65 /\
      (forall j, (j < PROCESS_MAX)%nat -> j <> i -> p_state (proc s' j) <> UNUSED -> p_pid (proc s' j) <> res) /\
      p_ppid (proc s' i) = p_pid (proc s c) /\ (forall j, j <> i -> pub (proc s' j) = pub (proc s j)) /\
      sys_safe base size other s' (Sched.push (p_priority (proc s c)) i qs) c /\
      let lo := p_ustack (proc s c) in let cu := p_ustack (proc s' i) in
      forall x, lo <= x < lo + STACK_SIZE ->
        ld (h_mem (kheap s')) x = ld (h_mem (kheap s)) x /\
        ld (h_mem (kheap s')) (x + (cu - lo)) =
          if decide (x ∈ frame_chain 64 (f_ebp r) lo (lo + STACK_SIZE) (ld (h_mem (kheap s))))
          then moved lo (lo + STACK_SIZE) (cu - lo) (ld (h_mem (kheap s)) x) else ld (h_mem (kheap s)) x)).
Proof.
  intros Hinv. destruct (fork_spec base size other fcr r s qs c Hinv) as (res & s' & E & H). exists res, s'. split; [done|].
  destruct H as [H|(i & -> & [(Hi & _ & Hu) Hs [Hp Hun] Ho (ks & cu & Hpcb & Hcp & Hk & _)])]; [by left|right].
  exists i. destruct (pub_fields _ _ Hpcb) as (_ & F2 & F3 & _ & _ & _ & _ & _ & F9 & _). cbn [child_pcb p_ppid p_state p_ustack] in F2, F3, F9.
  split; [done|]. split; [done|]. split; [done|]. split; [done|]. split; [done|]. split; [done|]. split; [done|]. split; [done|].
  split; [done|]. cbv zeta. rewrite F9. intros x Hx. split; [by apply Hk|by apply Hcp].
Qed.


Definition result_sys (x : result) : sys := match x with Returned _ _ _ s | Exited s | Suspended s => s end.

(** The calls of the dispatcher other than fork keep the whole invariant. *)
Lemma dispatch_inv base size other fcr um r s qs c : proc_inv base size other s qs c -> c <> 0%nat -> f_eax r <> SYS_FORK ->
  exists x qs' c', syscall_dispatch fcr um r s = Some x /\ proc_inv base size other (result_sys x) qs' c'.
Proof.
  intros Hinv Hc Hf. unfold syscall_dispatch. destruct (f_eax r =? SYS_EXIT).
  { destruct (exit_inv base size other s qs c (s32 (f_ebx r)) Hinv Hc) as (qs' & c' & H & _). by eexists _, _, _. }
  destruct (f_eax r =? SYS_WRITE); [destruct (sys_write um (f_ebx r)); by eexists _, _, _|].
  destruct (f_eax r =? SYS_GETPID); [by eexists _, _, _|].
  destruct (Z.eqb_spec (f_eax r) SYS_FORK); [done|].
  destruct (f_eax r =? SYS_YIELD).
  { destruct (yield_inv base size other s qs c Hinv) as (qs' & c' & H). by eexists _, _, _. }
  destruct (f_eax r =? SYS_SLEEP).
  { destruct (decide (f_ebx r = 0)) as [E|E].
    - unfold process_sleep. rewrite (proj2 (Z.eqb_eq _ _) E). destruct (yield_inv base size other s qs c Hinv) as (qs' & c' & H). by eexists _, _, _.
    - destruct (sleep_inv base size other s qs c (f_ebx r) Hinv Hc E) as (qs' & c' & H & _). by eexists _, _, _. }
  destruct (f_eax r =? SYS_GETPPID); [by eexists _, _, _|].
  destruct (f_eax r =? SYS_WAIT); [|by eexists _, _, _].
  destruct (wait_inv base size other s qs c Hinv Hc) as (qs' & c' & H & _). destruct (process_wait s) as [w s']. cbn [snd] in H.
  destruct w; by eexists _, _, _.
Qed.


(** ** A user process that forks *)

Definition user_boot : sys := after (process_create_user 0x5000 0x5100 None 0x400000 1 small_boot) small_boot.
Definition user_run : sys := scheduler_yield user_boot.
(** Its registers at the system call: ESP and EBP on its stack. *)
Definition user_regs : regs :=
  let u := p_ustack (proc user_run 1) in
  Regs 0x23 0x23 0x23 0x23 1 2 (u + 16000) 0 4 5 6 SYS_FORK 0x400010 0x1B 0x202 (u + 15990) 0x23.

Lemma user_run_inv : exists qs, proc_inv 0x100000 0x20000 ∅ user_run qs 1.
Proof.
  assert (rtc (proc_step 0x5000 0x5100) small_boot user_run) as Hs.
  { apply (rtc_l _ _ user_boot).
    - unfold user_boot, after. destruct (process_create_user 0x5000 0x5100 None 0x400000 1 small_boot) as [[i s]|] eqn:E;
        [|vm_compute in E; discriminate].
      apply (st_create_user _ _ None 0x400000 1 _ i); [split; [discriminate|reflexivity]|vm_compute; reflexivity|exact E].
    - apply rtc_once. apply st_yield. }
  destruct (run_inv user_run Hs) as (qs & c & H & E). assert (current_process user_run = Some 1%nat) as E' by (vm_compute; reflexivity).
  rewrite E in E'. injection E' as ->. exists qs. exact H.
Qed.

#[local] Opaque user_boot user_run.

Lemma fork_runs : option_map fst (sys_fork 0x7000 user_regs user_run) = Some 2.
Proof. vm_compute. reflexivity. Qed.

Lemma sys_fork_correct_witness :
  exists res s', sys_fork 0x7000 user_regs user_run = Some (res, s') /\ res = 2 /\
    exists i, p_state (proc s' i) = READY /\ res = p_pid (proc s' i) /\ p_ppid (proc s' i) = p_pid (proc user_run 1).
Proof.
  destruct user_run_inv as [qs H].
  destruct (sys_fork_correct 0x100000 0x20000 ∅ 0x7000 user_regs user_run qs 1 H) as (res & s' & E & Hc).
  assert (res = 2) as Er by (pose proof fork_runs as F; rewrite E in F; injection F as F; exact F).
  exists res, s'. split; [exact E|]. split; [exact Er|]. destruct Hc as [[Hm _]|(i & _ & _ & H1 & H2 & _ & _ & H3 & _)].
  - rewrite Er in Hm. discriminate.
  - exists i. split; [exact H1|]. split; [exact H2|exact H3].
Defined.



(** The pid [fork] takes is not taken from the counter: the counter still stands at it,
    so [alloc_pcb] gives the same pid to the next process created. *)
Lemma fork_create_same_pid :
  option_map (fun x => (fst x, next_pid (snd x))) (sys_fork 0x7000 user_regs user_run) = Some (2, 2).
Proof. vm_compute. reflexivity. Qed.
