(* ===== verification/Devices.v ===== *)
(** * Port-mapped devices (arch/x86/pic.c, drivers/timer.c, drivers/serial.c)

    The drivers are sequences of port reads and writes. They run against the chips they
    program: two 8259A interrupt controllers, channel 0 of the 8253/8254 timer and a 16550
    UART, each reduced to the registers the drivers use and behaving as its data sheet
    says. The theorems are about the state the chips are left in. *)
From S2P Require Import Prelude.

(** ** The chips *)

(** What the next write to the data port of an 8259A is. *)
Inductive stage := OCW | ICW2 | ICW3 | ICW4.

Record i8259 := I8259 {
  stage_ : stage;
  single : bool;        (** ICW1 bit 1: no second controller *)
  needs_icw4 : bool;    (** ICW1 bit 0 *)
  vector_base : Z;      (** ICW2: the vector of the chip's line 0 *)
  cascade : Z;          (** ICW3 *)
  mode_8086 : bool;     (** ICW4 bit 0 *)
  imr : Z;              (** mask register: a set bit disables the line *)
  isr : Z;              (** in-service register *)
}.

(** A command: ICW1 restarts the chip; the non-specific end of interrupt, [0x20], clears
    the in-service bit of highest priority, the lowest. *)
Definition i8259_cmd (v : Z) (c : i8259) : i8259 :=
  if Z.testbit v 4 then
    I8259 ICW2 (Z.testbit v 1) (Z.testbit v 0) (vector_base c) (cascade c) false 0 0
  else if v =? 0x20 then
    I8259 (stage_ c) (single c) (needs_icw4 c) (vector_base c) (cascade c) (mode_8086 c)
      (imr c) (Z.land (isr c) (isr c - 1))
  else c.

Definition i8259_data (v : Z) (c : i8259) : i8259 :=
  let after3 := if needs_icw4 c then ICW4 else OCW in
  match stage_ c with
  | ICW2 => I8259 (if single c then after3 else ICW3) (single c) (needs_icw4 c)
              (Z.land v 0xF8) (cascade c) (mode_8086 c) (imr c) (isr c)
  | ICW3 => I8259 after3 (single c) (needs_icw4 c) (vector_base c) v (mode_8086 c) (imr c) (isr c)
  | ICW4 => I8259 OCW (single c) (needs_icw4 c) (vector_base c) (cascade c) (Z.testbit v 0) (imr c) (isr c)
  | OCW => I8259 OCW (single c) (needs_icw4 c) (vector_base c) (cascade c) (mode_8086 c) v (isr c)
  end.

(** Channel 0 of the timer in low/high-byte access: the latched low byte, if one was
    written, the reload value (0 counts as 65536) and the mode. *)
Record i8254 := I8254 { latch : option Z; reload : Z; pit_mode : Z }.

Definition i8254_cmd (v : Z) (c : i8254) : i8254 :=
  if (Z.shiftr v 6 =? 0) && (Z.land (Z.shiftr v 4) 3 =? 3)
  then I8254 None (reload c) (Z.land (Z.shiftr v 1) 7) else c.
Definition i8254_data (v : Z) (c : i8254) : i8254 :=
  match latch c with
  | None => I8254 (Some v) (reload c) (pit_mode c)
  | Some lo => I8254 None (lo + 256 * v) (pit_mode c)
  end.
(** Input clocks per interrupt. *)
Definition period (c : i8254) : Z := if reload c =? 0 then 65536 else reload c.

(** The UART, when one is fitted: divisor latch, line and modem control, the received
    byte, the bytes sent on the line, how many status polls the transmitter stays busy
    after a byte, and how many of them are left. *)
Record uart := Uart {
  fitted : bool; divisor : Z; lcr : Z; mcr : Z; rbr : Z;
  tx : list Z; delay : nat; busy : nat;
}.

Definition uart_out (reg v : Z) (u : uart) : uart :=
  if negb (fitted u) then u
  else if (reg =? 0) && Z.testbit (lcr u) 7 then
    Uart true (v + 256 * (divisor u / 256)) (lcr u) (mcr u) (rbr u) (tx u) (delay u) (busy u)
  else if (reg =? 1) && Z.testbit (lcr u) 7 then
    Uart true (divisor u mod 256 + 256 * v) (lcr u) (mcr u) (rbr u) (tx u) (delay u) (busy u)
  else if reg =? 0 then
    if Z.testbit (mcr u) 4
    then Uart true (divisor u) (lcr u) (mcr u) v (tx u) (delay u) (busy u)
    else Uart true (divisor u) (lcr u) (mcr u) (rbr u) (tx u ++ [v]) (delay u) (delay u)
  else if reg =? 3 then Uart true (divisor u) v (mcr u) (rbr u) (tx u) (delay u) (busy u)
  else if reg =? 4 then Uart true (divisor u) (lcr u) v (rbr u) (tx u) (delay u) (busy u)
  else u.

(** A read; with no chip fitted the bus floats high. *)
Definition uart_in (reg : Z) (u : uart) : Z * uart :=
  if negb (fitted u) then (0xFF, u)
  else if reg =? 0 then (rbr u, u)
  else if reg =? 5 then
    (if (busy u =? 0)%nat then 0x60 else 0,
     Uart true (divisor u) (lcr u) (mcr u) (rbr u) (tx u) (delay u) (pred (busy u)))
  else (0, u).

Record machine := Machine { master : i8259; slave : i8259; pit : i8254; com1 : uart }.

Definition on_master (f : i8259 -> i8259) (m : machine) : machine :=
  Machine (f (master m)) (slave m) (pit m) (com1 m).
Definition on_slave (f : i8259 -> i8259) (m : machine) : machine :=
  Machine (master m) (f (slave m)) (pit m) (com1 m).
Definition on_pit (f : i8254 -> i8254) (m : machine) : machine :=
  Machine (master m) (slave m) (f (pit m)) (com1 m).
Definition on_com1 (f : uart -> uart) (m : machine) : machine :=
  Machine (master m) (slave m) (pit m) (f (com1 m)).

(** ** Ports (arch/x86/ports.h) *)

Definition PIC1_CMD : Z := 0x20.
Definition PIC1_DATA : Z := 0x21.
Definition PIC2_CMD : Z := 0xA0.
Definition PIC2_DATA : Z := 0xA1.
Definition PIC_EOI : Z := 0x20.
Definition ICW1_ICW4 : Z := 0x01.
Definition ICW1_INIT : Z := 0x10.
Definition ICW4_8086 : Z := 0x01.
Definition PIT_CHANNEL0_DATA : Z := 0x40.
Definition PIT_COMMAND : Z := 0x43.
Definition PIT_BASE_FREQUENCY : Z := 1193182.
Definition SERIAL_COM1_BASE : Z := 0x3F8.

Definition outb (port v : Z) (m : machine) : machine :=
  let v := u8 v in
  if port =? PIC1_CMD then on_master (i8259_cmd v) m
  else if port =? PIC1_DATA then on_master (i8259_data v) m
  else if port =? PIC2_CMD then on_slave (i8259_cmd v) m
  else if port =? PIC2_DATA then on_slave (i8259_data v) m
  else if port =? PIT_COMMAND then on_pit (i8254_cmd v) m
  else if port =? PIT_CHANNEL0_DATA then on_pit (i8254_data v) m
  else if (SERIAL_COM1_BASE <=? port) && (port <? SERIAL_COM1_BASE + 8)
       then on_com1 (uart_out (port - SERIAL_COM1_BASE) v) m
  else m.

Definition inb (port : Z) (m : machine) : Z * machine :=
  if port =? PIC1_DATA then (imr (master m), m)
  else if port =? PIC2_DATA then (imr (slave m), m)
  else if (SERIAL_COM1_BASE <=? port) && (port <? SERIAL_COM1_BASE + 8) then
    let '(v, u) := uart_in (port - SERIAL_COM1_BASE) (com1 m) in (v, on_com1 (fun _ => u) m)
  else (0xFF, m).

Definition io_wait (m : machine) : machine := outb 0x80 0 m.

(** ** Interrupt controller driver (arch/x86/pic.c) *)

Definition pic_init (m : machine) : machine :=
  let m := io_wait (outb PIC1_CMD (Z.lor ICW1_INIT ICW1_ICW4) m) in
  let m := io_wait (outb PIC2_CMD (Z.lor ICW1_INIT ICW1_ICW4) m) in
  let m := io_wait (outb PIC1_DATA 0x20 m) in
  let m := io_wait (outb PIC2_DATA 0x28 m) in
  let m := io_wait (outb PIC1_DATA 0x04 m) in
  let m := io_wait (outb PIC2_DATA 0x02 m) in
  let m := io_wait (outb PIC1_DATA ICW4_8086 m) in
  let m := io_wait (outb PIC2_DATA ICW4_8086 m) in
  let m := outb PIC1_DATA 0xFF m in
  outb PIC2_DATA 0xFF m.

Definition pic_send_eoi (irq : Z) (m : machine) : machine :=
  let m := if 8 <=? irq then outb PIC2_CMD PIC_EOI m else m in
  outb PIC1_CMD PIC_EOI m.

Definition pic_unmask_irq (irq : Z) (m : machine) : machine :=
  let '(port, irq) := if irq <? 8 then (PIC1_DATA, irq) else (PIC2_DATA, u8 (irq - 8)) in
  let '(value, m) := inb port m in
  outb port (u8 (Z.land value (Z.lnot (Z.shiftl 1 irq)))) m.

Definition pic_mask_irq (irq : Z) (m : machine) : machine :=
  let '(port, irq) := if irq <? 8 then (PIC1_DATA, irq) else (PIC2_DATA, u8 (irq - 8)) in
  let '(value, m) := inb port m in
  outb port (u8 (Z.lor value (Z.shiftl 1 irq))) m.

(** ** Timer driver (drivers/timer.c)

    The state is [system_ticks] and [timer_frequency]; the interrupt handler is with the
    scheduler it drives. *)
Record timer := Timer { system_ticks : Z; timer_frequency : Z }.

(** Division by zero is undefined. *)
Definition timer_init (frequency : Z) (x : timer * machine) : option (timer * machine) :=
  let '(t, m) := x in
  if frequency =? 0 then None
  else
    let divisor := PIT_BASE_FREQUENCY / frequency in
    let m := outb PIT_COMMAND 0x36 m in
    let m := outb PIT_CHANNEL0_DATA (u8 (Z.land divisor 0xFF)) m in
    let m := outb PIT_CHANNEL0_DATA (u8 (Z.land (Z.shiftr divisor 8) 0xFF)) m in
    Some (Timer 0 frequency, m).

Definition timer_get_ticks (t : timer) : Z := system_ticks t.

Definition timer_get_uptime_ms (t : timer) : Z :=
  if timer_frequency t =? 0 then 0
  else
    let ticks_low := u32 (system_ticks t) in
    u32 (ticks_low * 1000) / timer_frequency t.

(** [timer_wait] returns at the first tick count that reaches the target. [hlt] returns
    with the next interrupt, [ticks] being the value of the counter then. *)
Fixpoint timer_wait_loop (target : Z) (t : timer) (interrupts : list Z) : option timer :=
  if negb (system_ticks t <? target) then Some t
  else match interrupts with
       | [] => None
       | now :: interrupts => timer_wait_loop target (Timer now (timer_frequency t)) interrupts
       end.
Definition timer_wait (ticks : Z) (t : timer) (interrupts : list Z) : option timer :=
  timer_wait_loop (u64 (system_ticks t + ticks)) t interrupts.

(** ** Serial driver (drivers/serial.c) *)

Definition UART_DATA : Z := 0.
Definition UART_INT_ENABLE : Z := 1.
Definition UART_DIVISOR_LO : Z := 0.
Definition UART_DIVISOR_HI : Z := 1.
Definition UART_FIFO_CTRL : Z := 2.
Definition UART_LINE_CTRL : Z := 3.
Definition UART_MODEM_CTRL : Z := 4.
Definition UART_LINE_STATUS : Z := 5.
Definition LSR_TX_EMPTY : Z := 0x20.

(** The state is [serial_available] and the machine. *)
Definition serial_init (m : machine) : bool * machine :=
  let base := SERIAL_COM1_BASE in
  let m := outb (base + UART_INT_ENABLE) 0x00 m in
  let m := outb (base + UART_LINE_CTRL) 0x80 m in
  let m := outb (base + UART_DIVISOR_LO) 0x03 m in
  let m := outb (base + UART_DIVISOR_HI) 0x00 m in
  let m := outb (base + UART_LINE_CTRL) 0x03 m in
  let m := outb (base + UART_FIFO_CTRL) 0xC7 m in
  let m := outb (base + UART_MODEM_CTRL) 0x0B m in
  let m := outb (base + UART_MODEM_CTRL) 0x1E m in
  let m := outb (base + UART_DATA) 0xAE m in
  let '(v, m) := inb (base + UART_DATA) m in
  if negb (v =? 0xAE) then (false, m)
  else (true, outb (base + UART_MODEM_CTRL) 0x0F m).

Definition tx_ready (m : machine) : bool * machine :=
  let '(v, m) := inb (SERIAL_COM1_BASE + UART_LINE_STATUS) m in
  (negb (Z.land v LSR_TX_EMPTY =? 0), m).

(** The polling loop; [None] is a loop that is still polling. *)
Fixpoint tx_spin (fuel : nat) (m : machine) : option machine :=
  match fuel with
  | O => None
  | S fuel => let '(ready, m) := tx_ready m in if ready then Some m else tx_spin fuel m
  end.

(** A busy transmitter needs one poll more than its remaining busy time. *)
Definition tx_wait (m : machine) : machine := default m (tx_spin (S (busy (com1 m))) m).

Definition serial_write_char (c : Z) (serial_available : bool) (m : machine) : machine :=
  if negb serial_available then m
  else outb (SERIAL_COM1_BASE + UART_DATA) c (tx_wait m).

(** The string is the list of its characters; [None] is the null pointer. *)
Definition serial_write (s : option (list Z)) (serial_available : bool) (m : machine) : machine :=
  match s with
  | None => m
  | Some s =>
      if negb serial_available then m
      else foldl (fun m c =>
        let m := if c =? 10 then serial_write_char 13 serial_available m else m in
        serial_write_char c serial_available m) m s
  end.

(** ** Interrupt lines *)

(** The chip a line is on, its mask bit and the vector it raises. *)
Definition chip (irq : Z) (m : machine) : i8259 := if irq <? 8 then master m else slave m.
Definition unmasked (m : machine) (irq : Z) : bool := negb (Z.testbit (imr (chip irq m)) (irq mod 8)).
Definition vector (m : machine) (irq : Z) : Z := vector_base (chip irq m) + irq mod 8.
(** A line of the second controller reaches the processor through line 2 of the first. *)
Definition delivered (m : machine) (irq : Z) : bool :=
  unmasked m irq && ((irq <? 8) || unmasked m 2).

(** Both controllers take masks, in 8086 mode, cascaded through line 2. *)
Definition programmed (m : machine) : Prop :=
  stage_ (master m) = OCW /\ stage_ (slave m) = OCW /\
  mode_8086 (master m) = true /\ mode_8086 (slave m) = true /\
  cascade (master m) = Z.shiftl 1 (cascade (slave m)) /\
  vector_base (master m) = 0x20 /\ vector_base (slave m) = 0x28 /\
  is_u8 (imr (master m)) /\ is_u8 (imr (slave m)).

Inductive pic_op := Mask (irq : Z) | Unmask (irq : Z) | Eoi (irq : Z).
Definition run_pic (o : pic_op) (m : machine) : machine :=
  match o with
  | Mask irq => pic_mask_irq irq m
  | Unmask irq => pic_unmask_irq irq m
  | Eoi irq => pic_send_eoi irq m
  end.
Definition op_irq (o : pic_op) : Z := match o with Mask i | Unmask i | Eoi i => i end.

(** The reference: the set of enabled lines. *)
Definition spec_pic (s : gset Z) (o : pic_op) : gset Z :=
  match o with Mask i => s ∖ {[i]} | Unmask i => s ∪ {[i]} | Eoi _ => s end.

Ltac conj := repeat match goal with |- _ /\ _ => split end; try done.

Lemma outb_master_data v m : stage_ (master m) = OCW ->
  outb PIC1_DATA v m = on_master (fun c => I8259 OCW (single c) (needs_icw4 c) (vector_base c)
    (cascade c) (mode_8086 c) (u8 v) (isr c)) m.
Proof. intros E. unfold outb, on_master, i8259_data. cbn. by rewrite E. Qed.
Lemma outb_slave_data v m : stage_ (slave m) = OCW ->
  outb PIC2_DATA v m = on_slave (fun c => I8259 OCW (single c) (needs_icw4 c) (vector_base c)
    (cascade c) (mode_8086 c) (u8 v) (isr c)) m.
Proof. intros E. unfold outb, on_slave, i8259_data. cbn. by rewrite E. Qed.

Lemma u8_idem z : u8 (u8 z) = u8 z.
Proof. apply u8_small, u8_range. Qed.

Lemma unmask_spec irq m : programmed m -> 0 <= irq < 16 ->
  programmed (pic_unmask_irq irq m) /\
  forall j, 0 <= j < 16 -> unmasked (pic_unmask_irq irq m) j = (j =? irq) || unmasked m j.
Proof.
  intros (H1 & H2 & H3 & H4 & H5 & H6 & H7 & H8 & H9) Hi. unfold pic_unmask_irq.
  destruct (Z.ltb_spec irq 8) as [Hlt|Hge]; cbn [inb Z.eqb PIC1_DATA PIC2_DATA Pos.eqb].
  - rewrite outb_master_data by done. rewrite u8_idem. unfold unmasked, chip, programmed, on_master. cbn.
    split; [conj; apply u8_range|].
    intros j Hj. destruct (Z.ltb_spec j 8); cbn.
    + rewrite !(Z.mod_small j 8) by lia. rewrite testbit_clear_bit by lia. by destruct (j =? irq), (Z.testbit _ _).
    + by destruct (Z.eqb_spec j irq); [lia|].
  - rewrite outb_slave_data by done. rewrite u8_idem. unfold unmasked, chip, programmed, on_slave. cbn.
    split; [conj; apply u8_range|].
    intros j Hj. destruct (Z.ltb_spec j 8); cbn; [by destruct (Z.eqb_spec j irq); [lia|]|].
    replace (j mod 8) with (j - 8) by dlia. rewrite (u8_small (irq - 8)) by wsolve.
    rewrite testbit_clear_bit by lia. replace (j - 8 =? irq - 8) with (j =? irq) by (apply eq_true_iff_eq; lia).
    by destruct (j =? irq), (Z.testbit _ _).
Qed.

Lemma mask_spec irq m : programmed m -> 0 <= irq < 16 ->
  programmed (pic_mask_irq irq m) /\
  forall j, 0 <= j < 16 -> unmasked (pic_mask_irq irq m) j = negb (j =? irq) && unmasked m j.
Proof.
  intros (H1 & H2 & H3 & H4 & H5 & H6 & H7 & H8 & H9) Hi. unfold pic_mask_irq.
  destruct (Z.ltb_spec irq 8) as [Hlt|Hge]; cbn [inb Z.eqb PIC1_DATA PIC2_DATA Pos.eqb].
  - rewrite outb_master_data by done. rewrite u8_idem. unfold unmasked, chip, programmed, on_master. cbn.
    split; [conj; apply u8_range|].
    intros j Hj. destruct (Z.ltb_spec j 8); cbn.
    + rewrite !(Z.mod_small j 8) by lia. rewrite testbit_set_bit by lia. by destruct (j =? irq), (Z.testbit _ _).
    + by destruct (Z.eqb_spec j irq); [lia|].
  - rewrite outb_slave_data by done. rewrite u8_idem. unfold unmasked, chip, programmed, on_slave. cbn.
    split; [conj; apply u8_range|].
    intros j Hj. destruct (Z.ltb_spec j 8); cbn; [by destruct (Z.eqb_spec j irq); [lia|]|].
    replace (j mod 8) with (j - 8) by dlia. rewrite (u8_small (irq - 8)) by wsolve.
    rewrite testbit_set_bit by lia. replace (j - 8 =? irq - 8) with (j =? irq) by (apply eq_true_iff_eq; lia).
    by destruct (j =? irq), (Z.testbit _ _).
Qed.

Lemma eoi_spec irq m : programmed m ->
  programmed (pic_send_eoi irq m) /\ forall j, unmasked (pic_send_eoi irq m) j = unmasked m j.
Proof.
  intros (H1 & H2 & H3 & H4 & H5 & H6 & H7 & H8 & H9). unfold pic_send_eoi, programmed, unmasked, chip.
  destruct (8 <=? irq); cbn; split; conj; intros j; by destruct (j <? 8).
Qed.

Lemma pic_init_spec m : programmed (pic_init m) /\ isr (master (pic_init m)) = 0 /\ isr (slave (pic_init m)) = 0 /\
  (forall j, 0 <= j < 16 -> unmasked (pic_init m) j = false) /\ pit (pic_init m) = pit m /\ com1 (pic_init m) = com1 m.
Proof.
  split; [unfold programmed; conj; cbn; apply u8_range|]. split; [done|]. split; [done|]. split; [|done].
  intros j Hj. unfold unmasked, chip. apply negb_false_iff. destruct (Z.ltb_spec j 8); cbn;
    change (u8 255) with (Z.ones 8); apply Z.ones_spec_low; pose proof (Z.mod_pos_bound j 8); lia.
Qed.

Lemma pic_run_spec ops m (s : gset Z) : programmed m -> Forall (fun o => 0 <= op_irq o < 16) ops ->
  (forall j, 0 <= j < 16 -> unmasked m j = bool_decide (j ∈ s)) ->
  let m' := foldl (fun m o => run_pic o m) m ops in
  programmed m' /\ forall j, 0 <= j < 16 -> unmasked m' j = bool_decide (j ∈ foldl spec_pic s ops).
Proof.
  revert m s. induction ops as [|o ops IH]; intros m s Hp Hf Hs; [done|].
  apply Forall_cons_iff in Hf as [Ho Hf]. cbn [foldl]. apply IH; [|done|]; destruct o as [i|i|i]; cbn [run_pic spec_pic op_irq] in *.
  - apply (mask_spec i m Hp Ho).
  - apply (unmask_spec i m Hp Ho).
  - apply (eoi_spec i m Hp).
  - intros j Hj. rewrite (proj2 (mask_spec i m Hp Ho) j Hj), Hs by done.
    destruct (Z.eqb_spec j i) as [->|]; cbn; [symmetry; apply bool_decide_eq_false_2|apply bool_decide_ext];
      rewrite elem_of_difference, elem_of_singleton; tauto.
  - intros j Hj. rewrite (proj2 (unmask_spec i m Hp Ho) j Hj), Hs by done.
    destruct (Z.eqb_spec j i) as [->|]; cbn; [symmetry; apply bool_decide_eq_true_2|apply bool_decide_ext];
      rewrite elem_of_union, elem_of_singleton; tauto.
  - intros j Hj. by rewrite (proj2 (eoi_spec i m Hp) j), Hs by done.
Qed.

(** C40. The interrupt controllers do what the driver's callers ask. Whatever state they
    were in, after [pic_init] and any sequence of mask, unmask and end-of-interrupt calls
    on lines 0 to 15, both are fully initialised and cascaded, line [j] raises vector
    [0x20 + j], and it is unmasked exactly when the last call on it was an unmask. *)
Theorem pic_trace_correct m ops : Forall (fun o => 0 <= op_irq o < 16) ops ->
  let m' := foldl (fun m o => run_pic o m) (pic_init m) ops in
  programmed m' /\ forall j, 0 <= j < 16 ->
    vector m' j = 0x20 + j /\ unmasked m' j = bool_decide (j ∈ foldl spec_pic ∅ ops).
Proof.
  intros Hf. destruct (pic_init_spec m) as (Hp & _ & _ & Hm & _).
  destruct (pic_run_spec ops (pic_init m) ∅ Hp Hf) as [Hp' Hs].
  { intros j Hj. rewrite Hm by done. symmetry. apply bool_decide_eq_false_2. set_solver. }
  split; [done|]. intros j Hj. split; [|by apply Hs].
  destruct Hp' as (_ & _ & _ & _ & _ & H6 & H7 & _). unfold vector, chip.
  destruct (Z.ltb_spec j 8); [rewrite H6|rewrite H7]; dlia.
Qed.

Definition chip0 : i8259 := I8259 ICW3 true false 8 0 false 0xB8 4.
Definition machine0 : machine := Machine chip0 chip0 (I8254 None 0 2) (Uart true 1 0 0 0 [] 2 1).
Lemma pic_trace_correct_witness :
  vector (foldl (fun m o => run_pic o m) (pic_init machine0) [Unmask 0; Unmask 1; Eoi 9; Mask 0]) 1 = 0x21.
Proof.
  apply (pic_trace_correct machine0 [Unmask 0; Unmask 1; Eoi 9; Mask 0]); [|lia].
  repeat (apply Forall_cons_2; [cbn; lia|]). apply Forall_nil_2.
Defined.

(** Unmasking a line of the second controller does not deliver it: line 2 of the first
    stays masked until it is unmasked by its own call. *)
Lemma slave_irq_not_delivered m irq : 8 <= irq < 16 ->
  delivered (pic_unmask_irq irq (pic_init m)) irq = false.
Proof.
  intros Hi. destruct (pic_init_spec m) as (Hp & _ & _ & Hm & _). unfold delivered.
  destruct (unmask_spec irq _ Hp ltac:(lia)) as [_ ->]; [|lia].
  rewrite (proj2 (unmask_spec irq _ Hp ltac:(lia)) 2 ltac:(lia)), Hm by lia.
  destruct (Z.ltb_spec irq 8), (Z.eqb_spec 2 irq); try lia. cbn. by rewrite andb_false_r.
Qed.

(** ** Timer *)

Lemma divisor_bytes d : 0 <= d ->
  u8 (u8 (Z.land d 0xFF)) + 256 * u8 (u8 (Z.land (Z.shiftr d 8) 0xFF)) = d mod 65536.
Proof.
  intros Hd. change 0xFF with (Z.ones 8). rewrite !land_ones_mod, Z.shiftr_div_pow2 by lia.
  unfold u8. change (2 ^ 8) with 256. rewrite !Z.mod_mod by lia. dlia.
Qed.

Lemma timer_init_spec f t m : f <> 0 -> 0 <= PIT_BASE_FREQUENCY / f ->
  exists m', timer_init f (t, m) = Some (Timer 0 f, m') /\ pit_mode (pit m') = 3 /\
    latch (pit m') = None /\ reload (pit m') = (PIT_BASE_FREQUENCY / f) mod 65536.
Proof.
  intros Hf Hd. unfold timer_init. destruct (Z.eqb_spec f 0); [done|]. eexists. split; [done|].
  split; [done|]. split; [done|]. exact (divisor_bytes _ Hd).
Qed.

(** The timer runs at the rate asked for. For a frequency from 19 Hz to that of the
    input clock, [timer_init] leaves channel 0 counting [PIT_BASE_FREQUENCY / f] input
    clocks per interrupt, the largest whole period that is not slower than asked, and
    from then on the reported uptime is the tick count in milliseconds, rounded down, as
    long as fewer than 4294968 ticks have passed. *)
Theorem timer_rate f t m : 19 <= f <= PIT_BASE_FREQUENCY ->
  exists t' m', timer_init f (t, m) = Some (t', m') /\ system_ticks t' = 0 /\
    period (pit m') * f <= PIT_BASE_FREQUENCY < (period (pit m') + 1) * f /\
    forall n, 0 <= n < 4294968 -> timer_get_uptime_ms (Timer n (timer_frequency t')) = n * 1000 / f.
Proof.
  intros Hf. assert (1 <= PIT_BASE_FREQUENCY / f < 65536) as Hd.
  { change PIT_BASE_FREQUENCY with 1193182 in *. split; [apply Z.div_le_lower_bound; lia|].
    apply Z.div_lt_upper_bound; lia. }
  destruct (timer_init_spec f t m) as (m' & E & _ & _ & Hr); [lia|lia|].
  exists (Timer 0 f), m'. split; [done|]. split; [done|]. rewrite Z.mod_small in Hr by lia. split.
  - unfold period. rewrite Hr. destruct (Z.eqb_spec (PIT_BASE_FREQUENCY / f) 0); [lia|].
    pose proof (Z.mul_div_le PIT_BASE_FREQUENCY f ltac:(lia)).
    pose proof (Z.mul_succ_div_gt PIT_BASE_FREQUENCY f ltac:(lia)). lia.
  - intros n Hn. unfold timer_get_uptime_ms. cbn [timer_frequency system_ticks].
    destruct (Z.eqb_spec f 0); [lia|]. rewrite (u32_small n), u32_small by wsolve. done.
Qed.
Lemma timer_rate_witness : exists t' m', timer_init 100 (Timer 7 0, machine0) = Some (t', m') /\ system_ticks t' = 0.
Proof.
  destruct (timer_rate 100 (Timer 7 0) machine0) as (t' & m' & E & H & _); [unfold PIT_BASE_FREQUENCY; lia|].
  exists t', m'. exact (conj E H).
Defined.

(** The uptime at 100 Hz starts again from 0 after 4294968 ticks, less than twelve hours. *)
Lemma uptime_wraps : timer_get_uptime_ms (Timer 4294967 100) = 42949670 /\
  timer_get_uptime_ms (Timer 4294968 100) = 7 /\ 4294968 / 100 < 12 * 3600.
Proof. vm_compute. done. Qed.

(** [timer_wait] returns once the counter reaches the target, and not before. *)
Lemma timer_wait_spec ticks t now later : 0 <= system_ticks t -> 0 <= ticks -> is_u64 (system_ticks t + ticks) ->
  Forall (fun n => n < system_ticks t + ticks) now -> 0 < ticks ->
  timer_wait ticks t (now ++ (system_ticks t + ticks) :: later) = Some (Timer (system_ticks t + ticks) (timer_frequency t)).
Proof.
  intros H0 H1 H2 Hn Hp. unfold timer_wait. rewrite u64_small by done.
  assert (system_ticks t < system_ticks t + ticks) as Hlt by lia. remember (system_ticks t + ticks) as target eqn:Et. clear Et H0 H1 H2 Hp.
  revert t Hlt. induction Hn as [|n now Hn _ IH]; intros t Hlt; cbn [app timer_wait_loop].
  - destruct (Z.ltb_spec (system_ticks t) target); [|lia]. cbn [negb]. destruct later; cbn [timer_wait_loop system_ticks]; by rewrite Z.ltb_irrefl.
  - destruct (Z.ltb_spec (system_ticks t) target); [|lia]. cbn [negb]. by apply (IH (Timer n (timer_frequency t))).
Qed.

(** ** Serial line *)

(** 8 data bits, no parity, one stop bit, 38400 baud, not in loopback. *)
Definition line_up (m : machine) : Prop :=
  fitted (com1 m) = true /\ lcr (com1 m) = 0x03 /\ divisor (com1 m) = 3 /\ mcr (com1 m) = 0x0F.

(** New lines go out as carriage return, line feed. *)
Definition crlf (s : list Z) : list Z := s ≫= fun c => if c =? 10 then [13; 10] else [c].

(** The writes of [serial_init], one register at a time. *)
Lemma out_com1 reg v ma sl p u : 0 <= reg < 8 -> is_u8 v ->
  outb (SERIAL_COM1_BASE + reg) v (Machine ma sl p u) = Machine ma sl p (uart_out reg v u).
Proof.
  intros Hr Hv. unfold outb, PIC1_CMD, PIC1_DATA, PIC2_CMD, PIC2_DATA, PIT_COMMAND, PIT_CHANNEL0_DATA, SERIAL_COM1_BASE.
  zcases; try lia. cbn [andb]. rewrite u8_small by exact Hv. replace (1016 + reg - 1016) with reg by lia. done.
Qed.
Lemma uart_ier v d l mc r t de bu : exists d',
  uart_out UART_INT_ENABLE v (Uart true d l mc r t de bu) = Uart true d' l mc r t de bu.
Proof. change UART_INT_ENABLE with 1. unfold uart_out. cbn -[Z.mul Z.add Z.testbit]. destruct (Z.testbit l 7); eexists; reflexivity. Qed.
Lemma uart_lcr v d l mc r t de bu : uart_out UART_LINE_CTRL v (Uart true d l mc r t de bu) = Uart true d v mc r t de bu.
Proof. done. Qed.
Lemma uart_mcr v d l mc r t de bu : uart_out UART_MODEM_CTRL v (Uart true d l mc r t de bu) = Uart true d l v r t de bu.
Proof. done. Qed.

Lemma serial_init_spec m :
  fst (serial_init m) = fitted (com1 m) /\ tx (com1 (snd (serial_init m))) = tx (com1 m) /\
  (fitted (com1 m) = true -> line_up (snd (serial_init m))).
Proof.
  destruct m as [ma sl p u]. destruct u as [[|] d l mc r t de bu]; [|done].
  unfold serial_init. rewrite out_com1 by (vm_compute; intuition congruence). destruct (uart_ier 0 d l mc r t de bu) as [d' ->].
  rewrite !out_com1 by (vm_compute; intuition congruence). rewrite uart_lcr.
  change (uart_out UART_DIVISOR_LO 3 _) with (Uart true (3 + 256 * (d' / 256)) 0x80 mc r t de bu).
  change (uart_out UART_DIVISOR_HI 0 _) with (Uart true ((3 + 256 * (d' / 256)) mod 256 + 0) 0x80 mc r t de bu).
  replace ((3 + 256 * (d' / 256)) mod 256 + 0) with 3 by dlia. done.
Qed.

Lemma tx_ready_spec m : fitted (com1 m) = true ->
  tx_ready m = ((busy (com1 m) =? 0)%nat, on_com1 (fun u => Uart true (divisor u) (lcr u) (mcr u) (rbr u) (tx u) (delay u) (pred (busy u))) m).
Proof. destruct m as [ma sl p [[|] d l mc r t de bu]]; [|done]. intros _. by destruct bu. Qed.

Lemma tx_spin_spec n m fuel : fitted (com1 m) = true -> busy (com1 m) = n -> (n < fuel)%nat ->
  exists m', tx_spin fuel m = Some m' /\ busy (com1 m') = 0%nat /\ tx (com1 m') = tx (com1 m) /\ (line_up m -> line_up m').
Proof.
  revert m fuel. induction n as [|n IH]; intros m fuel Hf Hb Hl; (destruct fuel as [|fuel]; [lia|]);
    cbn [tx_spin]; rewrite tx_ready_spec, Hb by done; cbn [Nat.eqb].
  - eexists. split; [done|]. cbn. rewrite Hb. split; [done|]. split; [done|]. intros (_ & Hu). exact (conj eq_refl Hu).
  - match goal with |- context [tx_spin fuel ?m1] => destruct (IH m1 fuel) as (m' & E & H1 & H2 & H3); [done|cbn; by rewrite Hb|lia|] end.
    exists m'. split; [done|]. split; [done|]. split; [done|]. intros (_ & Hu). apply H3. done.
Qed.

Lemma serial_char_spec c m : line_up m -> is_u8 c ->
  line_up (serial_write_char c true m) /\ tx (com1 (serial_write_char c true m)) = tx (com1 m) ++ [c].
Proof.
  intros Hu Hc. unfold serial_write_char, tx_wait.
  destruct (tx_spin_spec (busy (com1 m)) m (S (busy (com1 m)))) as (m' & -> & Hb & Ht & Hl); [apply Hu|done|lia|].
  destruct (Hl Hu) as (H1 & H2 & H3 & H4). cbn [default negb].
  unfold outb, on_com1, uart_out. cbn. rewrite H1, H2, H4. cbn. rewrite H3, Ht, u8_small by done. done.
Qed.

(** The serial line carries what is written. [serial_init] reports a port exactly
    when one is fitted, having programmed it for 38400 baud 8N1 and sent nothing; then
    [serial_write] waits for the transmitter each time and puts exactly the characters of
    the string on the line, in order, with every new line expanded to CR/LF. *)
Theorem serial_write_correct m s : Forall is_u8 s ->
  let '(available, m1) := serial_init m in
  let m2 := serial_write (Some s) available m1 in
  available = fitted (com1 m) /\
  tx (com1 m2) = tx (com1 m) ++ (if fitted (com1 m) then crlf s else []).
Proof.
  intros Hs. destruct (serial_init_spec m) as (Ha & Ht & Hl). destruct (serial_init m) as [av m1]. cbn [fst snd] in *. subst av.
  split; [done|]. unfold serial_write. destruct (fitted (com1 m)); cbn [negb]; [|by rewrite app_nil_r].
  rewrite <- Ht. specialize (Hl eq_refl). clear Ht. revert m1 Hl. induction Hs as [|c s Hc Hs IH]; intros m1 Hl; [by rewrite app_nil_r|].
  cbn [foldl crlf mbind list_bind]. destruct (Z.eqb_spec c 10) as [->|].
  - destruct (serial_char_spec 13 m1 Hl) as [Hl1 E1]; [wsolve|].
    destruct (serial_char_spec 10 _ Hl1) as [Hl2 E2]; [wsolve|].
    rewrite IH by done. rewrite E2, E1, <- !app_assoc. done.
  - destruct (serial_char_spec c m1 Hl Hc) as [Hl1 E1]. rewrite IH by done. rewrite E1, <- app_assoc. done.
Qed.
Lemma serial_write_correct_witness :
  let '(available, m1) := serial_init machine0 in
  available = true /\ tx (com1 (serial_write (Some [72; 10]) available m1)) = [72; 13; 10].
Proof. apply (serial_write_correct machine0 [72; 10]). repeat (apply Forall_cons_2; [wsolve|]). apply Forall_nil_2. Defined.
