(* ===== verification/Console.v ===== *)
(** * Text console (drivers/console.c) and its printing clients
    (arch/x86/exceptions.c, kernel/panic.c)

    The screen is an array of 80 x 25 words, mirrored on the serial line. The reference is
    a terminal that keeps every line ever printed and shows the last ones. *)
From Stdlib Require Import String Ascii.
From S2P Require Import Prelude Mem Devices.
Local Close Scope string_scope.

Definition VGA_WIDTH : Z := 80.
Definition VGA_HEIGHT : Z := 25.

(** The file-scope state: the text buffer, indexed by word, the cursor, the colour; with
    the serial driver's flag and the machine it talks to. *)
Record console := Console {
  vga_buf : mem; term_row : Z; term_col : Z; term_color : Z;
  serial_available : bool; hw : machine;
}.

Definition vga_entry (c color : Z) : Z := u16 (Z.lor (u8 c) (Z.shiftl color 8)).

(** ["..."] as the list of its characters. *)
Definition str (s : string) : list Z := List.map (fun a => Z.of_N (N_of_ascii a)) (list_ascii_of_string s).

Definition copy_up (buf : mem) : mem :=
  for_range 0 (VGA_HEIGHT - 1) (fun y buf =>
    for_range 0 VGA_WIDTH (fun x buf => st buf (y * VGA_WIDTH + x) (ld buf ((y + 1) * VGA_WIDTH + x))) buf) buf.
Definition terminal_scroll (s : console) : console :=
  let buf := copy_up (vga_buf s) in
  let buf := for_range 0 VGA_WIDTH (fun x buf =>
    st buf ((VGA_HEIGHT - 1) * VGA_WIDTH + x) (vga_entry 32 (term_color s))) buf in
  Console buf (term_row s) (term_col s) (term_color s) (serial_available s) (hw s).

Definition console_clear (s : console) : console :=
  let buf := for_range 0 VGA_HEIGHT (fun y buf =>
    for_range 0 VGA_WIDTH (fun x buf => st buf (y * VGA_WIDTH + x) (vga_entry 32 (term_color s))) buf) (vga_buf s) in
  Console buf 0 0 (term_color s) (serial_available s) (hw s).

Definition console_init (s : console) : console :=
  let '(available, m) := serial_init (hw s) in
  console_clear (Console (vga_buf s) (term_row s) (term_col s) (term_color s) available m).

Definition console_backspace (s : console) : console :=
  let '(row, col) :=
    if 0 <? term_col s then (term_row s, term_col s - 1)
    else if 0 <? term_row s then (term_row s - 1, VGA_WIDTH - 1)
    else (term_row s, term_col s) in
  Console (st (vga_buf s) (row * VGA_WIDTH + col) (vga_entry 32 (term_color s))) row col
    (term_color s) (serial_available s) (hw s).

(** [term_col = 0; term_row++], with the scroll at the bottom of the screen. *)
Definition next_row (s : console) : console :=
  let s := Console (vga_buf s) (term_row s + 1) 0 (term_color s) (serial_available s) (hw s) in
  if VGA_HEIGHT <=? term_row s then
    let s := terminal_scroll s in
    Console (vga_buf s) (VGA_HEIGHT - 1) (term_col s) (term_color s) (serial_available s) (hw s)
  else s.

Definition console_put_char (c : Z) (s : console) : console :=
  let m := if c =? 10 then serial_write_char 13 (serial_available s) (hw s) else hw s in
  let m := serial_write_char (u8 c) (serial_available s) m in
  let s := Console (vga_buf s) (term_row s) (term_col s) (term_color s) (serial_available s) m in
  if c =? 10 then next_row s
  else
    let s := Console (st (vga_buf s) (term_row s * VGA_WIDTH + term_col s) (vga_entry c (term_color s)))
               (term_row s) (term_col s + 1) (term_color s) (serial_available s) (hw s) in
    if VGA_WIDTH <=? term_col s then next_row s else s.

(** The string is the list of its characters, without the terminating NUL. *)
Definition console_write (t : list Z) (s : console) : console :=
  foldl (fun s c => console_put_char c s) s t.

Definition console_set_color (fg bg : Z) (s : console) : console :=
  Console (vga_buf s) (term_row s) (term_col s) (u8 (Z.lor fg (Z.shiftl bg 4))) (serial_available s) (hw s).

Definition terminal_put_char : Z -> console -> console := console_put_char.
Definition terminal_backspace : console -> console := console_backspace.

(** ** The reference terminal

    The finished lines, the current line, and how many finished lines have scrolled off
    the top. A line is finished by a new line or by its eightieth character. *)
Record page := Page { finished : list (list Z); current : list Z; top : nat }.

Definition finish (p : page) (l : list Z) : page :=
  Page (finished p ++ [l]) [] (top p `max` (S (length (finished p)) - 24)).
Definition emit (p : page) (c : Z) : page :=
  if c =? 10 then finish p (current p)
  else if (length (current p) + 1 =? 80)%nat then finish p (current p ++ [c])
  else Page (finished p) (current p ++ [c]) (top p).

Definition lines (p : page) : list (list Z) := finished p ++ [current p].
Definition cell (color : Z) (p : page) (y x : nat) : Z :=
  match lines p !! (top p + y)%nat ≫= (.!! x) with
  | Some c => vga_entry c color
  | None => vga_entry 32 color
  end.

(** The screen shows the page: the cursor is at its end, and every one of the 2000 cells
    holds the character of the page there, or a blank. *)
Record displays (p : page) (s : console) : Prop := {
  d_row : term_row s = Z.of_nat (length (finished p) - top p);
  d_top : (top p <= length (finished p) <= top p + 24)%nat;
  d_col : term_col s = Z.of_nat (length (current p));
  d_cur : (length (current p) < 80)%nat;
  d_cells : forall y x : nat, (y < 25)%nat -> (x < 80)%nat ->
    ld (vga_buf s) (Z.of_nat y * VGA_WIDTH + Z.of_nat x) = cell (term_color s) p y x;
}.

(** ** Loops over the screen *)

Lemma copy_up_spec b i : 0 <= i < 2000 ->
  ld (copy_up b) i = if i <? 1920 then ld b (i + 80) else ld b i.
Proof.
  intros Hi. unfold copy_up, VGA_HEIGHT, VGA_WIDTH.
  apply (for_range_ind (fun y b' => forall i, 0 <= i < 2000 -> ld b' i = if i <? y * 80 then ld b (i + 80) else ld b i));
    [lia| | |done].
  - intros j Hj. destruct (Z.ltb_spec j (0 * 80)); [lia|done].
  - intros y b1 Hy H1. replace ((y + 1) * 80) with (y * 80 + 80) by lia.
    apply (for_range_ind (fun x b' => forall i, 0 <= i < 2000 -> ld b' i = if i <? y * 80 + x then ld b (i + 80) else ld b i));
      [lia| |].
    + intros j Hj. rewrite Z.add_0_r. by apply H1.
    + intros x b2 Hx H2 j Hj. destruct (Z.eq_dec j (y * 80 + x)) as [->|].
      * ldst. rewrite H2 by lia. destruct (Z.ltb_spec (y * 80 + 80 + x) (y * 80 + x)); [lia|].
        destruct (Z.ltb_spec (y * 80 + x) (y * 80 + (x + 1))); [|lia]. f_equal. lia.
      * ldst. rewrite H2 by lia. destruct (Z.ltb_spec j (y * 80 + x)), (Z.ltb_spec j (y * 80 + (x + 1))); try lia; done.
Qed.

(** Blanking the row that starts at word [a]. *)
Lemma blank_row_spec a v b i :
  ld (for_range 0 VGA_WIDTH (fun x buf => st buf (a + x) v) b) i = if (a <=? i) && (i <? a + 80) then v else ld b i.
Proof.
  unfold VGA_WIDTH.
  apply (for_range_ind (fun x b' => ld b' i = if (a <=? i) && (i <? a + x) then v else ld b i)); [lia| |].
  - destruct (Z.leb_spec a i), (Z.ltb_spec i (a + 0)); try lia; done.
  - intros x b1 Hx H1. destruct (Z.eq_dec i (a + x)) as [->|].
    + ldst. destruct (Z.leb_spec a (a + x)), (Z.ltb_spec (a + x) (a + (x + 1))); try lia; done.
    + ldst. rewrite H1. destruct (Z.leb_spec a i), (Z.ltb_spec i (a + x)), (Z.ltb_spec i (a + (x + 1))); try lia; done.
Qed.

Lemma scroll_spec s i : 0 <= i < 2000 ->
  ld (vga_buf (terminal_scroll s)) i = if i <? 1920 then ld (vga_buf s) (i + 80) else vga_entry 32 (term_color s).
Proof.
  intros Hi. unfold terminal_scroll. cbn [vga_buf]. rewrite blank_row_spec, copy_up_spec by done.
  change ((VGA_HEIGHT - 1) * VGA_WIDTH) with 1920. destruct (Z.leb_spec 1920 i), (Z.ltb_spec i 1920), (Z.ltb_spec i (1920 + 80)); try lia; done.
Qed.

Lemma clear_spec s i : 0 <= i < 2000 -> ld (vga_buf (console_clear s)) i = vga_entry 32 (term_color s).
Proof.
  intros Hi. unfold console_clear. cbn [vga_buf].
  apply (for_range_ind (fun y b => forall i, 0 <= i < y * 80 -> ld b i = vga_entry 32 (term_color s))); [unfold VGA_HEIGHT; lia|intros j Hj; lia| |unfold VGA_HEIGHT; lia].
  intros y b Hy H j Hj. rewrite (blank_row_spec (y * VGA_WIDTH)). unfold VGA_WIDTH.
  destruct (Z.leb_spec (y * 80) j), (Z.ltb_spec j (y * 80 + 80)); try lia; [done|]. apply H. lia.
Qed.

(** ** Cells of the page *)

Lemma cell_blank color p y x : (length (finished p) < top p + y)%nat -> cell color p y x = vga_entry 32 color.
Proof. intros H. unfold cell, lines. rewrite lookup_ge_None_2; [done|]. rewrite length_app. cbn. lia. Qed.

(** Finishing the current line as it is moves the page, not its characters. *)
Lemma cell_finish color p l y x t : (l = current p) ->
  cell color (Page (finished p ++ [l]) [] t) y x = cell color (Page (finished p) l t) y x.
Proof.
  intros ->. unfold cell, lines. cbn [finished current top]. rewrite (lookup_app (_ ++ _)).
  destruct ((finished p ++ [current p]) !! (t + y)%nat) as [l|] eqn:E; [done|]. cbn [mbind option_bind].
  destruct ([[]] !! _) as [l|] eqn:E2; [|done]. destruct ((t + y - _)%nat); [|done]. cbn in E2. by injection E2 as <-.
Qed.
Lemma cell_top color f c y x t : cell color (Page f c (S t)) y x = cell color (Page f c t) (S y) x.
Proof. unfold cell, lines. cbn. by rewrite Nat.add_succ_r. Qed.

(** Adding a character to the current line changes one cell. *)
Lemma cell_add color f l c t y x : (t <= length f)%nat ->
  cell color (Page f (l ++ [c]) t) y x =
  if (y =? length f - t)%nat && (x =? length l)%nat then vga_entry c color else cell color (Page f l t) y x.
Proof.
  intros Ht. unfold cell, lines. cbn [finished current top].
  destruct (Nat.lt_ge_cases (t + y) (length f)).
  { rewrite !lookup_app_l by done. destruct (Nat.eqb_spec y (length f - t)); [lia|done]. }
  rewrite !lookup_app_r by done. destruct (Nat.eqb_spec y (length f - t)) as [->|]; cbn [andb].
  - replace (t + (length f - t) - length f)%nat with 0%nat by lia. cbn [lookup list_lookup mbind option_bind].
    destruct (Nat.lt_ge_cases x (length l)).
    { rewrite lookup_app_l by done. destruct (Nat.eqb_spec x (length l)); [lia|done]. }
    rewrite lookup_app_r, (lookup_ge_None_2 l) by done.
    destruct (Nat.eqb_spec x (length l)) as [->|]; [by rewrite Nat.sub_diag|].
    rewrite lookup_ge_None_2; [done|]. cbn. lia.
  - rewrite !lookup_ge_None_2; [done|cbn; lia|cbn; lia].
Qed.

(** [next_row] finishes the line the screen shows. *)
Lemma next_row_spec f l t s :
  (t <= length f <= t + 24)%nat -> term_row s = Z.of_nat (length f - t) ->
  (forall y x : nat, (y < 25)%nat -> (x < 80)%nat ->
    ld (vga_buf s) (Z.of_nat y * VGA_WIDTH + Z.of_nat x) = cell (term_color s) (Page f l t) y x) ->
  displays (finish (Page f [] t) l) (next_row s).
Proof.
  intros Ht Hr Hc. unfold next_row, finish. cbn [term_row vga_buf finished top].
  destruct (Z.leb_spec VGA_HEIGHT (term_row s + 1)) as [H|H]; unfold VGA_HEIGHT in H.
  - replace (t `max` (S (length f) - 24))%nat with (S t) by lia.
    constructor; cbn [term_row term_col term_color vga_buf finished current top]; rewrite ?length_app; cbn [length]; try lia;
      [unfold VGA_HEIGHT; lia|done|]. intros y x Hy Hx. rewrite scroll_spec by (unfold VGA_WIDTH; lia). cbn [vga_buf term_color terminal_scroll].
    rewrite (cell_finish _ (Page f l (S t))), cell_top by done. cbn [finished].
    destruct (Z.ltb_spec (Z.of_nat y * VGA_WIDTH + Z.of_nat x) 1920); unfold VGA_WIDTH in *.
    + rewrite <- Hc by lia. f_equal. lia.
    + rewrite cell_blank; [done|]. cbn [finished top]. lia.
  - replace (t `max` (S (length f) - 24))%nat with t by lia.
    constructor; cbn [term_row term_col term_color vga_buf finished current top]; rewrite ?length_app; cbn [length]; try lia.
    intros y x Hy Hx. rewrite (cell_finish _ (Page f l t)) by done. cbn [finished]. by apply Hc.
Qed.

Lemma put_char_spec p s c : displays p s -> displays (emit p c) (console_put_char c s) /\ term_color (console_put_char c s) = term_color s.
Proof.
  intros [Hr Ht Hcol Hcur Hc]. split; [|by unfold console_put_char, next_row; zcases]. unfold console_put_char, emit.
  destruct p as [f l t]. cbn [finished current top] in *.
  destruct (Z.eqb_spec c 10) as [->|Hne]; [by apply (next_row_spec f l t)|].
  cbn [term_row term_col term_color vga_buf hw serial_available].
  assert (forall y x : nat, (y < 25)%nat -> (x < 80)%nat ->
    ld (st (vga_buf s) (term_row s * VGA_WIDTH + term_col s) (vga_entry c (term_color s))) (Z.of_nat y * VGA_WIDTH + Z.of_nat x)
    = cell (term_color s) (Page f (l ++ [c]) t) y x) as Hc'.
  { intros y x Hy Hx. rewrite cell_add by lia. rewrite <- Hc, Hr, Hcol by done. unfold VGA_WIDTH.
    destruct (Nat.eqb_spec y (length f - t)) as [->|]; cbn [andb]; [|rewrite ld_st_ne by lia; done].
    destruct (Nat.eqb_spec x (length l)) as [->|]; [by rewrite ld_st_eq|rewrite ld_st_ne by lia; done]. }
  destruct (Nat.eqb_spec (length l + 1) 80) as [E|E].
  - destruct (Z.leb_spec VGA_WIDTH (term_col s + 1)) as [_|H]; [|unfold VGA_WIDTH in H; lia].
    by apply (next_row_spec f (l ++ [c]) t).
  - destruct (Z.leb_spec VGA_WIDTH (term_col s + 1)) as [H|_]; [unfold VGA_WIDTH in H; lia|].
    constructor; cbn [term_row term_col term_color vga_buf finished current top]; rewrite ?length_app; cbn [length]; try lia.
    exact Hc'.
Qed.

Lemma write_app t u s : console_write (t ++ u) s = console_write u (console_write t s).
Proof. unfold console_write. by rewrite foldl_app. Qed.
Lemma console_text_spec t : forall p s, displays p s ->
  displays (foldl emit p t) (console_write t s) /\ term_color (console_write t s) = term_color s.
Proof.
  induction t as [|c t IH]; intros p s H; [done|]. cbn [console_write foldl].
  destruct (put_char_spec p s c H) as [H1 H2]. destruct (IH _ _ H1) as [H3 H4]. split; [done|]. by rewrite <- H2.
Qed.

Definition empty_page : page := Page [] [] 0.
Lemma clear_displays s : displays empty_page (console_clear s).
Proof.
  constructor; [done|cbn; lia|done|cbn; lia|]. intros y x Hy Hx. rewrite clear_spec by (unfold VGA_WIDTH; lia).
  unfold cell. cbn. destruct y; cbn; done.
Qed.

(** What the page of a text is: its characters in order without the new lines, at most 80
    to a line, and only the last 25 lines still on the screen. *)
Lemma page_text t p : top p = (length (finished p) - 24)%nat -> Forall (fun l => (length l <= 80)%nat) (finished p) ->
  (length (current p) < 80)%nat ->
  let p' := foldl emit p t in
  concat (lines p') = concat (lines p) ++ List.filter (fun c => negb (c =? 10)) t /\
  Forall (fun l => (length l <= 80)%nat) (lines p') /\ top p' = (length (finished p') - 24)%nat.
Proof.
  revert p. induction t as [|c t IH]; intros p Ht Hf Hc; cbn [foldl List.filter].
  { rewrite app_nil_r. split; [done|]. split; [|done]. unfold lines. apply Forall_app_2; [done|]. constructor; [lia|constructor]. }
  assert (forall l, (length l <= 80)%nat -> concat (lines (finish p l)) = concat (finished p) ++ l /\
    top (finish p l) = (length (finished (finish p l)) - 24)%nat /\ Forall (fun l => (length l <= 80)%nat) (finished (finish p l))) as Hfin.
  { intros l Hl. unfold finish, lines. cbn [finished current top]. rewrite !concat_app, length_app. cbn. rewrite !app_nil_r.
    split; [done|]. split; [lia|]. apply Forall_app_2; [done|]. constructor; [lia|constructor]. }
  assert (concat (lines p) = concat (finished p) ++ current p) as El.
  { unfold lines. rewrite concat_app. cbn. by rewrite app_nil_r. }
  remember (emit p c) as q eqn:Eq. unfold emit in Eq. destruct (c =? 10); cbn [negb].
  - subst q. destruct (Hfin (current p) ltac:(lia)) as (H1 & H2 & H3). rewrite El, <- H1. apply IH; [done|done|cbn; lia].
  - change (c :: ?l) with ([c] ++ l). rewrite (app_assoc (concat (lines p)) [c]). destruct (Nat.eqb_spec (length (current p) + 1) 80); subst q.
    + destruct (Hfin (current p ++ [c])) as (H1 & H2 & H3); [rewrite length_app; cbn; lia|].
      rewrite El, <- (app_assoc (concat (finished p))), <- H1. apply IH; [done|done|cbn; lia].
    + rewrite El, <- (app_assoc (concat (finished p))).
      replace (concat (finished p) ++ current p ++ [c]) with (concat (lines (Page (finished p) (current p ++ [c]) (top p)))).
      2: { unfold lines. cbn [finished current]. rewrite concat_app. cbn. by rewrite app_nil_r. }
      apply IH; [done|done|cbn; rewrite length_app; cbn; lia].
Qed.

(** ** The mirror on the serial line *)

Lemma next_row_hw s : hw (next_row s) = hw s /\ serial_available (next_row s) = serial_available s.
Proof. unfold next_row. by zcases. Qed.
Lemma put_char_serial c s : line_up (hw s) -> serial_available s = true -> is_u8 c ->
  line_up (hw (console_put_char c s)) /\ serial_available (console_put_char c s) = true /\
  tx (com1 (hw (console_put_char c s))) = tx (com1 (hw s)) ++ crlf [c].
Proof.
  intros Hl Ha Hc. unfold console_put_char, crlf. cbn [mbind list_bind app]. rewrite Ha.
  destruct (Z.eqb_spec c 10) as [->|].
  - destruct (serial_char_spec 13 _ Hl) as [Hl1 E1]; [wsolve|].
    destruct (serial_char_spec 10 _ Hl1) as [Hl2 E2]; [wsolve|].
    match goal with |- context [next_row ?x] => destruct (next_row_hw x) as [-> ->] end. cbn [hw serial_available].
    split; [done|]. split; [done|]. rewrite app_nil_r. change (u8 10) with 10. by rewrite E2, E1, <- app_assoc.
  - rewrite (u8_small c) by done. destruct (serial_char_spec c _ Hl Hc) as [Hl1 E1]. rewrite app_nil_r.
    cbn [term_row term_col term_color vga_buf hw serial_available].
    destruct (VGA_WIDTH <=? term_col s + 1); [|cbn [hw serial_available]; done].
    match goal with |- context [next_row ?x] => destruct (next_row_hw x) as [-> ->] end. cbn [hw serial_available]. done.
Qed.
Lemma put_char_unavailable c s : serial_available s = false ->
  hw (console_put_char c s) = hw s /\ serial_available (console_put_char c s) = false.
Proof.
  intros Ha. unfold console_put_char. rewrite Ha. cbn [serial_write_char negb].
  replace (if c =? 10 then hw s else hw s) with (hw s) by (by destruct (c =? 10)).
  repeat (match goal with |- context [next_row ?x] => destruct (next_row_hw x) as [-> ->] | |- context [if ?b then _ else _] => destruct b end); done.
Qed.
Lemma write_serial t : Forall is_u8 t -> forall s, (serial_available s = true -> line_up (hw s)) ->
  tx (com1 (hw (console_write t s))) = tx (com1 (hw s)) ++ (if serial_available s then crlf t else []).
Proof.
  induction 1 as [|c t Hc Ht IH]; intros s Hl; [cbn; destruct (serial_available s); by rewrite app_nil_r|].
  cbn [console_write foldl]. change (foldl _ ?x t) with (console_write t x). destruct (serial_available s) eqn:Ha.
  - destruct (put_char_serial c s (Hl eq_refl) Ha Hc) as (H1 & H2 & H3). rewrite IH by done. rewrite H2, H3, <- app_assoc. f_equal.
    unfold crlf. cbn. rewrite app_nil_r. done.
  - destruct (put_char_unavailable c s Ha) as [H1 H2]. rewrite IH by (rewrite H2; done). rewrite H1, H2. done.
Qed.

(** C27. The console shows what is written. After [console_init] and the printing of any
    text, the 80 x 25 screen holds exactly the last 25 lines of the text, wrapped at the
    eightieth column, padded with blanks, the cursor at its end; nothing of the text is
    lost or reordered; and, when a serial port was found, the same text went out on the
    serial line with CR/LF line ends. *)
Theorem console_write_correct s t : Forall is_u8 t ->
  let s' := console_write t (console_init s) in
  let p := foldl emit empty_page t in
  displays p s' /\ top p = (length (finished p) - 24)%nat /\
  concat (lines p) = List.filter (fun c => negb (c =? 10)) t /\ Forall (fun l => (length l <= 80)%nat) (lines p) /\
  tx (com1 (hw s')) = tx (com1 (hw s)) ++ (if fitted (com1 (hw s)) then crlf t else []).
Proof.
  intros Ht. unfold console_init. destruct (serial_init_spec (hw s)) as (Ha & Hx & Hl).
  destruct (serial_init (hw s)) as [av m]. cbn [fst snd] in *. subst av.
  split; [apply console_text_spec, clear_displays|].
  destruct (page_text t empty_page) as (H1 & H2 & H3); [done|constructor|cbn; lia|].
  split; [done|]. split; [exact H1|]. split; [done|].
  rewrite write_serial by done. cbn [console_clear hw serial_available]. by rewrite Hx.
Qed.
Definition console0 : console := Console ∅ 3 4 0x0F false machine0.
Lemma console_write_correct_witness :
  tx (com1 (hw (console_write [79; 75; 10] (console_init console0)))) = [79; 75; 13; 10].
Proof.
  apply (console_write_correct console0 [79; 75; 10]). repeat (apply Forall_cons_2; [wsolve|]). apply Forall_nil_2.
Defined.
