(* ===== verification/Keyboard.v ===== *)
(** * Keyboard (drivers/keyboard.c)

    The interrupt handler decodes scan codes, edits the line buffer and echoes on the
    console; [keyboard_get_line] waits for the line and copies it out. The reference is a
    line editor on lists of characters. *)
From Stdlib Require Import String.
From S2P Require Import Prelude Mem CString Devices Console.
Local Close Scope string_scope.

Definition KEYBOARD_DATA_PORT : Z := 0x60.
Definition INPUT_BUFFER_SIZE : Z := 256.

Definition scancode_to_ascii : list Z :=
  [0; 27] ++ str "1234567890-=" ++ [8; 9] ++ str "qwertyuiop[]" ++ [10; 0] ++
  str "asdfghjkl;'`" ++ [0] ++ str "\zxcvbnm,./" ++ [0; 42; 0; 32; 0] ++ replicate 15 0 ++
  [45; 0; 0; 0; 43] ++ replicate 49 0.
Definition scancode_to_ascii_shift : list Z :=
  [0; 27] ++ str "!@#$%^&*()_+" ++ [8; 9] ++ str "QWERTYUIOP{}" ++ [10; 0] ++
  str "ASDFGHJKL:" ++ [34] ++ str "~" ++ [0] ++ str "|ZXCVBNM<>?" ++ [0; 42; 0; 32; 0] ++ replicate 15 0 ++
  [45; 0; 0; 0; 43] ++ replicate 49 0.

(** The file-scope state and the console it echoes on. *)
Record keyboard := Keyboard {
  shift_pressed : Z; caps_lock : Z; input_buffer : mem; input_buffer_pos : Z; line_ready : Z;
  con : console;
}.

Definition on_hw (f : machine -> machine) (s : console) : console :=
  Console (vga_buf s) (term_row s) (term_col s) (term_color s) (serial_available s) (f (hw s)).
Definition set_con (c : console) (k : keyboard) : keyboard :=
  Keyboard (shift_pressed k) (caps_lock k) (input_buffer k) (input_buffer_pos k) (line_ready k) c.

Definition keyboard_init (m : machine) : machine :=
  let '(mask, m) := inb PIC1_DATA m in
  let mask := u8 (Z.land mask (Z.lnot (Z.shiftl 1 1))) in
  outb PIC1_DATA mask m.

(** The character of a key press: the table, then caps lock. *)
Definition ascii_of (scancode shift caps : Z) : Z :=
  let ascii := if negb (shift =? 0) then aget scancode_to_ascii_shift scancode
               else aget scancode_to_ascii scancode in
  if negb (caps =? 0) && (shift =? 0) && (97 <=? ascii) && (ascii <=? 122) then ascii - 32 else ascii.

(** Backspace, Enter and ordinary characters. *)
Definition key_char (ascii : Z) (k : keyboard) : keyboard :=
  if ascii =? 8 then
    if 0 <? input_buffer_pos k then
      Keyboard (shift_pressed k) (caps_lock k) (input_buffer k) (input_buffer_pos k - 1) (line_ready k)
        (terminal_backspace (con k))
    else k
  else if ascii =? 10 then
    let c := terminal_put_char 10 (con k) in
    Keyboard (shift_pressed k) (caps_lock k) (st (input_buffer k) (input_buffer_pos k) 0) (input_buffer_pos k) 1 c
  else if negb (ascii =? 0) then
    if input_buffer_pos k <? INPUT_BUFFER_SIZE - 1 then
      Keyboard (shift_pressed k) (caps_lock k) (st (input_buffer k) (input_buffer_pos k) ascii)
        (input_buffer_pos k + 1) (line_ready k) (terminal_put_char ascii (con k))
    else k
  else k.

(** The handler, given the scan code the data port returned. *)
Definition keyboard_handler (scancode : Z) (k : keyboard) : keyboard :=
  let eoi k := set_con (on_hw (pic_send_eoi 1) (con k)) k in
  if negb (Z.land scancode 0x80 =? 0) then
    let scancode := u8 (Z.land scancode 0x7F) in
    if (scancode =? 0x2A) || (scancode =? 0x36)
    then eoi (Keyboard 0 (caps_lock k) (input_buffer k) (input_buffer_pos k) (line_ready k) (con k))
    else eoi k
  else if (scancode =? 0x2A) || (scancode =? 0x36) then
    eoi (Keyboard 1 (caps_lock k) (input_buffer k) (input_buffer_pos k) (line_ready k) (con k))
  else if scancode =? 0x3A then
    eoi (Keyboard (shift_pressed k) (if caps_lock k =? 0 then 1 else 0) (input_buffer k) (input_buffer_pos k) (line_ready k) (con k))
  else if 128 <=? scancode then eoi k
  else eoi (key_char (ascii_of scancode (shift_pressed k) (caps_lock k)) k).

(** [hlt] returns after interrupts; [batches] are the scan codes handled during each wait.
    [None] is a caller that is still waiting. *)
Definition handle_all (codes : list Z) (k : keyboard) : keyboard :=
  foldl (fun k c => keyboard_handler c k) k codes.
Fixpoint wait_line (batches : list (list Z)) (k : keyboard) : option keyboard :=
  if negb (line_ready k =? 0) then Some k
  else match batches with [] => None | b :: bs => wait_line bs (handle_all b k) end.

(** The copy loop runs [min(input_buffer_pos, max_len - 1)] times. The caller's memory is
    the state beside the driver's. *)
Definition keyboard_get_line (buffer max_len : Z) (batches : list (list Z)) (x : mem * keyboard) : option (mem * keyboard) :=
  let '(m, k) := x in
  if (buffer =? 0) || (max_len =? 0) then Some x
  else
    let k := Keyboard (shift_pressed k) (caps_lock k) (input_buffer k) 0 0 (con k) in
    match wait_line batches k with
    | None => None
    | Some k =>
        let n := Z.min (input_buffer_pos k) (max_len - 1) in
        let m := for_range 0 n (fun i m => st m (buffer + i) (ld (input_buffer k) i)) m in
        Some (st m (buffer + n) 0, k)
    end.

(** ** The reference line editor *)

(** What one scan code does: the new shift and caps states and the character, if any. *)
Definition press (shift caps code : Z) : Z * Z * option Z :=
  if 128 <=? code then ((if (code =? 0xAA) || (code =? 0xB6) then 0 else shift), caps, None)
  else if (code =? 0x2A) || (code =? 0x36) then (1, caps, None)
  else if code =? 0x3A then (shift, (if caps =? 0 then 1 else 0), None)
  else let c := ascii_of code shift caps in (shift, caps, if c =? 0 then None else Some c).
Fixpoint typed (shift caps : Z) (codes : list Z) : list Z :=
  match codes with
  | [] => []
  | code :: codes => let '(shift, caps, o) := press shift caps code in
                     option_list o ++ typed shift caps codes
  end.

(** Backspace removes the last character; the line holds 255. *)
Definition edit (line : list Z) (c : Z) : list Z :=
  if c =? 8 then removelast line
  else if (length line <? 255)%nat then line ++ [c] else line.

(** ** Erasing on the screen *)

Lemma backspace_spec f l c t s : displays (Page f (l ++ [c]) t) s ->
  displays (Page f l t) (console_backspace s).
Proof.
  intros [Hr Ht Hcol Hcur Hc]. cbn [finished current top] in *. rewrite length_app in *. cbn [length] in *.
  unfold console_backspace. destruct (Z.ltb_spec 0 (term_col s)); [|lia].
  constructor; cbn [term_row term_col term_color vga_buf finished current top]; try lia.
  intros y x Hy Hx. specialize (Hc y x Hy Hx). rewrite cell_add in Hc by lia. unfold VGA_WIDTH in *.
  destruct (Nat.eqb_spec y (length f - t)) as [->|]; cbn [andb] in Hc; [|rewrite ld_st_ne by lia; done].
  destruct (Nat.eqb_spec x (length l)) as [E|E]; [rewrite E in *|rewrite ld_st_ne by lia; done].
  replace (Z.of_nat (length f - t) * 80 + Z.of_nat (length l)) with (term_row s * 80 + (term_col s - 1)) by lia. rewrite ld_st_eq.
  unfold cell, lines. cbn [finished current top]. rewrite lookup_app_r by lia.
  replace (t + (length f - t) - length f)%nat with 0%nat by lia. cbn. by rewrite lookup_ge_None_2.
Qed.

(** The same when the character was the eightieth of its line. *)
Lemma backspace_wrap_spec f l c t s : length l = 79%nat -> (t <= length f)%nat ->
  displays (Page (f ++ [l ++ [c]]) [] t) s -> displays (Page f l t) (console_backspace s).
Proof.
  intros Hl Htf [Hr Ht Hcol Hcur Hc]. cbn [finished current top] in *. rewrite length_app in *. cbn [length] in *.
  unfold console_backspace. destruct (Z.ltb_spec 0 (term_col s)); [lia|]. destruct (Z.ltb_spec 0 (term_row s)); [|lia].
  constructor; cbn [term_row term_col term_color vga_buf finished current top]; unfold VGA_WIDTH; try lia.
  intros y x Hy Hx. specialize (Hc y x Hy Hx). rewrite (cell_finish _ (Page f (l ++ [c]) t)) in Hc by done. cbn [finished] in Hc. rewrite cell_add in Hc by lia. unfold VGA_WIDTH in *.
  destruct (Nat.eqb_spec y (length f - t)) as [->|]; cbn [andb] in Hc; [|rewrite ld_st_ne by lia; done].
  destruct (Nat.eqb_spec x (length l)) as [E|E]; [rewrite E in *|rewrite ld_st_ne by lia; done].
  replace (Z.of_nat (length f - t) * 80 + Z.of_nat (length l)) with ((term_row s - 1) * 80 + (80 - 1)) by lia. rewrite ld_st_eq.
  unfold cell, lines. cbn [finished current top]. rewrite lookup_app_r by lia.
  replace (t + (length f - t) - length f)%nat with 0%nat by lia. cbn. by rewrite lookup_ge_None_2.
Qed.

(** The screen shows the page [p] followed by [line], which may have scrolled further. *)
Definition echoes (p : page) (line : list Z) (s : console) : Prop :=
  exists t, (t <= length (finished p))%nat /\
    displays (Page (finished (foldl emit p line)) (current (foldl emit p line)) t) s.

Lemma emit_text p c t : finished (emit (Page (finished p) (current p) t) c) = finished (emit p c) /\
  current (emit (Page (finished p) (current p) t) c) = current (emit p c).
Proof. unfold emit. cbn [current finished]. destruct (c =? 10); [done|]. by destruct (_ =? _)%nat. Qed.
Lemma page_eta p : p = Page (finished p) (current p) (top p).
Proof. by destruct p. Qed.

(** A line without new lines fills rows of 80. *)
Lemma emit_length line : forall p, Forall (fun c => c <> 10) line ->
  (80 * length (finished (foldl emit p line)) + length (current (foldl emit p line)) =
   80 * length (finished p) + length (current p) + length line)%nat.
Proof.
  induction line as [|c line IH]; intros p Hf; cbn [foldl length]; [lia|].
  apply Forall_cons_iff in Hf as [Hc Hf]. rewrite IH by done. unfold emit.
  destruct (Z.eqb_spec c 10); [done|]. destruct (Nat.eqb_spec (length (current p) + 1) 80); cbn [finish finished current];
    rewrite ?length_app; cbn [length]; lia.
Qed.

Lemma emit_current line : forall p, (length (current p) < 80)%nat -> (length (current (foldl emit p line)) < 80)%nat.
Proof.
  induction line as [|c line IH]; intros p Hp; cbn [foldl]; [done|]. apply IH. unfold emit.
  destruct (c =? 10); [cbn; lia|]. destruct (Nat.eqb_spec (length (current p) + 1) 80); cbn [finish current]; rewrite ?length_app; cbn [length]; lia.
Qed.

Lemma echo_char p line c s : echoes p line s -> (length (current p) < 80)%nat -> (length line <= 255)%nat -> Forall (fun c => c <> 10) line ->
  echoes p (line ++ [c]) (console_put_char c s).
Proof.
  intros (t & Ht & Hd) Hp Hl Hf. pose proof (emit_length line p Hf) as Hlen.
  destruct (put_char_spec _ _ c Hd) as [Hd' _]. unfold echoes. rewrite foldl_app. cbn [foldl].
  destruct (emit_text (foldl emit p line) c t) as [E1 E2]. 
  match type of Hd' with displays ?q _ => rewrite (page_eta q), E1, E2 in Hd' end.
  eexists. split; [|exact Hd']. clear Hd Hd' E1 E2. remember (foldl emit p line) as q. unfold emit. cbn [current finished top].
  destruct (c =? 10); [|destruct (_ =? _)%nat]; cbn [top finish finished]; lia.
Qed.

Lemma echo_erase p line c s : echoes p (line ++ [c]) s -> c <> 10 -> (length (finished p) <= length (finished (foldl emit p line)))%nat ->
  echoes p line (console_backspace s).
Proof.
  intros (t & Ht & Hd) Hc Hm. exists t. split; [done|]. rewrite foldl_app in Hd. cbn [foldl] in Hd.
  remember (foldl emit p line) as q eqn:Eq. clear Eq. unfold emit in Hd.
  destruct (Z.eqb_spec c 10); [done|]. destruct (Nat.eqb_spec (length (current q) + 1) 80).
  - apply (backspace_wrap_spec _ _ c); [lia|lia|exact Hd].
  - by apply (backspace_spec _ _ c).
Qed.

(** ** The driver while a line is typed *)

Record typing (p : page) (line : list Z) (k : keyboard) : Prop := {
  ty_pos : input_buffer_pos k = len line;
  ty_len : (length line <= 255)%nat;
  ty_bytes : bytes (input_buffer k) 0 line;
  ty_chars : Forall (fun c => c <> 0 /\ c <> 10) line;
  ty_page : (length (current p) < 80)%nat;
}.
(** A line in progress, and one that Enter has completed. *)
Definition open_line (p : page) (line : list Z) (k : keyboard) : Prop :=
  typing p line k /\ line_ready k = 0 /\ echoes p line (con k).
Definition closed_line (p : page) (line : list Z) (k : keyboard) : Prop :=
  typing p line k /\ line_ready k = 1 /\ ld (input_buffer k) (len line) = 0 /\ echoes p (line ++ [10]) (con k).

Lemma no_newline line : Forall (fun c : Z => c <> 0 /\ c <> 10) line -> Forall (fun c => c <> 10) line.
Proof. intros H. refine (Forall_impl _ _ H). tauto. Qed.

Lemma key_char_open p line k c : c <> 0 -> c <> 10 -> open_line p line k -> open_line p (edit line c) (key_char c k).
Proof.
  intros H0 H10 [[Hp Hl Hb Hc Hpg] [Hr He]]. unfold key_char, edit.
  destruct (Z.eqb_spec c 8) as [->|H8].
  - destruct line as [|c line _] using rev_ind.
    { cbn in Hp. rewrite Hp. cbn. split; [by constructor|done]. }
    rewrite removelast_last. rewrite length_app in *. cbn [length] in *. apply Forall_app in Hc as [Hc Hc1].
    apply Forall_cons_iff in Hc1 as [[Hc0 Hc1] _]. destruct (Z.ltb_spec 0 (input_buffer_pos k)); [|lia].
    split; [constructor; cbn [input_buffer_pos input_buffer]; try done; [lia|lia|by apply bytes_app in Hb as [Hb _]]|].
    split; [done|]. cbn [con]. apply (echo_erase _ _ c); [done|done|].
    pose proof (emit_length line p (no_newline _ Hc)). pose proof (emit_current line p Hpg). lia.
  - destruct (Z.eqb_spec c 10); [done|]. destruct (Z.eqb_spec c 0); [done|]. cbn [negb]. unfold INPUT_BUFFER_SIZE.
    destruct (Z.ltb_spec (input_buffer_pos k) (256 - 1)), (Nat.ltb_spec (length line) 255); try lia; [|split; [by constructor|done]].
    split; [constructor; cbn [input_buffer_pos input_buffer]; rewrite ?length_app; cbn [length]; try lia|split; [done|]].
    + apply bytes_app. rewrite Hp, Z.add_0_l. split; [|by cbn; rewrite ld_st_eq].
      apply (bytes_same (input_buffer k)); [|done]. intros b Hb'. apply ld_st_ne. lia.
    + apply Forall_app. split; [done|]. by constructor.
    + cbn [con]. apply echo_char; [done|done|done|by apply no_newline].
Qed.

Lemma key_char_enter p line k : open_line p line k -> closed_line p line (key_char 10 k).
Proof.
  intros [[Hp Hl Hb Hc Hpg] [Hr He]]. unfold key_char. cbn [Z.eqb Pos.eqb].
  split; [constructor; cbn [input_buffer_pos input_buffer]; try done|]. 
  - apply (bytes_same (input_buffer k)); [|done]. intros b Hb'. apply ld_st_ne. lia.
  - split; [done|]. cbn [input_buffer con]. rewrite Hp, ld_st_eq. split; [done|].
    apply echo_char; [done|done|lia|by apply no_newline].
Qed.

(** Only the line, its buffer and the screen matter. *)
Lemma open_line_same p line k k' : input_buffer k' = input_buffer k -> input_buffer_pos k' = input_buffer_pos k ->
  line_ready k' = line_ready k -> (forall q, displays q (con k) -> displays q (con k')) -> open_line p line k -> open_line p line k'.
Proof.
  intros E1 E2 E3 Hd [[Hp Hl Hb Hc Hpg] [Hr (t & Ht & He)]].
  split; [constructor; rewrite ?E1, ?E2; done|]. rewrite E3. split; [done|]. exists t. auto.
Qed.
Lemma closed_line_same p line k k' : input_buffer k' = input_buffer k -> input_buffer_pos k' = input_buffer_pos k ->
  line_ready k' = line_ready k -> (forall q, displays q (con k) -> displays q (con k')) -> closed_line p line k -> closed_line p line k'.
Proof.
  intros E1 E2 E3 Hd [[Hp Hl Hb Hc Hpg] [Hr [Hz (t & Ht & He)]]].
  split; [constructor; rewrite ?E1, ?E2; done|]. rewrite E3, E1. split; [done|]. split; [done|]. exists t. auto.
Qed.
Lemma displays_hw q f s : displays q s -> displays q (on_hw f s).
Proof. intros [H1 H2 H3 H4 H5]. by constructor. Qed.

Lemma byte_all (P : Z -> bool) : forallb P (seqZ 0 256) = true -> forall c, is_u8 c -> P c = true.
Proof. rewrite List.forallb_forall. intros H c Hc. apply H, list_elem_of_In, elem_of_seqZ. wsolve. Qed.

(** The break bit of a scan code, and the code without it. *)
Lemma break_code code : is_u8 code ->
  negb (Z.land code 0x80 =? 0) = (128 <=? code) /\ (128 <= code -> u8 (Z.land code 0x7F) = code - 128).
Proof.
  intros Hc.
  pose proof (byte_all (fun c => eqb (negb (Z.land c 0x80 =? 0)) (128 <=? c) && ((c <? 128) || (u8 (Z.land c 0x7F) =? c - 128)))
    ltac:(vm_compute; reflexivity) code Hc) as H.
  apply andb_true_iff in H as [H1 H2]. apply eqb_prop in H1. split; [done|]. intros Hge.
  apply orb_true_iff in H2 as [H2|H2]; [apply Z.ltb_lt in H2; lia|by apply Z.eqb_eq].
Qed.

(** One interrupt does what the reference does with the scan code, and ends with the
    end-of-interrupt command. *)
Definition pressed (code : Z) (k : keyboard) : keyboard :=
  let '(sh, ca, o) := press (shift_pressed k) (caps_lock k) code in
  match o with
  | None => Keyboard sh ca (input_buffer k) (input_buffer_pos k) (line_ready k) (con k)
  | Some c => key_char c k
  end.
Lemma handler_eq code k : is_u8 code ->
  keyboard_handler code k = set_con (on_hw (pic_send_eoi 1) (con (pressed code k))) (pressed code k).
Proof.
  intros Hc. destruct (break_code code Hc) as [Hb1 Hb2]. unfold keyboard_handler, pressed, press. rewrite Hb1.
  destruct k as [sh ca b p r c]. cbn [shift_pressed caps_lock input_buffer input_buffer_pos line_ready con].
  destruct (Z.leb_spec 128 code).
  - rewrite Hb2 by done. replace (code - 128 =? 42) with (code =? 170) by (apply eq_true_iff_eq; lia).
    replace (code - 128 =? 54) with (code =? 182) by (apply eq_true_iff_eq; lia). by destruct (_ || _).
  - destruct (_ || _); [done|]. destruct (code =? 58); [done|]. destruct (Z.eqb_spec (ascii_of code sh ca) 0) as [->|]; done.
Qed.
Lemma key_char_mods c k : shift_pressed (key_char c k) = shift_pressed k /\ caps_lock (key_char c k) = caps_lock k.
Proof. unfold key_char. by repeat match goal with |- context [if ?b then _ else _] => destruct b end. Qed.
Lemma press_some sh ca code sh' ca' c : press sh ca code = (sh', ca', Some c) -> sh' = sh /\ ca' = ca /\ c <> 0.
Proof.
  unfold press. destruct (128 <=? code); [done|]. destruct (_ || _); [done|]. destruct (code =? 58); [done|].
  destruct (Z.eqb_spec (ascii_of code sh ca) 0); [done|]. intros [= <- <- <-]. done.
Qed.

Lemma handler_mods code k : is_u8 code ->
  let '(sh, ca, _) := press (shift_pressed k) (caps_lock k) code in
  shift_pressed (keyboard_handler code k) = sh /\ caps_lock (keyboard_handler code k) = ca.
Proof.
  intros Hc. rewrite handler_eq by done. cbn [set_con shift_pressed caps_lock]. unfold pressed.
  destruct (press _ _ code) as [[sh ca] [c|]] eqn:E; [|done]. apply press_some in E as (-> & -> & _). apply key_char_mods.
Qed.

Lemma handler_open p line code k : is_u8 code -> open_line p line k ->
  match snd (press (shift_pressed k) (caps_lock k) code) with
  | None => open_line p line (keyboard_handler code k)
  | Some c => if c =? 10 then closed_line p line (keyboard_handler code k)
              else open_line p (edit line c) (keyboard_handler code k)
  end.
Proof.
  intros Hc Ho. rewrite handler_eq by done. unfold pressed.
  destruct (press (shift_pressed k) (caps_lock k) code) as [[sh ca] [c|]] eqn:E; cbn [snd].
  - apply press_some in E as (-> & -> & Hc0). destruct (Z.eqb_spec c 10) as [->|].
    + apply (closed_line_same _ _ (key_char 10 k)); try done; [intros q Hq; by apply displays_hw|]. by apply key_char_enter.
    + apply (open_line_same _ _ (key_char c k)); try done; [intros q Hq; by apply displays_hw|]. by apply key_char_open.
  - apply (open_line_same _ _ k); try done. intros q Hq. by apply displays_hw.
Qed.
Lemma handler_closed p line code k : is_u8 code -> closed_line p line k ->
  snd (press (shift_pressed k) (caps_lock k) code) = None -> closed_line p line (keyboard_handler code k).
Proof.
  intros Hc Ho. rewrite handler_eq by done. unfold pressed.
  destruct (press (shift_pressed k) (caps_lock k) code) as [[sh ca] [c|]]; [done|]. intros _.
  apply (closed_line_same _ _ k); try done. intros q Hq. by apply displays_hw.
Qed.

(** What is typed continues with the modifier state the handler leaves. *)
Lemma typed_cons k code codes : is_u8 code ->
  typed (shift_pressed k) (caps_lock k) (code :: codes) =
  option_list (snd (press (shift_pressed k) (caps_lock k) code)) ++
  typed (shift_pressed (keyboard_handler code k)) (caps_lock (keyboard_handler code k)) codes.
Proof.
  intros Hc. pose proof (handler_mods code k Hc) as H. cbn [typed].
  destruct (press _ _ code) as [[sh ca] o]. destruct H as [-> ->]. done.
Qed.
Lemma typed_app k l1 : forall l2, Forall is_u8 l1 ->
  typed (shift_pressed k) (caps_lock k) (l1 ++ l2) =
  typed (shift_pressed k) (caps_lock k) l1 ++ typed (shift_pressed (handle_all l1 k)) (caps_lock (handle_all l1 k)) l2.
Proof.
  revert k. induction l1 as [|c l1 IH]; intros k l2 Hf; [done|]. apply Forall_cons_iff in Hf as [Hc Hf].
  cbn [app]. rewrite !typed_cons by done. rewrite IH by done. by rewrite app_assoc.
Qed.

Lemma handle_closed codes : forall p line k, Forall is_u8 codes -> closed_line p line k ->
  typed (shift_pressed k) (caps_lock k) codes = [] -> closed_line p line (handle_all codes k).
Proof.
  induction codes as [|c codes IH]; intros p line k Hf Hk Ht; [done|]. apply Forall_cons_iff in Hf as [Hc Hf].
  rewrite typed_cons in Ht by done. apply app_eq_nil in Ht as [Ht1 Ht2]. apply IH; [done| |done].
  apply handler_closed; [done|done|]. by destruct (snd _).
Qed.

(** A batch of scan codes without Enter edits the line; with Enter it closes it. *)
Lemma handle_open codes : forall p line k, Forall is_u8 codes -> open_line p line k ->
  let chars := typed (shift_pressed k) (caps_lock k) codes in
  (10 ∉ chars -> open_line p (foldl edit line chars) (handle_all codes k)) /\
  (forall pre, chars = pre ++ [10] -> 10 ∉ pre -> closed_line p (foldl edit line pre) (handle_all codes k)).
Proof.
  induction codes as [|c codes IH]; intros p line k Hf Hk.
  { split; [done|]. intros pre E. by destruct pre. }
  apply Forall_cons_iff in Hf as [Hc Hf]. cbv zeta. rewrite typed_cons by done.
  pose proof (handler_open p line c k Hc Hk) as Hh. change (handle_all (c :: codes) k) with (handle_all codes (keyboard_handler c k)).
  destruct (snd (press _ _ c)) as [a|]; cbn [option_list app].
  - destruct (Z.eqb_spec a 10) as [E10|Hne]; [subst a|].
    + split; [intros H; destruct H; left|]. intros pre E Hn. destruct pre as [|x pre].
      * injection E as E. by apply handle_closed.
      * injection E as <- _. destruct Hn. left.
    + destruct (IH p (edit line a) (keyboard_handler c k) Hf Hh) as [IH1 IH2]. split.
      * intros Hn. cbn [foldl]. apply IH1. intros Hi. apply Hn. by right.
      * intros pre E Hn. destruct pre as [|x pre]; [injection E as E _; congruence|]. injection E as <- E. cbn [foldl].
        apply IH2; [done|]. intros Hi. apply Hn. by right.
  - apply IH; done.
Qed.

Lemma split_first {A} (x : A) pre : forall l tail, x ∉ pre -> pre ++ [x] = l ++ x :: tail -> l = pre /\ tail = [].
Proof.
  induction pre as [|a pre IH]; intros [|b l] tail Hn E; cbn [app] in E.
  - by injection E as <-.
  - injection E as _ E. by destruct l.
  - injection E as -> _. destruct Hn. left.
  - injection E as <- E. destruct (IH l tail) as [-> ->]; [|done|done]. intros Hi. apply Hn. by right.
Qed.
Lemma split_rest {A} (x : A) l : forall rest pre, x ∉ l -> l ++ rest = pre ++ [x] -> exists pre', pre = l ++ pre' /\ rest = pre' ++ [x].
Proof.
  induction l as [|a l IH]; intros rest pre Hn E; [by exists pre|]. destruct pre as [|b pre]; cbn [app] in E.
  - injection E as -> _. destruct Hn. left.
  - injection E as -> E. destruct (IH rest pre) as (pre' & -> & ->); [|done|by exists pre']. intros Hi. apply Hn. by right.
Qed.

Lemma wait_line_spec batches : forall p line k pre, Forall (Forall is_u8) batches -> open_line p line k ->
  typed (shift_pressed k) (caps_lock k) (concat batches) = pre ++ [10] -> 10 ∉ pre ->
  exists k', wait_line batches k = Some k' /\ closed_line p (foldl edit line pre) k'.
Proof.
  induction batches as [|b bs IH]; intros p line k pre Hf Hk Ht Hn; [by destruct pre|].
  apply Forall_cons_iff in Hf as [Hb Hf]. cbn [concat wait_line] in *. rewrite (proj1 (proj2 Hk)). cbn [Z.eqb negb].
  rewrite typed_app in Ht by done. destruct (handle_open b p line k Hb Hk) as [H1 H2]. cbv zeta in H1, H2.
  remember (typed (shift_pressed k) (caps_lock k) b) as cs eqn:Ecs. clear Ecs. destruct (decide (10 ∈ cs)) as [Hi|Hi].
  - apply list_elem_of_split in Hi as (l1 & l2 & ->). rewrite <- app_assoc in Ht. cbn [app] in Ht.
    destruct (split_first 10 pre l1 _ Hn (eq_sym Ht)) as [-> Hl2]. apply app_eq_nil in Hl2 as [-> _].
    exists (handle_all b k). specialize (H2 pre eq_refl Hn). split; [|done]. destruct bs; cbn [wait_line]; by rewrite (proj1 (proj2 H2)).
  - destruct (split_rest 10 cs _ pre Hi Ht) as (pre' & -> & Ht'). rewrite foldl_app.
    apply (IH p _ (handle_all b k) pre'); [done|auto|done|]. intros Hx. apply Hn, elem_of_app. by right.
Qed.

(** Copying a line out of the buffer. *)
Lemma copy_line_spec buf line m buffer n : 0 <= n <= len line -> bytes buf 0 line -> Forall (fun c => c <> 0) line ->
  cstr (st (for_range 0 n (fun i m => st m (buffer + i) (ld buf i)) m) (buffer + n) 0) buffer (take (Z.to_nat n) line).
Proof.
  intros Hn Hb Hz. apply cstr_bytes. rewrite length_take_le by lia. rewrite Z2Nat.id, ld_st_eq by lia.
  split; [|split; [by apply Forall_take|done]].
  apply (bytes_same (for_range 0 n (fun i m => st m (buffer + i) (ld buf i)) m)).
  { intros b. rewrite length_take_le by lia. intros Hr. apply ld_st_ne. lia. }
  apply (for_range_ind (fun i m => bytes m buffer (take (Z.to_nat i) line))); [lia|done|].
  intros i m' Hi IH. destruct (lookup_lt_is_Some_2 line (Z.to_nat i)) as [v Hv]; [lia|].
  replace (Z.to_nat (i + 1)) with (S (Z.to_nat i)) by lia. rewrite (take_S_r _ _ v) by done. apply bytes_app.
  rewrite length_take_le by lia. rewrite Z2Nat.id by lia. split.
  - apply (bytes_same m'); [|done]. intros b. rewrite length_take_le by lia. intros Hr. apply ld_st_ne. lia.
  - cbn [bytes]. rewrite ld_st_eq. split; [|done]. rewrite <- (take_drop (Z.to_nat i) line) in Hb. apply bytes_app in Hb as [_ Hb].
    rewrite length_take_le in Hb by lia. rewrite (drop_S _ v) in Hb by done. cbn [bytes] in Hb. rewrite <- (proj1 Hb). f_equal. lia.
Qed.

Lemma copy_line_out buf m buffer n : 0 <= n -> same_out m (st (for_range 0 n (fun i m => st m (buffer + i) (ld buf i)) m) (buffer + n) 0) buffer (n + 1).
Proof.
  intros Hn b Hb. rewrite ld_st_ne by lia. apply (for_range_ind (fun i m' => i <= n -> ld m' b = ld m b)); [lia|done| |lia].
  intros i m' Hi IH _. rewrite ld_st_ne by lia. apply IH. lia.
Qed.
Lemma get_line_spec p buffer max_len batches m k pre :
  displays p (con k) -> buffer <> 0 -> 0 < max_len -> Forall (Forall is_u8) batches ->
  typed (shift_pressed k) (caps_lock k) (concat batches) = pre ++ [10] -> 10 ∉ pre ->
  exists m' k', keyboard_get_line buffer max_len batches (m, k) = Some (m', k') /\
    cstr m' buffer (take (Z.to_nat (max_len - 1)) (foldl edit [] pre)) /\
    echoes p (foldl edit [] pre ++ [10]) (con k') /\ same_out m m' buffer max_len.
Proof.
  intros Hd Hb Hm Hf Ht Hn. unfold keyboard_get_line.
  destruct (Z.eqb_spec buffer 0); [done|]. destruct (Z.eqb_spec max_len 0); [lia|]. cbn [orb].
  destruct (wait_line_spec batches p [] (Keyboard (shift_pressed k) (caps_lock k) (input_buffer k) 0 0 (con k)) pre)
    as (k' & -> & [[Hp Hl Hby Hc _] (_ & _ & He)]); [done| |done|done|].
  { split; [constructor; cbn; first [done | exact (d_cur _ _ Hd) | lia | constructor]|].
    split; [done|].
    exists (top p). split; [apply (d_top _ _ Hd)|]. cbn [foldl con]. by rewrite <- page_eta. }
  eexists _, k'. split; [done|]. rewrite Hp. split; [|split; [done|]].
  2:{ apply (same_out_sub _ _ buffer (Z.min (len (foldl edit [] pre)) (max_len - 1) + 1)); [apply copy_line_out|..]; lia. }
  replace (take (Z.to_nat (max_len - 1)) (foldl edit [] pre)) with
    (take (Z.to_nat (Z.min (len (foldl edit [] pre)) (max_len - 1))) (foldl edit [] pre)).
  - apply copy_line_spec; [lia|done|]. refine (Forall_impl _ _ Hc). tauto.
  - destruct (Z.le_gt_cases (len (foldl edit [] pre)) (max_len - 1)).
    + rewrite !take_ge by lia. done.
    + by rewrite Z.min_r by lia.
Qed.

(** C26. [keyboard_get_line] returns the line that was typed. Whatever the driver's state,
    the console showing any page, and whatever scan codes the interrupts bring, as long
    as they type [pre] and then Enter, the call returns with the caller's buffer holding
    [pre] as edited by its backspaces, cut to the buffer's size and terminated, and the
    screen shows the old page followed by that line. *)
Theorem keyboard_get_line_correct p buffer max_len batches m k pre :
  displays p (con k) -> buffer <> 0 -> 0 < max_len -> Forall (Forall is_u8) batches ->
  typed (shift_pressed k) (caps_lock k) (concat batches) = pre ++ [10] -> 10 ∉ pre ->
  exists m' k', keyboard_get_line buffer max_len batches (m, k) = Some (m', k') /\
    cstr m' buffer (take (Z.to_nat (max_len - 1)) (foldl edit [] pre)) /\
    echoes p (foldl edit [] pre ++ [10]) (con k').
Proof.
  intros Hd Hb Hm Hf Ht Hn. destruct (get_line_spec p buffer max_len batches m k pre Hd Hb Hm Hf Ht Hn) as (m' & k' & E & H1 & H2 & _).
  by exists m', k'.
Qed.

Definition keyboard0 : keyboard := Keyboard 0 0 ∅ 7 1 (console_clear console0).
(** Shift-L, s, x, backspace, Enter, in two batches. *)
Definition demo_codes : list (list Z) := [[0x2A; 0x26; 0xA6; 0xAA]; [0x1F; 0x2D; 0x0E; 0x1C]].
Lemma keyboard_get_line_correct_witness : exists m' k',
  keyboard_get_line 5000 80 demo_codes (∅, keyboard0) = Some (m', k') /\ cstr m' 5000 [76; 115].
Proof.
  destruct (keyboard_get_line_correct empty_page 5000 80 demo_codes ∅ keyboard0 [76; 115; 120; 8]) as (m' & k' & E & H & _).
  - apply clear_displays.
  - discriminate.
  - reflexivity.
  - repeat (constructor; [repeat (constructor; [vm_compute; split; congruence|]); constructor|]). constructor.
  - vm_compute. reflexivity.
  - apply (bool_decide_unpack _). vm_compute. exact I.
  - exists m', k'. exact (conj E H).
Defined.

(** A key typed after Enter, before the reader runs, still edits the line: the reader
    then gets the longer line, without the new line between. *)
Lemma keyboard_late_key : forall m k, Forall is_u8 (concat [[0x1E; 0x1C; 0x30]]) /\
  option_map (fun x => (input_buffer_pos (snd x), ld (input_buffer (snd x)) 0, ld (input_buffer (snd x)) 1))
    (keyboard_get_line 5000 80 [[0x1E; 0x1C; 0x30]] (m, Keyboard 0 0 ∅ 0 0 k)) = Some (2, 97, 98).
Proof.
  intros m k. split; [repeat (constructor; [vm_compute; split; congruence|]); constructor|].
  cbn -[for_range aget scancode_to_ascii Z.land]. reflexivity.
Qed.
