(* ===== verification/Traps.v ===== *)
(** * Descriptor tables, exceptions and panics (arch/x86/gdt.c, arch/x86/idt.c,
    arch/x86/exceptions.c, kernel/panic.c, and the gates set by kernel.c and syscall.c)

    The tables are written field by field; the processor reads each entry as one 64-bit
    word. The theorems say what the processor finds there. *)
From Stdlib Require Import String.
From S2P Require Import Prelude Mem Devices Console.
Local Close Scope string_scope.

(** ** Global descriptor table *)

Definition GDT_ENTRIES : Z := 6.
Definition GDT_KERNEL_CODE : Z := 0x08.
Definition GDT_KERNEL_DATA : Z := 0x10.
Definition GDT_USER_CODE : Z := 0x18.
Definition GDT_USER_DATA : Z := 0x20.
Definition GDT_TSS : Z := 0x28.
Definition USER_CODE_SELECTOR : Z := Z.lor GDT_USER_CODE 3.
Definition USER_DATA_SELECTOR : Z := Z.lor GDT_USER_DATA 3.

Record gdt_entry := GdtEntry {
  limit_low : Z; base_low : Z; base_middle : Z; access : Z; granularity : Z; base_high : Z;
}.
Definition sizeof_gdt_entry : Z := 8.
(** The pseudo-descriptor of [lgdt] and [lidt]. *)
Record table_ptr := TablePtr { ptr_limit : Z; ptr_base : Z }.

(** The fields of the TSS the kernel sets; the other words stay zero. *)
Record tss_entry := Tss { esp0 : Z; ss0 : Z; iomap_base : Z; tss_rest : list Z }.
Definition sizeof_tss : Z := 104.

(** The tables, and the registers that point to them. *)
Record tables := Tables {
  gdt : list gdt_entry; gdtp : table_ptr; tss : tss_entry; gdtr : table_ptr; tr : Z; cs : Z; ds : Z;
}.

Definition gdt_set_gate (num base limit access gran : Z) (g : list gdt_entry) : list gdt_entry :=
  <[Z.to_nat num := GdtEntry (Z.land limit 0xFFFF) (Z.land base 0xFFFF)
      (Z.land (Z.shiftr base 16) 0xFF) access
      (Z.lor (Z.land (Z.shiftr limit 16) 0x0F) (Z.land gran 0xF0))
      (Z.land (Z.shiftr base 24) 0xFF)]> g.

Definition set_gdt (g : list gdt_entry) (t : tables) : tables :=
  Tables g (gdtp t) (tss t) (gdtr t) (tr t) (cs t) (ds t).

(** [gdt_flush] and [tss_flush] (context.S): load the table, the segments and the task
    register. *)
Definition gdt_flush (t : tables) : tables :=
  Tables (gdt t) (gdtp t) (tss t) (gdtp t) (tr t) GDT_KERNEL_CODE GDT_KERNEL_DATA.
Definition tss_flush (t : tables) : tables :=
  Tables (gdt t) (gdtp t) (tss t) (gdtr t) GDT_TSS (cs t) (ds t).

(** The addresses of the two statics are given by the linker. *)
Definition gdt_init (gdt_addr tss_addr : Z) (t : tables) : tables :=
  let t := Tables (gdt t) (TablePtr (sizeof_gdt_entry * GDT_ENTRIES - 1) gdt_addr) (tss t) (gdtr t) (tr t) (cs t) (ds t) in
  let t := set_gdt (gdt_set_gate 0 0 0 0 0 (gdt t)) t in
  let t := set_gdt (gdt_set_gate 1 0 0xFFFFF 0x9A 0xCF (gdt t)) t in
  let t := set_gdt (gdt_set_gate 2 0 0xFFFFF 0x92 0xCF (gdt t)) t in
  let t := set_gdt (gdt_set_gate 3 0 0xFFFFF 0xFA 0xCF (gdt t)) t in
  let t := set_gdt (gdt_set_gate 4 0 0xFFFFF 0xF2 0xCF (gdt t)) t in
  let zeroed := replicate 24 0 in
  let t := Tables (gdt t) (gdtp t) (Tss 0 GDT_KERNEL_DATA sizeof_tss zeroed) (gdtr t) (tr t) (cs t) (ds t) in
  let t := set_gdt (gdt_set_gate 5 tss_addr (sizeof_tss - 1) 0x89 0x00 (gdt t)) t in
  tss_flush (gdt_flush t).

Definition tss_set_kernel_stack (esp : Z) (t : tables) : tables :=
  Tables (gdt t) (gdtp t) (Tss esp (ss0 (tss t)) (iomap_base (tss t)) (tss_rest (tss t))) (gdtr t) (tr t) (cs t) (ds t).

(** *** What the processor reads *)

Definition gdt_word (e : gdt_entry) : Z :=
  limit_low e + 2 ^ 16 * base_low e + 2 ^ 32 * base_middle e + 2 ^ 40 * access e + 2 ^ 48 * granularity e + 2 ^ 56 * base_high e.
Definition bits (w lo n : Z) : Z := w / 2 ^ lo mod 2 ^ n.
Definition seg_base (w : Z) : Z := bits w 16 24 + 2 ^ 24 * bits w 56 8.
(** The last byte offset of the segment; with bit 55 set the limit counts pages. *)
Definition seg_limit (w : Z) : Z :=
  let l := bits w 0 16 + 2 ^ 16 * bits w 48 4 in if bits w 55 1 =? 1 then l * 4096 + 4095 else l.
Definition seg_present (w : Z) : bool := bits w 47 1 =? 1.
Definition seg_dpl (w : Z) : Z := bits w 45 2.
(** Bit 44: code or data, not a system segment; bit 43: code; bit 41: readable or writable. *)
Definition seg_code (w : Z) : bool := (bits w 44 1 =? 1) && (bits w 43 1 =? 1).
Definition seg_data (w : Z) : bool := (bits w 44 1 =? 1) && (bits w 43 1 =? 0) && (bits w 41 1 =? 1).
Definition seg_tss32 (w : Z) : bool := bits w 40 5 =? 0x09.

(** The descriptor a selector names. *)
Definition descriptor (t : tables) (selector : Z) : option Z :=
  if selector mod 8 / 4 =? 0 then gdt_word <$> gdt t !! Z.to_nat (selector / 8) else None.

(** ** Interrupt descriptor table *)

Definition IDT_ENTRIES : Z := 256.
Definition KERNEL_CODE_SEGMENT : Z := 0x08.
Definition IDT_GATE_PRESENT : Z := 0x80.
Definition IDT_GATE_INT32 : Z := 0x0E.
Definition IDT_GATE_DPL3 : Z := 0x60.
Definition IDT_FLAGS_KERNEL : Z := Z.lor IDT_GATE_PRESENT IDT_GATE_INT32.
Definition IDT_FLAGS_USER : Z := Z.lor (Z.lor IDT_GATE_PRESENT IDT_GATE_INT32) IDT_GATE_DPL3.

Record idt_entry := IdtEntry { offset_low : Z; selector : Z; zero : Z; type_attr : Z; offset_high : Z }.
Definition sizeof_idt_entry : Z := 8.
Record idt_state := Idt { idt : list idt_entry; idtp : table_ptr; idtr : table_ptr }.

Definition idt_set_gate (num handler sel flags : Z) (s : idt_state) : idt_state :=
  Idt (<[Z.to_nat (u8 num) := IdtEntry (Z.land handler 0xFFFF) sel 0 flags (Z.land (Z.shiftr handler 16) 0xFFFF)]> (idt s))
    (idtp s) (idtr s).

Definition idt_init (idt_addr : Z) (s : idt_state) : idt_state :=
  let l := for_range 0 IDT_ENTRIES (fun i l => <[Z.to_nat i := IdtEntry 0 0 0 0 0]> l) (idt s) in
  let p := TablePtr (sizeof_idt_entry * IDT_ENTRIES - 1) idt_addr in
  Idt l p p.

Definition idt_word (e : idt_entry) : Z :=
  offset_low e + 2 ^ 16 * selector e + 2 ^ 32 * zero e + 2 ^ 40 * type_attr e + 2 ^ 48 * offset_high e.
(** An interrupt gate as the processor decodes it: target, and whether user code may
    invoke it with [int]. A gate that is not a present 32-bit interrupt gate is [None]. *)
Record gate := Gate { g_selector : Z; g_offset : Z; g_user : bool }.
Definition decode_gate (w : Z) : option gate :=
  if (bits w 47 1 =? 1) && (bits w 40 5 =? 0x0E)
  then Some (Gate (bits w 16 16) (bits w 0 16 + 2 ^ 16 * bits w 48 16) (bits w 45 2 =? 3)) else None.
Definition gate_at (s : idt_state) (v : Z) : option gate := idt s !! Z.to_nat v ≫= fun e => decode_gate (idt_word e).

(** The entry points of the assembly stubs are given by the linker. *)
Section Gates.
Context (exception_stub : Z -> Z) (irq0_handler irq1_handler int80_handler : Z).

(** One call per exception, 0 to 31. *)
Definition exceptions_init (s : idt_state) : idt_state :=
  for_range 0 32 (fun n s => idt_set_gate n (exception_stub n) 0x08 0x8E s) s.

Definition syscall_init (x : idt_state * console) : idt_state * console :=
  let '(s, c) := x in
  (idt_set_gate 0x80 int80_handler KERNEL_CODE_SEGMENT IDT_FLAGS_USER s,
   console_write (str "Syscalls: int 0x80 gate installed (8 syscalls)" ++ [10]) c).

(** The gates of [kmain], in its order. *)
Definition boot_gates (idt_addr : Z) (x : idt_state * console) : idt_state * console :=
  let '(s, c) := x in
  let s := idt_init idt_addr s in
  let s := exceptions_init s in
  let s := idt_set_gate 0x20 irq0_handler KERNEL_CODE_SEGMENT IDT_FLAGS_KERNEL s in
  let s := idt_set_gate 0x21 irq1_handler KERNEL_CODE_SEGMENT IDT_FLAGS_KERNEL s in
  syscall_init (s, c).
End Gates.

(** ** Decoding *)

Lemma bits_mid w lo mid hi k n : 0 <= k -> 0 <= n -> w = lo + 2 ^ k * (mid + 2 ^ n * hi) ->
  0 <= lo < 2 ^ k -> 0 <= mid < 2 ^ n -> bits w k n = mid.
Proof.
  intros Hk Hn -> Hlo Hmid. unfold bits.
  rewrite (Z.mul_comm (2 ^ k)), Z.div_add, (Z.div_small lo), Z.add_0_l by lia.
  rewrite (Z.mul_comm (2 ^ n)), Z.mod_add, Z.mod_small by lia. done.
Qed.

Lemma land_mask x n m : m = Z.ones n -> 0 <= n -> Z.land x m = x mod 2 ^ n.
Proof. intros -> Hn. by apply land_ones_mod. Qed.

(** The halves of an address come back together. *)
Lemma halves x : is_u32 x -> x mod 2 ^ 16 + 2 ^ 16 * ((x / 2 ^ 16) mod 2 ^ 16) = x.
Proof. intros Hx. rewrite (Z.mod_small (x / _)) by wsolve. wsolve. Qed.

Ltac pow_consts := change (2 ^ 5) with 32; change (2 ^ 1) with 2; change (2 ^ 2) with 4; change (2 ^ 4) with 16;
  change (2 ^ 8) with 256; change (2 ^ 16) with 65536; change (2 ^ 24) with 16777216; change (2 ^ 32) with 4294967296;
  change (2 ^ 40) with 1099511627776; change (2 ^ 45) with 35184372088832; change (2 ^ 47) with 140737488355328;
  change (2 ^ 48) with 281474976710656; change (2 ^ 55) with 36028797018963968; change (2 ^ 56) with 72057594037927936.

(** A gate as [idt_set_gate] writes it: the processor's view of its fields. *)
Lemma gate_fields h sel flags : is_u32 h -> is_u16 sel -> is_u8 flags ->
  decode_gate (idt_word (IdtEntry (Z.land h 0xFFFF) sel 0 flags (Z.land (Z.shiftr h 16) 0xFFFF))) =
  if (128 <=? flags) && (flags mod 32 =? 0x0E) then Some (Gate sel h (flags / 32 mod 4 =? 3)) else None.
Proof.
  intros Hh Hs Hf. rewrite !(land_mask _ 16) by done. rewrite Z.shiftr_div_pow2 by lia.
  set (lo := h mod 2 ^ 16). set (hi := h / 2 ^ 16 mod 2 ^ 16).
  assert (0 <= lo < 2 ^ 16) as Hlo by (apply Z.mod_pos_bound; lia).
  assert (0 <= hi < 2 ^ 16) as Hhi by (apply Z.mod_pos_bound; lia).
  pose proof (halves h Hh) as Heq. fold lo hi in Heq. clearbody lo hi.
  unfold decode_gate, idt_word. cbn [offset_low selector zero type_attr offset_high].
  unfold is_u16, is_u8 in *.
  rewrite (bits_mid _ (lo + 2 ^ 16 * sel + 2 ^ 40 * (flags mod 128)) (flags / 128) hi 47 1) by (first [lia|pow_consts; dlia]).
  rewrite (bits_mid _ (lo + 2 ^ 16 * sel) (flags mod 32) (flags / 32 + 8 * hi) 40 5) by (first [lia|pow_consts; dlia]).
  rewrite (bits_mid _ lo sel (2 ^ 8 * flags + 2 ^ 16 * hi) 16 16) by (first [lia|pow_consts; dlia]).
  rewrite (bits_mid _ 0 lo (sel + 2 ^ 24 * flags + 2 ^ 32 * hi) 0 16) by (first [lia|pow_consts; dlia]).
  rewrite (bits_mid _ (lo + 2 ^ 16 * sel + 2 ^ 40 * flags) hi 0 48 16) by (first [lia|pow_consts; dlia]).
  rewrite (bits_mid _ (lo + 2 ^ 16 * sel + 2 ^ 40 * (flags mod 32)) (flags / 32 mod 4) (flags / 128 + 2 * hi) 45 2) by (first [lia|pow_consts; dlia]).
  rewrite Heq. replace (flags / 128 =? 1) with (128 <=? flags); [done|]. apply eq_true_iff_eq. pow_consts. rewrite Z.leb_le, Z.eqb_eq. dlia.
Qed.

Lemma gate_at_set s n h sel flags v : length (idt s) = 256%nat -> is_u8 n -> is_u8 v -> is_u32 h -> is_u16 sel -> is_u8 flags ->
  gate_at (idt_set_gate n h sel flags s) v =
  if v =? n then (if (128 <=? flags) && (flags mod 32 =? 0x0E) then Some (Gate sel h (flags / 32 mod 4 =? 3)) else None)
  else gate_at s v.
Proof.
  intros Hl Hn Hv Hh Hs Hf. unfold gate_at, idt_set_gate. cbn [idt]. rewrite u8_small by done. destruct (Z.eqb_spec v n) as [->|Hne].
  - rewrite list_lookup_insert_eq by (unfold is_u8 in *; lia). cbn [mbind option_bind]. by apply gate_fields.
  - rewrite list_lookup_insert_ne by (unfold is_u8 in *; lia). done.
Qed.
Lemma set_gate_length s n h sel flags : length (idt (idt_set_gate n h sel flags s)) = length (idt s).
Proof. apply length_insert. Qed.

Lemma idt_init_spec a s : length (idt s) = 256%nat ->
  length (idt (idt_init a s)) = 256%nat /\ (forall v, is_u8 v -> gate_at (idt_init a s) v = None) /\
  idtr (idt_init a s) = TablePtr 2047 a.
Proof.
  intros Hl. unfold idt_init, gate_at. cbn [idt idtr].
  assert (length (for_range 0 IDT_ENTRIES (fun i l => <[Z.to_nat i := IdtEntry 0 0 0 0 0]> l) (idt s)) = 256%nat /\
    forall v, 0 <= v < IDT_ENTRIES -> for_range 0 IDT_ENTRIES (fun i l => <[Z.to_nat i := IdtEntry 0 0 0 0 0]> l) (idt s) !! Z.to_nat v
      = Some (IdtEntry 0 0 0 0 0)) as [H1 H2].
  { apply (for_range_ind (fun k l => length l = 256%nat /\ forall v, 0 <= v < k -> l !! Z.to_nat v = Some (IdtEntry 0 0 0 0 0)));
      [unfold IDT_ENTRIES; lia|split; [done|lia]|]. unfold IDT_ENTRIES.
    intros i l Hi [H1 H2]. rewrite length_insert. split; [done|]. intros v Hv. destruct (Z.eq_dec v i) as [->|].
    - by rewrite list_lookup_insert_eq by lia.
    - rewrite list_lookup_insert_ne by lia. apply H2. lia. }
  split; [done|]. split; [|done]. intros v Hv. rewrite H2 by (unfold IDT_ENTRIES; wsolve). reflexivity.
Qed.

Lemma exceptions_init_spec stub s : length (idt s) = 256%nat -> (forall n, is_u32 (stub n)) -> (forall v, is_u8 v -> gate_at s v = None) ->
  let s' := exceptions_init stub s in
  length (idt s') = 256%nat /\ idtr s' = idtr s /\
  forall v, is_u8 v -> gate_at s' v = if v <? 32 then Some (Gate 0x08 (stub v) false) else None.
Proof.
  intros Hl Hs Hn. cbv zeta. unfold exceptions_init.
  apply (for_range_ind (fun k s' => length (idt s') = 256%nat /\ idtr s' = idtr s /\
    forall v, is_u8 v -> gate_at s' v = if v <? k then Some (Gate 0x08 (stub v) false) else None)); [lia| |].
  - split; [done|]. split; [done|]. intros v Hv. destruct (Z.ltb_spec v 0); [unfold is_u8 in Hv; lia|by apply Hn].
  - intros k s1 Hk (H1 & H2 & H3). rewrite set_gate_length. split; [done|]. split; [done|]. intros v Hv.
    rewrite gate_at_set by (try done; wsolve). change (Some (Gate 8 (stub k) (142 / 32 mod 4 =? 3))) with (Some (Gate 8 (stub k) false)).
    destruct (Z.eqb_spec v k) as [->|].
    + cbn. destruct (Z.ltb_spec k (k + 1)); [done|lia].
    + rewrite H3 by done. destruct (Z.ltb_spec v k), (Z.ltb_spec v (k + 1)); try lia; done.
Qed.

(** The interrupt table [kmain] sets up is the intended one. Whatever the table held,
    the processor finds at vectors 0 to 31 the kernel's exception stubs, at 0x20 and 0x21
    the timer and keyboard stubs (the vectors the interrupt controller is programmed to
    raise), at 0x80 the system-call stub, and no gate elsewhere; all in the kernel's code
    segment, and 0x80 is the only one that user code may invoke. *)
Theorem boot_gates_correct stub irq0 irq1 int80 a s c :
  length (idt s) = 256%nat -> (forall n, is_u32 (stub n)) -> is_u32 irq0 -> is_u32 irq1 -> is_u32 int80 ->
  let s' := fst (boot_gates stub irq0 irq1 int80 a (s, c)) in
  idtr s' = TablePtr 2047 a /\
  forall v, is_u8 v -> gate_at s' v =
    if v <? 32 then Some (Gate GDT_KERNEL_CODE (stub v) false)
    else if v =? 0x20 then Some (Gate GDT_KERNEL_CODE irq0 false)
    else if v =? 0x21 then Some (Gate GDT_KERNEL_CODE irq1 false)
    else if v =? 0x80 then Some (Gate GDT_KERNEL_CODE int80 true) else None.
Proof.
  intros Hl Hs H0 H1 H80. destruct (idt_init_spec a s Hl) as (L1 & G1 & R1).
  destruct (exceptions_init_spec stub (idt_init a s) L1 Hs G1) as (L2 & R2 & G2).
  unfold boot_gates, syscall_init. cbn [fst]. split; [cbn [idt_set_gate idtr]; by rewrite R2|].
  intros v Hv. rewrite !gate_at_set by (rewrite ?set_gate_length; try done; wsolve). rewrite G2 by done.
  destruct (Z.ltb_spec v 32), (Z.eqb_spec v 0x20), (Z.eqb_spec v 0x21), (Z.eqb_spec v 0x80); try lia; done.
Qed.
Lemma boot_gates_correct_witness :
  gate_at (fst (boot_gates (fun n => 0x100000 + n mod 32) 0x110000 0x110040 0x110080 0x120000
    (Idt (replicate 256 (IdtEntry 7 7 7 7 7)) (TablePtr 0 0) (TablePtr 0 0), console0))) 0x80 = Some (Gate 0x08 0x110080 true).
Proof.
  apply (boot_gates_correct (fun n => 0x100000 + n mod 32) 0x110000 0x110040 0x110080 0x120000
    (Idt (replicate 256 (IdtEntry 7 7 7 7 7)) (TablePtr 0 0) (TablePtr 0 0)) console0); [reflexivity| | | | |]; try intros n; wsolve.
Defined.

(** *** The segments *)

Definition flat_segment (w dpl : Z) : Prop :=
  seg_present w = true /\ seg_dpl w = dpl /\ seg_base w = 0 /\ seg_limit w = 2 ^ 32 - 1.

Lemma tss_descriptor a : is_u32 a ->
  let w := gdt_word (GdtEntry (Z.land 103 0xFFFF) (Z.land a 0xFFFF) (Z.land (Z.shiftr a 16) 0xFF) 0x89
             (Z.lor (Z.land (Z.shiftr 103 16) 0x0F) (Z.land 0 0xF0)) (Z.land (Z.shiftr a 24) 0xFF)) in
  seg_present w = true /\ seg_tss32 w = true /\ seg_dpl w = 0 /\ seg_base w = a /\ seg_limit w = 103.
Proof.
  intros Ha. cbv zeta. change (Z.land 103 0xFFFF) with 103. change (Z.lor _ _) with 0.
  rewrite (land_mask a 16), !(land_mask _ 8), !Z.shiftr_div_pow2 by (done || lia).
  set (b0 := a mod 2 ^ 16). set (b1 := a / 2 ^ 16 mod 2 ^ 8). set (b2 := a / 2 ^ 24 mod 2 ^ 8).
  assert (0 <= b0 < 2 ^ 16) as H0 by (apply Z.mod_pos_bound; lia).
  assert (0 <= b1 < 2 ^ 8) as H1 by (apply Z.mod_pos_bound; lia).
  assert (0 <= b2 < 2 ^ 8) as H2 by (apply Z.mod_pos_bound; lia).
  assert (b0 + 2 ^ 16 * b1 + 2 ^ 24 * b2 = a) as E.
  { unfold b0, b1, b2. revert Ha. unfold is_u32. pow_consts. intros Ha. dlia. }
  clearbody b0 b1 b2. unfold seg_present, seg_tss32, seg_dpl, seg_base, seg_limit, gdt_word.
  cbn [limit_low base_low base_middle access granularity base_high].
  rewrite (bits_mid _ (103 + 2 ^ 16 * b0 + 2 ^ 32 * b1 + 2 ^ 40 * 9) 1 (2 ^ 8 * b2) 47 1) by (first [lia|pow_consts; lia]).
  rewrite (bits_mid _ (103 + 2 ^ 16 * b0 + 2 ^ 32 * b1) 9 (4 + 2 ^ 11 * b2) 40 5) by (first [lia|pow_consts; change (2 ^ 11) with 2048; lia]).
  rewrite (bits_mid _ (103 + 2 ^ 16 * b0 + 2 ^ 32 * b1 + 2 ^ 40 * 9) 0 (1 + 2 ^ 9 * b2) 45 2) by (first [lia|pow_consts; change (2 ^ 9) with 512; lia]).
  rewrite (bits_mid _ 103 (b0 + 2 ^ 16 * b1) (0x89 + 2 ^ 16 * b2) 16 24) by (first [lia|pow_consts; lia]).
  rewrite (bits_mid _ (103 + 2 ^ 16 * b0 + 2 ^ 32 * b1 + 2 ^ 40 * 0x89) b2 0 56 8) by (first [lia|pow_consts; lia]).
  rewrite (bits_mid _ 0 103 (b0 + 2 ^ 16 * b1 + 2 ^ 24 * 0x89 + 2 ^ 40 * b2) 0 16) by (first [lia|pow_consts; lia]).
  rewrite (bits_mid _ (103 + 2 ^ 16 * b0 + 2 ^ 32 * b1 + 2 ^ 40 * 0x89) 0 (2 ^ 4 * b2) 48 4) by (first [lia|pow_consts; lia]).
  rewrite (bits_mid _ (103 + 2 ^ 16 * b0 + 2 ^ 32 * b1 + 2 ^ 40 * 0x89) 0 b2 55 1) by (first [lia|pow_consts; lia]).
  split; [done|]. split; [done|]. split; [done|]. split; [lia|done].
Qed.

(** The segments the kernel installs are the ones the rest of it relies on: selectors
    0x08 and 0x10 name flat 4 GiB code and data segments of ring 0, 0x1B and 0x23 (with
    RPL 3) flat code and data segments of ring 3; the task register names a present
    32-bit TSS of 104 bytes at the address of [tss], whose ring 0 stack segment is the
    kernel's and whose I/O bitmap lies outside it, so ring 3 has no port access; the
    table register covers exactly the six descriptors. *)
Theorem gdt_init_correct gdt_addr tss_addr t : length (gdt t) = 6%nat -> is_u32 tss_addr ->
  let t' := gdt_init gdt_addr tss_addr t in
  (exists w, descriptor t' GDT_KERNEL_CODE = Some w /\ flat_segment w 0 /\ seg_code w = true) /\
  (exists w, descriptor t' GDT_KERNEL_DATA = Some w /\ flat_segment w 0 /\ seg_data w = true) /\
  (exists w, descriptor t' USER_CODE_SELECTOR = Some w /\ flat_segment w 3 /\ seg_code w = true) /\
  (exists w, descriptor t' USER_DATA_SELECTOR = Some w /\ flat_segment w 3 /\ seg_data w = true) /\
  (exists w, descriptor t' (tr t') = Some w /\ seg_present w = true /\ seg_tss32 w = true /\ seg_dpl w = 0 /\
    seg_base w = tss_addr /\ seg_limit w = 103 /\ seg_limit w < iomap_base (tss t')) /\
  ss0 (tss t') = GDT_KERNEL_DATA /\ cs t' = GDT_KERNEL_CODE /\ ds t' = GDT_KERNEL_DATA /\
  gdtr t' = TablePtr 47 gdt_addr.
Proof.
  intros Hl Ha. destruct t as [g p ts gr r c d]. cbn [gdt] in Hl.
  destruct g as [|e0 [|e1 [|e2 [|e3 [|e4 [|e5 [|]]]]]]]; try discriminate. cbv zeta.
  split; [eexists; split; [reflexivity|vm_compute; tauto]|].
  split; [eexists; split; [reflexivity|vm_compute; tauto]|].
  split; [eexists; split; [reflexivity|vm_compute; tauto]|].
  split; [eexists; split; [reflexivity|vm_compute; tauto]|].
  split; [|done]. eexists. split; [reflexivity|].
  destruct (tss_descriptor tss_addr Ha) as (H1 & H2 & H3 & H4 & H5).
  split; [exact H1|]. split; [exact H2|]. split; [exact H3|]. split; [exact H4|]. split; [exact H5|].
  refine (eq_ind_r (fun z => z < 104) _ H5). lia.
Qed.
Lemma gdt_init_correct_witness : cs (gdt_init 0x120000 0x121000
  (Tables (replicate 6 (GdtEntry 1 1 1 1 1 1)) (TablePtr 0 0) (Tss 0 0 0 []) (TablePtr 0 0) 0 0 0)) = GDT_KERNEL_CODE.
Proof.
  apply (gdt_init_correct 0x120000 0x121000
    (Tables (replicate 6 (GdtEntry 1 1 1 1 1 1)) (TablePtr 0 0) (Tss 0 0 0 []) (TablePtr 0 0) 0 0 0)); [reflexivity|wsolve].
Defined.

(** ** Exception reports *)

Definition exception_messages : list string :=
  ["Divide by Zero"; "Debug"; "Non-Maskable Interrupt"; "Breakpoint"; "Overflow"; "Bound Range Exceeded";
   "Invalid Opcode"; "Device Not Available"; "Double Fault"; "Coprocessor Segment Overrun"; "Invalid TSS";
   "Segment Not Present"; "Stack Segment Fault"; "General Protection Fault"; "Page Fault"; "Reserved";
   "x87 FPU Error"; "Alignment Check"; "Machine Check"; "SIMD Floating Point Exception";
   "Virtualization Exception"; "Control Protection Exception"; "Reserved"; "Reserved"; "Reserved"; "Reserved";
   "Reserved"; "Reserved"; "Hypervisor Injection Exception"; "VMM Communication Exception";
   "Security Exception"; "Reserved"]%string.
Definition EXCEPTION_PAGE_FAULT : Z := 14.

Record exception_registers := ExcRegs {
  x_ds : Z; x_edi : Z; x_esi : Z; x_ebp : Z; x_esp : Z; x_ebx : Z; x_edx : Z; x_ecx : Z; x_eax : Z;
  int_no : Z; err_code : Z; x_eip : Z; x_cs : Z; x_eflags : Z; useresp : Z; x_ss : Z;
}.

(** The eleven-byte buffer, filled from the end; [console_write] stops at its NUL. *)
Definition hex_digits : list Z := str "0123456789ABCDEF".
Definition hex_buffer (value : Z) : list Z :=
  fst (foldl (fun '(b, value) i => (aset b i (aget hex_digits (Z.land value 0xF)), Z.shiftr value 4))
         (aset (aset (aset (replicate 11 0) 0 48) 1 120) 10 0, value) [9; 8; 7; 6; 5; 4; 3; 2]).
Definition print_hex (value : Z) (s : console) : console := console_write (take 10 (hex_buffer value)) s.

(** [&buffer[i]] after the loop, as the list of its characters. *)
Fixpoint dec_loop (i : nat) (value : Z) (text : list Z) : list Z :=
  match i with
  | O => text
  | S i => if 0 <? value then dec_loop i (value / 10) (48 + value mod 10 :: text) else text
  end.
Definition print_dec (value : Z) (s : console) : console :=
  if value =? 0 then console_put_char 48 s else console_write (dec_loop 10 value []) s.

Definition exception_name (n : Z) : list Z :=
  if n <? 32 then str (default EmptyString (exception_messages !! Z.to_nat n)) else str "Unknown".

Definition newline : list Z := [10].
Definition page_fault_report (r : exception_registers) (cr2 : Z) (s : console) : console :=
  let s := console_write (str "Page Fault Details:" ++ newline) s in
  let s := console_write (str "  Faulting Address: ") s in
  let s := print_hex cr2 s in
  let s := console_write newline s in
  let s := console_write (str "  Cause: ") s in
  let s := if Z.land (err_code r) 0x1 =? 0 then console_write (str "Page not present ") s else s in
  let s := if negb (Z.land (err_code r) 0x2 =? 0) then console_write (str "Write access ") s
           else console_write (str "Read access ") s in
  let s := if negb (Z.land (err_code r) 0x4 =? 0) then console_write (str "(User mode)") s
           else console_write (str "(Kernel mode)") s in
  console_write (newline ++ newline) s.

Definition print_reg (label : string) (v : Z) (s : console) : console := print_hex v (console_write (str label) s).
Definition register_dump (r : exception_registers) (s : console) : console :=
  let s := console_write (str "Register Dump:" ++ newline) s in
  let s := print_reg "  EAX=" (x_eax r) s in
  let s := print_reg "  EBX=" (x_ebx r) s in
  let s := print_reg "  ECX=" (x_ecx r) s in
  let s := print_reg "  EDX=" (x_edx r) s in
  let s := console_write newline s in
  let s := print_reg "  ESI=" (x_esi r) s in
  let s := print_reg "  EDI=" (x_edi r) s in
  let s := print_reg "  EBP=" (x_ebp r) s in
  let s := print_reg "  ESP=" (x_esp r) s in
  let s := console_write newline s in
  let s := print_reg "  EIP=" (x_eip r) s in
  let s := print_reg "  CS=" (x_cs r) s in
  let s := print_reg "  DS=" (x_ds r) s in
  let s := print_reg "  EFLAGS=" (x_eflags r) s in
  console_write (newline ++ newline) s.

Definition rule : list Z := str "======================================" ++ newline.

(** The console when the handler halts the processor; [cr2] is the fault address. *)
Definition exception_handler (r : exception_registers) (cr2 : Z) (s : console) : console :=
  let s := console_write newline s in
  let s := console_write rule s in
  let s := console_write (str "    KERNEL PANIC - EXCEPTION!" ++ newline) s in
  let s := console_write rule s in
  let s := console_write newline s in
  let s := console_write (str "Exception: ") s in
  let s := console_write (exception_name (int_no r)) s in
  let s := console_write (str " (") s in
  let s := print_dec (int_no r) s in
  let s := console_write (str ")" ++ newline) s in
  let s := console_write (str "Error Code: ") s in
  let s := print_hex (err_code r) s in
  let s := console_write (newline ++ newline) s in
  let s := if int_no r =? EXCEPTION_PAGE_FAULT then page_fault_report r cr2 s else s in
  let s := register_dump r s in
  let s := console_write (str "Stack Segment: ") s in
  let s := print_hex (x_ss r) s in
  let s := console_write newline s in
  let s := console_write (str "User ESP: ") s in
  let s := print_hex (useresp r) s in
  let s := console_write (newline ++ newline) s in
  let s := console_write rule s in
  let s := console_write (str "System Halted - Cannot Continue" ++ newline) s in
  console_write rule s.

(** ** Kernel panic (kernel/panic.c)

    The console when the processor is halted. *)
Definition kernel_panic (message : list Z) (s : console) : console :=
  let s := console_set_color 0x0F 0x04 s in
  let s := console_write (newline ++ newline ++ str "*** KERNEL PANIC ***" ++ newline) s in
  let s := console_write message s in
  console_write (newline ++ newline ++ str "System halted." ++ newline) s.
Definition kernel_panic_ext (message file : list Z) (line : Z) (s : console) : console :=
  let s := console_set_color 0x0F 0x04 s in
  let s := console_write (newline ++ newline ++ str "*** KERNEL PANIC ***" ++ newline) s in
  let s := console_write message s in
  let s := console_write (newline ++ newline ++ str "File: ") s in
  let s := console_write file s in
  let s := console_write newline s in
  console_write (str "System halted." ++ newline) s.

(** ** Numbers as text *)

(** The value of a numeral in a base up to 16. *)
Definition digit_value (c : Z) : Z := if c <? 58 then c - 48 else c - 55.
Definition number (base : Z) (t : list Z) : Z := foldl (fun acc c => acc * base + digit_value c) 0 t.
Definition numeral (base : Z) (t : list Z) : Prop := Forall (fun c => is_u8 c /\ 0 <= digit_value c < base) t.

Lemma dec_loop_spec i : forall value text, 0 <= value < 10 ^ Z.of_nat i ->
  exists ds, dec_loop i value text = ds ++ text /\ numeral 10 ds /\ number 10 ds = value /\
    (length ds <= i)%nat /\ (0 < value -> exists d ds', ds = d :: ds' /\ d <> 48).
Proof.
  induction i as [|i IH]; intros value text Hv; cbn [dec_loop].
  { change (10 ^ Z.of_nat 0) with 1 in Hv. exists []. cbn. repeat split; [constructor|unfold number; cbn; lia|lia|lia]. }
  destruct (Z.ltb_spec 0 value).
  2:{ exists []. cbn. repeat split; [constructor|unfold number; cbn; lia|lia|lia]. }
  rewrite Nat2Z.inj_succ, Z.pow_succ_r in Hv by lia.
  destruct (IH (value / 10) (48 + value mod 10 :: text)) as (ds & E & Hn & Hval & Hlen & Hlead).
  { split; [apply Z.div_pos; lia|apply Z.div_lt_upper_bound; lia]. }
  assert (0 <= value mod 10 < 10) as Hm by (apply Z.mod_pos_bound; lia).
  assert (digit_value (48 + value mod 10) = value mod 10) as Hd by (unfold digit_value; destruct (Z.ltb_spec (48 + value mod 10) 58); lia).
  exists (ds ++ [48 + value mod 10]). rewrite <- app_assoc. split; [exact E|]. split; [|split; [|split]].
  - apply Forall_app. split; [done|]. constructor; [|constructor]. rewrite Hd. wsolve.
  - unfold number in *. rewrite foldl_app, Hval. cbn [foldl]. rewrite Hd. dlia.
  - rewrite length_app. cbn. lia.
  - intros _. destruct (Z.eq_dec (value / 10) 0) as [E0|]; [|destruct Hlead as (d & ds' & -> & Hne)].
    + destruct ds as [|d ds].
      * eexists _, []. split; [done|]. dlia.
      * exfalso. rewrite E0 in E. assert (forall l, dec_loop i 0 l = l) as H0 by (by destruct i). rewrite H0 in E.
        apply (f_equal length) in E. rewrite length_app in E. cbn in E. lia.
    + assert (0 <= value / 10) by (apply Z.div_pos; lia). lia.
    + by exists d, (ds' ++ [48 + value mod 10]).
Qed.

Lemma hex_digit_spec n : 0 <= n < 16 -> is_u8 (aget hex_digits n) /\ digit_value (aget hex_digits n) = n.
Proof.
  intros Hn. assert (n ∈ seqZ 0 16) as Hi by (apply elem_of_seqZ; lia). apply list_elem_of_In in Hi.
  assert (forallb (fun n => (0 <=? aget hex_digits n) && (aget hex_digits n <? 256) && (digit_value (aget hex_digits n) =? n)) (seqZ 0 16) = true) as H
    by (vm_compute; reflexivity).
  rewrite List.forallb_forall in H. specialize (H n Hi). rewrite !andb_true_iff in H. destruct H as [[H1 H2] H3]. wsolve.
Qed.

Lemma hex_buffer_spec v : is_u32 v -> exists ds, take 10 (hex_buffer v) = str "0x" ++ ds /\ length ds = 8%nat /\ numeral 16 ds /\ number 16 ds = v.
Proof.
  intros Hv. set (d := fun i => aget hex_digits (v / 16 ^ i mod 16)).
  exists [d 7; d 6; d 5; d 4; d 3; d 2; d 1; d 0]. split; [|split; [done|]].
  - unfold hex_buffer. cbn [foldl fst]. change 0xF with (Z.ones 4). rewrite !land_ones_mod, !Z.shiftr_shiftr, !Z.shiftr_div_pow2 by lia.
    unfold d. rewrite Z.pow_0_r, Z.div_1_r. reflexivity.
  - assert (forall i, is_u8 (d i) /\ digit_value (d i) = v / 16 ^ i mod 16) as Hd by (intros i; apply hex_digit_spec; dlia).
    split.
    + repeat (constructor; [split; [apply Hd|rewrite (proj2 (Hd _)); apply Z.mod_pos_bound; lia]|]). constructor.
    + unfold number. cbn [foldl]. rewrite !(proj2 (Hd _)). clear Hd d. unfold is_u32 in Hv.
      change (2 ^ 32) with 4294967296 in Hv. rewrite Z.pow_0_r, Z.div_1_r.
      change (16 ^ 7) with 268435456. change (16 ^ 6) with 16777216. change (16 ^ 5) with 1048576. change (16 ^ 4) with 65536.
      change (16 ^ 3) with 4096. change (16 ^ 2) with 256. change (16 ^ 1) with 16. dlia.
Qed.

(** Numbers in exception reports are exact. For every 32-bit value, [print_hex]
    writes ["0x"] and eight hexadecimal digits, [print_dec] one to ten decimal digits
    without a leading zero, and reading either back gives the value. *)
Theorem print_number_exact v s : is_u32 v ->
  (exists t, print_hex v s = console_write (str "0x" ++ t) s /\ length t = 8%nat /\ numeral 16 t /\ number 16 t = v) /\
  (exists t, print_dec v s = console_write t s /\ (1 <= length t <= 10)%nat /\ numeral 10 t /\ number 10 t = v /\
     (head t = Some 48 -> t = [48])).
Proof.
  intros Hv. split.
  - destruct (hex_buffer_spec v Hv) as (ds & E & H). exists ds. unfold print_hex. rewrite E. done.
  - unfold print_dec. destruct (Z.eqb_spec v 0) as [->|Hne].
    { exists [48]. split; [done|]. split; [cbn; lia|]. split; [constructor; [vm_compute; intuition congruence|constructor]|done]. }
    destruct (dec_loop_spec 10 v []) as (ds & E & Hn & Hval & Hlen & Hlead); [cbn; unfold is_u32 in Hv; lia|].
    destruct Hlead as (d & ds' & -> & Hd); [unfold is_u32 in Hv; lia|]. rewrite app_nil_r in E. rewrite E.
    exists (d :: ds'). split; [done|]. split; [cbn [length] in *; lia|]. split; [done|]. split; [done|]. cbn. intros [= ->]. done.
Qed.
Lemma print_number_exact_witness : exists t, print_dec 4294967295 console0 = console_write t console0 /\ number 10 t = 4294967295.
Proof.
  destruct (print_number_exact 4294967295 console0) as [_ (t & E & _ & _ & H & _)]; [wsolve|]. exists t. exact (conj E H).
Defined.
