(* ===== verification/Cpu.v ===== *)
(** * Processor and memory simulators (kernel/cpu/pipeline.c, kernel/cpu/single_cycle.c,
    kernel/cpu/performance.c, memory/cache.c, memory/bus.c)

    The five-stage pipeline is related to the instructions in program order: what it has
    retired is a prefix of the program, what it holds the instructions that follow. The
    ratios ([double] results of the statistics functions) are left out. *)
From S2P Require Import Prelude.

(** ** The pipeline (kernel/cpu/pipeline.c) *)

Inductive PipelineStageType := STAGE_IF | STAGE_ID | STAGE_EX | STAGE_MEM | STAGE_WB.

(** An instruction; a stage without a valid one is [None]. The flag [stalled] of a stage
    is never read. *)
Record Instruction := Instr { opcode : Z; rd : Z; rs1 : Z; rs2 : Z; immediate : Z; i_pc : Z }.

Record PipelineCPU := Pipeline {
  p_if : option Instruction; p_id : option Instruction; p_ex : option Instruction;
  p_mem : option Instruction; p_wb : option Instruction;
  pc : Z; registers : list Z; cycle_count : Z; instruction_count : Z; stall_count : Z; running : bool;
}.

Definition pipeline_init : PipelineCPU :=
  Pipeline None None None None None 0 (replicate 32 0) 0 0 0 true.
Definition pipeline_reset (cpu : PipelineCPU) : PipelineCPU := pipeline_init.

Definition decode (raw at_pc : Z) : Instruction :=
  Instr (Z.land raw 0x7F) (Z.land (Z.shiftr raw 7) 0x1F) (Z.land (Z.shiftr raw 15) 0x1F)
    (Z.land (Z.shiftr raw 20) 0x1F) (Z.shiftr raw 20) at_pc.

Definition fetch_instruction (memory : list Z) (mem_size at_pc : Z) : option Instruction :=
  if mem_size <=? at_pc / 4 then None else Some (decode (aget memory (at_pc / 4)) at_pc).

Definition pipeline_detect_hazard (cpu : PipelineCPU) : bool :=
  match p_id cpu, p_ex cpu with
  | Some id_instr, Some ex_instr =>
      negb (rd ex_instr =? 0) && negb (opcode ex_instr =? 0x23) &&
      ((rs1 id_instr =? rd ex_instr) || (rs2 id_instr =? rd ex_instr))
  | _, _ => false
  end.

(** The write-back stage. *)
Definition write_back (instr : Instruction) (regs : list Z) : list Z :=
  if negb (rd instr =? 0) && negb (opcode instr =? 0x23) then aset regs (rd instr) (immediate instr) else regs.

Definition pipeline_cycle (memory : list Z) (mem_size : Z) (cpu : PipelineCPU) : PipelineCPU :=
  if negb (running cpu) then cpu
  else
    let stall := pipeline_detect_hazard cpu in
    let '(regs, instructions) :=
      match p_wb cpu with
      | Some instr => (write_back instr (registers cpu), u64 (instruction_count cpu + 1))
      | None => (registers cpu, instruction_count cpu)
      end in
    let next_wb := p_mem cpu in
    let next_mem := p_ex cpu in
    let '(next_ex, next_id, stalls) :=
      match p_id cpu with
      | Some instr => if negb stall then (Some instr, None, stall_count cpu)
                      else (None, Some instr, u64 (stall_count cpu + 1))
      | None => (None, None, stall_count cpu)
      end in
    let '(next_id, next_pc, run) :=
      if negb stall && (pc cpu / 4 <? mem_size) then
        match fetch_instruction memory mem_size (pc cpu) with
        | Some instr => (Some instr, u32 (pc cpu + 4), running cpu)
        | None => (next_id, pc cpu, running cpu)
        end
      else if mem_size <=? pc cpu / 4 then
        match p_id cpu, p_ex cpu, p_mem cpu, p_wb cpu with
        | None, None, None, None => (next_id, pc cpu, false)
        | _, _, _, _ => (next_id, pc cpu, running cpu)
        end
      else (next_id, pc cpu, running cpu) in
    Pipeline None next_id next_ex next_mem next_wb next_pc regs
      (u64 (cycle_count cpu + 1)) instructions stalls run.

(** The loop of [pipeline_execute]; its cycle limit gives it fuel. *)
Fixpoint execute_loop (fuel : nat) (memory : list Z) (mem_size target : Z) (cpu : PipelineCPU) : option PipelineCPU :=
  match fuel with
  | O => None
  | S fuel =>
      if running cpu && (instruction_count cpu <? target) then
        let cpu := pipeline_cycle memory mem_size cpu in
        if u64 (target * 10) <? cycle_count cpu then Some cpu
        else execute_loop fuel memory mem_size target cpu
      else Some cpu
  end.
Definition pipeline_execute (memory : list Z) (mem_size num_instructions : Z) (cpu : PipelineCPU) : option PipelineCPU :=
  let target := u64 (instruction_count cpu + num_instructions) in
  execute_loop (Z.to_nat (u64 (target * 10)) + 2) memory mem_size target cpu.

Definition pipeline_get_cycles (cpu : PipelineCPU) : Z := cycle_count cpu.
Definition pipeline_get_instructions (cpu : PipelineCPU) : Z := instruction_count cpu.
Definition pipeline_get_stalls (cpu : PipelineCPU) : Z := stall_count cpu.

(** ** The single-cycle processor (kernel/cpu/single_cycle.c) *)

Record SingleCycleCPU := SingleCycle {
  sc_pc : Z; sc_registers : list Z; sc_cycle_count : Z; sc_instruction_count : Z; sc_running : bool;
}.

Definition single_cycle_init : SingleCycleCPU := SingleCycle 0 (replicate 32 0) 0 0 true.
Definition single_cycle_reset (cpu : SingleCycleCPU) : SingleCycleCPU := single_cycle_init.

(** The state is the processor and the memory it stores to. *)
Definition single_cycle_execute_one (mem_size : Z) (x : SingleCycleCPU * list Z) : SingleCycleCPU * list Z :=
  let '(cpu, memory) := x in
  if negb (sc_running cpu) then x
  else if mem_size <=? sc_pc cpu / 4 then
    (SingleCycle (sc_pc cpu) (sc_registers cpu) (sc_cycle_count cpu) (sc_instruction_count cpu) false, memory)
  else
    let raw := aget memory (sc_pc cpu / 4) in
    let opcode := Z.land raw 0x7F in
    let rd := Z.land (Z.shiftr raw 7) 0x1F in
    let rs1 := Z.land (Z.shiftr raw 15) 0x1F in
    let rs2 := Z.land (Z.shiftr raw 20) 0x1F in
    let immediate := Z.shiftr raw 20 in
    let reg i := aget (sc_registers cpu) i in
    let address := u32 (reg rs1 + immediate) in
    let '(result, memory) :=
      if opcode =? 0x33 then (u32 (reg rs1 + reg rs2), memory)
      else if opcode =? 0x13 then (u32 (reg rs1 + immediate), memory)
      else if opcode =? 0x03 then
        ((if address / 4 <? mem_size then aget memory (address / 4) else 0), memory)
      else if opcode =? 0x23 then
        (0, if address / 4 <? mem_size then aset memory (address / 4) (reg rs2) else memory)
      else (0, memory) in
    let regs := if negb (rd =? 0) && negb (opcode =? 0x23) then aset (sc_registers cpu) rd result else sc_registers cpu in
    (SingleCycle (u32 (sc_pc cpu + 4)) regs (u64 (sc_cycle_count cpu + 1)) (u64 (sc_instruction_count cpu + 1)) true, memory).

Fixpoint single_cycle_execute (mem_size : Z) (num_instructions : nat) (x : SingleCycleCPU * list Z) : SingleCycleCPU * list Z :=
  match num_instructions with
  | O => x
  | S n => if sc_running (fst x) then single_cycle_execute mem_size n (single_cycle_execute_one mem_size x) else x
  end.

Definition single_cycle_get_cycles (cpu : SingleCycleCPU) : Z := sc_cycle_count cpu.
Definition single_cycle_get_instructions (cpu : SingleCycleCPU) : Z := sc_instruction_count cpu.

(** ** Performance counters (kernel/cpu/performance.c) *)

Record PerformanceCounters := Perf { cycles : Z; instructions : Z; cache_hits : Z; cache_misses : Z; stalls : Z }.
Definition performance_init : PerformanceCounters := Perf 0 0 0 0 0.
Definition performance_update_cycles (n : Z) (p : PerformanceCounters) : PerformanceCounters :=
  Perf (u64 (cycles p + n)) (instructions p) (cache_hits p) (cache_misses p) (stalls p).
Definition performance_update_instructions (n : Z) (p : PerformanceCounters) : PerformanceCounters :=
  Perf (cycles p) (u64 (instructions p + n)) (cache_hits p) (cache_misses p) (stalls p).
Definition performance_update_cache (hits misses : Z) (p : PerformanceCounters) : PerformanceCounters :=
  Perf (cycles p) (instructions p) (u64 (cache_hits p + hits)) (u64 (cache_misses p + misses)) (stalls p).
Definition performance_update_stalls (n : Z) (p : PerformanceCounters) : PerformanceCounters :=
  Perf (cycles p) (instructions p) (cache_hits p) (cache_misses p) (u64 (stalls p + n)).

(** ** The direct-mapped cache (memory/cache.c) *)

Definition CACHE_NUM_LINES : Z := 256.
Definition CACHE_BLOCK_SIZE : Z := 32.
Definition CACHE_OFFSET_BITS : Z := 5.
Definition CACHE_INDEX_BITS : Z := 8.

Record CacheLine := Line { valid : bool; tag : Z; data : list Z }.
Record Cache := MkCache { lines : list CacheLine; hits : Z; misses : Z; accesses : Z }.

Definition zero_line : CacheLine := Line false 0 (replicate (Z.to_nat CACHE_BLOCK_SIZE) 0).
Definition cache_init : Cache := MkCache (replicate (Z.to_nat CACHE_NUM_LINES) zero_line) 0 0 0.
Definition cache_reset (c : Cache) : Cache := cache_init.

(** Tag, index and offset. *)
Definition cache_parse_address (address : Z) : Z * Z * Z :=
  (Z.shiftr address (CACHE_OFFSET_BITS + CACHE_INDEX_BITS),
   Z.land (Z.shiftr address CACHE_OFFSET_BITS) 0xFF,
   Z.land address 0x1F).

(** A read returns the byte in [*data]; a null [data] pointer is an access without a
    byte. The result is (hit, the byte read, the cache). *)
Inductive access := Read | Write (v : Z) | Touch.

Definition line_at (c : Cache) (i : Z) : CacheLine := default zero_line (lines c !! Z.to_nat i).

Definition cache_access (address : Z) (a : access) (c : Cache) : bool * option Z * Cache :=
  let '(t, index, offset) := cache_parse_address address in
  let line := line_at c index in
  if valid line && (tag line =? t) then
    let line' := match a with Write v => Line true (tag line) (aset (data line) offset v) | _ => line end in
    let out := match a with Read => Some (aget (data line) offset) | _ => None end in
    (true, out, MkCache (<[Z.to_nat index := line']> (lines c)) (u64 (hits c + 1)) (misses c) (u64 (accesses c + 1)))
  else
    let line' := Line true t (match a with Write v => aset (data line) offset v | _ => data line end) in
    let out := match a with Read => Some 0 | _ => None end in
    (false, out, MkCache (<[Z.to_nat index := line']> (lines c)) (hits c) (u64 (misses c + 1)) (u64 (accesses c + 1))).

Definition cache_get_hits (c : Cache) : Z := hits c.
Definition cache_get_misses (c : Cache) : Z := misses c.
Definition cache_get_accesses (c : Cache) : Z := accesses c.

(** ** The memory bus (memory/bus.c) *)

Definition BUS_WIDTH_BYTES : Z := 8.
Definition BUS_FREQUENCY_MHZ : Z := 800.
Definition MEMORY_ACCESS_NS : Z := 30.

Inductive BusTransactionType := BUS_READ | BUS_WRITE.
Record MemoryBus := Bus {
  bus_cycles : Z; read_transactions : Z; write_transactions : Z; total_bytes : Z; busy : bool;
}.
Definition bus_init : MemoryBus := Bus 0 0 0 0 false.
Definition bus_reset (b : MemoryBus) : MemoryBus := bus_init.

Definition bus_request (type : BusTransactionType) (address size : Z) (b : MemoryBus) : bool * MemoryBus :=
  if busy b then (false, b)
  else
    let total := u64 (total_bytes b + size) in
    match type with
    | BUS_READ => (true, Bus (bus_cycles b) (u64 (read_transactions b + 1)) (write_transactions b) total true)
    | BUS_WRITE => (true, Bus (bus_cycles b) (read_transactions b) (u64 (write_transactions b + 1)) total true)
    end.
Definition bus_cycle (b : MemoryBus) : MemoryBus :=
  Bus (u64 (bus_cycles b + 1)) (read_transactions b) (write_transactions b) (total_bytes b) false.

Definition bus_get_memory_latency_cycles : Z := MEMORY_ACCESS_NS * BUS_FREQUENCY_MHZ / 1000.
Definition bus_get_read_transactions (b : MemoryBus) : Z := read_transactions b.
Definition bus_get_write_transactions (b : MemoryBus) : Z := write_transactions b.
Definition bus_get_total_bytes (b : MemoryBus) : Z := total_bytes b.

(** ** The pipeline against program order *)

Section Pipeline.
Context (memory : list Z) (n : nat).
Context (Hn : (0 < n)%nat) (Hsize : Z.of_nat n < 2 ^ 29).

(** The instructions of the program, in order. *)
Definition program : list Instruction :=
  (fun k => decode (aget memory (Z.of_nat k)) (4 * Z.of_nat k)) <$> seq 0 n.
Definition retire (regs : list Z) (i : Instruction) : list Z := write_back i regs.

(** Whether instruction [i + 1] reads what instruction [i] writes. *)
Definition depends (x y : Instruction) : bool :=
  negb (rd x =? 0) && negb (opcode x =? 0x23) && ((rs1 y =? rd x) || (rs2 y =? rd x)).
Definition dep (i : nat) : bool :=
  match program !! i, program !! S i with Some x, Some y => depends x y | _, _ => false end.
Definition hazards (j : nat) : nat := length (List.filter dep (seq 0 j)).

(** What the pipeline holds, oldest first. *)
Definition in_flight (cpu : PipelineCPU) : list Instruction :=
  option_list (p_wb cpu) ++ option_list (p_mem cpu) ++ option_list (p_ex cpu) ++ option_list (p_id cpu).

(** Where the youngest instruction is, [d] cycles after the last fetch. *)
Definition youngest (d : nat) (cpu : PipelineCPU) : Prop :=
  match d with
  | 0%nat => is_Some (p_id cpu)
  | 1%nat => p_id cpu = None /\ is_Some (p_ex cpu)
  | 2%nat => p_id cpu = None /\ p_ex cpu = None /\ is_Some (p_mem cpu)
  | 3%nat => p_id cpu = None /\ p_ex cpu = None /\ p_mem cpu = None /\ is_Some (p_wb cpu)
  | _ => in_flight cpu = []
  end.

(** [f] instructions fetched, [r] retired, [d] cycles into the drain. *)
Record flows (f r d : nat) (cpu : PipelineCPU) : Prop := {
  fl_order : (r <= f <= n)%nat /\ (d <= 5)%nat /\ (d <> 0%nat -> f = n);
  fl_pc : pc cpu = 4 * Z.of_nat f;
  fl_flight : in_flight cpu = drop r (take f program);
  fl_count : instruction_count cpu = Z.of_nat r;
  fl_regs : registers cpu = foldl retire (replicate 32 0) (take r program);
  fl_young : match f with O => in_flight cpu = [] | _ => youngest d cpu end;
  fl_stalls : stall_count cpu = Z.of_nat (match p_id cpu, p_ex cpu with
                | Some _, Some _ => hazards (f - 2) | _, _ => hazards (f - 1) end);
  fl_cycles : cycle_count cpu = Z.of_nat (f + d) + stall_count cpu;
  fl_running : running cpu = (d <? 5)%nat;
}.

Lemma program_length : length program = n.
Proof. unfold program. by rewrite length_fmap, length_seq. Qed.
Lemma program_at k : (k < n)%nat -> program !! k = Some (decode (aget memory (Z.of_nat k)) (4 * Z.of_nat k)).
Proof. intros Hk. unfold program. rewrite list_lookup_fmap, lookup_seq_lt by done. done. Qed.
Lemma hazards_S j : hazards (S j) = (hazards j + if dep j then 1 else 0)%nat.
Proof.
  unfold hazards. rewrite seq_S, List.filter_app, length_app. cbn. destruct (dep j); cbn; lia.
Qed.
Lemma hazards_le j : (hazards j <= j)%nat.
Proof. unfold hazards. etransitivity; [apply List.filter_length_le|]. by rewrite length_seq. Qed.

Lemma init_flows : flows 0 0 0 pipeline_init.
Proof. constructor; try done; cbn; lia. Qed.

Lemma fetch_at f : (f < n)%nat ->
  exists i, fetch_instruction memory (Z.of_nat n) (4 * Z.of_nat f) = Some i /\ program !! f = Some i.
Proof.
  intros Hf. eexists. unfold fetch_instruction. replace (4 * Z.of_nat f / 4) with (Z.of_nat f) by dlia.
  destruct (Z.leb_spec (Z.of_nat n) (Z.of_nat f)); [lia|]. split; [done|]. by apply program_at.
Qed.

(** The two youngest instructions are the last two fetched. *)
Lemma flight_last f r d cpu x : flows f r d cpu -> p_id cpu = Some x -> (r < f)%nat /\ program !! (f - 1)%nat = Some x.
Proof.
  intros [(H1 & _) _ Hfl _ _ _ _ _ _] Ex. unfold in_flight in Hfl. rewrite Ex in Hfl. change (option_list (Some x)) with [x] in Hfl. rewrite !app_assoc in Hfl.
  set (l := (option_list (p_wb cpu) ++ option_list (p_mem cpu)) ++ option_list (p_ex cpu)) in Hfl.
  pose proof (f_equal length Hfl) as Hl. rewrite length_app, length_drop, length_take, program_length in Hl. cbn in Hl.
  split; [lia|]. pose proof (f_equal (.!! length l) Hfl) as Hk. cbn beta in Hk.
  rewrite lookup_app_r, Nat.sub_diag, lookup_drop in Hk by lia. cbn in Hk. rewrite lookup_take_lt in Hk by lia.
  rewrite Hk. f_equal. lia.
Qed.
Lemma flight_two f r d cpu x y : flows f r d cpu -> p_id cpu = Some x -> p_ex cpu = Some y ->
  (S r < f)%nat /\ program !! (f - 2)%nat = Some y.
Proof.
  intros [(H1 & _) _ Hfl _ _ _ _ _ _] Ex Ey.
  unfold in_flight in Hfl. rewrite Ex, Ey in Hfl. change (option_list (Some x)) with [x] in Hfl. change (option_list (Some y)) with [y] in Hfl.
  rewrite (app_assoc (option_list _)) in Hfl. cbn [app] in Hfl.
  set (l := option_list (p_wb cpu) ++ option_list (p_mem cpu)) in Hfl.
  pose proof (f_equal length Hfl) as Hl. rewrite length_app, length_drop, length_take, program_length in Hl. cbn in Hl.
  split; [lia|]. pose proof (f_equal (.!! length l) Hfl) as Hk. cbn beta in Hk.
  rewrite lookup_app_r, Nat.sub_diag, lookup_drop in Hk by lia. cbn in Hk. rewrite lookup_take_lt in Hk by lia.
  rewrite Hk. f_equal. lia.
Qed.

(** The stall the hardware decides is the dependency of the two youngest. *)
Lemma hazard_dep f r d cpu : flows f r d cpu ->
  pipeline_detect_hazard cpu = match p_id cpu, p_ex cpu with Some _, Some _ => dep (f - 2) | _, _ => false end.
Proof.
  intros Hf. unfold pipeline_detect_hazard. destruct (p_id cpu) as [x|] eqn:Ex; [|done]. destruct (p_ex cpu) as [y|] eqn:Ey; [|done].
  destruct (flight_last f r d cpu x Hf Ex) as [Hr Hx]. destruct (flight_two f r d cpu x y Hf Ex Ey) as [H2 Hy].
  unfold dep, depends. rewrite Hy. replace (S (f - 2)) with (f - 1)%nat by lia. by rewrite Hx.
Qed.

(** Retiring: the oldest instruction leaves, in write-back or not at all. *)
Definition retired (cpu : PipelineCPU) : nat := match p_wb cpu with Some _ => 1 | None => 0 end.
Lemma retire_order f r d cpu : flows f r d cpu -> (r + retired cpu <= f)%nat /\
  option_list (p_mem cpu) ++ option_list (p_ex cpu) ++ option_list (p_id cpu) = drop (r + retired cpu) (take f program) /\
  (match p_wb cpu with Some i => write_back i (registers cpu) | None => registers cpu end)
    = foldl retire (replicate 32 0) (take (r + retired cpu) program).
Proof.
  intros [(H1 & _) _ Hfl _ Hr _ _ _ _]. unfold in_flight in Hfl. unfold retired. destruct (p_wb cpu) as [i|].
  - change (option_list (Some i)) with [i] in Hfl. cbn [app] in Hfl.
    pose proof (f_equal length Hfl) as Hl. cbn in Hl. rewrite length_drop, length_take, program_length in Hl.
    rewrite Nat.add_1_r. pose proof (f_equal (.!! 0%nat) Hfl) as Hk. cbn in Hk. rewrite lookup_drop, Nat.add_0_r, lookup_take_lt in Hk by lia.
    split; [lia|]. split.
    + rewrite (drop_S _ i) in Hfl by (rewrite lookup_take_lt by lia; done). by injection Hfl as Hfl.
    + rewrite (take_S_r _ _ i) by done. rewrite foldl_app, Hr. done.
  - rewrite Nat.add_0_r. split; [lia|]. split; [exact Hfl|exact Hr].
Qed.

Lemma stalls_bound f r d cpu : flows f r d cpu -> 0 <= stall_count cpu < 2 ^ 29 /\ 0 <= cycle_count cpu < 2 ^ 31.
Proof.
  intros Hf. pose proof (fl_stalls _ _ _ _ Hf) as Hs. pose proof (fl_cycles _ _ _ _ Hf) as Hc.
  pose proof (fl_order _ _ _ _ Hf) as (H1 & H2 & _). pose proof (hazards_le (f - 2)). pose proof (hazards_le (f - 1)).
  change (2 ^ 29) with 536870912 in *. change (2 ^ 31) with 2147483648.
  destruct (p_id cpu), (p_ex cpu); lia.
Qed.
(** Until the next stall the count is that of all the pairs fetched. *)
Lemma stalls_settled f r d cpu : flows f r d cpu -> pipeline_detect_hazard cpu = false ->
  stall_count cpu = Z.of_nat (hazards (f - 1)).
Proof.
  intros Hf Hz. rewrite (hazard_dep f r d cpu Hf) in Hz. rewrite (fl_stalls _ _ _ _ Hf).
  destruct (p_id cpu) as [x|] eqn:Ex; [|done]. destruct (p_ex cpu) as [y|] eqn:Ey; [|done].
  destruct (flight_two f r d cpu x y Hf Ex Ey) as [H2 _]. replace (f - 1)%nat with (S (f - 2)) by lia.
  rewrite hazards_S, Hz. lia.
Qed.

Lemma cycle_unfold cpu : running cpu = true ->
  pipeline_cycle memory (Z.of_nat n) cpu =
  let stall := pipeline_detect_hazard cpu in
  let fetching := negb stall && (pc cpu / 4 <? Z.of_nat n) in
  let empty := match p_id cpu, p_ex cpu, p_mem cpu, p_wb cpu with None, None, None, None => true | _, _, _, _ => false end in
  let fetched := if fetching then fetch_instruction memory (Z.of_nat n) (pc cpu) else None in
  Pipeline None
    (match fetched with Some i => Some i | None => if stall then p_id cpu else None end)
    (if stall then None else p_id cpu) (p_ex cpu) (p_mem cpu)
    (match fetched with Some _ => u32 (pc cpu + 4) | None => pc cpu end)
    (match p_wb cpu with Some i => write_back i (registers cpu) | None => registers cpu end)
    (u64 (cycle_count cpu + 1))
    (match p_wb cpu with Some _ => u64 (instruction_count cpu + 1) | None => instruction_count cpu end)
    (if stall then u64 (stall_count cpu + 1) else stall_count cpu)
    (if fetching then true else negb ((Z.of_nat n <=? pc cpu / 4) && empty)).
Proof.
  intros Hr. unfold pipeline_cycle. rewrite Hr. cbn [negb]. cbv zeta.
  assert (pipeline_detect_hazard cpu = true -> is_Some (p_id cpu)) as Hs.
  { unfold pipeline_detect_hazard. destruct (p_id cpu); [intros; by eexists|done]. }
  destruct (pipeline_detect_hazard cpu); cbn [negb andb].
  - destruct (Hs eq_refl) as [x ->]. destruct (p_wb cpu), (Z.of_nat n <=? pc cpu / 4); done.
  - destruct (pc cpu / 4 <? Z.of_nat n) eqn:E.
    + destruct (p_wb cpu), (p_id cpu), (fetch_instruction memory (Z.of_nat n) (pc cpu)); done.
    + destruct (p_wb cpu), (p_id cpu), (p_ex cpu), (p_mem cpu), (Z.of_nat n <=? pc cpu / 4); done.
Qed.

Lemma count_step f r d cpu : flows f r d cpu ->
  (match p_wb cpu with Some _ => u64 (instruction_count cpu + 1) | None => instruction_count cpu end) = Z.of_nat (r + retired cpu).
Proof.
  intros Hf. pose proof (fl_order _ _ _ _ Hf) as (H1 & _). rewrite (fl_count _ _ _ _ Hf). unfold retired. destruct (p_wb cpu); [|lia].
  rewrite u64_small by (change (2 ^ 29) with 536870912 in *; wsolve). lia.
Qed.

Lemma flight_empty cpu : in_flight cpu = [] -> p_id cpu = None /\ p_ex cpu = None /\ p_mem cpu = None /\ p_wb cpu = None.
Proof. unfold in_flight. by destruct (p_id cpu), (p_ex cpu), (p_mem cpu), (p_wb cpu). Qed.
Lemma young_id d cpu x : youngest d cpu -> p_id cpu = Some x -> d = 0%nat.
Proof.
  destruct d as [|[|[|[|d]]]]; cbn; [done|intros [H _]; congruence..|].
  intros H. apply flight_empty in H as [H _]. congruence.
Qed.

(** A cycle with a stall. *)
Lemma stall_step f r d cpu : flows f r d cpu -> (d < 5)%nat -> pipeline_detect_hazard cpu = true ->
  flows f (r + retired cpu) d (pipeline_cycle memory (Z.of_nat n) cpu).
Proof.
  intros Hf Hd Hz. pose proof Hz as Hz'. rewrite (hazard_dep f r d cpu Hf) in Hz'.
  destruct (p_id cpu) as [x|] eqn:Ex; [|done]. destruct (p_ex cpu) as [y|] eqn:Ey; [|done].
  destruct (retire_order f r d cpu Hf) as (Hr & Hfl & Hregs). pose proof (count_step f r d cpu Hf) as Hct.
  destruct (flight_two f r d cpu x y Hf Ex Ey) as [H2 _]. destruct (stalls_bound f r d cpu Hf) as [Hs Hc].
  pose proof Hf as [(H1 & H3 & H4) Hpc _ _ _ Hy Hst Hcy Hrun].
  assert (d = 0%nat) as -> by (destruct f; [lia|]; by apply (young_id d cpu x Hy)).
  rewrite cycle_unfold by (rewrite Hrun; apply Nat.ltb_lt; lia). rewrite Hz, Ex, Ey. cbn [negb andb].
  rewrite Ex, Ey in Hst, Hfl. change (2 ^ 29) with 536870912 in *. change (2 ^ 31) with 2147483648 in *.
  rewrite (u64_small (cycle_count cpu + 1)), (u64_small (stall_count cpu + 1)) by wsolve.
  constructor; cbn [pc instruction_count registers stall_count cycle_count running p_id p_ex]; try done; try lia.
  - destruct f; [lia|]. by exists x.
  - replace (f - 1)%nat with (S (f - 2)) by lia. rewrite hazards_S, Hz'. lia.
  - by rewrite andb_false_r.
Qed.

(** A cycle that fetches. *)
Lemma fetch_step f r cpu : flows f r 0 cpu -> (f < n)%nat -> pipeline_detect_hazard cpu = false ->
  flows (S f) (r + retired cpu) 0 (pipeline_cycle memory (Z.of_nat n) cpu).
Proof.
  intros Hf Hlt Hz. destruct (retire_order f r 0 cpu Hf) as (Hr & Hfl & Hregs). pose proof (count_step f r 0 cpu Hf) as Hct.
  destruct (stalls_bound f r 0 cpu Hf) as [Hs Hc]. pose proof (stalls_settled f r 0 cpu Hf Hz) as Hset.
  pose proof Hf as [(H1 & H3 & H4) Hpc _ _ _ Hy Hst Hcy Hrun].
  rewrite cycle_unfold by (rewrite Hrun; apply Nat.ltb_lt; lia). rewrite Hz, Hpc. cbn [negb andb].
  replace (4 * Z.of_nat f / 4) with (Z.of_nat f) by dlia. destruct (Z.ltb_spec (Z.of_nat f) (Z.of_nat n)); [|lia]. cbv zeta.
  destruct (fetch_at f Hlt) as (i & -> & Hi). change (2 ^ 29) with 536870912 in *. change (2 ^ 31) with 2147483648 in *.
  rewrite (u64_small (cycle_count cpu + 1)), (u32_small (4 * Z.of_nat f + 4)) by wsolve.
  constructor; cbn [pc instruction_count registers stall_count cycle_count running p_id p_ex]; try done; try lia.
  - unfold in_flight. cbn [p_wb p_mem p_ex p_id]. change (option_list (Some i)) with [i].
    rewrite (take_S_r _ _ i) by done. rewrite drop_app_le by (rewrite length_take, program_length; lia). rewrite <- Hfl, <- !app_assoc. done.
  - by exists i.
  - rewrite Hset. destruct (p_id cpu) as [x|] eqn:Ex.
    + replace (S f - 2)%nat with (f - 1)%nat by lia. done.
    + destruct f; [done|]. destruct Hy as [x Hx]. congruence.
Qed.

(** A cycle of the drain. *)
Lemma drain_step r d cpu : flows n r d cpu -> (d < 5)%nat -> pipeline_detect_hazard cpu = false ->
  flows n (r + retired cpu) (S d) (pipeline_cycle memory (Z.of_nat n) cpu).
Proof.
  intros Hf Hd Hz. destruct (retire_order n r d cpu Hf) as (Hr & Hfl & Hregs). pose proof (count_step n r d cpu Hf) as Hct.
  destruct (stalls_bound n r d cpu Hf) as [Hs Hc]. pose proof (stalls_settled n r d cpu Hf Hz) as Hset.
  pose proof Hf as [(H1 & H3 & H4) Hpc _ _ _ Hy Hst Hcy Hrun].
  rewrite cycle_unfold by (rewrite Hrun; apply Nat.ltb_lt; lia). rewrite Hz, Hpc. cbn [negb andb].
  replace (4 * Z.of_nat n / 4) with (Z.of_nat n) by dlia. rewrite Z.ltb_irrefl, Z.leb_refl. cbn [andb]. cbv zeta.
  change (2 ^ 29) with 536870912 in *. change (2 ^ 31) with 2147483648 in *. rewrite (u64_small (cycle_count cpu + 1)) by wsolve.
  destruct n as [|n'] eqn:En; [lia|]. rewrite <- En in *.
  constructor; cbn [pc instruction_count registers stall_count cycle_count running p_id p_ex]; try done; try lia.
  - unfold in_flight. cbn [p_wb p_mem p_ex p_id option_list]. rewrite app_nil_r. exact Hfl.
  - rewrite En. destruct d as [|[|[|[|d]]]]; cbn in Hy |- *.
    + exact (conj eq_refl Hy).
    + exact (conj eq_refl Hy).
    + exact (conj eq_refl Hy).
    + destruct Hy as (E1 & E2 & E3 & _). unfold in_flight. cbn. by rewrite E1, E2, E3.
    + apply flight_empty in Hy as (E1 & E2 & E3 & _). unfold in_flight. cbn. by rewrite E1, E2, E3.
  - destruct d as [|[|[|[|[|d]]]]]; cbn in Hy; [| | | |apply flight_empty in Hy as (-> & -> & -> & ->); done|lia].
    + destruct Hy as [? ->]. done.
    + destruct Hy as (-> & ? & ->). done.
    + destruct Hy as (-> & -> & ? & ->). done.
    + destruct Hy as (-> & -> & -> & ? & ->). done.
Qed.

Lemma cycle_flows f r d cpu : flows f r d cpu -> (d < 5)%nat ->
  exists f' d', flows f' (r + retired cpu) d' (pipeline_cycle memory (Z.of_nat n) cpu) /\ (d' <= S d)%nat.
Proof.
  intros Hf Hd. destruct (pipeline_detect_hazard cpu) eqn:Hz.
  { exists f, d. split; [by apply stall_step|lia]. }
  destruct (fl_order _ _ _ _ Hf) as (H1 & _ & H2). destruct (Nat.eq_dec f n) as [->|Hne].
  { exists n, (S d). split; [by apply drain_step|lia]. }
  assert (d = 0%nat) as -> by (destruct d; [done|]; destruct Hne; auto).
  exists (S f), 0%nat. split; [|lia]. apply fetch_step; [done|lia|done].
Qed.
Lemma cycle_counts cpu f r d : flows f r d cpu -> (d < 5)%nat ->
  cycle_count (pipeline_cycle memory (Z.of_nat n) cpu) = cycle_count cpu + 1.
Proof.
  intros Hf Hd. rewrite cycle_unfold by (rewrite (fl_running _ _ _ _ Hf); apply Nat.ltb_lt; lia). cbn [cycle_count].
  destruct (stalls_bound f r d cpu Hf) as [_ Hc]. change (2 ^ 31) with 2147483648 in Hc. rewrite u64_small by wsolve. done.
Qed.

(** Everything has retired exactly when the drain is in its fifth cycle or over. *)
Lemma drained f r d cpu : flows f r d cpu -> (r = n <-> (4 <= d)%nat).
Proof.
  intros [(H1 & H2 & H3) _ Hfl _ _ Hy _ _ _]. split.
  - intros ->. assert (f = n) as -> by lia. destruct n as [|n'] eqn:En; [lia|]. rewrite <- En in *.
    rewrite drop_ge in Hfl by (rewrite length_take; lia). apply flight_empty in Hfl as (E1 & E2 & E3 & E4).
    destruct d as [|[|[|[|d]]]]; [| | | |lia]; cbn in Hy.
    + destruct Hy; congruence.
    + destruct Hy as [_ [? ?]]; congruence.
    + destruct Hy as (_ & _ & [? ?]); congruence.
    + destruct Hy as (_ & _ & _ & [? ?]); congruence.
  - intros Hd. assert (f = n) as -> by (apply H3; lia). destruct n as [|n'] eqn:En; [lia|]. rewrite <- En in *.
    destruct d as [|[|[|[|d]]]]; try lia. cbn in Hy. rewrite Hy in Hfl. apply (f_equal length) in Hfl.
    rewrite length_drop, length_take, program_length in Hfl. cbn in Hfl. lia.
Qed.

Lemma execute_loop_spec fuel : forall f r d cpu, flows f r d cpu -> (d <= 4)%nat -> Z.of_nat (2 * n + 4) <= Z.of_nat fuel + cycle_count cpu ->
  exists cpu', execute_loop fuel memory (Z.of_nat n) (Z.of_nat n) cpu = Some cpu' /\ flows n n 4 cpu'.
Proof.
  induction fuel as [|fuel IH]; intros f r d cpu Hf Hd Hfuel; pose proof (fl_order _ _ _ _ Hf) as (H1 & H2 & H3);
    pose proof (fl_cycles _ _ _ _ Hf) as Hcy; pose proof (fl_stalls _ _ _ _ Hf) as Hst;
    pose proof (hazards_le (f - 2)); pose proof (hazards_le (f - 1)); pose proof (drained f r d cpu Hf) as Hdr.
  { destruct (p_id cpu), (p_ex cpu); lia. }
  cbn [execute_loop]. rewrite (fl_running _ _ _ _ Hf), (fl_count _ _ _ _ Hf). destruct (Nat.ltb_spec d 5); [|lia]. cbn [andb].
  destruct (Z.ltb_spec (Z.of_nat r) (Z.of_nat n)).
  - assert (d < 4)%nat as Hd4 by lia. destruct (cycle_flows f r d cpu Hf ltac:(lia)) as (f' & d' & Hf' & Hd').
    pose proof (cycle_counts cpu f r d Hf ltac:(lia)) as Hc.
    assert (u64 (Z.of_nat n * 10) = Z.of_nat n * 10) as -> by (apply u64_small; change (2 ^ 29) with 536870912 in *; wsolve).
    destruct (Z.ltb_spec (Z.of_nat n * 10) (cycle_count (pipeline_cycle memory (Z.of_nat n) cpu))) as [Hov|].
    + rewrite Hc in Hov. destruct (p_id cpu), (p_ex cpu); lia.
    + apply (IH f' (r + retired cpu)%nat d'); [done|lia|rewrite Hc; lia].
  - exists cpu. split; [done|]. assert (r = n) as -> by lia. assert (f = n) as -> by lia. assert (d = 4%nat) as -> by lia. done.
Qed.

Lemma pipeline_run_spec : exists cpu, pipeline_execute memory (Z.of_nat n) (Z.of_nat n) pipeline_init = Some cpu /\ flows n n 4 cpu.
Proof.
  unfold pipeline_execute. cbn [instruction_count pipeline_init]. rewrite Z.add_0_l.
  assert (u64 (Z.of_nat n) = Z.of_nat n) as -> by (apply u64_small; change (2 ^ 29) with 536870912 in *; wsolve).
  apply (execute_loop_spec _ 0 0 0); [apply init_flows|lia|]. cbn [cycle_count pipeline_init].
  rewrite u64_small by (change (2 ^ 29) with 536870912 in *; wsolve). lia.
Qed.

(** A target beyond the program: the pipeline runs until it is empty and stops itself. *)
Lemma execute_loop_drains target fuel : Z.of_nat n < target -> target * 10 < 2 ^ 64 -> forall f r d cpu, flows f r d cpu ->
  Z.of_nat (2 * n + 6) <= Z.of_nat fuel + cycle_count cpu ->
  exists cpu', execute_loop fuel memory (Z.of_nat n) target cpu = Some cpu' /\ flows n n 5 cpu'.
Proof.
  intros Ht Hb. induction fuel as [|fuel IH]; intros f r d cpu Hf Hfuel; pose proof (fl_order _ _ _ _ Hf) as (H1 & H2 & H3);
    pose proof (fl_cycles _ _ _ _ Hf) as Hcy; pose proof (fl_stalls _ _ _ _ Hf) as Hst;
    pose proof (hazards_le (f - 2)); pose proof (hazards_le (f - 1)); pose proof (drained f r d cpu Hf) as Hdr.
  { destruct (p_id cpu), (p_ex cpu); lia. }
  cbn [execute_loop]. rewrite (fl_running _ _ _ _ Hf), (fl_count _ _ _ _ Hf), (proj2 (Z.ltb_lt _ _)) by lia.
  destruct (Nat.ltb_spec d 5) as [Hd|]; cbn [andb].
  - destruct (cycle_flows f r d cpu Hf Hd) as (f' & d' & Hf' & Hd'). pose proof (cycle_counts cpu f r d Hf Hd) as Hc.
    rewrite u64_small by (change (2 ^ 64) with 18446744073709551616 in *; split; lia).
    destruct (Z.ltb_spec (target * 10) (cycle_count (pipeline_cycle memory (Z.of_nat n) cpu))) as [Hov|].
    + rewrite Hc in Hov. destruct (p_id cpu), (p_ex cpu); lia.
    + apply (IH f' (r + retired cpu)%nat d'); [done|rewrite Hc; lia].
  - exists cpu. split; [done|]. assert (d = 5%nat) as -> by lia. assert (r = n) as -> by (apply Hdr; lia). by assert (f = n) as -> by lia.
Qed.
End Pipeline.

(** ** The single-cycle processor *)

Lemma single_cycle_runs size k : forall cpu memory,
  sc_running cpu = true -> sc_pc cpu = 4 * sc_instruction_count cpu -> 0 <= sc_instruction_count cpu ->
  sc_instruction_count cpu + Z.of_nat k <= size -> size < 2 ^ 29 -> 0 <= sc_cycle_count cpu -> sc_cycle_count cpu + Z.of_nat k < 2 ^ 32 ->
  let cpu' := fst (single_cycle_execute size k (cpu, memory)) in
  sc_running cpu' = true /\ sc_instruction_count cpu' = sc_instruction_count cpu + Z.of_nat k /\
  sc_cycle_count cpu' = sc_cycle_count cpu + Z.of_nat k /\ sc_pc cpu' = 4 * sc_instruction_count cpu'.
Proof.
  induction k as [|k IH]; intros cpu memory Hr Hpc H0 Hk Hs Hc0 Hc; cbn [single_cycle_execute fst]; [rewrite Hr; lia|].
  rewrite Hr. unfold single_cycle_execute_one. rewrite Hr, Hpc. cbn [negb].
  replace (4 * sc_instruction_count cpu / 4) with (sc_instruction_count cpu) by dlia.
  destruct (Z.leb_spec size (sc_instruction_count cpu)); [lia|].
  match goal with |- context [let '(_, _) := ?e in _] => destruct e as [result memory'] end.
  change (2 ^ 29) with 536870912 in *. change (2 ^ 32) with 4294967296 in *.
  rewrite (u64_small (sc_cycle_count cpu + 1)), (u64_small (sc_instruction_count cpu + 1)), (u32_small (4 * _ + 4)) by wsolve.
  match goal with |- context [single_cycle_execute size k (?c, ?m)] => destruct (IH c m) as (I1 & I2 & I3 & I4); cbn [sc_running sc_pc sc_instruction_count sc_cycle_count] in *; try done; try lia end.
  rewrite I1, I3, I4, I2. lia.
Qed.

Lemma single_cycle_app size k j : forall x, single_cycle_execute size (k + j) x = single_cycle_execute size j (single_cycle_execute size k x).
Proof.
  induction k as [|k IH]; intros x; [done|]. cbn [Nat.add single_cycle_execute]. destruct (sc_running (fst x)) eqn:E; [apply IH|].
  destruct j; [done|]. cbn [single_cycle_execute]. by rewrite E.
Qed.
(** Asked for more instructions than there are, it executes each and then stops. *)
Lemma single_cycle_stops size extra memory : 0 <= size < 2 ^ 29 ->
  let cpu := fst (single_cycle_execute size (Z.to_nat size + S extra) (single_cycle_init, memory)) in
  sc_running cpu = false /\ sc_instruction_count cpu = size /\ sc_cycle_count cpu = size.
Proof.
  intros Hs. rewrite single_cycle_app. destruct (single_cycle_execute size (Z.to_nat size) (single_cycle_init, memory)) as [cpu m] eqn:E.
  destruct (single_cycle_runs size (Z.to_nat size) single_cycle_init memory) as (R1 & R2 & R3 & R4);
    cbn [sc_running sc_pc sc_instruction_count sc_cycle_count single_cycle_init] in *; try done;
    try (change (2 ^ 32) with 4294967296; change (2 ^ 29) with 536870912 in *; lia).
  rewrite E in R1, R2, R3, R4. cbn [fst] in *. cbn [single_cycle_execute fst]. rewrite R1. unfold single_cycle_execute_one. rewrite R1. cbn [negb].
  rewrite R4. replace (4 * sc_instruction_count cpu / 4) with (sc_instruction_count cpu) by dlia. rewrite (proj2 (Z.leb_le _ _)) by lia.
  destruct extra; cbn [single_cycle_execute fst sc_running sc_instruction_count sc_cycle_count]; (split; [done|lia]).
Qed.

(** The five-stage pipeline completes a program of [n] instructions: in program order,
    each once, after one cycle per instruction, one per dependent pair and four to fill
    the pipeline; the loop's limit of ten cycles per instruction is never reached. *)
Theorem pipeline_execute_correct (memory : list Z) (n : nat) :
  (0 < n)%nat -> Z.of_nat n < 2 ^ 29 ->
  exists cpu, pipeline_execute memory (Z.of_nat n) (Z.of_nat n) pipeline_init = Some cpu /\
    pipeline_get_instructions cpu = Z.of_nat n /\
    registers cpu = foldl retire (replicate 32 0) (program memory n) /\
    pipeline_get_stalls cpu = Z.of_nat (hazards memory n (n - 1)) /\
    pipeline_get_cycles cpu = Z.of_nat n + pipeline_get_stalls cpu + 4.
Proof.
  intros Hn Hs. destruct (pipeline_run_spec memory n Hn Hs) as (cpu & He & Hf). exists cpu. split; [done|].
  unfold pipeline_get_instructions, pipeline_get_stalls, pipeline_get_cycles.
  assert (p_id cpu = None) as Hid.
  { pose proof (fl_young _ _ _ _ _ _ Hf) as Hy. destruct n; [lia|]. by apply flight_empty in Hy as [? _]. }
  rewrite (fl_count _ _ _ _ _ _ Hf), (fl_cycles _ _ _ _ _ _ Hf), (fl_regs _ _ _ _ _ _ Hf), (fl_stalls _ _ _ _ _ _ Hf), Hid.
  rewrite take_ge by (rewrite program_length; lia). repeat split; lia.
Qed.

(** addi x1, x0, 5; addi x2, x1, 7; sw; addi x3, x0, 1: two dependent pairs. *)
Definition four_instructions : list Z := [0x500093; 0x708113; 0x20A023; 0x100193].
Lemma pipeline_execute_correct_witness :
  exists cpu, pipeline_execute four_instructions 4 4 pipeline_init = Some cpu /\
    pipeline_get_cycles cpu = 4 + pipeline_get_stalls cpu + 4 /\ pipeline_get_stalls cpu = 2.
Proof.
  destruct (pipeline_execute_correct four_instructions 4 ltac:(lia) ltac:(lia)) as (cpu & He & _ & _ & Hst & Hcy).
  exists cpu. split; [exact He|]. split; [exact Hcy|]. rewrite Hst. vm_compute. reflexivity.
Defined.

(** The load-immediate instruction [addi rd, x0, imm]. *)
Definition load_immediate (raw : Z) : Prop :=
  0 <= raw < 2 ^ 32 /\ Z.land raw 0x7F = 0x13 /\ Z.land (Z.shiftr raw 15) 0x1F = 0.

Lemma single_cycle_step memory size cpu k : Forall load_immediate memory -> size = Z.of_nat (length memory) -> size < 2 ^ 29 ->
  sc_running cpu = true -> sc_pc cpu = 4 * Z.of_nat k -> Z.of_nat k < size -> aget (sc_registers cpu) 0 = 0 ->
  exists cpu', single_cycle_execute_one size (cpu, memory) = (cpu', memory) /\
    sc_running cpu' = true /\ sc_pc cpu' = 4 * Z.of_nat (S k) /\ aget (sc_registers cpu') 0 = 0 /\
    sc_registers cpu' = retire (sc_registers cpu) (decode (aget memory (Z.of_nat k)) (4 * Z.of_nat k)).
Proof.
  intros Hall -> Hs Hr Hpc Hk H0. unfold single_cycle_execute_one. rewrite Hr, Hpc. cbn [negb].
  replace (4 * Z.of_nat k / 4) with (Z.of_nat k) by dlia. destruct (Z.leb_spec (Z.of_nat (length memory)) (Z.of_nat k)); [lia|].
  assert (load_immediate (aget memory (Z.of_nat k))) as (Hraw & Hop & Hrs).
  { unfold aget. destruct (lookup_lt_is_Some_2 memory k) as [x Hx]; [lia|]. rewrite Nat2Z.id, Hx. cbn.
    by eapply Forall_lookup_1 in Hx. }
  set (raw := aget memory (Z.of_nat k)) in *. unfold retire, write_back, decode. cbn [rd opcode immediate].
  rewrite Hop, Hrs, H0. cbn [Z.eqb Pos.eqb]. rewrite (u32_small (0 + Z.shiftr raw 20)).
  2:{ rewrite Z.shiftr_div_pow2 by lia. change (2 ^ 20) with 1048576. change (2 ^ 32) with 4294967296 in *. wsolve. }
  rewrite (u32_small (4 * Z.of_nat k + 4)) by (change (2 ^ 29) with 536870912 in *; wsolve). rewrite Z.add_0_l.
  eexists. split; [reflexivity|]. cbn [sc_running sc_pc sc_registers]. split; [done|]. split; [lia|]. split; [|done].
  destruct (Z.eqb_spec (Z.land (Z.shiftr raw 7) 31) 0) as [E|E]; cbn [negb andb]; [done|].
  rewrite aget_aset_ne; [done|..]; try done; change 31 with (Z.ones 5) in *; rewrite Z.land_ones in * by lia; dlia.
Qed.

Lemma single_cycle_loads memory n : Forall load_immediate memory -> length memory = n -> Z.of_nat n < 2 ^ 29 ->
  forall m k cpu, (k + m <= n)%nat -> sc_running cpu = true -> sc_pc cpu = 4 * Z.of_nat k -> aget (sc_registers cpu) 0 = 0 ->
  sc_registers cpu = foldl retire (replicate 32 0) (take k (program memory n)) ->
  exists cpu', single_cycle_execute (Z.of_nat n) m (cpu, memory) = (cpu', memory) /\
    sc_registers cpu' = foldl retire (replicate 32 0) (take (k + m) (program memory n)).
Proof.
  intros Hall <- Hs. induction m as [|m IH]; intros k cpu Hk Hr Hpc H0 Hregs; cbn [single_cycle_execute fst].
  { exists cpu. by rewrite Nat.add_0_r. }
  rewrite Hr. destruct (single_cycle_step memory _ cpu k Hall eq_refl Hs Hr Hpc ltac:(lia) H0) as (cpu' & -> & Hr' & Hpc' & H0' & Hregs').
  destruct (IH (S k) cpu') as (cpu'' & E & Hfin); [lia|done..| |].
  { rewrite (take_S_r _ _ _ (program_at memory (length memory) k ltac:(lia))), foldl_app, Hregs', Hregs. done. }
  exists cpu''. rewrite E, Hfin. split; [done|]. do 2 f_equal. lia.
Qed.

(** C15. On programs of load-immediate instructions the pipelined processor computes what
    the single-cycle processor does: both leave the same registers and the same
    instruction count, and the pipeline takes four cycles more plus one per stall. *)
Theorem pipeline_equals_single_cycle (memory : list Z) (n : nat) :
  Forall load_immediate memory -> length memory = n -> (0 < n)%nat -> Z.of_nat n < 2 ^ 29 ->
  exists cpu sc, pipeline_execute memory (Z.of_nat n) (Z.of_nat n) pipeline_init = Some cpu /\
    single_cycle_execute (Z.of_nat n) n (single_cycle_init, memory) = (sc, memory) /\
    registers cpu = sc_registers sc /\
    pipeline_get_instructions cpu = single_cycle_get_instructions sc /\
    pipeline_get_cycles cpu = single_cycle_get_cycles sc + pipeline_get_stalls cpu + 4.
Proof.
  intros Hall Hlen Hn Hs. destruct (pipeline_run_spec memory n Hn Hs) as (cpu & He & Hf).
  destruct (single_cycle_loads memory n Hall Hlen Hs n 0 single_cycle_init) as (sc & Es & Hregs); try done.
  exists cpu, sc. split; [done|]. split; [done|].
  pose proof (single_cycle_runs (Z.of_nat n) n single_cycle_init memory) as Hrun. cbv zeta in Hrun. rewrite Es in Hrun. cbn [fst] in Hrun.
  destruct Hrun as (_ & Hi & Hc & _); cbn [sc_running sc_pc sc_instruction_count sc_cycle_count single_cycle_init] in *;
    try done; try (change (2 ^ 32) with 4294967296; change (2 ^ 29) with 536870912 in *; lia).
  unfold pipeline_get_instructions, pipeline_get_stalls, pipeline_get_cycles, single_cycle_get_instructions, single_cycle_get_cycles.
  rewrite (fl_count _ _ _ _ _ _ Hf), (fl_cycles _ _ _ _ _ _ Hf), (fl_regs _ _ _ _ _ _ Hf), Hregs, Hi, Hc. repeat split; lia.
Qed.

Definition three_loads : list Z := [0x500093; 0x700113; 0x100193].
Lemma pipeline_equals_single_cycle_witness :
  exists cpu sc, pipeline_execute three_loads 3 3 pipeline_init = Some cpu /\
    single_cycle_execute 3 3 (single_cycle_init, three_loads) = (sc, three_loads) /\ registers cpu = sc_registers sc.
Proof.
  destruct (pipeline_equals_single_cycle three_loads 3) as (cpu & sc & H1 & H2 & H3 & _); [|reflexivity|lia|lia|].
  - repeat constructor; cbn; lia.
  - exists cpu, sc. exact (conj H1 (conj H2 H3)).
Defined.
(** Other programs are not computed: the pipeline's write-back stores the immediate
    field of every instruction. *)
Lemma pipeline_adds_nothing :
  option_map (fun cpu => aget (registers cpu) 3) (pipeline_execute [0x500093; 0x700113; 0x2081B3] 3 3 pipeline_init) = Some 2 /\
  aget (sc_registers (fst (single_cycle_execute 3 3 (single_cycle_init, [0x500093; 0x700113; 0x2081B3])))) 3 = 12.
Proof. split; vm_compute; reflexivity. Qed.

(** ** The cache against its trace of accesses *)

Definition block_of (address : Z) : Z := address / CACHE_BLOCK_SIZE.
Definition set_of (address : Z) : Z := block_of address mod CACHE_NUM_LINES.
Definition run_cache (trace : list (Z * access)) : Cache :=
  foldl (fun c x => snd (cache_access (fst x) (snd x) c)) cache_init trace.
(** The block a set holds is the last one of that set that was accessed. *)
Definition resident (trace : list (Z * access)) (s : Z) : option Z :=
  foldl (fun o x => if set_of (fst x) =? s then Some (block_of (fst x)) else o) None trace.

Lemma parse_address address : 0 <= address -> cache_parse_address address =
  (block_of address / CACHE_NUM_LINES, set_of address, address mod CACHE_BLOCK_SIZE).
Proof.
  intros H. unfold cache_parse_address, set_of, block_of, CACHE_NUM_LINES, CACHE_BLOCK_SIZE, CACHE_OFFSET_BITS, CACHE_INDEX_BITS.
  change 0xFF with (Z.ones 8). change 0x1F with (Z.ones 5). rewrite !Z.land_ones, !Z.shiftr_div_pow2 by lia.
  change (2 ^ (5 + 8)) with (32 * 256). change (2 ^ 5) with 32. change (2 ^ 8) with 256. by rewrite Z.div_div by lia.
Qed.
Lemma set_range address : 0 <= set_of address < 256.
Proof. unfold set_of, CACHE_NUM_LINES. dlia. Qed.

(** What the cache holds: the resident block of every set. *)
Record caches (res : Z -> option Z) (c : Cache) : Prop := {
  ca_lines : length (lines c) = 256%nat;
  ca_data : forall s, 0 <= s -> length (data (line_at c s)) = 32%nat;
  ca_resident : forall s b, 0 <= s < 256 -> b mod 256 = s ->
    (res s = Some b <-> valid (line_at c s) = true /\ tag (line_at c s) = b / 256);
}.

Lemma init_caches : caches (fun _ => None) cache_init.
Proof.
  assert (forall s, line_at cache_init s = zero_line) as Hz.
  { intros s. unfold line_at, cache_init. cbn [lines]. destruct (decide (Z.to_nat s < 256)%nat).
    - by rewrite lookup_replicate_2 by (change (Z.to_nat CACHE_NUM_LINES) with 256%nat; lia).
    - by rewrite lookup_ge_None_2 by (rewrite length_replicate; change (Z.to_nat CACHE_NUM_LINES) with 256%nat; lia). }
  constructor; [done|intros s _; by rewrite Hz|]. intros s b _ _. rewrite Hz. cbn. split; [done|by intros [? _]].
Qed.

Lemma line_at_insert c s s' l h m a : length (lines c) = 256%nat -> 0 <= s < 256 -> 0 <= s' ->
  line_at (MkCache (<[Z.to_nat s := l]> (lines c)) h m a) s' = if s =? s' then l else line_at c s'.
Proof.
  intros Hl Hs Hs'. unfold line_at. cbn [lines]. destruct (Z.eqb_spec s s') as [->|].
  - by rewrite list_lookup_insert_eq by lia.
  - by rewrite list_lookup_insert_ne by lia.
Qed.

Lemma same_block x y t : x mod 256 = y mod 256 -> t = x / 256 -> (Some x = Some y <-> true = true /\ t = y / 256).
Proof. intros Hm ->. split; [by intros [= ->]|]. intros [_ Hd]. f_equal. dlia. Qed.

Lemma cache_access_step res c address a : caches res c -> 0 <= address ->
  let '(hit, out, c') := cache_access address a c in
  caches (fun s => if set_of address =? s then Some (block_of address) else res s) c' /\
  hit = bool_decide (res (set_of address) = Some (block_of address)) /\
  accesses c' = u64 (accesses c + 1) /\ hits c' = (if hit then u64 (hits c + 1) else hits c) /\
  misses c' = (if hit then misses c else u64 (misses c + 1)).
Proof.
  intros [Hl Hd Hr] Ha. unfold cache_access. rewrite parse_address by done. pose proof (set_range address) as Hs.
  destruct (Hr (set_of address) (block_of address) Hs eq_refl) as [Hr1 Hr2].
  set (t := block_of address / CACHE_NUM_LINES) in *. set (s := set_of address) in *.
  destruct (valid (line_at c s) && (tag (line_at c s) =? t)) eqn:Hhit.
  - apply andb_true_iff in Hhit as [Hv Ht]. apply Z.eqb_eq in Ht. cbn [accesses hits misses].
    split; [|split; [symmetry; apply bool_decide_eq_true_2, Hr2; split; [done|exact Ht]|done]].
    constructor; cbn [lines].
    + by rewrite length_insert.
    + intros s' Hs'. rewrite line_at_insert by done. destruct (s =? s'); [|by apply Hd].
      destruct a; cbn [data]; rewrite ?length_aset; apply Hd; lia.
    + intros s' b Hs' Hb. rewrite line_at_insert by lia. destruct (Z.eqb_spec s s') as [E|E]; [|by apply Hr].
      assert (valid (match a with Write v => Line true (tag (line_at c s)) (aset (data (line_at c s)) (address mod CACHE_BLOCK_SIZE) v) | _ => line_at c s end) = true
        /\ tag (match a with Write v => Line true (tag (line_at c s)) (aset (data (line_at c s)) (address mod CACHE_BLOCK_SIZE) v) | _ => line_at c s end) = t) as [-> ->]
        by (by destruct a).
      apply same_block; [|done]. rewrite Hb, <- E. done.
  - cbn [accesses hits misses].
    split; [|split; [symmetry; apply bool_decide_eq_false_2; intros E; destruct (Hr1 E) as [Hv Ht]; rewrite Hv, Ht in Hhit; by rewrite Z.eqb_refl in Hhit|done]].
    constructor; cbn [lines].
    + by rewrite length_insert.
    + intros s' Hs'. rewrite line_at_insert by done. destruct (s =? s'); [|by apply Hd].
      destruct a; cbn [data]; rewrite ?length_aset; apply Hd; lia.
    + intros s' b Hs' Hb. rewrite line_at_insert by lia. destruct (Z.eqb_spec s s') as [E|E]; [|by apply Hr].
      cbn [valid tag]. apply same_block; [|done]. rewrite Hb, <- E. done.
Qed.

Definition addresses_ok (trace : list (Z * access)) : Prop := Forall (fun x => 0 <= fst x < 2 ^ 32) trace.

Lemma run_cache_snoc trace x : run_cache (trace ++ [x]) = snd (cache_access (fst x) (snd x) (run_cache trace)).
Proof. unfold run_cache. by rewrite foldl_app. Qed.
Lemma resident_snoc trace x s : resident (trace ++ [x]) s = if set_of (fst x) =? s then Some (block_of (fst x)) else resident trace s.
Proof. unfold resident. by rewrite foldl_app. Qed.
Lemma caches_ext res res' c : (forall s, res' s = res s) -> caches res c -> caches res' c.
Proof. intros E [Hl Hd Hr]. constructor; [done|done|]. intros s b Hs Hb. rewrite E. by apply Hr. Qed.
Lemma run_caches trace : addresses_ok trace -> Z.of_nat (length trace) < 2 ^ 64 ->
  caches (resident trace) (run_cache trace) /\ accesses (run_cache trace) = Z.of_nat (length trace) /\
  hits (run_cache trace) + misses (run_cache trace) = Z.of_nat (length trace) /\
  0 <= hits (run_cache trace) /\ 0 <= misses (run_cache trace).
Proof.
  induction trace as [|x trace IH] using rev_ind; intros Ha Hlen.
  { split; [apply init_caches|done]. }
  apply Forall_app in Ha as [Ha Hx]. apply Forall_cons_iff in Hx as [Hx _]. rewrite length_app in *. cbn [length] in *.
  destruct IH as (Hc & Hacc & Hsum & Hh & Hm); [done|lia|]. rewrite run_cache_snoc.
  pose proof (cache_access_step _ _ (fst x) (snd x) Hc ltac:(lia)) as Hstep.
  destruct (cache_access (fst x) (snd x) (run_cache trace)) as [[hit out] c']. destruct Hstep as (Hc' & _ & Ha' & Hh' & Hm'). cbn [snd].
  change (2 ^ 64) with 18446744073709551616 in *. rewrite Hacc, u64_small in Ha' by wsolve. split.
  - refine (caches_ext _ _ _ _ Hc'). intros s. apply resident_snoc.
  - rewrite Ha', Hh', Hm'. destruct hit; rewrite u64_small by wsolve; lia.
Qed.

(** The byte at [address] in the cache. *)
Definition cached (c : Cache) (address : Z) : Z := aget (data (line_at c (set_of address))) (address mod CACHE_BLOCK_SIZE).

(** An access leaves the byte at [address] alone unless it writes there or brings
    another block into its set. *)
Definition keeps (address : Z) (x : Z * access) : Prop :=
  set_of (fst x) = set_of address -> block_of (fst x) = block_of address /\ (forall v, snd x = Write v -> fst x <> address).

Lemma keeps_cached res c address x : caches res c -> 0 <= address -> 0 <= fst x -> keeps address x ->
  res (set_of address) = Some (block_of address) ->
  cached (snd (cache_access (fst x) (snd x) c)) address = cached c address.
Proof.
  intros [Hl Hd Hr] Ha Hx Hk Hres. unfold cache_access, cached. rewrite parse_address by done.
  pose proof (set_range address) as Hs. pose proof (set_range (fst x)) as Hsx.
  destruct (Z.eq_dec (set_of (fst x)) (set_of address)) as [E|E].
  - destruct (Hk E) as [Hb Hw]. rewrite E, Hb. destruct (proj1 (Hr _ (block_of address) Hs eq_refl) Hres) as [-> ->].
    change 256 with CACHE_NUM_LINES. rewrite Z.eqb_refl. cbn [andb snd]. rewrite line_at_insert, Z.eqb_refl by lia.
    destruct (snd x) as [|v|] eqn:Es; [done| |done]. cbn [data]. rewrite aget_aset_ne; [done|..]; unfold CACHE_BLOCK_SIZE in *; [dlia|dlia|].
    intros Em. apply (Hw v eq_refl). unfold block_of, CACHE_BLOCK_SIZE in Hb. dlia.
  - destruct (_ && _); cbn [snd]; rewrite line_at_insert by lia; destruct (Z.eqb_spec (set_of (fst x)) (set_of address)); done.
Qed.

Lemma written_cached res c address v : caches res c -> 0 <= address ->
  cached (snd (cache_access address (Write v) c)) address = v.
Proof.
  intros [Hl Hd Hr] Ha. unfold cache_access, cached. rewrite parse_address by done. pose proof (set_range address) as Hs.
  destruct (_ && _); cbn [snd]; rewrite line_at_insert, Z.eqb_refl by lia; cbn [data];
    (rewrite aget_aset_eq; [done|]; rewrite Hd by lia; unfold CACHE_BLOCK_SIZE; dlia).
Qed.

Lemma kept_cached trace address v post : addresses_ok trace -> 0 <= address < 2 ^ 32 -> addresses_ok post ->
  Z.of_nat (length (trace ++ (address, Write v) :: post)) < 2 ^ 64 -> Forall (keeps address) post ->
  resident (trace ++ (address, Write v) :: post) (set_of address) = Some (block_of address) /\
  cached (run_cache (trace ++ (address, Write v) :: post)) address = v.
Proof.
  intros Ht Ha. induction post as [|x post IH] using rev_ind; intros Hp Hlen Hk.
  - rewrite length_app in Hlen. cbn [length] in Hlen. rewrite resident_snoc, run_cache_snoc. cbn [fst snd]. rewrite Z.eqb_refl. split; [done|].
    eapply written_cached; [apply run_caches; [done|lia]|lia].
  - apply Forall_app in Hp as [Hp Hx]. apply Forall_cons_iff in Hx as [Hx _].
    apply Forall_app in Hk as [Hk Hkx]. apply Forall_cons_iff in Hkx as [Hkx _].
    assert (trace ++ (address, Write v) :: post ++ [x] = (trace ++ (address, Write v) :: post) ++ [x]) as Eq by (by rewrite <- app_assoc).
    rewrite Eq in *. clear Eq. rewrite length_app in Hlen. cbn [length] in Hlen. destruct IH as [Hres Hc]; [done|lia|done|].
    rewrite resident_snoc, run_cache_snoc. split.
    + destruct (Z.eqb_spec (set_of (fst x)) (set_of address)) as [E|E]; [|done]. by destruct (Hkx E) as [-> _].
    + transitivity (cached (run_cache (trace ++ (address, Write v) :: post)) address); [|exact Hc]. eapply keeps_cached; [|lia|lia|done|exact Hres]. apply run_caches; [|lia].
      apply Forall_app. split; [done|]. by constructor.
Qed.

(** C32. The cache is a direct-mapped cache: after any trace of accesses an address hits
    exactly when the last access to its set was to its block; every access is counted
    as a hit or a miss; and a byte written is what a later read returns, as long as no
    other block of the set came between. *)
Theorem cache_direct_mapped (trace : list (Z * access)) (address : Z) (a : access) :
  addresses_ok trace -> 0 <= address < 2 ^ 32 -> Z.of_nat (length trace) < 2 ^ 64 ->
  let c := run_cache trace in
  fst (fst (cache_access address a c)) = bool_decide (resident trace (set_of address) = Some (block_of address)) /\
  cache_get_accesses c = Z.of_nat (length trace) /\ cache_get_hits c + cache_get_misses c = cache_get_accesses c /\
  (forall before v after, trace = before ++ (address, Write v) :: after -> Forall (keeps address) after ->
     fst (cache_access address Read c) = (true, Some v)).
Proof.
  intros Ht Ha Hlen c. destruct (run_caches trace Ht Hlen) as (Hc & Hacc & Hsum & _).
  unfold cache_get_accesses, cache_get_hits, cache_get_misses. split; [|split; [done|split; [unfold c; lia|]]].
  - pose proof (cache_access_step _ _ address a Hc ltac:(lia)) as Hs. fold c in Hs.
    destruct (cache_access address a c) as [[hit out] c']. cbn [fst]. by destruct Hs as (_ & -> & _).
  - intros before v after E Hk. subst trace. apply Forall_app in Ht as [Hb Hx]. apply Forall_cons_iff in Hx as [_ Hafter].
    destruct (kept_cached before address v after Hb Ha Hafter Hlen Hk) as [Hres Hv]. fold c in Hv.
    destruct Hc as [Hl Hd Hr]. fold c in Hl, Hd, Hr. pose proof (set_range address) as Hs.
    destruct (proj1 (Hr _ (block_of address) Hs eq_refl) Hres) as [Hvalid Htag].
    unfold cache_access. rewrite parse_address by lia. rewrite Hvalid, Htag. change 256 with CACHE_NUM_LINES.
    rewrite Z.eqb_refl. cbn [andb fst]. unfold cached in Hv. by rewrite Hv.
Qed.

Definition short_trace : list (Z * access) := [(0x1000, Write 7); (0x2020, Read); (0x1001, Write 9)].
Lemma cache_direct_mapped_witness : fst (cache_access 0x1000 Read (run_cache short_trace)) = (true, Some 7).
Proof.
  apply (cache_direct_mapped short_trace 0x1000 Read) with (before := []) (v := 7) (after := [(0x2020, Read); (0x1001, Write 9)]);
    [repeat constructor; cbn; lia|lia|cbn; lia|reflexivity|].
  repeat constructor; cbn; try discriminate; try reflexivity; intros; lia.
Defined.

(** A miss keeps the bytes of the block it evicts: after 0x1000 was written, reading
    0x3000 twice returns 0 and then the byte of 0x1000. *)
Lemma cache_returns_evicted_bytes :
  let c := run_cache [(0x1000, Write 7)] in
  fst (cache_access 0x3000 Read c) = (false, Some 0) /\
  fst (cache_access 0x3000 Read (snd (cache_access 0x3000 Read c))) = (true, Some 7).
Proof. split; vm_compute; reflexivity. Qed.

(** The bus carries one transaction per cycle: a request is taken exactly when none was
    taken since the last cycle, and a refused one changes nothing. *)
Lemma bus_one_per_cycle type type' address size address' size' b :
  busy b = false -> let '(ok, b') := bus_request type address size b in
  ok = true /\ bus_request type' address' size' b' = (false, b') /\
  fst (bus_request type' address' size' (bus_cycle b')) = true /\
  bus_get_total_bytes b' = u64 (bus_get_total_bytes b + size).
Proof. intros H. unfold bus_request. rewrite H. destruct type, type'; done. Qed.
