(* ===== verification/Network.v ===== *)
(** * Networking (kernel/network.c, include/network.h)

    The device and socket tables, the socket calls with their error returns, and the
    Internet checksum. A socket pointer is NULL ([None]) or points to an entry of the
    table ([Some i]): [net_socket_create] is where such pointers come from. Buffers and
    addresses passed by pointer are NULL or their bytes. *)
From Stdlib Require Import String.
From S2P Require Import Prelude Mem Devices Console.
Local Close Scope string_scope.

Definition MAC_ADDR_LEN : Z := 6.
Definition IP_ADDR_LEN : Z := 4.
Definition MAX_PACKET_SIZE : Z := 1518.
Definition MAX_SOCKETS : Z := 32.

Record packet_t := Packet { pk_data : list Z; pk_length : Z }.
Record socket_t := Socket {
  id : Z; local_port : Z; remote_port : Z; remote_ip : list Z; protocol : Z; is_open : Z;
}.
Record net_device_t := NetDevice { name : list Z; mac : list Z; ip : list Z; is_up : Z }.
Record net := Net { net_dev : net_device_t; net_initialized : Z; sockets : list socket_t }.

Definition zero_socket : socket_t := Socket 0 0 0 (replicate 4 0) 0 0.
Definition net_bss : net :=
  Net (NetDevice (replicate 16 0) (replicate 6 0) (replicate 4 0) 0) 0 (replicate (Z.to_nat MAX_SOCKETS) zero_socket).

Definition close (s : socket_t) : socket_t :=
  Socket (id s) (local_port s) (remote_port s) (remote_ip s) (protocol s) 0.

Definition net_init (x : net * console) : net * console :=
  let '(s, con) := x in
  if negb (net_initialized s =? 0) then x
  else
    let con := console_write (str "NET: Initializing networking stack..." ++ [10]) con in
    let dev := NetDevice (str "eth0" ++ replicate 12 0) [0; 0x11; 0x22; 0x33; 0x44; 0x55] [192; 168; 1; 100] 1 in
    (Net dev 1 (close <$> sockets s), console_write (str "NET: eth0 up at 192.168.1.100" ++ [10]) con).

Definition net_set_ip (p : option (list Z)) (s : net) : net :=
  match p with
  | Some a => Net (NetDevice (name (net_dev s)) (mac (net_dev s)) a (is_up (net_dev s))) (net_initialized s) (sockets s)
  | None => s
  end.
Definition net_set_mac (p : option (list Z)) (s : net) : net :=
  match p with
  | Some a => Net (NetDevice (name (net_dev s)) a (ip (net_dev s)) (is_up (net_dev s))) (net_initialized s) (sockets s)
  | None => s
  end.
Definition net_get_device (s : net) : net_device_t := net_dev s.

Definition net_send_packet (packet : option packet_t) (s : net) : Z :=
  match packet with
  | Some p => if is_up (net_dev s) =? 0 then -1 else s32 (pk_length p)
  | None => -1
  end.
Definition net_receive_packet (packet : option packet_t) (s : net) : Z :=
  match packet with
  | Some _ => if is_up (net_dev s) =? 0 then -1 else 0
  | None => -1
  end.

Definition socket_at (s : net) (i : nat) : socket_t := default zero_socket (sockets s !! i).
Definition set_socket (i : nat) (x : socket_t) (s : net) : net :=
  Net (net_dev s) (net_initialized s) (<[i := x]> (sockets s)).
(** [!socket || !socket->is_open], negated. *)
Definition usable (p : option nat) (s : net) : option nat :=
  match p with
  | Some i => if is_open (socket_at s i) =? 0 then None else Some i
  | None => None
  end.

Definition net_socket_create (proto : Z) (s : net) : option nat * net :=
  match zfind (fun i => is_open (socket_at s (Z.to_nat i)) =? 0) 0 MAX_SOCKETS with
  | Some i =>
      (Some (Z.to_nat i), set_socket (Z.to_nat i) (Socket i 0 0 (remote_ip (socket_at s (Z.to_nat i))) proto 1) s)
  | None => (None, s)
  end.
Definition net_socket_bind (socket : option nat) (port : Z) (s : net) : Z * net :=
  match usable socket s with
  | Some i =>
      let k := socket_at s i in
      (0, set_socket i (Socket (id k) port (remote_port k) (remote_ip k) (protocol k) (is_open k)) s)
  | None => (-1, s)
  end.
Definition net_socket_connect (socket : option nat) (address : option (list Z)) (port : Z) (s : net) : Z * net :=
  match usable socket s, address with
  | Some i, Some a =>
      let k := socket_at s i in
      (0, set_socket i (Socket (id k) (local_port k) port a (protocol k) (is_open k)) s)
  | _, _ => (-1, s)
  end.
Definition net_socket_send (socket : option nat) (data : option (list Z)) (size : Z) (s : net) : Z :=
  match usable socket s, data with
  | Some _, Some _ => s32 size
  | _, _ => -1
  end.
Definition net_socket_recv (socket : option nat) (buffer : option Z) (size : Z) (s : net) : Z :=
  match usable socket s, buffer with
  | Some _, Some _ => 0
  | _, _ => -1
  end.
Definition net_socket_close (socket : option nat) (s : net) : net :=
  match socket with
  | Some i => set_socket i (close (socket_at s i)) s
  | None => s
  end.

(** The loops of [net_checksum]: 16-bit little-endian words and an odd last byte are
    added, then the carries are folded in. *)
Fixpoint checksum_words (sum : Z) (data : list Z) : Z :=
  match data with
  | b0 :: b1 :: rest => checksum_words (u32 (sum + (b0 + 256 * b1))) rest
  | [b] => u32 (sum + b)
  | [] => sum
  end.
Fixpoint checksum_fold (fuel : nat) (sum : Z) : option Z :=
  if Z.shiftr sum 16 =? 0 then Some sum
  else match fuel with
       | O => None
       | S fuel => checksum_fold fuel (u32 (Z.land sum 0xFFFF + Z.shiftr sum 16))
       end.
Definition net_checksum (data : list Z) : option Z :=
  option_map (fun sum => u16 (Z.lnot sum)) (checksum_fold 3 (checksum_words 0 data)).

(** ** The checksum *)

(** The sum of the 16-bit words without width. *)
Fixpoint word_sum (data : list Z) : Z :=
  match data with
  | b0 :: b1 :: rest => b0 + 256 * b1 + word_sum rest
  | [b] => b
  | [] => 0
  end.

Lemma pairs_ind (Q : list Z -> Prop) :
  Q [] -> (forall b, Q [b]) -> (forall b0 b1 l, Q l -> Q (b0 :: b1 :: l)) -> forall l, Q l.
Proof.
  intros H0 H1 H2 l. assert (Q l /\ forall b, Q (b :: l)) as [H _]; [|exact H].
  induction l as [|x l [IH1 IH2]]; split; auto.
Qed.
Lemma word_sum_bound data : Forall is_u8 data -> 0 <= word_sum data <= 65535 * ((Z.of_nat (length data) + 1) / 2).
Proof.
  unfold is_u8. change (2 ^ 8) with 256. induction data as [|b|b0 b1 l IH] using pairs_ind; [intros _; split; vm_compute; discriminate|intros Hb|intros Hl].
  - apply Forall_cons_iff in Hb as [Hb _]. cbn [word_sum length]. change ((Z.of_nat 1 + 1) / 2) with 1. lia.
  - apply Forall_cons_iff in Hl as [H0 Hl]. apply Forall_cons_iff in Hl as [H1 Hl].
    specialize (IH Hl). cbn [word_sum length]. replace ((Z.of_nat (S (S (length l))) + 1) / 2) with ((Z.of_nat (length l) + 1) / 2 + 1) by dlia. lia.
Qed.
Lemma checksum_words_sum data : forall sum, Forall is_u8 data -> 0 <= sum -> sum + word_sum data < 2 ^ 32 ->
  checksum_words sum data = sum + word_sum data.
Proof.
  unfold is_u8. change (2 ^ 8) with 256. change (2 ^ 32) with 4294967296. induction data as [|b|b0 b1 l IH] using pairs_ind; [cbn; lia|..].
  - intros sum Hb H0 Hs. apply Forall_cons_iff in Hb as [Hb _]. cbn in *. apply u32_small. wsolve.
  - intros sum Hl H0 Hs. apply Forall_cons_iff in Hl as [Hb0 Hl]. apply Forall_cons_iff in Hl as [Hb1 Hl].
    pose proof (word_sum_bound l Hl) as Hb. cbn [word_sum checksum_words] in *. rewrite u32_small by wsolve. rewrite IH by (done || lia). lia.
Qed.

Lemma fold_step sum : 0 <= sum < 2 ^ 32 ->
  u32 (Z.land sum 0xFFFF + sum / 65536) = sum mod 65536 + sum / 65536.
Proof.
  intros H. change 0xFFFF with (Z.ones 16). rewrite Z.land_ones by lia. change (2 ^ 16) with 65536.
  change (2 ^ 32) with 4294967296 in H. apply u32_small. wsolve.
Qed.
(** Folding keeps the value modulo 65535, and 0 only for 0. *)
Lemma checksum_fold_spec sum : 0 <= sum < 2 ^ 32 ->
  exists r, checksum_fold 3 sum = Some r /\ 0 <= r < 65536 /\ r mod 65535 = sum mod 65535 /\ (r = 0 <-> sum = 0).
Proof.
  intros H. assert (forall s, 0 <= s < 2 ^ 32 -> Z.shiftr s 16 = s / 65536) as Hsh.
  { intros s _. by rewrite Z.shiftr_div_pow2 by lia. }
  assert (forall s, 0 <= s < 2 ^ 32 -> (s mod 65536 + s / 65536) mod 65535 = s mod 65535 /\ 0 <= s mod 65536 + s / 65536 < 2 ^ 32) as Hm.
  { intros s Hs. change (2 ^ 32) with 4294967296 in *. split; [|dlia].
    rewrite (Z.div_mod s 65536) at 3 by lia. replace (65536 * (s / 65536) + s mod 65536) with (s mod 65536 + s / 65536 + s / 65536 * 65535) by lia.
    by rewrite Z.mod_add by lia. }
  cbn [checksum_fold]. rewrite Hsh by done. destruct (Z.eqb_spec (sum / 65536) 0) as [E|E].
  { exists sum. split; [done|]. split; [dlia|done]. }
  rewrite fold_step by done. destruct (Hm sum H) as [Hm1 Hr1].
  set (s1 := sum mod 65536 + sum / 65536) in *. assert (0 < s1 < 131071) as Hs1 by (change (2 ^ 32) with 4294967296 in *; unfold s1; dlia).
  rewrite Hsh by done. destruct (Z.eqb_spec (s1 / 65536) 0) as [E1|E1].
  { exists s1. split; [done|]. split; [dlia|]. split; [done|]. split; [lia|]. intros ->. done. }
  rewrite fold_step by done. destruct (Hm s1 Hr1) as [Hm2 Hr2].
  set (s2 := s1 mod 65536 + s1 / 65536) in *. assert (0 < s2 < 65536) as Hs2 by (unfold s2; dlia).
  rewrite Hsh by done. destruct (Z.eqb_spec (s2 / 65536) 0) as [E2|E2]; [|dlia].
  exists s2. split; [done|]. split; [lia|]. split; [congruence|]. split; [lia|]. intros ->. done.
Qed.

Lemma checksum_value data : Forall is_u8 data -> Z.of_nat (length data) <= 131070 ->
  exists c, net_checksum data = Some c /\ is_u16 c /\ (c + word_sum data) mod 65535 = 0 /\ (c = 65535 <-> word_sum data = 0).
Proof.
  intros Hd Hl. pose proof (word_sum_bound data Hd) as Hb.
  assert ((Z.of_nat (length data) + 1) / 2 <= 65535) as Hlen by dlia.
  destruct (checksum_fold_spec (word_sum data)) as (r & Hr & Hrange & Hmod & Hz); [change (2 ^ 32) with 4294967296; lia|].
  exists (65535 - r). unfold net_checksum. rewrite checksum_words_sum by (done || (change (2 ^ 32) with 4294967296; lia)).
  rewrite Z.add_0_l, Hr. cbn [option_map]. unfold is_u16. change (2 ^ 16) with 65536. split; [|split; [lia|split; [|lia]]].
  - f_equal. unfold Z.lnot, u16. change (2 ^ 16) with 65536. dlia.
  - rewrite <- (Zplus_mod_idemp_r (word_sum data)), <- Hmod, Zplus_mod_idemp_r. by replace (65535 - r + r) with 65535 by lia.
Qed.
Lemma word_sum_app l k : Nat.even (length l) = true -> word_sum (l ++ k) = word_sum l + word_sum k.
Proof. induction l as [|b|b0 b1 l IH] using pairs_ind; intros He; [done..|]. cbn [app word_sum]. rewrite IH by done. lia. Qed.

(** The checksum of a packet of up to 131070 bytes is always computed, without overflow,
    and is its Internet checksum: added to the words of the packet it gives 0 in one's
    complement arithmetic. A receiver that runs it over the packet with the checksum in
    place gets 0, and two packets that differ in one word have different checksums,
    unless the word is 0 in one and 0xFFFF in the other. *)
Theorem net_checksum_correct (data : list Z) : Forall is_u8 data -> Z.of_nat (length data) <= 131068 ->
  exists c, net_checksum data = Some c /\ is_u16 c /\ (c + word_sum data) mod 65535 = 0 /\
    (Nat.even (length data) = true -> net_checksum (data ++ [c mod 256; c / 256]) = Some 0) /\
    (forall pre b0 b1 d0 d1 post, data = pre ++ b0 :: b1 :: post -> Nat.even (length pre) = true ->
       is_u8 d0 -> is_u8 d1 -> (d0, d1) <> (b0, b1) -> net_checksum (pre ++ d0 :: d1 :: post) = Some c ->
       (b0 = 0 /\ b1 = 0 /\ d0 = 255 /\ d1 = 255) \/ (b0 = 255 /\ b1 = 255 /\ d0 = 0 /\ d1 = 0)).
Proof.
  intros Hd Hl. destruct (checksum_value data Hd ltac:(lia)) as (c & Hc & Hu & Hm & Hz).
  exists c. split; [done|]. split; [done|]. split; [done|]. unfold is_u16, is_u8 in *. change (2 ^ 16) with 65536 in *. change (2 ^ 8) with 256 in *. split.
  - intros He. destruct (checksum_value (data ++ [c mod 256; c / 256])) as (c' & Hc' & Hu' & Hm' & Hz').
    + apply Forall_app. split; [done|]. repeat constructor; dlia.
    + rewrite length_app. cbn. lia.
    + rewrite Hc'. f_equal. rewrite word_sum_app in Hm', Hz' by done. cbn [word_sum] in Hm', Hz'.
      replace (word_sum data + (c mod 256 + 256 * (c / 256) + 0)) with (c + word_sum data) in Hm', Hz' by dlia.
      unfold is_u16 in Hu'. change (2 ^ 16) with 65536 in Hu'. pose proof (word_sum_bound data Hd).
      rewrite <- Zplus_mod_idemp_r, Hm, Z.add_0_r in Hm'. dlia.
  - intros pre b0 b1 d0 d1 post -> He H0 H1 Hne Hc'. apply Forall_app in Hd as [Hpre Hx].
    apply Forall_cons_iff in Hx as [Hb0 Hx]. apply Forall_cons_iff in Hx as [Hb1 Hpost]. rewrite length_app in Hl.
    destruct (checksum_value (pre ++ d0 :: d1 :: post)) as (c' & Hc'' & _ & Hm' & _).
    + apply Forall_app. split; [done|]. constructor; [exact H0|constructor; [exact H1|exact Hpost]].
    + rewrite length_app. cbn in *. lia.
    + assert (c' = c) as -> by congruence. rewrite word_sum_app in Hm, Hm' by done. cbn [word_sum] in Hm, Hm'.
      unfold is_u8 in *. change (2 ^ 8) with 256 in *. assert ((d0 - b0 + 256 * (d1 - b1)) mod 65535 = 0) as Hdiff by dlia.
      assert (d0 <> b0 \/ d1 <> b1) as Hneq by (destruct (Z.eq_dec d0 b0), (Z.eq_dec d1 b1); subst; tauto). clear Hm Hm' Hc Hc' Hc'' Hz. dlia.
Qed.

Lemma net_checksum_correct_witness : exists c, net_checksum [0x45; 0; 0; 0x1C] = Some c /\
  net_checksum ([0x45; 0; 0; 0x1C] ++ [c mod 256; c / 256]) = Some 0.
Proof.
  destruct (net_checksum_correct [0x45; 0; 0; 0x1C]) as (c & H1 & _ & _ & H2 & _); [|cbn; lia|].
  - repeat constructor; cbn; lia.
  - exists c. split; [exact H1|]. apply H2. reflexivity.
Defined.

(** ** Sockets *)

(** What a socket pointer may be, and when the call may use it. *)
Definition pointer (p : option nat) : Prop := match p with Some i => (i < 32)%nat | None => True end.
Definition opened (p : option nat) (s : net) : Prop := exists i, p = Some i /\ is_open (socket_at s i) <> 0.

Definition socket_typed (k : socket_t) : Prop :=
  is_u32 (id k) /\ is_u16 (local_port k) /\ is_u16 (remote_port k) /\ is_u8 (protocol k) /\
  length (remote_ip k) = 4%nat /\ Forall is_u8 (remote_ip k) /\ (is_open k = 0 \/ is_open k = 1).

Record net_wf (s : net) : Prop := {
  wf_sockets : length (sockets s) = 32%nat;
  wf_ids : forall i, is_open (socket_at s i) <> 0 -> id (socket_at s i) = Z.of_nat i;
  wf_fields : Forall socket_typed (sockets s);
  wf_device : length (name (net_dev s)) = 16%nat /\ length (mac (net_dev s)) = 6%nat /\ length (ip (net_dev s)) = 4%nat /\
    Forall is_u8 (name (net_dev s)) /\ Forall is_u8 (mac (net_dev s)) /\ Forall is_u8 (ip (net_dev s));
}.

Lemma usable_opened p s : (opened p s -> exists i, p = Some i /\ usable p s = Some i) /\ (~ opened p s -> usable p s = None).
Proof.
  unfold opened, usable. destruct p as [i|]; [|split; [intros (i & [=] & _)|done]].
  destruct (Z.eqb_spec (is_open (socket_at s i)) 0) as [E|E]; split.
  - intros (j & [= <-] & Hj). done.
  - done.
  - intros _. by exists i.
  - intros Hn. destruct Hn. by exists i.
Qed.
Lemma socket_at_set i j k s : (i < length (sockets s))%nat -> socket_at (set_socket i k s) j = if (i =? j)%nat then k else socket_at s j.
Proof.
  intros Hi. unfold socket_at, set_socket. cbn [sockets]. destruct (Nat.eqb_spec i j) as [->|].
  - by rewrite list_lookup_insert_eq.
  - by rewrite list_lookup_insert_ne.
Qed.
Lemma opened_set p j k s : pointer p -> (j < 32)%nat -> length (sockets s) = 32%nat ->
  opened p (set_socket j k s) <-> if decide (p = Some j) then is_open k <> 0 else opened p s.
Proof.
  intros Hp Hj Hl. unfold opened. destruct p as [i|]; [|rewrite decide_False by done; split; intros (i & [=] & _)].
  destruct (decide (Some i = Some j)) as [[= ->]|Hne].
  - split; [intros (i & [= <-] & H)|intros H; exists j; split; [done|]]; rewrite socket_at_set, Nat.eqb_refl in * by lia; done.
  - assert (j <> i) as Hij by congruence. apply Nat.eqb_neq in Hij.
    split; intros (i' & [= <-] & H); exists i; (split; [done|]); rewrite socket_at_set, Hij in * by lia; done.
Qed.

Lemma create_cases proto s : length (sockets s) = 32%nat ->
  match net_socket_create proto s with
  | (Some i, s') => (i < 32)%nat /\ is_open (socket_at s i) = 0 /\ (forall j, (j < i)%nat -> is_open (socket_at s j) <> 0) /\
      s' = set_socket i (Socket (Z.of_nat i) 0 0 (remote_ip (socket_at s i)) proto 1) s
  | (None, s') => s' = s /\ forall i, (i < 32)%nat -> is_open (socket_at s i) <> 0
  end.
Proof.
  intros Hl. unfold net_socket_create. destruct (zfind _ 0 MAX_SOCKETS) as [i|] eqn:E.
  - apply zfind_Some in E as (Hr & Hi & Hb). unfold MAX_SOCKETS in Hr. apply Z.eqb_eq in Hi.
    split; [lia|]. split; [done|]. split; [|by rewrite Z2Nat.id by lia].
    intros j Hj. specialize (Hb (Z.of_nat j) ltac:(lia)). rewrite Nat2Z.id in Hb. by apply Z.eqb_neq in Hb.
  - split; [done|]. intros i Hi. pose proof (proj1 (zfind_None _ _ _) E (Z.of_nat i) ltac:(unfold MAX_SOCKETS; lia)) as H.
    cbn beta in H. rewrite Nat2Z.id in H. by apply Z.eqb_neq in H.
Qed.



(** The calls of the interface, with arguments of their C types. *)
Inductive call :=
  | CInit | CSetIp (a : option (list Z)) | CSetMac (a : option (list Z)) | CCreate (proto : Z)
  | CBind (p : option nat) (port : Z) | CConnect (p : option nat) (a : option (list Z)) (port : Z) | CClose (p : option nat).
Definition bytes_ok (n : nat) (a : option (list Z)) : Prop :=
  match a with Some l => length l = n /\ Forall is_u8 l | None => True end.
Definition call_typed (c : call) : Prop :=
  match c with
  | CInit => True
  | CSetIp a => bytes_ok 4 a
  | CSetMac a => bytes_ok 6 a
  | CCreate proto => is_u8 proto
  | CBind p port => pointer p /\ is_u16 port
  | CConnect p a port => pointer p /\ bytes_ok 4 a /\ is_u16 port
  | CClose p => pointer p
  end.
Definition do_call (x : net * console) (c : call) : net * console :=
  let '(s, con) := x in
  match c with
  | CInit => net_init x
  | CSetIp a => (net_set_ip a s, con)
  | CSetMac a => (net_set_mac a s, con)
  | CCreate proto => (snd (net_socket_create proto s), con)
  | CBind p port => (snd (net_socket_bind p port s), con)
  | CConnect p a port => (snd (net_socket_connect p a port s), con)
  | CClose p => (net_socket_close p s, con)
  end.

Lemma wf_at s i : net_wf s -> (i < 32)%nat -> socket_typed (socket_at s i).
Proof.
  intros [Hl _ Hf _] Hi. destruct (lookup_lt_is_Some_2 (sockets s) i) as [k Hk]; [lia|].
  unfold socket_at. rewrite Hk. cbn. exact (proj1 (Forall_lookup _ _) Hf i k Hk).
Qed.
Lemma wf_set s i k : net_wf s -> (i < 32)%nat -> socket_typed k -> (is_open k <> 0 -> id k = Z.of_nat i) -> net_wf (set_socket i k s).
Proof.
  intros [Hl Hid Hf Hd] Hi Hk Hik. constructor; [|intros j Hj|apply Forall_insert; [exact Hf|exact Hk]|exact Hd].
  - unfold set_socket. cbn [sockets]. by rewrite length_insert.
  - rewrite socket_at_set in * by lia. destruct (Nat.eqb_spec i j) as [E|E]; [subst j; by apply Hik|by apply Hid].
Qed.
Lemma usable_lt p s i : pointer p -> usable p s = Some i -> (i < 32)%nat /\ is_open (socket_at s i) <> 0.
Proof.
  unfold usable. destruct p as [j|]; [|done]. destruct (Z.eqb_spec (is_open (socket_at s j)) 0); [done|].
  intros Hp [= <-]. done.
Qed.
Lemma zero_wf : net_wf net_bss.
Proof.
  assert (forall i, socket_at net_bss i = zero_socket) as Hz.
  { intros i. unfold socket_at. cbn [sockets net_bss]. destruct (replicate (Z.to_nat MAX_SOCKETS) zero_socket !! i) eqn:E; [|done].
    by apply lookup_replicate in E as [-> _]. }
  constructor; [done|intros i; by rewrite Hz|apply Forall_replicate; unfold socket_typed|]; cbn;
    repeat match goal with |- _ /\ _ => split | |- Forall _ _ => constructor | |- is_u8 _ => cbn; unfold is_u8; lia
      | |- is_u16 _ => unfold is_u16; lia | |- is_u32 _ => unfold is_u32; lia | _ => done end. by left.
Qed.
Lemma init_wf s con : net_wf s -> net_wf (fst (net_init (s, con))).
Proof.
  intros [Hl Hid Hf Hd]. unfold net_init. destruct (negb (net_initialized s =? 0)); [by constructor|]. cbn [fst].
  constructor; cbn [sockets net_dev].
  - by rewrite length_fmap.
  - intros i Hi. unfold socket_at in Hi. cbn [sockets] in Hi. rewrite list_lookup_fmap in Hi. by destruct (sockets s !! i).
  - apply Forall_fmap. refine (Forall_impl _ _ Hf). intros k (H1 & H2 & H3 & H4 & H5 & H6 & _). cbn. repeat (split; [done|]). by left.
  - cbn. repeat match goal with |- _ /\ _ => split | |- Forall _ _ => constructor | |- is_u8 _ => cbn; unfold is_u8; lia | _ => done end.
Qed.

Lemma call_wf x c : net_wf (fst x) -> call_typed c -> net_wf (fst (do_call x c)).
Proof.
  destruct x as [s con]. cbn [fst]. intros Hw Hc. destruct c as [|a|a|proto|p port|p a port|p]; cbn [do_call fst snd call_typed] in *.
  - by apply init_wf.
  - destruct a as [l|]; [|exact Hw]. destruct Hw as [Hl Hid Hf (H1 & H2 & H3 & H4 & H5 & H6)], Hc. by constructor.
  - destruct a as [l|]; [|exact Hw]. destruct Hw as [Hl Hid Hf (H1 & H2 & H3 & H4 & H5 & H6)], Hc. by constructor.
  - pose proof (create_cases proto s (wf_sockets s Hw)) as Hcr. destruct (net_socket_create proto s) as [[i|] s']; cbn [snd].
    + destruct Hcr as (Hi & _ & _ & ->). apply wf_set; [done|done| |done].
      destruct (wf_at s i Hw Hi) as (_ & _ & _ & _ & H5 & H6 & _). unfold socket_typed, is_u16, is_u32 in *. cbn.
      split; [lia|]. split; [lia|]. split; [lia|]. auto.
    + by destruct Hcr as [-> _].
  - destruct Hc as [Hp Hport]. unfold net_socket_bind. destruct (usable p s) as [i|] eqn:Hu; [|exact Hw].
    destruct (usable_lt p s i Hp Hu) as [Hi Ho]. cbn [snd]. destruct (wf_at s i Hw Hi) as (H1 & H2 & H3 & H4 & H5 & H6 & H7).
    apply wf_set; [done|done| |cbn; intros; by apply (wf_ids s Hw)]. exact (conj H1 (conj Hport (conj H3 (conj H4 (conj H5 (conj H6 H7)))))).
  - destruct Hc as (Hp & Ha & Hport). unfold net_socket_connect. destruct (usable p s) as [i|] eqn:Hu; [|exact Hw]. destruct a as [l|]; [|exact Hw].
    destruct (usable_lt p s i Hp Hu) as [Hi Ho], Ha as [Ha1 Ha2]. cbn [snd]. destruct (wf_at s i Hw Hi) as (H1 & H2 & H3 & H4 & H5 & H6 & H7).
    apply wf_set; [done|done| |cbn; intros; by apply (wf_ids s Hw)]. exact (conj H1 (conj H2 (conj Hport (conj H4 (conj Ha1 (conj Ha2 H7)))))).
  - destruct p as [i|]; [|exact Hw]. destruct (wf_at s i Hw Hc) as (H1 & H2 & H3 & H4 & H5 & H6 & H7). cbn [net_socket_close].
    apply wf_set; [done|done| |done]. exact (conj H1 (conj H2 (conj H3 (conj H4 (conj H5 (conj H6 (or_introl eq_refl))))))).
Qed.

