(* ===== verification/Smp.v ===== *)
(** * Processors (kernel/smp.c, include/smp.h)

    Detection and bookkeeping of the processors. Whether EFLAGS.ID can be toggled and
    what CPUID leaf 1 leaves in EDX are the processor's: arguments of the model. The
    reports are written through a 16-byte buffer on the stack. *)
From Stdlib Require Import String.
From S2P Require Import Prelude Mem CString Devices Console.
Local Close Scope string_scope.

Definition MAX_CPUS : Z := 16.
Inductive cpu_state_t := CPU_STATE_OFFLINE | CPU_STATE_ONLINE | CPU_STATE_HALTED.
#[export] Instance cpu_state_eq_dec : EqDecision cpu_state_t.
Proof. solve_decision. Defined.

Record cpu_info_t := CpuInfo { cpu_id : Z; state : cpu_state_t; apic_id : Z; flags : Z; tsc_freq : Z }.
Record smp_info_t := SmpInfo { cpu_count : Z; bsp_id : Z; cpus : list cpu_info_t }.
Record smp := Smp { smp_system : smp_info_t; smp_initialized : Z; screen : console; stack : mem }.

Definition zero_cpu : cpu_info_t := CpuInfo 0 CPU_STATE_OFFLINE 0 0 0.
Definition set_cpu (i : nat) (st : cpu_state_t) (s : smp_info_t) : smp_info_t :=
  SmpInfo (cpu_count s) (bsp_id s)
    (alter (fun c => CpuInfo (cpu_id c) st (apic_id c) (flags c) (tsc_freq c)) i (cpus s)).

Definition detect_cpu_count (cpuid_available : bool) (edx : Z) : Z :=
  if negb cpuid_available then 1
  else if negb (Z.land edx (Z.shiftl 1 28) =? 0) then
    let logical_count := Z.land (Z.shiftr edx 16) 0xFF in
    if 1 <? logical_count then logical_count else 1
  else 1.

(** [itoa] into the buffer at [buf], then the text before and after. *)
Definition report (buf : Z) (before : list Z) (value : Z) (after : list Z) (x : console * mem) : option (console * mem) :=
  let con := console_write before (fst x) in
  m ← itoa (s32 value) buf 10 (snd x);
  t ← text 34 m buf;
  Some (console_write after (console_write t con), m).

Definition smp_init (buf : Z) (cpuid_available : bool) (edx : Z) (s : smp) : option smp :=
  if negb (smp_initialized s =? 0) then Some s
  else
    let con := console_write (str "SMP: Detecting CPUs..." ++ [10]) (screen s) in
    let count := detect_cpu_count cpuid_available edx in
    let table := (fun i => CpuInfo i CPU_STATE_OFFLINE i 0 0) <$> seqZ 0 MAX_CPUS in
    let system := set_cpu 0 CPU_STATE_ONLINE (SmpInfo count 0 table) in
    '(con, m) ← report buf (str "SMP: Detected ") count (str " CPU(s)" ++ [10]) (con, stack s);
    Some (Smp system 1 con m).

Definition smp_get_cpu_count (s : smp) : Z := cpu_count (smp_system s).
Definition smp_get_current_cpu : Z := 0.
Definition smp_get_cpu_info (i : Z) (s : smp) : option cpu_info_t :=
  if MAX_CPUS <=? i then None else cpus (smp_system s) !! Z.to_nat i.

(** [None]: the store is outside [cpus]. *)
Definition smp_boot_ap (buf i : Z) (s : smp) : option (Z * smp) :=
  if (cpu_count (smp_system s) <=? i) || (i =? 0) then Some (-1, s)
  else if MAX_CPUS <=? i then None
  else
    '(con, m) ← report buf (str "SMP: Booted CPU ") i [10] (screen s, stack s);
    Some (0, Smp (set_cpu (Z.to_nat i) CPU_STATE_ONLINE (smp_system s)) (smp_initialized s) con m).

(** Whether the processor that calls stops. *)
Definition smp_halt_cpu (i : Z) (s : smp) : smp * bool :=
  if MAX_CPUS <=? i then (s, false)
  else (Smp (set_cpu (Z.to_nat i) CPU_STATE_HALTED (smp_system s)) (smp_initialized s) (screen s) (stack s),
        i =? smp_get_current_cpu).

(** ** Properties *)

Lemma detect_range a edx : 0 <= edx < 2 ^ 32 -> 1 <= detect_cpu_count a edx <= 255.
Proof.
  intros H. unfold detect_cpu_count. destruct a; cbn [negb]; [|lia]. destruct (negb _); [|lia].
  destruct (Z.ltb_spec 1 (Z.land (Z.shiftr edx 16) 0xFF)); [|lia]. split; [lia|].
  apply land_le_r; lia.
Qed.

Lemma report_spec buf before value after con m : 0 <= value < 2 ^ 31 -> exists l m',
  report buf before value after (con, m) = Some (console_write after (console_write l (console_write before con)), m') /\
  read_int 10 l = value /\ same_out m m' buf 33.
Proof.
  intros Hv. unfold report. cbn [fst snd]. rewrite s32_small by (change (2 ^ 31) with 2147483648 in *; lia).
  destruct (itoa_spec m buf value 10) as (m' & l & -> & Hc & Hr & Hl & Ho & _); [change (2 ^ 31) with 2147483648 in *; lia|lia|].
  cbn [mbind option_bind]. rewrite (text_cstr m' buf l 34 Hc) by lia. cbn [mbind option_bind]. exists l, m'.
  split; [done|]. split; [exact Hr|]. apply (same_out_sub _ _ _ _ _ _ Ho); lia.
Qed.

(** The calls after [smp_init], and the state each processor is then in. *)
Inductive smp_call := Boot (i : Z) | Halt (i : Z).
Definition do_smp (buf : Z) (s : option smp) (c : smp_call) : option smp :=
  s ← s;
  match c with
  | Boot i => option_map snd (smp_boot_ap buf i s)
  | Halt i => Some (fst (smp_halt_cpu i s))
  end.
Definition smp_arg (c : smp_call) : Z := match c with Boot i | Halt i => i end.
Definition state_after (count : Z) (calls : list smp_call) (k : Z) : cpu_state_t :=
  foldl (fun st c => match c with
    | Boot i => if (i =? k) && (i <? count) && negb (i =? 0) then CPU_STATE_ONLINE else st
    | Halt i => if i =? k then CPU_STATE_HALTED else st
    end) (if k =? 0 then CPU_STATE_ONLINE else CPU_STATE_OFFLINE) calls.

Definition tracks (count : Z) (f : Z -> cpu_state_t) (s : smp) : Prop :=
  smp_get_cpu_count s = count /\ length (cpus (smp_system s)) = 16%nat /\
  forall k, 0 <= k < MAX_CPUS -> smp_get_cpu_info k s = Some (CpuInfo k (f k) k 0 0).

Lemma tracks_set count f s i st ini con m : tracks count f s -> 0 <= i < MAX_CPUS ->
  tracks count (fun k => if i =? k then st else f k) (Smp (set_cpu (Z.to_nat i) st (smp_system s)) ini con m).
Proof.
  intros (H1 & H2 & H3) Hi. split; [exact H1|]. split; [cbn; by rewrite length_alter|]. intros k Hk. specialize (H3 k Hk).
  unfold smp_get_cpu_info in *. destruct (Z.leb_spec MAX_CPUS k); [lia|]. cbn [smp_system set_cpu cpus].
  destruct (Z.eqb_spec i k) as [E|E].
  - subst k. by rewrite list_lookup_alter_eq, H3.
  - rewrite list_lookup_alter_ne by lia. exact H3.
Qed.
Lemma tracks_ext count f g s : (forall k, f k = g k) -> tracks count f s -> tracks count g s.
Proof. intros E (H1 & H2 & H3). split; [done|]. split; [done|]. intros k Hk. rewrite <- E. by apply H3. Qed.

Lemma init_tracks buf a edx sys con m : 0 <= edx < 2 ^ 32 -> exists l s,
  smp_init buf a edx (Smp sys 0 con m) = Some s /\ read_int 10 l = detect_cpu_count a edx /\
  screen s = console_write (str " CPU(s)" ++ [10]) (console_write l (console_write (str "SMP: Detected ")
    (console_write (str "SMP: Detecting CPUs..." ++ [10]) con))) /\
  tracks (detect_cpu_count a edx) (state_after (detect_cpu_count a edx) []) s.
Proof.
  intros He. unfold smp_init. cbn [smp_initialized Z.eqb negb]. pose proof (detect_range a edx He) as Hr. set (count := detect_cpu_count a edx) in *.
  destruct (report_spec buf (str "SMP: Detected ") count (str " CPU(s)" ++ [10]) (console_write (str "SMP: Detecting CPUs..." ++ [10]) con) m)
    as (l & m' & Hrep & Hn & _); [lia|].
  cbn [screen stack]. rewrite Hrep. cbn [mbind option_bind]. exists l. eexists. split; [reflexivity|]. split; [exact Hn|]. split; [reflexivity|].
  split; [reflexivity|]. split; [reflexivity|]. intros k Hk.
  assert (k ∈ seqZ 0 16) as Hin by (apply elem_of_seqZ; unfold MAX_CPUS in Hk; lia). cbn in Hin.
  repeat (apply elem_of_cons in Hin as [->|Hin]; [reflexivity|]). by apply elem_of_nil in Hin.
Qed.

Lemma calls_tracks buf count calls : count <= MAX_CPUS -> forall f s, Forall (fun c => 0 <= smp_arg c < 2 ^ 32) calls -> tracks count f s ->
  exists s', foldl (do_smp buf) (Some s) calls = Some s' /\
    tracks count (fun k => foldl (fun st c => match c with
      | Boot i => if (i =? k) && (i <? count) && negb (i =? 0) then CPU_STATE_ONLINE else st
      | Halt i => if i =? k then CPU_STATE_HALTED else st
      end) (f k) calls) s'.
Proof.
  intros Hcount. unfold MAX_CPUS in Hcount. induction calls as [|c calls IH]; intros f s Hc Ht; [by exists s|]. apply Forall_cons_iff in Hc as [Hc Hcs].
  cbn [foldl do_smp mbind option_bind]. pose proof Ht as (Hn & Hl & _). unfold smp_get_cpu_count in Hn. destruct c as [i|i]; cbn [smp_arg] in Hc.
  - unfold smp_boot_ap. rewrite Hn. destruct ((count <=? i) || (i =? 0)) eqn:E.
    + cbn [option_map snd]. destruct (IH f s Hcs Ht) as (s' & -> & Ht'). exists s'. split; [done|]. refine (tracks_ext _ _ _ _ _ Ht').
      intros k. f_equal. apply orb_true_iff in E. destruct (Z.ltb_spec i count); [|by rewrite andb_false_r].
      destruct (Z.eqb_spec i 0); [by rewrite andb_false_r|]. lia.
    + apply orb_false_iff in E as [E1 E2]. apply Z.leb_gt in E1. destruct (Z.leb_spec MAX_CPUS i) as [Hb|Hb]; unfold MAX_CPUS in Hb; [lia|].
      destruct (report_spec buf (str "SMP: Booted CPU ") i [10] (screen s) (stack s)) as (l & m' & -> & _); [change (2 ^ 31) with 2147483648; lia|].
      cbn [mbind option_bind option_map snd].
      match goal with |- context [Some (Smp ?a ?b ?x ?y)] => destruct (IH (fun k => if i =? k then CPU_STATE_ONLINE else f k) (Smp a b x y)) as (s' & Hs' & Ht') end;
        [done|apply tracks_set; [done|unfold MAX_CPUS; lia]|].
      exists s'. split; [exact Hs'|]. refine (tracks_ext _ _ _ _ _ Ht'). intros k. f_equal. rewrite E2, (proj2 (Z.ltb_lt i count)) by done.
      by destruct (i =? k).
  - unfold smp_halt_cpu. destruct (Z.leb_spec MAX_CPUS i) as [Hb|Hb]; cbn [fst].
    + destruct (IH f s Hcs Ht) as (s' & -> & Hn' & Hl' & Ht'). exists s'. split; [done|]. split; [done|]. split; [done|].
      intros k Hk. rewrite Ht' by done. destruct (Z.eqb_spec i k); [lia|done].
    + apply (IH (fun k => if i =? k then CPU_STATE_HALTED else f k)); [done|]. apply tracks_set; [done|lia].
Qed.

(** On a machine with at most 16 logical processors, [smp_init] reports their number
    and puts the boot processor on line alone; after any sequence of boot and halt
    calls, every call has returned and each processor's entry is in the state of the
    last call that applied to it. *)
Theorem smp_trace_correct buf a edx sys con m calls :
  0 <= edx < 2 ^ 32 -> detect_cpu_count a edx <= MAX_CPUS -> Forall (fun c => 0 <= smp_arg c < 2 ^ 32) calls ->
  exists l s0 s, smp_init buf a edx (Smp sys 0 con m) = Some s0 /\ read_int 10 l = detect_cpu_count a edx /\
    screen s0 = console_write (str " CPU(s)" ++ [10]) (console_write l (console_write (str "SMP: Detected ")
      (console_write (str "SMP: Detecting CPUs..." ++ [10]) con))) /\
    foldl (do_smp buf) (Some s0) calls = Some s /\ smp_get_cpu_count s = detect_cpu_count a edx /\
    forall k, 0 <= k < MAX_CPUS -> smp_get_cpu_info k s = Some (CpuInfo k (state_after (detect_cpu_count a edx) calls k) k 0 0).
Proof.
  intros He Hc Hcalls. destruct (init_tracks buf a edx sys con m He) as (l & s0 & H1 & H2 & H3 & Ht).
  destruct (calls_tracks buf _ calls Hc _ s0 Hcalls Ht) as (s & H4 & H5 & _ & H6). exists l, s0, s. repeat (split; [assumption|]). exact H6.
Qed.
Lemma smp_trace_correct_witness : exists l s0 s,
  smp_init 0x7000 true 0x10040000 (Smp (SmpInfo 0 0 []) 0 console0 ∅) = Some s0 /\ read_int 10 l = 4 /\
  foldl (do_smp 0x7000) (Some s0) [Boot 2; Boot 9; Halt 2; Boot 3] = Some s /\
  smp_get_cpu_info 3 s = Some (CpuInfo 3 CPU_STATE_ONLINE 3 0 0) /\ smp_get_cpu_info 9 s = Some (CpuInfo 9 CPU_STATE_OFFLINE 9 0 0).
Proof.
  destruct (smp_trace_correct 0x7000 true 0x10040000 (SmpInfo 0 0 []) console0 ∅ [Boot 2; Boot 9; Halt 2; Boot 3])
    as (l & s0 & s & H1 & H2 & _ & H3 & _ & H4); [lia|vm_compute; discriminate|repeat constructor; cbn; lia|].
  exists l, s0, s. split; [exact H1|]. split; [exact H2|]. split; [exact H3|]. split; apply H4; unfold MAX_CPUS; lia.
Defined.

(** With more logical processors than entries, [smp_boot_ap] accepts an index outside
    the table. *)
Lemma smp_boot_ap_out_of_bounds buf s : cpu_count (smp_system s) = 32 -> smp_boot_ap buf 20 s = None.
Proof. intros H. unfold smp_boot_ap. by rewrite H. Qed.
