(* ===== verification/Gui.v ===== *)
(** * Windows (kernel/gui.c, include/gui.h)

    The frame buffer, the drawing primitives and the windows, which live on the kernel
    heap in a list linked through their [next] fields. Coordinates are C [int]s, exact
    here; the theorems bound them so that the sums the code computes do not overflow.
    [gui_draw_line] steps in floating point and has no definition. *)
From Stdlib Require Import String.
From S2P Require Import Prelude Mem Heap CString Devices Console.
Local Close Scope string_scope.

Definition GUI_WIDTH : Z := 800.
Definition GUI_HEIGHT : Z := 600.
Definition COLOR_BLACK : Z := 0xFF000000.
Definition COLOR_WHITE : Z := 0xFFFFFFFF.
Definition COLOR_BLUE : Z := 0xFF0000FF.
Definition COLOR_LIGHTGRAY : Z := 0xFFC0C0C0.
Definition WINDOW_HIDDEN : Z := 0.
Definition WINDOW_VISIBLE : Z := 1.
Definition WINDOW_MINIMIZED : Z := 2.

Record rect_t := Rect { r_x : Z; r_y : Z; r_width : Z; r_height : Z }.

(** The fields of [window_t]. *)
Definition w_id (p : Z) : Z := p.
Definition w_title (p : Z) : Z := p + 4.
Definition w_x (p : Z) : Z := p + 68.
Definition w_y (p : Z) : Z := p + 72.
Definition w_width (p : Z) : Z := p + 76.
Definition w_height (p : Z) : Z := p + 80.
Definition w_bg_color (p : Z) : Z := p + 84.
Definition w_state (p : Z) : Z := p + 88.
Definition w_next (p : Z) : Z := p + 92.
Definition sizeof_window : Z := 96.

Record gui_state := Gui {
  framebuffer : mem; width : Z; height : Z; window_list : Z; next_window_id : Z; initialized : Z; kheap : heap;
}.
Definition with_fb (fb : mem) (g : gui_state) : gui_state :=
  Gui fb (width g) (height g) (window_list g) (next_window_id g) (initialized g) (kheap g).
Definition with_windows (head : Z) (h : heap) (g : gui_state) : gui_state :=
  Gui (framebuffer g) (width g) (height g) head (next_window_id g) (initialized g) h.

Definition gui_clear_screen (color : Z) (g : gui_state) : gui_state :=
  with_fb (for_range 0 (width g * height g) (fun i fb => st fb i color) (framebuffer g)) g.
Definition gui_init (x : gui_state * console) : gui_state * console :=
  let '(g, con) := x in
  if negb (initialized g =? 0) then x
  else
    let con := console_write (str "GUI: Initializing windowing system..." ++ [10]) con in
    let g := gui_clear_screen COLOR_BLACK (Gui (framebuffer g) GUI_WIDTH GUI_HEIGHT 0 1 1 (kheap g)) in
    (g, console_write (str "GUI: 800x600x32 framebuffer initialized" ++ [10]) con).

Definition gui_draw_pixel (x y color : Z) (g : gui_state) : gui_state :=
  if (x <? 0) || (width g <=? x) || (y <? 0) || (height g <=? y) then g
  else with_fb (st (framebuffer g) (y * width g + x) color) g.

Definition gui_draw_rect (r : rect_t) (color : Z) (g : gui_state) : gui_state :=
  let g := for_range (r_x r) (r_x r + r_width r) (fun x g =>
    gui_draw_pixel x (r_y r + r_height r - 1) color (gui_draw_pixel x (r_y r) color g)) g in
  for_range (r_y r) (r_y r + r_height r) (fun y g =>
    gui_draw_pixel (r_x r + r_width r - 1) y color (gui_draw_pixel (r_x r) y color g)) g.

Definition gui_draw_filled_rect (r : rect_t) (color : Z) (g : gui_state) : gui_state :=
  for_range (r_y r) (r_y r + r_height r) (fun y g =>
    for_range (r_x r) (r_x r + r_width r) (fun x g => gui_draw_pixel x y color g) g) g.

(** One character: the outline of an 8 by 8 box. *)
Definition draw_char (x y color : Z) (g : gui_state) : gui_state :=
  for_range 0 8 (fun dy g =>
    for_range 0 8 (fun dx g =>
      if (dx =? 0) || (dx =? 7) || (dy =? 0) || (dy =? 7) then gui_draw_pixel (x + dx) (y + dy) color g else g) g) g.
Fixpoint gui_draw_text (x y : Z) (t : list Z) (color : Z) (g : gui_state) : gui_state :=
  match t with
  | [] => g
  | _ :: t => gui_draw_text (x + 9) y t color (draw_char x y color g)
  end.

(** [strncpy(title, t, 63)] and the terminator, or the terminator alone. *)
Definition put_title (p : Z) (title : option (list Z)) (m : mem) : mem :=
  match title with
  | Some t => st (for_range 0 63 (fun i m => st m (w_title p + i) (aget t i)) m) (w_title p + 63) 0
  | None => st m (w_title p) 0
  end.

(** The text at [title] ends before its terminator: [aget] gives 0 from there on, which
    is also what [strncpy] fills with. *)
Definition gui_create_window (x y w h : Z) (title : option (list Z)) (g : gui_state) : option (Z * gui_state) :=
  '(p, k) ← kmalloc sizeof_window (kheap g);
  if p =? 0 then Some (0, with_windows (window_list g) k g)
  else
    let m := st (h_mem k) (w_id p) (next_window_id g) in
    let m := st (st (st (st m (w_x p) x) (w_y p) y) (w_width p) w) (w_height p) h in
    let m := st (st m (w_bg_color p) COLOR_LIGHTGRAY) (w_state p) WINDOW_VISIBLE in
    let m := st (put_title p title m) (w_next p) (window_list g) in
    Some (p, Gui (framebuffer g) (width g) (height g) p (u32 (next_window_id g + 1)) (initialized g) (with_mem k m)).

(** The loop of [gui_destroy_window]: [prev] is the window whose [next] field [current]
    points to, 0 for [gui.window_list]. *)
Definition set_link (prev v : Z) (x : Z * mem) : Z * mem :=
  if prev =? 0 then (v, snd x) else (fst x, st (snd x) (w_next prev) v).
Fixpoint unlink (fuel : nat) (prev cur window : Z) (x : Z * mem) : option (Z * mem) :=
  if cur =? 0 then Some x
  else if cur =? window then Some (set_link prev (ld (snd x) (w_next window)) x)
  else match fuel with
       | O => None
       | S fuel => unlink fuel cur (ld (snd x) (w_next cur)) window x
       end.
Definition gui_destroy_window (window : Z) (g : gui_state) : option gui_state :=
  if window =? 0 then Some g
  else
    '(head, m) ← unlink (walk_fuel (kheap g)) 0 (window_list g) window (window_list g, h_mem (kheap g));
    Some (with_windows head (kfree window (with_mem (kheap g) m)) g).

Definition set_window_state (window v : Z) (g : gui_state) : gui_state :=
  if window =? 0 then g else with_windows (window_list g) (with_mem (kheap g) (st (h_mem (kheap g)) (w_state window) v)) g.
Definition gui_show_window (window : Z) (g : gui_state) : gui_state := set_window_state window WINDOW_VISIBLE g.
Definition gui_hide_window (window : Z) (g : gui_state) : gui_state := set_window_state window WINDOW_HIDDEN g.

Definition gui_render_window (p : Z) (g : gui_state) : option gui_state :=
  let m := h_mem (kheap g) in
  if (p =? 0) || negb (ld m (w_state p) =? WINDOW_VISIBLE) then Some g
  else
    let r := Rect (ld m (w_x p)) (ld m (w_y p)) (ld m (w_width p)) (ld m (w_height p)) in
    let g := gui_draw_filled_rect r (ld m (w_bg_color p)) g in
    let g := gui_draw_rect r COLOR_BLACK g in
    let g := gui_draw_filled_rect (Rect (r_x r) (r_y r) (r_width r) 20) COLOR_BLUE g in
    if negb (ld m (w_title p) =? 0) then
      t ← text 65 m (w_title p);
      Some (gui_draw_text (r_x r + 5) (r_y r + 6) t COLOR_WHITE g)
    else Some g.
Fixpoint render_list (fuel : nat) (p : Z) (g : gui_state) : option gui_state :=
  if p =? 0 then Some g
  else match fuel with
       | O => None
       | S fuel => g ← gui_render_window p g; render_list fuel (ld (h_mem (kheap g)) (w_next p)) g
       end.
Definition gui_render_all (g : gui_state) : option gui_state := render_list (walk_fuel (kheap g)) (window_list g) g.

(** ** Drawing *)

(** [g'] is [g] with the points of [S] that are on the screen in [color]. *)
Definition on_screen (a : Z) : Prop := 0 <= a < GUI_WIDTH * GUI_HEIGHT.
Definition covers (S : Z -> Z -> Prop) (a : Z) : Prop := on_screen a /\ S (a mod GUI_WIDTH) (a / GUI_WIDTH).
Record painted (S : Z -> Z -> Prop) (color : Z) (g g' : gui_state) : Prop := {
  pt_same : g' = with_fb (framebuffer g') g;
  pt_in : forall a, covers S a -> ld (framebuffer g') a = color;
  pt_out : forall a, ~ covers S a -> ld (framebuffer g') a = ld (framebuffer g) a;
}.
Definition screen_ok (g : gui_state) : Prop := width g = GUI_WIDTH /\ height g = GUI_HEIGHT.

Lemma painted_screen S c g g' : painted S c g g' -> screen_ok g -> screen_ok g'.
Proof. intros [-> _ _]. done. Qed.
Lemma painted_none c g : painted (fun _ _ => False) c g g.
Proof. constructor; [by destruct g|intros a [_ []]|done]. Qed.
Lemma painted_ext S S' c g g' : (forall x y, S x y <-> S' x y) -> painted S c g g' -> painted S' c g g'.
Proof.
  intros E [H1 H2 H3]. constructor; [done|intros a [Ha Hs]; apply H2; split; [done|by apply E]|].
  intros a Hn. apply H3. intros [Ha Hs]. apply Hn. split; [done|by apply E].
Qed.
Lemma painted_union S S' c g g' g'' : painted S c g g' -> painted S' c g' g'' ->
  (forall a, Decision (covers S' a)) -> painted (fun x y => S x y \/ S' x y) c g g''.
Proof.
  intros [H1 H2 H3] [K1 K2 K3] D. constructor.
  - rewrite K1, H1. done.
  - intros a [Ha Hs]. destruct (D a) as [C|C]; [by apply K2|]. rewrite K3 by done. apply H2. split; [done|].
    destruct Hs as [Hs|Hs]; [done|]. destruct C. by split.
  - intros a Hn. rewrite K3, H3; [done|..]; intros [Ha Hs]; apply Hn; split; auto.
Qed.

Lemma pixel_painted x y c g : screen_ok g -> painted (fun x' y' => x' = x /\ y' = y) c g (gui_draw_pixel x y c g).
Proof.
  intros [Hw Hh]. unfold gui_draw_pixel. rewrite Hw, Hh.
  destruct ((x <? 0) || (GUI_WIDTH <=? x) || (y <? 0) || (GUI_HEIGHT <=? y)) eqn:E.
  - constructor; [by destruct g| |done]. intros a [Ha [Hx Hy]]. unfold on_screen, GUI_WIDTH, GUI_HEIGHT in *. exfalso.
    rewrite !orb_true_iff, !Z.ltb_lt, !Z.leb_le in E. dlia.
  - rewrite !orb_false_iff, !Z.ltb_ge, !Z.leb_gt in E. unfold GUI_WIDTH, GUI_HEIGHT in *. constructor; [done|..]; cbn [framebuffer with_fb].
    + intros a [Ha [Hx Hy]]. unfold on_screen, GUI_WIDTH, GUI_HEIGHT in *. replace a with (y * 800 + x) by dlia. apply ld_st_eq.
    + intros a Hn. apply ld_st_ne. intros <-. apply Hn. unfold covers, on_screen, GUI_WIDTH, GUI_HEIGHT. split; [lia|split; dlia].
Qed.

Definition covers_dec (S : Z -> Z -> Prop) (D : forall x y, Decision (S x y)) a : Decision (covers S a).
Proof. unfold covers, on_screen. apply _. Defined.

(** A loop that paints [S i] at step [i] paints their union. *)
Lemma loop_painted (S : Z -> Z -> Z -> Prop) c lo hi body g : screen_ok g ->
  (forall i x y, Decision (S i x y)) ->
  (forall i g, lo <= i < hi -> screen_ok g -> painted (S i) c g (body i g)) ->
  painted (fun x y => exists i, lo <= i < hi /\ S i x y) c g (for_range lo hi body g).
Proof.
  intros Hs D Hb. destruct (Z.le_gt_cases lo hi) as [Hle|Hgt].
  2:{ rewrite for_range_nil by lia. refine (painted_ext _ _ _ _ _ _ (painted_none c g)). intros x y. split; [done|]. intros (i & Hi & _). lia. }
  apply (for_range_ind (fun k g' => painted (fun x y => exists i, lo <= i < k /\ S i x y) c g g')); [done| |].
  - refine (painted_ext _ _ _ _ _ _ (painted_none c g)). intros x y. split; [done|]. intros (i & Hi & _). lia.
  - intros i g' Hi Hp. pose proof (Hb i g' Hi (painted_screen _ _ _ _ Hp Hs)) as Hi'.
    refine (painted_ext _ _ _ _ _ _ (painted_union _ _ _ _ _ _ Hp Hi' (covers_dec _ (D i)))). intros x y. split.
    + intros [(j & Hj & Hsj)|Hsi]; [exists j|exists i]; (split; [lia|done]).
    + intros (j & Hj & Hsj). destruct (Z.eq_dec j i) as [E|E]; [right; by subst j|left; exists j; split; [lia|done]].
Qed.

Definition in_rect (r : rect_t) (x y : Z) : Prop := r_x r <= x < r_x r + r_width r /\ r_y r <= y < r_y r + r_height r.
Definition on_outline (r : rect_t) (x y : Z) : Prop :=
  (r_x r <= x < r_x r + r_width r /\ (y = r_y r \/ y = r_y r + r_height r - 1)) \/
  (r_y r <= y < r_y r + r_height r /\ (x = r_x r \/ x = r_x r + r_width r - 1)).
#[export] Instance in_rect_dec r x y : Decision (in_rect r x y).
Proof. unfold in_rect. apply _. Defined.
#[export] Instance on_outline_dec r x y : Decision (on_outline r x y).
Proof. unfold on_outline. apply _. Defined.

Lemma filled_painted r c g : screen_ok g -> painted (in_rect r) c g (gui_draw_filled_rect r c g).
Proof.
  intros Hs. unfold gui_draw_filled_rect.
  apply (painted_ext (fun x y => exists i, r_y r <= i < r_y r + r_height r /\ (r_x r <= x < r_x r + r_width r /\ y = i))).
  { intros x y. unfold in_rect. split; [intros (i & Hi & Hx & ->); done|]. intros [Hx Hy]. by exists y. }
  apply (loop_painted (fun i x y => r_x r <= x < r_x r + r_width r /\ y = i)); [done|intros; apply (decide _)|].
  intros i g' Hi Hs'. apply (painted_ext (fun x y => exists k, r_x r <= k < r_x r + r_width r /\ (x = k /\ y = i))).
  { intros x y. split; [intros (k & Hk & -> & ->); done|]. intros [Hx Hy]. by exists x. }
  apply (loop_painted (fun k x y => x = k /\ y = i)); [done|intros; apply (decide _)|]. intros k g'' Hk Hs''. by apply pixel_painted.
Qed.
Lemma two_pixels x1 y1 x2 y2 c g : screen_ok g ->
  painted (fun x y => (x = x1 /\ y = y1) \/ (x = x2 /\ y = y2)) c g (gui_draw_pixel x2 y2 c (gui_draw_pixel x1 y1 c g)).
Proof.
  intros Hs. pose proof (pixel_painted x1 y1 c g Hs) as H1.
  apply (painted_union _ _ _ _ _ _ H1); [apply pixel_painted, (painted_screen _ _ _ _ H1), Hs|]. apply covers_dec. intros; apply _.
Qed.
Lemma rect_painted r c g : screen_ok g -> painted (on_outline r) c g (gui_draw_rect r c g).
Proof.
  intros Hs. unfold gui_draw_rect.
  epose proof (loop_painted (fun i x y => (x = i /\ y = r_y r) \/ (x = i /\ y = r_y r + r_height r - 1)) c (r_x r) (r_x r + r_width r) _ g Hs
    ltac:(intros; apply _) (fun i g _ Hg => two_pixels i (r_y r) i (r_y r + r_height r - 1) c g Hg)) as H1.
  epose proof (loop_painted (fun i x y => (x = r_x r /\ y = i) \/ (x = r_x r + r_width r - 1 /\ y = i)) c (r_y r) (r_y r + r_height r) _ _
    (painted_screen _ _ _ _ H1 Hs) ltac:(intros; apply _) (fun i g _ Hg => two_pixels (r_x r) i (r_x r + r_width r - 1) i c g Hg)) as H2.
  assert (forall x y, (exists i, r_y r <= i < r_y r + r_height r /\ ((x = r_x r /\ y = i) \/ (x = r_x r + r_width r - 1 /\ y = i))) <->
    (r_y r <= y < r_y r + r_height r /\ (x = r_x r \/ x = r_x r + r_width r - 1))) as E2.
  { intros x y. split; [intros (i & Hi & [[-> ->]|[-> ->]]); tauto|]. intros [Hy Hx]. exists y. tauto. }
  eapply painted_ext in H2; [|exact E2]. refine (painted_ext _ _ _ _ _ _ (painted_union _ _ _ _ _ _ H1 H2 _)).
  intros x y. unfold on_outline. apply or_iff_compat_r. split; [intros (i & Hi & [[-> ->]|[-> ->]]); tauto|]. intros [Hx Hy]. exists x. tauto.
Qed.

Definition box (x y : Z) : rect_t := Rect x y 8 8.
Lemma char_painted x0 y0 c g : screen_ok g -> painted (on_outline (box x0 y0)) c g (draw_char x0 y0 c g).
Proof.
  intros Hs. unfold draw_char.
  set (edge := fun dx dy : Z => (dx =? 0) || (dx =? 7) || (dy =? 0) || (dy =? 7)).
  apply (painted_ext (fun x y => exists dy, 0 <= dy < 8 /\ (0 <= x - x0 < 8 /\ y = y0 + dy /\ edge (x - x0) dy = true))).
  { intros x y. unfold on_outline, box, edge. cbn [r_x r_y r_width r_height]. setoid_rewrite orb_true_iff. setoid_rewrite orb_true_iff.
    setoid_rewrite orb_true_iff. setoid_rewrite Z.eqb_eq. split; [intros (dy & Hd & Hx & -> & E); lia|].
    intros H. exists (y - y0). lia. }
  apply (loop_painted (fun dy x y => 0 <= x - x0 < 8 /\ y = y0 + dy /\ edge (x - x0) dy = true)); [done|intros; apply _|].
  intros dy g' Hd Hs'. apply (painted_ext (fun x y => exists dx, 0 <= dx < 8 /\ (x = x0 + dx /\ y = y0 + dy /\ edge dx dy = true))).
  { intros x y. split; [intros (dx & Hx & -> & -> & E); replace (x0 + dx - x0) with dx by lia; done|].
    intros (Hx & -> & E). exists (x - x0). split; [done|]. split; [lia|done]. }
  apply (loop_painted (fun dx x y => x = x0 + dx /\ y = y0 + dy /\ edge dx dy = true)); [done|intros; apply _|].
  intros dx g'' Hx Hs''. change ((dx =? 0) || (dx =? 7) || (dy =? 0) || (dy =? 7)) with (edge dx dy). destruct (edge dx dy).
  - refine (painted_ext _ _ _ _ _ _ (pixel_painted (x0 + dx) (y0 + dy) c g'' Hs'')). intros x y. tauto.
  - refine (painted_ext _ _ _ _ _ _ (painted_none c g'')). intros x y. split; [done|]. by intros (_ & _ & [=]).
Qed.

(** The points a text covers. *)
Fixpoint text_covers (x y : Z) (t : list Z) (px py : Z) : Prop :=
  match t with
  | [] => False
  | _ :: t => on_outline (box x y) px py \/ text_covers (x + 9) y t px py
  end.
#[export] Instance text_covers_dec x y t px py : Decision (text_covers x y t px py).
Proof. revert x. induction t; intros x; cbn; apply _. Defined.
Lemma text_painted y c t : forall x g, screen_ok g -> painted (text_covers x y t) c g (gui_draw_text x y t c g).
Proof.
  induction t as [|v t IH]; intros x g Hs; cbn [gui_draw_text]; [apply painted_none|].
  pose proof (char_painted x y c g Hs) as H1. pose proof (IH (x + 9) _ (painted_screen _ _ _ _ H1 Hs)) as H2.
  apply (painted_union _ _ _ _ _ _ H1 H2). apply covers_dec. intros; apply _.
Qed.

(** ** The windows on the heap *)

Record window := Window { v_id : Z; v_title : list Z; v_rect : rect_t; v_bg : Z; v_state : Z }.

Record win_at (m : mem) (p : Z) (w : window) : Prop := {
  wa_id : ld m (w_id p) = v_id w;
  wa_title : cstr m (w_title p) (v_title w);
  wa_short : (length (v_title w) <= 63)%nat;
  wa_rect : Rect (ld m (w_x p)) (ld m (w_y p)) (ld m (w_width p)) (ld m (w_height p)) = v_rect w;
  wa_bg : ld m (w_bg_color p) = v_bg w;
  wa_state : ld m (w_state p) = v_state w;
}.
Fixpoint wlist (m : mem) (head : Z) (ws : list (Z * window)) : Prop :=
  match ws with
  | [] => head = 0
  | (p, w) :: ws => head = p /\ win_at m p w /\ wlist m (ld m (w_next p)) ws
  end.

Record gui_inv (base size : Z) (live : gmap Z Z) (ws : list (Z * window)) (g : gui_state) : Prop := {
  gi_screen : screen_ok g;
  gi_heap : exists l, heap_inv base size (kheap g) live l;
  gi_list : wlist (h_mem (kheap g)) (window_list g) ws;
  gi_nodup : NoDup ws.*1;
  gi_live : Forall (fun p => live !! p = Some sizeof_window) ws.*1;
}.

Lemma win_same m m' p w : (forall x, p <= x < p + 92 -> ld m' x = ld m x) -> win_at m p w -> win_at m' p w.
Proof.
  intros Hs [H1 H2 H3 H4 H5 H6].
  constructor; unfold w_id, w_title, w_x, w_y, w_width, w_height, w_bg_color, w_state in *; rewrite ?Hs by lia; try done.
  apply (cstr_same m); [|done]. intros b Hb. apply Hs. lia.
Qed.
Lemma wlist_same m m' ws : forall head, (forall p x, p ∈ ws.*1 -> p <= x < p + 96 -> ld m' x = ld m x) -> wlist m head ws -> wlist m' head ws.
Proof.
  induction ws as [|[p w] ws IH]; intros head Hs; cbn [wlist]; [done|]. intros (-> & Hw & Hl). cbn in Hs.
  assert (forall x, p <= x < p + 96 -> ld m' x = ld m x) as Hp by (intros x Hx; apply (Hs p); [left|done]).
  split; [done|]. split; [apply (win_same m); [intros x Hx; apply Hp; lia|done]|].
  rewrite (Hp (w_next p)) by (unfold w_next; lia). apply IH; [|done]. intros q x Hq. apply Hs. by right.
Qed.

(** [title] in the new window. *)
Definition title_of (title : option (list Z)) : list Z := match title with Some t => take 63 t | None => [] end.
Definition title_ok (title : option (list Z)) : Prop :=
  match title with Some t => Forall (fun c => 0 < c < 256) t | None => True end.

Lemma bytes_lookup m a l : (forall i v, l !! i = Some v -> ld m (a + Z.of_nat i) = v) -> bytes m a l.
Proof.
  revert a. induction l as [|v l IH]; intros a H; [done|]. cbn [bytes]. split; [rewrite <- (H 0%nat v eq_refl); f_equal; lia|].
  apply IH. intros i u Hi. rewrite <- (H (S i) u Hi). f_equal. lia.
Qed.
Lemma put_title_spec p title m : title_ok title ->
  cstr (put_title p title m) (w_title p) (title_of title) /\ same_out m (put_title p title m) (w_title p) 64.
Proof.
  intros Ht. destruct title as [t|]; cbn [put_title title_of title_ok] in *.
  2:{ split; [apply ld_st_eq|]. intros b Hb. apply ld_st_ne. lia. }
  set (a := w_title p). set (m1 := for_range 0 63 _ m).
  assert ((forall j, 0 <= j < 63 -> ld m1 (a + j) = aget t j) /\ (forall b, b < a \/ a + 63 <= b -> ld m1 b = ld m b)) as [H1 H2].
  { apply (for_range_ind (fun k m' => (forall j, 0 <= j < k -> ld m' (a + j) = aget t j) /\ (forall b, b < a \/ a + k <= b -> ld m' b = ld m b))); [lia|split; [lia|done]|].
    intros i m' Hi [K1 K2]. split.
    - intros j Hj. destruct (Z.eq_dec j i) as [->|]; [apply ld_st_eq|]. rewrite ld_st_ne by lia. apply K1. lia.
    - intros b Hb. rewrite ld_st_ne by lia. apply K2. lia. }
  split.
  - apply cstr_bytes. rewrite length_take. split; [|split].
    + apply bytes_lookup. intros i v Hi. apply lookup_take_Some in Hi as [Hi Hlt]. rewrite ld_st_ne, H1 by lia. unfold aget.
      by rewrite Nat2Z.id, Hi.
    + apply Forall_take. refine (Forall_impl _ _ Ht). intros c Hc. lia.
    + destruct (Nat.le_gt_cases 63 (length t)) as [E|E].
      * rewrite Nat.min_l by lia. apply ld_st_eq.
      * rewrite Nat.min_r by lia. rewrite ld_st_ne, H1 by lia. unfold aget. by rewrite Nat2Z.id, lookup_ge_None_2 by lia.
  - intros b Hb. rewrite ld_st_ne by lia. apply H2. lia.
Qed.

Definition new_window (g : gui_state) (r : rect_t) (title : option (list Z)) : window :=
  Window (next_window_id g) (title_of title) r COLOR_LIGHTGRAY WINDOW_VISIBLE.

(** What [gui_create_window] writes is the new window, and only that. *)
Definition create_stores (p : Z) (g : gui_state) (r : rect_t) (title : option (list Z)) (m : mem) : mem :=
  let m := st m (w_id p) (next_window_id g) in
  let m := st (st (st (st m (w_x p) (r_x r)) (w_y p) (r_y r)) (w_width p) (r_width r)) (w_height p) (r_height r) in
  let m := st (st m (w_bg_color p) COLOR_LIGHTGRAY) (w_state p) WINDOW_VISIBLE in
  st (put_title p title m) (w_next p) (window_list g).
Lemma create_stores_spec p g r title m : title_ok title ->
  win_at (create_stores p g r title m) p (new_window g r title) /\
  ld (create_stores p g r title m) (w_next p) = window_list g /\ same_out m (create_stores p g r title m) p 96.
Proof.
  intros Ht. unfold create_stores.
  match goal with |- context [put_title p title ?m] => set (m1 := m) end. destruct (put_title_spec p title m1 Ht) as [Hc Ho].
  assert (forall x, x < p + 4 \/ p + 68 <= x -> x <> w_next p -> ld (st (put_title p title m1) (w_next p) (window_list g)) x = ld m1 x) as Hout.
  { intros x Hx Hn. rewrite ld_st_ne by done. apply Ho. unfold w_title. lia. }
  split; [|split; [apply ld_st_eq|]].
  - constructor; cbn [new_window v_id v_title v_rect v_bg v_state].
    + rewrite Hout by (unfold w_id, w_next; lia). unfold m1, w_id, w_x, w_y, w_width, w_height, w_bg_color, w_state. by repeat (rewrite ld_st_ne by lia; try apply ld_st_eq).
    + apply (cstr_same (put_title p title m1)); [|done]. intros b Hb. apply ld_st_ne. unfold w_title, w_next in *.
      assert (length (title_of title) <= 63)%nat by (destruct title; cbn; rewrite ?length_take; lia). lia.
    + destruct title; cbn; rewrite ?length_take; lia.
    + rewrite !Hout by (unfold w_x, w_y, w_width, w_height, w_next; lia). destruct r as [x y w h]. unfold m1, w_x, w_y, w_width, w_height, w_bg_color, w_state.
      cbn [r_x r_y r_width r_height]. f_equal; repeat (apply ld_st_eq || rewrite ld_st_ne by lia).
    + rewrite Hout by (unfold w_bg_color, w_next; lia). unfold m1, w_bg_color, w_state. rewrite ld_st_ne by lia. apply ld_st_eq.
    + rewrite Hout by (unfold w_state, w_next; lia). apply ld_st_eq.
  - intros b Hb. rewrite Hout by (unfold w_next; lia). unfold m1, w_id, w_x, w_y, w_width, w_height, w_bg_color, w_state.
    by rewrite !ld_st_ne by lia.
Qed.

Lemma window_fits : 0 < sizeof_window /\ sizeof_window + 7 < 2 ^ 32.
Proof. unfold sizeof_window. lia. Qed.
Lemma create_inv base size live ws g r title : gui_inv base size live ws g -> title_ok title ->
  exists p g', gui_create_window (r_x r) (r_y r) (r_width r) (r_height r) title g = Some (p, g') /\ framebuffer g' = framebuffer g /\
    ((p = 0 /\ gui_inv base size live ws g') \/
     (live !! p = None /\ gui_inv base size (<[p := sizeof_window]> live) ((p, new_window g r title) :: ws) g')).
Proof.
  intros [Hs [l Hh] Hl Hnd Hlive] Ht. unfold gui_create_window.
  destruct window_fits as [Hz1 Hz2].
  destruct (malloc_frame base size _ live l sizeof_window Hh Hz1 Hz2) as (p & k & Ek & Hnew & Hf). rewrite Ek. cbn [mbind option_bind].
  destruct (malloc_inv _ _ _ _ _ _ _ _ Hh Hz1 Hz2 Ek) as [l' Hh'].
  assert (wlist (h_mem k) (window_list g) ws) as Hl'.
  { apply (wlist_same (h_mem (kheap g))); [|done]. intros q x Hq. apply (Hf q sizeof_window). rewrite Forall_forall in Hlive. by apply Hlive, list_elem_of_In. }
  destruct (Z.eqb_spec p 0) as [->|Hp].
  - exists 0. eexists. split; [reflexivity|]. split; [reflexivity|]. left. split; [done|]. constructor; try done. by exists l'.
  - exists p. eexists. split; [reflexivity|]. split; [reflexivity|]. right. split; [by apply Hnew|].
    match goal with |- gui_inv _ _ _ _ (Gui _ _ _ _ _ _ (with_mem k ?m)) => change m with (create_stores p g r title (h_mem k)) end.
    destruct (create_stores_spec p g r title (h_mem k) Ht) as (Hw & Hnx & Ho).
    assert (live !! p = None) as Hpn by (by apply Hnew). assert (p ∉ ws.*1) as Hpw.
    { intros Hin. rewrite Forall_forall in Hlive. apply list_elem_of_In, Hlive in Hin. congruence. }
    constructor; cbn [kheap window_list h_mem with_mem wlist].
    + done.
    + exists l'. apply (write_inv _ _ _ _ _ p sizeof_window); [done|by rewrite lookup_insert_eq|]. intros x Hx. by apply Ho.
    + split; [done|]. split; [done|]. rewrite Hnx. apply (wlist_same (h_mem k)); [|done]. intros q x Hq Hx. apply Ho.
      assert (q <> p) as Hqp by (by intros ->). rewrite Forall_forall in Hlive. apply list_elem_of_In in Hq. specialize (Hlive q Hq).
      destruct (live_apart _ _ _ _ _ p sizeof_window q sizeof_window Hh') as [H|H]; [by rewrite lookup_insert_eq|by rewrite lookup_insert_ne by done|done|..];
        unfold sizeof_window in H; lia.
    + cbn. by constructor.
    + cbn. constructor; [by rewrite lookup_insert_eq|]. apply Forall_forall. intros q Hq. rewrite Forall_forall in Hlive.
      rewrite lookup_insert_ne; [by apply Hlive|]. intros <-. apply Hpw. by apply list_elem_of_In.
Qed.

(** Unlinking a window. *)
Lemma unlink_window_spec m0 head0 p : forall fuel ws prev cur x, (length ws <= fuel)%nat -> p <> 0 -> p ∈ ws.*1 -> NoDup ws.*1 ->
  Forall (fun q => q <> 0) ws.*1 -> (prev = 0 \/ (prev <> 0 /\ prev ∉ ws.*1)) -> x = (head0, m0) -> wlist m0 cur ws ->
  exists a b w nx prev', ws = a ++ (p, w) :: b /\ nx = ld m0 (w_next p) /\ wlist m0 nx b /\
    prev' = match rev a.*1 with [] => prev | q :: _ => q end /\ unlink fuel prev cur p x = Some (set_link prev' nx (head0, m0)).
Proof.
  intros fuel ws. revert fuel. induction ws as [|[q w] ws IH]; intros fuel prev cur x Hlen Hp Hin Hnd Hnz Hprev -> Hw.
  { by apply elem_of_nil in Hin. }
  cbn [wlist] in Hw. destruct Hw as (-> & Hwq & Hw). cbn in Hin, Hnd, Hnz. apply list.NoDup_cons in Hnd as [Hq Hnd]. apply Forall_cons_iff in Hnz as [Hq0 Hnz].
  destruct fuel as [|fuel]; cbn [length] in Hlen; [lia|]. cbn [unlink]. rewrite (proj2 (Z.eqb_neq q 0) Hq0).
  destruct (Z.eqb_spec q p) as [->|Hqp].
  - exists [], ws, w, (ld m0 (w_next p)), prev. done.
  - apply elem_of_cons in Hin as [->|Hin]; [done|]. cbn [snd].
    destruct (IH fuel q (ld m0 (w_next q)) (head0, m0)) as (a & b & w' & nx & prev' & -> & Hnx & Hb & Hpv & Hu); [lia|done..|by right|done|done|].
    exists ((q, w) :: a), b, w', nx, prev'. split; [done|]. split; [done|]. split; [done|]. split; [|done].
    rewrite Hpv. cbn [fmap list_fmap fst rev]. destruct (rev a.*1) as [|z zs] eqn:E; [|by cbn].
    cbn. done.
Qed.

Fixpoint wseg (m : mem) (head : Z) (ws : list (Z * window)) (tail : Z) : Prop :=
  match ws with
  | [] => head = tail
  | (p, w) :: ws => head = p /\ win_at m p w /\ wseg m (ld m (w_next p)) ws tail
  end.
Lemma wlist_app m b : forall a head, wlist m head (a ++ b) <-> exists mid, wseg m head a mid /\ wlist m mid b.
Proof.
  induction a as [|[p w] a IH]; intros head; cbn [app wlist wseg].
  - split; [by exists head|]. by intros (? & -> & ?).
  - rewrite IH. split; [intros (H1 & H2 & mid & H3 & H4); by exists mid|]. intros (mid & (H1 & H2 & H3) & H4). split; [done|]. split; [done|]. by exists mid.
Qed.
Lemma wseg_snoc m q w tail : forall a head, wseg m head (a ++ [(q, w)]) tail <-> wseg m head a q /\ win_at m q w /\ ld m (w_next q) = tail.
Proof.
  induction a as [|[p v] a IH]; intros head; cbn [app wseg].
  - split; [by intros (-> & ? & ?)|by intros (-> & ? & ?)].
  - rewrite IH. tauto.
Qed.
Lemma wseg_same m m' ws tail : forall head, (forall p x, p ∈ ws.*1 -> p <= x < p + 96 -> ld m' x = ld m x) -> wseg m head ws tail -> wseg m' head ws tail.
Proof.
  induction ws as [|[p w] ws IH]; intros head Hs; cbn [wseg]; [done|]. intros (-> & Hw & Hl). cbn in Hs.
  assert (forall x, p <= x < p + 96 -> ld m' x = ld m x) as Hp by (intros x Hx; apply (Hs p); [left|done]).
  split; [done|]. split; [apply (win_same m); [intros x Hx; apply Hp; lia|done]|].
  rewrite (Hp (w_next p)) by (unfold w_next; lia). apply IH; [|done]. intros q x Hq. apply Hs. by right.
Qed.

(** Blocks of different windows are apart. *)
Definition apart (ps : list Z) : Prop := forall p q, p ∈ ps -> q ∈ ps -> p <> q -> p + 96 <= q \/ q + 96 <= p.

(** The list without a window: the link to it is replaced by its own. *)
Lemma splice_spec m head a p w b head' m' : wlist m head (a ++ (p, w) :: b) -> NoDup (a ++ (p, w) :: b).*1 -> apart (a ++ (p, w) :: b).*1 ->
  Forall (fun q => q <> 0) (a ++ (p, w) :: b).*1 ->
  set_link (match rev a.*1 with [] => 0 | q :: _ => q end) (ld m (w_next p)) (head, m) = (head', m') ->
  wlist m' head' (a ++ b) /\ (m' = m \/ exists q v, q ∈ a.*1 /\ m' = st m (w_next q) v).
Proof.
  intros Hw Hnd Hap Hnz. apply wlist_app in Hw as (mid & Ha & -> & Hwp & Hb). destruct a as [|[q v] a _] using rev_ind.
  - cbn. intros [= <- <-]. cbn in Ha. subst head. split; [exact Hb|by left].
  - rewrite fmap_app, rev_app_distr. cbn [fmap list_fmap rev app fst]. rewrite <- app_assoc, !fmap_app in *. cbn [app fmap list_fmap fst] in *.
    assert (q <> 0) as Hq0. { rewrite Forall_app in Hnz. destruct Hnz as [_ Hnz]. by apply Forall_cons_iff in Hnz as [? _]. }
    unfold set_link. rewrite (proj2 (Z.eqb_neq q 0) Hq0). cbn [fst snd]. intros [= <- <-].
    apply wseg_snoc in Ha as (Ha & Hq & Hnx). apply list.NoDup_app in Hnd as (N1 & N2 & N3). apply list.NoDup_cons in N3 as [N3 N4].
    assert (forall z x, z ∈ a.*1 ++ q :: p :: b.*1 -> z <> q -> z <= x < z + 96 -> ld (st m (w_next q) (ld m (w_next p))) x = ld m x) as Hsame.
    { intros z x Hz Hne Hx. apply ld_st_ne. unfold w_next. destruct (Hap z q Hz) as [H|H]; [apply elem_of_app; right; left|done|lia|lia]. }
    split.
    + apply wlist_app. exists q. split; [|split; [done|]; split].
      * apply (wseg_same m); [|done]. intros z x Hz. apply Hsame; [apply elem_of_app; by left|]. intros ->. apply (N2 q Hz). left.
      * apply (win_same m); [|done]. intros x Hx. apply ld_st_ne. unfold w_next. lia.
      * rewrite ld_st_eq. apply (wlist_same m); [|done]. intros z x Hz. apply Hsame; [apply elem_of_app; right; right; by right|].
        intros ->. apply N3. by right.
    + right. exists q, (ld m (w_next p)). split; [|done]. apply elem_of_app. right. left.
Qed.

Definition without (p : Z) (ws : list (Z * window)) : list (Z * window) := filter (fun x => fst x <> p) ws.
Lemma without_split p w a b : NoDup (a ++ (p, w) :: b).*1 -> without p (a ++ (p, w) :: b) = a ++ b.
Proof.
  rewrite fmap_app. cbn. intros (N1 & N2 & N3)%list.NoDup_app. apply list.NoDup_cons in N3 as [N3 _].
  assert (forall l : list (Z * window), p ∉ l.*1 -> filter (fun x => fst x <> p) l = l) as Hid.
  { intros l. induction l as [|[q v] l IH]; [done|]. rewrite fmap_cons. intros Hn. apply not_elem_of_cons in Hn as [H1 H2].
    rewrite filter_cons_True by (intros E; apply H1; by rewrite <- E). by rewrite IH. }
  unfold without. rewrite list.filter_app, filter_cons_False by (cbn; tauto). rewrite !Hid; [done|done|]. intros H. apply (N2 p H). left.
Qed.

Lemma gui_apart base size live ws g : gui_inv base size live ws g -> apart ws.*1 /\ Forall (fun q => q <> 0) ws.*1 /\ (length ws < walk_fuel (kheap g))%nat.
Proof.
  intros [_ [l Hh] _ Hnd Hl]. rewrite Forall_forall in Hl. split; [|split].
  - intros p q Hp Hq Hne. apply list_elem_of_In in Hp, Hq.
    apply (live_apart _ _ _ _ _ p sizeof_window q sizeof_window Hh); [by apply Hl..|done].
  - apply Forall_forall. intros q Hq. by apply (live_range _ _ _ _ _ q sizeof_window Hh), Hl.
  - rewrite <- (length_fmap fst). apply (live_count _ _ _ _ _ _ Hh Hnd). apply Forall_forall. intros q Hq. rewrite Hl by done. by eexists.
Qed.

Lemma destroy_inv base size live ws g p : gui_inv base size live ws g -> p ∈ ws.*1 ->
  exists g', gui_destroy_window p g = Some g' /\ framebuffer g' = framebuffer g /\ gui_inv base size (delete p live) (without p ws) g'.
Proof.
  intros Hi Hp. destruct (gui_apart _ _ _ _ _ Hi) as (Hap & Hnz & Hlen). destruct Hi as [Hs [l Hh] Hl Hnd Hlive].
  assert (p <> 0) as Hp0 by (rewrite Forall_forall in Hnz; by apply Hnz, list_elem_of_In).
  unfold gui_destroy_window. rewrite (proj2 (Z.eqb_neq p 0) Hp0).
  destruct (unlink_window_spec (h_mem (kheap g)) (window_list g) p (walk_fuel (kheap g)) ws 0 (window_list g) (window_list g, h_mem (kheap g)))
    as (a & b & w & nx & prev & Ews & Hnx & _ & Hprev & ->); [lia|done..|by left|done|done|]. cbn [mbind option_bind].
  destruct (set_link prev nx (window_list g, h_mem (kheap g))) as [head' m'] eqn:Esl. rewrite Hprev, Hnx in Esl. subst ws.
  destruct (splice_spec _ _ a p w b head' m' Hl Hnd Hap Hnz Esl) as [Hw Hm'].
  eexists. split; [reflexivity|]. split; [reflexivity|].
  assert (forall q, q ∈ (a ++ b).*1 -> q <> p /\ live !! q = Some sizeof_window) as Hrest.
  { intros q Hq. rewrite Forall_forall in Hlive. rewrite fmap_app in *. cbn in *. split.
    - intros ->. apply list.NoDup_app in Hnd as (_ & N2 & N3). apply list.NoDup_cons in N3 as [N3 _].
      apply elem_of_app in Hq as [Hq|Hq]; [|done]. apply (N2 p Hq). left.
    - apply Hlive, list_elem_of_In, elem_of_app. apply elem_of_app in Hq as [Hq|Hq]; [by left|right; by right]. }
  assert (live !! p = Some sizeof_window) as Hpl by (rewrite Forall_forall in Hlive; by apply Hlive, list_elem_of_In).
  assert (heap_inv base size (with_mem (kheap g) m') live l) as Hh'.
  { destruct Hm' as [->|(q & v & Hq & ->)]; [by destruct (kheap g)|]. apply (store_inv _ _ _ _ _ q sizeof_window); [done| |unfold w_next, sizeof_window; lia].
    apply Hrest. rewrite fmap_app. apply elem_of_app. by left. }
  rewrite without_split by done. destruct (free_inv _ _ _ _ _ p sizeof_window Hh' Hpl) as [l' Hf].
  constructor; cbn [kheap window_list with_windows].
  - done.
  - by exists l'.
  - apply (wlist_same m'); [|done]. intros q x Hq Hx. destruct (Hrest q Hq) as [Hne Hq'].
    by rewrite (free_frame _ _ _ _ _ p sizeof_window q sizeof_window x Hh' Hpl Hq' Hne Hx).
  - rewrite !fmap_app in *. cbn in Hnd. apply list.NoDup_app in Hnd as (N1 & N2 & N3). apply list.NoDup_cons in N3 as [N3 N4].
    apply list.NoDup_app. split; [done|]. split; [|done]. intros x Hx Hx'. apply (N2 x Hx). by right.
  - apply Forall_forall. intros q Hq%list_elem_of_In. destruct (Hrest q Hq) as [Hne Hq']. by rewrite lookup_delete_ne.
Qed.

Definition restate (p v : Z) (x : Z * window) : Z * window :=
  if fst x =? p then (p, Window (v_id (snd x)) (v_title (snd x)) (v_rect (snd x)) (v_bg (snd x)) v) else x.
Lemma restate_fst p v ws : (restate p v <$> ws).*1 = ws.*1.
Proof.
  induction ws as [|[q w] ws IH]; [done|]. rewrite !fmap_cons, IH. f_equal. unfold restate. cbn. by destruct (Z.eqb_spec q p) as [->|].
Qed.
Lemma wlist_restate m p v ws : apart ws.*1 -> p ∈ ws.*1 -> forall head, wlist m head ws -> wlist (st m (w_state p) v) head (restate p v <$> ws).
Proof.
  intros Hap Hp. assert (forall q x, q ∈ ws.*1 -> q <> p -> q <= x < q + 96 -> ld (st m (w_state p) v) x = ld m x) as Hsame.
  { intros q x Hq Hne Hx. apply ld_st_ne. unfold w_state. destruct (Hap q p Hq Hp Hne); lia. }
  clear Hap Hp. induction ws as [|[q w] ws IH]; intros head; [done|]. cbn [wlist fmap list_fmap]. intros (-> & Hw & Hl). rewrite fmap_cons in Hsame. cbn [fst] in Hsame.
  assert (ld (st m (w_state p) v) (w_next q) = ld m (w_next q)) as Hnx.
  { destruct (Z.eq_dec q p) as [->|Hne]; [apply ld_st_ne; unfold w_state, w_next; lia|apply (Hsame q); [left|done|unfold w_next; lia]]. }
  assert (wlist (st m (w_state p) v) (ld m (w_next q)) (restate p v <$> ws)) as Htl.
  { apply IH; [|done]. intros z x Hz. apply Hsame. by right. }
  unfold restate at 1. cbn [fst snd]. destruct (Z.eqb_spec q p) as [E|E]; [subst q|]; (split; [done|]; split; [|by rewrite Hnx]).
  - destruct Hw as [H1 H2 H3 H4 H5 H6].
    constructor; cbn [v_id v_title v_rect v_bg v_state]; try done; try apply ld_st_eq;
      unfold w_id, w_title, w_x, w_y, w_width, w_height, w_bg_color, w_state in *; rewrite ?ld_st_ne by lia; try done.
    apply (cstr_same m); [|done]. intros b Hb. apply ld_st_ne. lia.
  - apply (win_same m); [|done]. intros x Hx. apply (Hsame q); [left|done|lia].
Qed.
Lemma set_state_inv base size live ws g p v : gui_inv base size live ws g -> p ∈ ws.*1 ->
  gui_inv base size live (restate p v <$> ws) (set_window_state p v g) /\ framebuffer (set_window_state p v g) = framebuffer g.
Proof.
  intros Hi Hp. destruct (gui_apart _ _ _ _ _ Hi) as (Hap & Hnz & Hlen). destruct Hi as [Hs [l Hh] Hl Hnd Hlive].
  unfold set_window_state. assert (p <> 0) as Hp0 by (rewrite Forall_forall in Hnz; by apply Hnz, list_elem_of_In).
  rewrite (proj2 (Z.eqb_neq p 0) Hp0). split; [|done]. constructor; cbn [kheap window_list with_windows h_mem with_mem]; rewrite ?restate_fst; try done.
  - exists l. apply (store_inv _ _ _ _ _ p sizeof_window); [done| |unfold w_state, sizeof_window; lia].
    rewrite Forall_forall in Hlive. by apply Hlive, list_elem_of_In.
  - by apply wlist_restate.
Qed.

(** ** Rendering *)

(** The color a window puts at a point, if it covers it: its title over its title bar
    over its border over its background. *)
Definition paint (w : window) (x y : Z) : option Z :=
  let r := v_rect w in
  if negb (v_state w =? WINDOW_VISIBLE) then None
  else if decide (text_covers (r_x r + 5) (r_y r + 6) (v_title w) x y) then Some COLOR_WHITE
  else if decide (in_rect (Rect (r_x r) (r_y r) (r_width r) 20) x y) then Some COLOR_BLUE
  else if decide (on_outline r x y) then Some COLOR_BLACK
  else if decide (in_rect r x y) then Some (v_bg w) else None.
(** The point after the windows are painted in the order of the list. *)
Definition pixel (ws : list (Z * window)) (x y before : Z) : Z :=
  foldl (fun c w => default c (paint (snd w) x y)) before ws.

Record rendered (ws : list (Z * window)) (g g' : gui_state) : Prop := {
  rd_same : g' = with_fb (framebuffer g') g;
  rd_in : forall x y, 0 <= x < GUI_WIDTH -> 0 <= y < GUI_HEIGHT ->
    ld (framebuffer g') (y * GUI_WIDTH + x) = pixel ws x y (ld (framebuffer g) (y * GUI_WIDTH + x));
  rd_out : forall a, ~ on_screen a -> ld (framebuffer g') a = ld (framebuffer g) a;
}.

Lemma point_covered S x y : 0 <= x < GUI_WIDTH -> 0 <= y < GUI_HEIGHT -> covers S (y * GUI_WIDTH + x) <-> S x y.
Proof.
  unfold covers, on_screen, GUI_WIDTH, GUI_HEIGHT. intros Hx Hy.
  replace ((y * 800 + x) mod 800) with x by dlia. replace ((y * 800 + x) / 800) with y by dlia. split; [tauto|]. intros H. split; [lia|done].
Qed.
Lemma painted_at S c g g' (D : forall x y, Decision (S x y)) : painted S c g g' -> forall x y, 0 <= x < GUI_WIDTH -> 0 <= y < GUI_HEIGHT ->
  ld (framebuffer g') (y * GUI_WIDTH + x) = if decide (S x y) then c else ld (framebuffer g) (y * GUI_WIDTH + x).
Proof.
  intros [_ H2 H3] x y Hx Hy. destruct (decide (S x y)) as [H|H]; [by apply H2, point_covered|].
  apply H3. by rewrite point_covered.
Qed.

Lemma render_window_spec p w g : screen_ok g -> p <> 0 -> win_at (h_mem (kheap g)) p w ->
  exists g', gui_render_window p g = Some g' /\ rendered [(p, w)] g g'.
Proof.
  intros Hs Hp [H1 H2 H3 H4 H5 H6]. unfold gui_render_window. rewrite (proj2 (Z.eqb_neq p 0) Hp), H4, H5, H6. cbn [orb].
  destruct (negb (v_state w =? WINDOW_VISIBLE)) eqn:Hv.
  { exists g. split; [done|]. constructor; [by destruct g| |done]. intros x y _ _. cbn. unfold paint. by rewrite Hv. }
  set (r := v_rect w). pose proof (filled_painted r (v_bg w) g Hs) as P1. set (g1 := gui_draw_filled_rect r _ g) in *.
  pose proof (painted_screen _ _ _ _ P1 Hs) as S1. pose proof (rect_painted r COLOR_BLACK g1 S1) as P2. set (g2 := gui_draw_rect r _ g1) in *.
  pose proof (painted_screen _ _ _ _ P2 S1) as S2. pose proof (filled_painted (Rect (r_x r) (r_y r) (r_width r) 20) COLOR_BLUE g2 S2) as P3.
  set (g3 := gui_draw_filled_rect (Rect _ _ _ _) _ g2) in *. pose proof (painted_screen _ _ _ _ P3 S2) as S3.
  pose proof (text_painted (r_y r + 6) COLOR_WHITE (v_title w) (r_x r + 5) g3 S3) as P4.
  exists (gui_draw_text (r_x r + 5) (r_y r + 6) (v_title w) COLOR_WHITE g3). split.
  { rewrite (cstr_head _ _ _ H2), (text_cstr _ _ _ 65 H2) by lia. by destruct (v_title w). }
  set (g4 := gui_draw_text _ _ _ _ g3) in *. constructor.
  - rewrite (pt_same _ _ _ _ P4), (pt_same _ _ _ _ P3), (pt_same _ _ _ _ P2), (pt_same _ _ _ _ P1). done.
  - intros x y Hx Hy. rewrite (painted_at _ _ _ _ _ P4 x y Hx Hy), (painted_at _ _ _ _ _ P3 x y Hx Hy), (painted_at _ _ _ _ _ P2 x y Hx Hy), (painted_at _ _ _ _ _ P1 x y Hx Hy).
    cbn [pixel foldl snd]. unfold paint. rewrite Hv. fold r. by repeat destruct (decide _).
  - intros a Ha. by rewrite (pt_out _ _ _ _ P4), (pt_out _ _ _ _ P3), (pt_out _ _ _ _ P2), (pt_out _ _ _ _ P1) by (intros [? _]; done).
Qed.

Lemma render_list_spec : forall fuel ws head g, (length ws <= fuel)%nat -> screen_ok g -> Forall (fun q => q <> 0) ws.*1 ->
  wlist (h_mem (kheap g)) head ws -> exists g', render_list fuel head g = Some g' /\ rendered ws g g'.
Proof.
  intros fuel ws. revert fuel. induction ws as [|[p w] ws IH]; intros fuel head g Hlen Hs Hnz Hw; cbn [wlist] in Hw.
  - subst head. exists g. split; [by destruct fuel|]. constructor; [by destruct g|done|done].
  - destruct Hw as (-> & Hwp & Hw). rewrite fmap_cons in Hnz. apply Forall_cons_iff in Hnz as [Hp Hnz]. cbn [fst] in Hp.
    destruct fuel as [|fuel]; cbn [length] in Hlen; [lia|]. cbn [render_list]. rewrite (proj2 (Z.eqb_neq p 0) Hp).
    destruct (render_window_spec p w g Hs Hp Hwp) as (g1 & -> & [R1 R2 R3]). cbn [mbind option_bind].
    assert (kheap g1 = kheap g /\ screen_ok g1) as [Hk Hs1] by (by rewrite R1). rewrite Hk.
    destruct (IH fuel (ld (h_mem (kheap g)) (w_next p)) g1) as (g2 & -> & [Q1 Q2 Q3]); [lia|done|done|by rewrite Hk|].
    exists g2. split; [done|]. constructor.
    + rewrite Q1, R1. done.
    + intros x y Hx Hy. rewrite Q2, R2 by done. done.
    + intros a Ha. by rewrite Q3, R3.
Qed.

(** ** Properties *)

Lemma clear_screen_spec c g : screen_ok g -> painted (fun _ _ => True) c g (gui_clear_screen c g).
Proof.
  intros [Hw Hh]. unfold gui_clear_screen. rewrite Hw, Hh. set (n := GUI_WIDTH * GUI_HEIGHT).
  assert ((forall a, 0 <= a < n -> ld (for_range 0 n (fun i fb => st fb i c) (framebuffer g)) a = c) /\
    (forall a, ~ 0 <= a < n -> ld (for_range 0 n (fun i fb => st fb i c) (framebuffer g)) a = ld (framebuffer g) a)) as [H1 H2].
  { apply (for_range_ind (fun k fb => (forall a, 0 <= a < k -> ld fb a = c) /\ (forall a, ~ 0 <= a < k -> ld fb a = ld (framebuffer g) a)));
      [unfold n, GUI_WIDTH, GUI_HEIGHT; lia|split; [lia|done]|]. intros i fb Hi [K1 K2]. split; intros a Ha.
    - destruct (Z.eq_dec a i) as [->|]; [apply ld_st_eq|]. rewrite ld_st_ne by lia. apply K1. lia.
    - rewrite ld_st_ne by lia. apply K2. lia. }
  constructor; cbn [framebuffer with_fb].
  - done.
  - intros a [Ha _]. by apply H1.
  - intros a Ha. apply H2. intros H. apply Ha. by split.
Qed.
Lemma gui_init_inv base size h live l fb con : heap_inv base size h live l ->
  gui_inv base size live [] (fst (gui_init (Gui fb 0 0 0 0 0 h, con))) /\
  forall x y, 0 <= x < GUI_WIDTH -> 0 <= y < GUI_HEIGHT -> ld (framebuffer (fst (gui_init (Gui fb 0 0 0 0 0 h, con)))) (y * GUI_WIDTH + x) = COLOR_BLACK.
Proof.
  intros Hh. unfold gui_init. cbn [initialized Z.eqb negb fst kheap framebuffer].
  set (g := Gui fb GUI_WIDTH GUI_HEIGHT 0 1 1 h). assert (screen_ok g) as Hs by done. pose proof (clear_screen_spec COLOR_BLACK g Hs) as P. split.
  - rewrite (pt_same _ _ _ _ P). generalize (framebuffer (gui_clear_screen COLOR_BLACK g)). intros fb'. constructor; [done|by exists l|done|constructor|constructor].
  - intros x y Hx Hy. exact (painted_at _ _ _ _ _ P x y Hx Hy).
Qed.

(** The calls a program makes; windows it passes are ones it has. The bounds on the
    coordinates keep the sums of the code within [int]. *)
Definition small (r : rect_t) : Prop :=
  Z.abs (r_x r) < 2 ^ 30 /\ Z.abs (r_y r) < 2 ^ 30 /\ Z.abs (r_width r) < 2 ^ 30 /\ Z.abs (r_height r) < 2 ^ 30.
Inductive gui_step : gui_state * list (Z * window) -> gui_state * list (Z * window) -> Prop :=
| gs_create g ws r title p g' : small r -> title_ok title ->
    gui_create_window (r_x r) (r_y r) (r_width r) (r_height r) title g = Some (p, g') ->
    gui_step (g, ws) (g', if p =? 0 then ws else (p, new_window g r title) :: ws)
| gs_destroy g ws p g' : p ∈ ws.*1 -> gui_destroy_window p g = Some g' -> gui_step (g, ws) (g', without p ws)
| gs_show g ws p : p ∈ ws.*1 -> gui_step (g, ws) (gui_show_window p g, restate p WINDOW_VISIBLE <$> ws)
| gs_hide g ws p : p ∈ ws.*1 -> gui_step (g, ws) (gui_hide_window p g, restate p WINDOW_HIDDEN <$> ws)
| gs_render g ws g' : gui_render_all g = Some g' -> gui_step (g, ws) (g', ws).

Lemma render_all_spec base size live ws g : gui_inv base size live ws g ->
  exists g', gui_render_all g = Some g' /\ rendered ws g g' /\ gui_inv base size live ws g'.
Proof.
  intros Hi. destruct (gui_apart _ _ _ _ _ Hi) as (_ & Hnz & Hlen).
  destruct (render_list_spec (walk_fuel (kheap g)) ws (window_list g) g) as (g' & E & R); [lia|apply Hi|done|apply Hi|].
  exists g'. split; [done|]. split; [done|]. destruct Hi as [H1 H2 H3 H4 H5]. rewrite (rd_same _ _ _ R). by constructor.
Qed.
Lemma gui_step_inv base size live ws g x : gui_step (g, ws) x -> gui_inv base size live ws g -> exists live', gui_inv base size live' (snd x) (fst x).
Proof.
  intros Hstep Hi. inversion Hstep as [? ? r title p g' Hr Ht E|? ? p g' Hp E|? ? p Hp|? ? p Hp|? ? g' E]; subst; cbn [fst snd].
  - destruct (create_inv base size live ws g r title Hi Ht) as (p' & g'' & E' & _ & [[-> H]|[Hn H]]); rewrite E in E'; injection E' as -> ->.
    + by exists live.
    + assert (p' <> 0) as Hp.
      { intros ->. destruct H as [_ [l Hh] _ _ Hl]. cbn in Hl. apply Forall_cons_iff in Hl as [Hl _]. by destruct (live_range _ _ _ _ _ _ _ Hh Hl) as (_ & _ & _ & ?). }
      rewrite (proj2 (Z.eqb_neq p' 0) Hp). by exists (<[p' := sizeof_window]> live).
  - destruct (destroy_inv base size live ws g p Hi Hp) as (g'' & E' & _ & H). rewrite E in E'. injection E' as ->. by exists (delete p live).
  - exists live. by apply set_state_inv.
  - exists live. by apply set_state_inv.
  - destruct (render_all_spec base size live ws g Hi) as (g'' & E' & _ & H). rewrite E in E'. injection E' as ->. by exists live.
Qed.

Lemma reach_inv base size x y : rtc gui_step x y -> (exists live, gui_inv base size live (snd x) (fst x)) ->
  exists live, gui_inv base size live (snd y) (fst y).
Proof.
  induction 1 as [x|x y z Hxy Hyz IH]; [done|]. intros [live Hx]. apply IH. destruct x as [g ws]. by apply (gui_step_inv base size live ws g).
Qed.


Definition demo_rect : rect_t := Rect 10 10 100 50.
