(* ===== verification/Script.v ===== *)
(** * Shell scripts (kernel/script.c, include/script.h)

    Variables, conditions and the line-by-line executor. A C string is the list of its
    characters before the terminator: [strcmp] is equality, [strncpy] into an array of
    [n + 1] takes the first [n], as proved for the memory-level functions of
    kernel/string.c. A NULL argument is [None]. *)
From Stdlib Require Import String.
From S2P Require Import Prelude Mem CString Devices Console Ipc.
Local Close Scope string_scope.

Definition MAX_VAR_NAME : Z := 32.
Definition MAX_VAR_VALUE : Z := 256.
Definition MAX_VARIABLES : Z := 64.

Record script_var_t := ScriptVar { name : list Z; value : list Z; is_set : Z }.
Record script_context_t := ScriptContext {
  variables : list script_var_t; in_if_block : Z; if_condition_result : Z; loop_depth : Z;
}.
Record script := Script { script_ctx : script_context_t; script_initialized : Z; screen : console; ipc_state : ipc }.

Definition zero_var : script_var_t := ScriptVar [] [] 0.
Definition var_at (c : script_context_t) (i : Z) : script_var_t := default zero_var (variables c !! Z.to_nat i).
Definition set_vars (l : list script_var_t) (c : script_context_t) : script_context_t :=
  ScriptContext l (in_if_block c) (if_condition_result c) (loop_depth c).
Definition with_ctx (c : script_context_t) (s : script) : script := Script c (script_initialized s) (screen s) (ipc_state s).
Definition say (t : list Z) (s : script) : script :=
  Script (script_ctx s) (script_initialized s) (console_write t (screen s)) (ipc_state s).

Definition strncpy_text (n : Z) (t : list Z) : list Z := take (Z.to_nat n) t.

(** The loop the three variable functions share: the first entry that is set and has
    this name. *)
Definition matches (n : list Z) (v : script_var_t) : bool := negb (is_set v =? 0) && bool_decide (name v = n).
Definition find_var (n : list Z) (c : script_context_t) : option Z := zfind (fun i => matches n (var_at c i)) 0 MAX_VARIABLES.

Definition script_set_var (n v : option (list Z)) (c : script_context_t) : Z * script_context_t :=
  match n, v with
  | Some n, Some v =>
      match find_var n c with
      | Some i => (0, set_vars (<[Z.to_nat i := ScriptVar (name (var_at c i)) (strncpy_text (MAX_VAR_VALUE - 1) v) (is_set (var_at c i))]> (variables c)) c)
      | None =>
          match zfind (fun i => is_set (var_at c i) =? 0) 0 MAX_VARIABLES with
          | Some i => (0, set_vars (<[Z.to_nat i := ScriptVar (strncpy_text (MAX_VAR_NAME - 1) n) (strncpy_text (MAX_VAR_VALUE - 1) v) 1]> (variables c)) c)
          | None => (-1, c)
          end
      end
  | _, _ => (-1, c)
  end.
Definition script_get_var (n : option (list Z)) (c : script_context_t) : option (list Z) :=
  n ← n; i ← find_var n c; Some (value (var_at c i)).
Definition script_unset_var (n : option (list Z)) (c : script_context_t) : script_context_t :=
  match n with
  | Some n =>
      match find_var n c with
      | Some i => set_vars (<[Z.to_nat i := ScriptVar (name (var_at c i)) (value (var_at c i)) 0]> (variables c)) c
      | None => c
      end
  | None => c
  end.

Definition script_init (s : script) : script :=
  if negb (script_initialized s =? 0) then s
  else
    let s := say (str "SCRIPT: Initializing shell scripting..." ++ [10]) s in
    let c := ScriptContext (replicate (Z.to_nat MAX_VARIABLES) zero_var) 0 0 0 in
    let c := snd (script_set_var (Some (str "PATH")) (Some (str "/bin:/usr/bin")) c) in
    let c := snd (script_set_var (Some (str "HOME")) (Some (str "/home")) c) in
    let c := snd (script_set_var (Some (str "PS1")) (Some (str "OpenOS> ")) c) in
    say (str "SCRIPT: Shell scripting enabled" ++ [10]) (Script c 1 (screen s) (ipc_state s)).

Definition evaluate_condition (cond : option (list Z)) (c : script_context_t) : Z :=
  match cond with
  | None => 0
  | Some t =>
      if bool_decide (t = str "true") || bool_decide (t = str "1") then 1
      else if bool_decide (t = str "false") || bool_decide (t = str "0") then 0
      else match t with
           | 36 :: rest => match script_get_var (Some rest) c with Some _ => 1 | None => 0 end
           | _ => 0
           end
  end.
Definition script_parse_if (cond : option (list Z)) (c : script_context_t) : Z * script_context_t :=
  match cond with
  | None => (-1, c)
  | Some _ =>
      let r := evaluate_condition cond c in
      (r, ScriptContext (variables c) 1 r (loop_depth c))
  end.
Definition script_parse_while (cond : option (list Z)) (c : script_context_t) : Z :=
  match cond with None => -1 | Some _ => evaluate_condition cond c end.
Definition script_parse_for (statement : option (list Z)) (c : script_context_t) : Z * script_context_t :=
  match statement with
  | None => (-1, c)
  | Some _ => (0, ScriptContext (variables c) (in_if_block c) (if_condition_result c) (s32 (loop_depth c + 1)))
  end.

(** [trim_whitespace]: [start] moves over leading blanks, [end] back over trailing ones
    as long as it is beyond [start]. *)
Definition blank (c : Z) : bool := (c =? 32) || (c =? 9).
Fixpoint trim_start (t : list Z) : list Z :=
  match t with c :: t' => if blank c then trim_start t' else t | [] => [] end.
Fixpoint trim_end (fuel : nat) (t : list Z) : list Z :=
  match fuel with
  | O => t
  | S fuel =>
      let e := (length t - 1)%nat in
      if (0 <? e)%nat && blank (default 0 (t !! e)) then trim_end fuel (take e t) else t
  end.
Definition trim_whitespace (t : list Z) : list Z := let t := trim_start t in trim_end (length t) t.

(** [strchr(line, '=')] and the strings on its two sides. *)
Fixpoint split_equals (line : list Z) : option (list Z * list Z) :=
  match line with
  | [] => None
  | c :: t => if c =? 61 then Some ([], t) else option_map (fun x => (c :: fst x, snd x)) (split_equals t)
  end.

(** One line of a script. *)
Definition run_line (line : list Z) (s : script) : script :=
  match line with
  | [] => s
  | _ =>
      match split_equals line with
      | Some (var, val) =>
          with_ctx (snd (script_set_var (Some (trim_whitespace var)) (Some (trim_whitespace val)) (script_ctx s))) s
      | None =>
          if bool_decide (take 3 line = str "if ") then with_ctx (snd (script_parse_if (Some (drop 3 line)) (script_ctx s))) s
          else say [10] (say line (say (str "  > ") s))
      end
  end.
Fixpoint script_loop (text line : list Z) (s : script) : script :=
  match text with
  | [] => s
  | c :: text =>
      if (c =? 10) || (255 <=? Z.of_nat (length line)) then script_loop text [] (run_line line s)
      else script_loop text (line ++ [c]) s
  end.
Definition script_execute (text : option (list Z)) (s : script) : Z * script :=
  match text with
  | None => (-1, s)
  | Some t =>
      let s := say (str "SCRIPT: Executing script..." ++ [10]) s in
      (0, say (str "SCRIPT: Execution complete" ++ [10]) (script_loop t [] s))
  end.

Definition script_redirect_output (filename : option (list Z)) (s : script) : Z * script :=
  match filename with
  | None => (-1, s)
  | Some f => (0, say [10] (say f (say (str "SCRIPT: Redirecting output to ") s)))
  end.
Definition script_redirect_input (filename : option (list Z)) (s : script) : Z * script :=
  match filename with
  | None => (-1, s)
  | Some f => (0, say [10] (say f (say (str "SCRIPT: Redirecting input from ") s)))
  end.

Definition script_create_pipe (cmd1 cmd2 : option (list Z)) (s : script) : Z * script :=
  match cmd1, cmd2 with
  | Some c1, Some c2 =>
      let s := say [10] (say c2 (say (str " | ") (say c1 (say (str "SCRIPT: Creating pipe: ") s)))) in
      match pipe_create 0 0 (ipc_state s) with
      | (None, i) => (-1, Script (script_ctx s) (script_initialized s) (screen s) i)
      | (Some p, i) => (0, Script (script_ctx s) (script_initialized s) (screen s) (pipe_close (Some p) i))
      end
  | _, _ => (-1, s)
  end.

(** ** Variables *)

(** Entry [i] holds variable [n] with value [v]. *)
Definition holds (c : script_context_t) (i : Z) (n v : list Z) : Prop :=
  0 <= i < MAX_VARIABLES /\ is_set (var_at c i) <> 0 /\ name (var_at c i) = n /\ value (var_at c i) = v.

(** The table is the finite map [vars]. *)
Record implements (vars : gmap (list Z) (list Z)) (c : script_context_t) : Prop := {
  im_length : length (variables c) = 64%nat;
  im_lookup : forall n v, vars !! n = Some v <-> exists i, holds c i n v;
  im_unique : forall i j n v w, holds c i n v -> holds c j n w -> i = j;
  im_size : Z.of_nat (size vars) = zcount (fun i => negb (is_set (var_at c i) =? 0)) MAX_VARIABLES;
}.

Lemma var_at_set c i j x : length (variables c) = 64%nat -> 0 <= i < MAX_VARIABLES -> 0 <= j ->
  var_at (set_vars (<[Z.to_nat i := x]> (variables c)) c) j = if i =? j then x else var_at c j.
Proof.
  intros Hl Hi Hj. unfold MAX_VARIABLES in Hi. unfold var_at. cbn [variables set_vars]. destruct (Z.eqb_spec i j) as [E|E].
  - subst j. by rewrite list_lookup_insert_eq by lia.
  - by rewrite list_lookup_insert_ne by lia.
Qed.

Lemma find_var_spec vars c n : implements vars c ->
  match find_var n c with
  | Some i => exists v, holds c i n v /\ vars !! n = Some v
  | None => vars !! n = None
  end.
Proof.
  intros [Hl Hlk Hu Hs]. unfold find_var. destruct (zfind _ 0 MAX_VARIABLES) as [i|] eqn:E.
  - apply zfind_Some in E as (Hr & Hm & _). unfold matches in Hm. apply andb_true_iff in Hm as [Hm1 Hm2].
    apply negb_true_iff, Z.eqb_neq in Hm1. apply bool_decide_eq_true in Hm2. exists (value (var_at c i)).
    assert (holds c i n (value (var_at c i))) as Hh by done. split; [done|]. apply Hlk. by exists i.
  - destruct (vars !! n) as [v|] eqn:Ev; [|done]. apply Hlk in Ev as (i & Hr & H1 & H2 & H3).
    pose proof (proj1 (zfind_None _ _ _) E i Hr) as Hm. unfold matches in Hm. cbn beta in Hm.
    rewrite bool_decide_true, andb_true_r in Hm by done. apply negb_false_iff, Z.eqb_eq in Hm. done.
Qed.

Lemma get_var_spec vars c n : implements vars c -> script_get_var (Some n) c = vars !! n.
Proof.
  intros Hi. pose proof (find_var_spec vars c n Hi) as Hf. unfold script_get_var. cbn [mbind option_bind].
  destruct (find_var n c) as [i|]; cbn [mbind option_bind]; [|done]. destruct Hf as (v & (_ & _ & _ & Hv) & ->). by rewrite Hv.
Qed.

(** Replacing entry [i] by a set variable [n] that no other entry holds. *)
Lemma implements_set vars c i n v : implements vars c -> 0 <= i < MAX_VARIABLES ->
  (is_set (var_at c i) <> 0 /\ name (var_at c i) = n \/ is_set (var_at c i) = 0 /\ vars !! n = None) ->
  forall b, b <> 0 -> implements (<[n := v]> vars) (set_vars (<[Z.to_nat i := ScriptVar n v b]> (variables c)) c).
Proof.
  intros [Hl Hlk Hu Hs] Hi Hold b Hb. set (c' := set_vars _ c).
  assert (forall j m w, holds c' j m w <-> if decide (j = i) then m = n /\ w = v else holds c j m w) as Hh.
  { intros j m w. unfold holds. destruct (decide (j = i)) as [->|Hne].
    - unfold c'. rewrite var_at_set, Z.eqb_refl by lia. cbn. split; [intros (_ & _ & -> & ->); done|intros [-> ->]; done].
    - split; intros (H0 & H); unfold c' in *; rewrite var_at_set in * by lia; destruct (Z.eqb_spec i j); try lia; done. }
  assert (forall j w, holds c j n w -> j = i) as Huniq.
  { intros j w Hj. destruct Hold as [[Ho <-]|[_ Hn]]; [by apply (Hu j i (name (var_at c i)) w (value (var_at c i)))|].
    assert (vars !! n = Some w) by (apply Hlk; by exists j). congruence. }
  constructor.
  - cbn. by rewrite length_insert.
  - intros m w. destruct (decide (m = n)) as [->|Hne].
    + rewrite lookup_insert_eq. split; [intros [= <-]; exists i; apply Hh; by rewrite decide_True|].
      intros (j & Hj). apply Hh in Hj. destruct (decide (j = i)) as [->|Hji]; [by destruct Hj as [_ ->]|]. by destruct Hji; apply (Huniq j w).
    + rewrite lookup_insert_ne, Hlk by done. split; intros (j & Hj).
      * exists j. apply Hh. destruct (decide (j = i)) as [->|]; [|done]. destruct Hj as (_ & Hj1 & Hj2 & _).
        destruct Hold as [[_ Ho]|[Ho _]]; congruence.
      * apply Hh in Hj. destruct (decide (j = i)) as [->|]; [by destruct Hj as [-> _]|]. by exists j.
  - intros j k m w u Hj Hk. apply Hh in Hj, Hk. destruct (decide (j = i)) as [->|], (decide (k = i)) as [->|]; [done|..].
    + destruct Hj as [-> _]. symmetry. by apply (Huniq k u).
    + destruct Hk as [-> _]. by apply (Huniq j w).
    + by apply (Hu j k m w u).
  - assert (forall j, 0 <= j < MAX_VARIABLES -> j <> i -> negb (is_set (var_at c j) =? 0) = negb (is_set (var_at c' j) =? 0)) as Hext.
    { intros j Hj Hne. unfold c'. rewrite var_at_set by lia. destruct (Z.eqb_spec i j); [lia|done]. }
    assert (negb (is_set (var_at c' i) =? 0) = true) as Hset.
    { unfold c'. rewrite var_at_set, Z.eqb_refl by lia. cbn. apply negb_true_iff. by apply Z.eqb_neq. }
    destruct Hold as [[Ho <-]|[Ho Hn]].
    + rewrite map_size_insert_Some by (exists (value (var_at c i)); apply Hlk; by exists i). rewrite Hs. apply zcount_ext. intros j Hj.
      destruct (Z.eq_dec j i) as [->|]; [|by apply Hext]. rewrite Hset. apply negb_true_iff. by apply Z.eqb_neq.
    + rewrite map_size_insert_None by done. rewrite Nat2Z.inj_succ, Hs. symmetry. apply (zcount_flip _ _ _ i Hi Hext); [by rewrite Ho|done].
Qed.

Lemma implements_unset vars c i n v : implements vars c -> holds c i n v ->
  implements (delete n vars) (set_vars (<[Z.to_nat i := ScriptVar n v 0]> (variables c)) c).
Proof.
  intros [Hl Hlk Hu Hs] Hold. pose proof Hold as (Hi & Hset & Hname & Hval). set (c' := set_vars _ c).
  assert (forall j m w, holds c' j m w <-> j <> i /\ holds c j m w) as Hh.
  { intros j m w. unfold holds. destruct (Z.eq_dec j i) as [->|Hne].
    - unfold c'. rewrite var_at_set, Z.eqb_refl by lia. cbn. tauto.
    - split; [intros (H0 & H); split; [done|]|intros (_ & H0 & H)]; unfold c' in *; rewrite var_at_set in * by lia; destruct (Z.eqb_spec i j); try lia; done. }
  constructor.
  - cbn. by rewrite length_insert.
  - intros m w. destruct (decide (m = n)) as [->|Hne].
    + rewrite lookup_delete_eq. split; [done|]. intros (j & Hj). apply Hh in Hj as [Hji Hj]. destruct Hji. by apply (Hu j i n w v).
    + rewrite lookup_delete_ne, Hlk by done. split; intros (j & Hj).
      * exists j. apply Hh. split; [|done]. intros ->. destruct Hj as (_ & _ & Hj & _). congruence.
      * apply Hh in Hj as [_ Hj]. by exists j.
  - intros j k m w u Hj Hk. apply Hh in Hj as [_ Hj], Hk as [_ Hk]. by apply (Hu j k m w u).
  - rewrite map_size_delete_Some by (exists v; apply Hlk; by exists i).
    assert (0 < size vars)%nat as Hpos.
    { destruct (size vars) eqn:E; [|lia]. apply map_size_empty_inv in E. assert (vars !! n = Some v) as H by (apply Hlk; by exists i). by rewrite E in H. }
    assert (zcount (fun i => negb (is_set (var_at c i) =? 0)) MAX_VARIABLES = zcount (fun i => negb (is_set (var_at c' i) =? 0)) MAX_VARIABLES + 1) as Hc; [|lia].
    apply (zcount_flip _ _ _ i Hi).
    + intros j Hj Hne. unfold c'. rewrite var_at_set by lia. destruct (Z.eqb_spec i j); [lia|done].
    + unfold c'. by rewrite var_at_set, Z.eqb_refl by lia.
    + apply negb_true_iff. by apply Z.eqb_neq.
Qed.

Lemma free_var vars c : implements vars c ->
  match zfind (fun i => is_set (var_at c i) =? 0) 0 MAX_VARIABLES with
  | Some i => 0 <= i < MAX_VARIABLES /\ is_set (var_at c i) = 0 /\ (size vars < 64)%nat
  | None => size vars = 64%nat
  end.
Proof.
  intros [Hl Hlk Hu Hs]. destruct (zfind _ 0 MAX_VARIABLES) as [i|] eqn:E.
  - apply zfind_Some in E as (Hr & Hi & _). apply Z.eqb_eq in Hi. split; [done|]. split; [done|].
    set (f := fun i => negb (is_set (var_at c i) =? 0)) in *. set (g := fun j => (j =? i) || f j).
    assert (zcount g MAX_VARIABLES = zcount f MAX_VARIABLES + 1) as Hc.
    { apply (zcount_flip f g MAX_VARIABLES i Hr).
      - intros j _ Hj. unfold g. destruct (Z.eqb_spec j i); done.
      - unfold f. by rewrite Hi.
      - unfold g. by rewrite Z.eqb_refl. }
    pose proof (zcount_bounds g MAX_VARIABLES ltac:(done)) as Hb. unfold MAX_VARIABLES in *. lia.
  - pose proof (proj1 (zfind_None _ _ _) E) as Hall.
    rewrite (zcount_ext _ (fun _ => true)) in Hs by (intros i Hi; by rewrite Hall). change (zcount (fun _ => true) MAX_VARIABLES) with 64 in Hs. lia.
Qed.

(** The specification: a map of at most 64 names of up to 31 characters to values cut
    to 255. *)
Definition set_spec (n v : list Z) (vars : gmap (list Z) (list Z)) : Z * gmap (list Z) (list Z) :=
  if decide (is_Some (vars !! n) \/ (size vars < 64)%nat) then (0, <[n := take 255 v]> vars) else (-1, vars).

Lemma set_var_spec vars c n v : implements vars c -> (length n <= 31)%nat ->
  fst (script_set_var (Some n) (Some v) c) = fst (set_spec n v vars) /\
  implements (snd (set_spec n v vars)) (snd (script_set_var (Some n) (Some v) c)).
Proof.
  intros Hi Hn. pose proof (find_var_spec vars c n Hi) as Hf. pose proof (free_var vars c Hi) as Hfree.
  unfold script_set_var, set_spec, strncpy_text. change (Z.to_nat (MAX_VAR_VALUE - 1)) with 255%nat. change (Z.to_nat (MAX_VAR_NAME - 1)) with 31%nat.
  destruct (find_var n c) as [i|].
  - destruct Hf as (w & (Hr & Hset & Hname & Hval) & Hw). rewrite decide_True by (left; by exists w). cbn [fst snd]. split; [done|].
    rewrite Hname. apply implements_set; [done|done|by left|done].
  - destruct (zfind _ 0 MAX_VARIABLES) as [i|].
    + destruct Hfree as (Hr & Hset & Hsz). rewrite decide_True by (by right). cbn [fst snd]. split; [done|].
      rewrite (take_ge n 31) by lia. apply implements_set; [done|done|by right|done].
    + rewrite decide_False; [done|]. intros [[w Hw]|H]; [congruence|lia].
Qed.
Lemma unset_var_spec vars c n : implements vars c -> implements (delete n vars) (script_unset_var (Some n) c).
Proof.
  intros Hi. pose proof (find_var_spec vars c n Hi) as Hf. cbn [script_unset_var]. destruct (find_var n c) as [i|].
  - destruct Hf as (v & Hh & _). pose proof Hh as (_ & _ & Hn & Hv). rewrite Hn, Hv. by apply implements_unset.
  - by rewrite delete_id.
Qed.

(** ** Lines *)

(** [t] without the blanks at its ends. *)
Definition strip (t : list Z) : list Z := rev (trim_start (rev (trim_start t))).

Lemma trim_start_head t : match trim_start t with c :: _ => blank c = false | [] => True end.
Proof. induction t as [|c t IH]; [done|]. cbn [trim_start]. destruct (blank c) eqn:E; [exact IH|done]. Qed.
Lemma trim_end_strip t : match t with c :: _ => blank c = false | [] => True end -> trim_end (length t) t = rev (trim_start (rev t)).
Proof.
  induction t as [|c t IH] using rev_ind; intros Hh; [done|]. rewrite length_app, Nat.add_1_r. cbn [trim_end].
  rewrite length_app, Nat.add_sub, rev_app_distr. cbn [rev app trim_start]. rewrite lookup_app_r, Nat.sub_diag by lia. change (default 0 ([c] !! 0%nat)) with c.
  rewrite take_app_length. destruct t as [|a t].
  - cbn in *. by rewrite Hh.
  - destruct (blank c) eqn:Hb; cbn [length Nat.ltb Nat.leb andb].
    + apply IH. exact Hh.
    + cbn [rev]. by rewrite rev_app_distr, rev_involutive.
Qed.
Lemma trim_strip t : trim_whitespace t = strip t.
Proof. unfold trim_whitespace, strip. apply trim_end_strip, trim_start_head. Qed.

(** What a line does to the variables, and what it prints. *)
Definition assign (vars : gmap (list Z) (list Z)) (line : list Z) : gmap (list Z) (list Z) :=
  match split_equals line with Some (n, v) => snd (set_spec (strip n) (strip v) vars) | None => vars end.
Definition printed (line : list Z) : list Z :=
  match split_equals line with
  | Some _ => []
  | None => if bool_decide (line = []) || bool_decide (take 3 line = str "if ") then [] else str "  > " ++ line ++ [10]
  end.
Definition line_ok (line : list Z) : Prop :=
  (length line <= 255)%nat /\ Forall (fun c => c <> 10 /\ c <> 0) line /\
  match split_equals line with Some (n, _) => (length (strip n) <= 31)%nat | None => True end.

Lemma run_line_spec vars line s : implements vars (script_ctx s) -> line_ok line ->
  implements (assign vars line) (script_ctx (run_line line s)) /\ screen (run_line line s) = console_write (printed line) (screen s).
Proof.
  intros Hi (_ & _ & Hn). destruct line as [|c l]; [done|]. set (line := c :: l) in *. unfold run_line, assign, printed. fold line. cbv match.
  change (match line with [] => s | _ :: _ => ?x end) with x. change (bool_decide (line = [])) with false. cbn [orb].
  destruct (split_equals line) as [[n v]|].
  - rewrite !trim_strip. cbn [script_ctx screen with_ctx]. split; [by apply set_var_spec|done].
  - destruct (bool_decide (take 3 line = str "if ")); cbn [script_ctx screen with_ctx].
    + split; [|done]. unfold script_parse_if. cbn [snd]. destruct Hi as [H1 H2 H3 H4]. by constructor.
    + split; [exact Hi|]. unfold say. cbn [screen]. by rewrite !write_app.
Qed.
Lemma script_loop_line rest s l : forall acc, Forall (fun c => c <> 10 /\ c <> 0) l -> (length acc + length l <= 255)%nat ->
  script_loop (l ++ 10 :: rest) acc s = script_loop rest [] (run_line (acc ++ l) s).
Proof.
  induction l as [|c l IH]; intros acc Hc Hl; cbn [app script_loop].
  - by rewrite Z.eqb_refl, app_nil_r.
  - apply Forall_cons_iff in Hc as [[Hc _] Hcs]. rewrite (proj2 (Z.eqb_neq c 10) Hc). cbn [orb length] in *.
    destruct (Z.leb_spec 255 (Z.of_nat (length acc))); [lia|]. rewrite IH; [by rewrite <- app_assoc|done|]. rewrite length_app. cbn. lia.
Qed.

Lemma script_loop_spec lines : Forall line_ok lines -> forall vars s, implements vars (script_ctx s) ->
  implements (foldl assign vars lines) (script_ctx (script_loop (concat ((fun l => l ++ [10]) <$> lines)) [] s)) /\
  screen (script_loop (concat ((fun l => l ++ [10]) <$> lines)) [] s) = console_write (concat (printed <$> lines)) (screen s).
Proof.
  induction lines as [|l lines IH]; intros Hok vars s Hi; [done|]. apply Forall_cons_iff in Hok as [Hl Hok].
  rewrite !fmap_cons. cbn [concat foldl]. rewrite <- app_assoc. cbn [app]. pose proof Hl as (H1 & H2 & _).
  rewrite script_loop_line by (done || (cbn; lia)). cbn [app]. destruct (run_line_spec vars l s Hi Hl) as [Hi' Hs'].
  rewrite write_app, <- Hs'. by apply IH.
Qed.
Lemma script_run_spec lines vars s before after : Forall line_ok lines -> implements vars (script_ctx s) ->
  let s' := say after (script_loop (concat ((fun l => l ++ [10]) <$> lines)) [] (say before s)) in
  implements (foldl assign vars lines) (script_ctx s') /\
  (forall n, script_get_var (Some n) (script_ctx s') = foldl assign vars lines !! n) /\
  screen s' = console_write (before ++ concat (printed <$> lines) ++ after) (screen s).
Proof.
  intros Hok Hi. destruct (script_loop_spec lines Hok vars (say before s) Hi) as [H1 H2]. cbv zeta. split; [exact H1|].
  split; [intros n; apply get_var_spec; exact H1|]. rewrite !write_app. cbn [screen say] in *. by rewrite <- H2.
Qed.

(** C30. Running a script whose lines end in newlines, have at most 255 characters and
    assign to names of at most 31 performs its lines in order: an assignment sets the
    trimmed name to the trimmed value in the map of variables, a line that is neither an
    assignment nor an if is echoed, and every variable then reads as the map says. *)
Theorem script_execute_correct (lines : list (list Z)) (vars : gmap (list Z) (list Z)) (s : script) :
  implements vars (script_ctx s) -> Forall line_ok lines ->
  exists s', script_execute (Some (concat ((fun l => l ++ [10]) <$> lines))) s = (0, s') /\
    implements (foldl assign vars lines) (script_ctx s') /\
    (forall n, script_get_var (Some n) (script_ctx s') = foldl assign vars lines !! n) /\
    screen s' = console_write ((str "SCRIPT: Executing script..." ++ [10]) ++ concat (printed <$> lines) ++
      (str "SCRIPT: Execution complete" ++ [10])) (screen s).
Proof.
  intros Hi Hok. unfold script_execute. eexists. split; [reflexivity|].
  exact (script_run_spec lines vars s _ _ Hok Hi).
Qed.

(** The variables [script_init] sets. *)
Definition empty_ctx : script_context_t := ScriptContext (replicate (Z.to_nat MAX_VARIABLES) zero_var) 0 0 0.
Definition initial_vars : gmap (list Z) (list Z) :=
  <[str "PS1" := str "OpenOS> "]> (<[str "HOME" := str "/home"]> (<[str "PATH" := str "/bin:/usr/bin"]> ∅)).
Lemma empty_implements : implements ∅ empty_ctx.
Proof.
  assert (forall i, var_at empty_ctx i = zero_var) as Hz.
  { intros i. unfold var_at, empty_ctx. cbn [variables]. destruct (replicate (Z.to_nat MAX_VARIABLES) zero_var !! Z.to_nat i) eqn:E; [|done].
    by apply lookup_replicate in E as [-> _]. }
  assert (forall i n v, ~ holds empty_ctx i n v) as Hno by (intros i n v (_ & H & _); by rewrite Hz in H).
  constructor; [done| |intros i j n v w H; by destruct (Hno i n v)|].
  - intros n v. rewrite lookup_empty. split; [done|]. intros (i & H). by destruct (Hno i n v).
  - rewrite map_size_empty, (zcount_ext _ (fun _ => false)) by (intros i _; by rewrite Hz). reflexivity.
Qed.
Lemma set_new vars c n v : implements vars c -> (length n <= 31)%nat -> (length v <= 255)%nat -> (size vars < 64)%nat ->
  implements (<[n := v]> vars) (snd (script_set_var (Some n) (Some v) c)).
Proof.
  intros Hi Hn Hv Hs. destruct (set_var_spec vars c n v Hi Hn) as [_ H]. unfold set_spec in H. rewrite decide_True in H by (by right).
  cbn [snd] in H. by rewrite take_ge in H by lia.
Qed.
Lemma init_implements s : script_initialized s = 0 -> implements initial_vars (script_ctx (script_init s)).
Proof.
  intros E. unfold script_init. rewrite E. cbn [Z.eqb negb script_ctx say]. unfold initial_vars. fold empty_ctx.
  assert (forall vars n v, (size vars <= 62)%nat -> (size (<[n := v]> vars : gmap (list Z) (list Z)) < 64)%nat) as Hsz.
  { intros vars n v H. rewrite map_size_insert. destruct (vars !! n); cbn; lia. }
  apply set_new; [|cbn; lia..|].
  - apply set_new; [|cbn; lia..|vm_compute; lia]. apply set_new; [apply empty_implements|cbn; lia..|vm_compute; lia].
  - vm_compute. lia.
Qed.

Inductive var_op := SetVar (n v : list Z) | UnsetVar (n : list Z).
Definition op_name (o : var_op) : list Z := match o with SetVar n _ | UnsetVar n => n end.
Definition do_op (x : list Z * script_context_t) (o : var_op) : list Z * script_context_t :=
  match o with
  | SetVar n v => let '(r, c) := script_set_var (Some n) (Some v) (snd x) in (fst x ++ [r], c)
  | UnsetVar n => (fst x, script_unset_var (Some n) (snd x))
  end.
Definition spec_op (x : list Z * gmap (list Z) (list Z)) (o : var_op) : list Z * gmap (list Z) (list Z) :=
  match o with
  | SetVar n v => let '(r, m) := set_spec n v (snd x) in (fst x ++ [r], m)
  | UnsetVar n => (fst x, delete n (snd x))
  end.

(** C31. The variable table is a finite map of capacity 64: after [script_init] and any
    sequence of [script_set_var] and [script_unset_var] with names of at most 31
    characters, every call has returned what the map returns, -1 only when it is full
    and the name is new, and [script_get_var] is the map's lookup. *)
Theorem script_vars_refine (ops : list var_op) (s : script) :
  script_initialized s = 0 -> Forall (fun o => (length (op_name o) <= 31)%nat) ops ->
  let x := foldl do_op ([], script_ctx (script_init s)) ops in
  let y := foldl spec_op ([], initial_vars) ops in
  fst x = fst y /\ forall n, script_get_var (Some n) (snd x) = snd y !! n.
Proof.
  intros Hs Hops. cbv zeta. pose proof (init_implements s Hs) as H0. revert H0. generalize (script_ctx (script_init s)) initial_vars. clear s Hs. intros c vars H0.
  assert (forall rs c vars, implements vars c -> fst (foldl do_op (rs, c) ops) = fst (foldl spec_op (rs, vars) ops) /\
    implements (snd (foldl spec_op (rs, vars) ops)) (snd (foldl do_op (rs, c) ops))) as H.
  { clear c vars H0. induction ops as [|o ops IH]; intros rs c vars Hi; [done|]. apply Forall_cons_iff in Hops as [Ho Hops]. cbn [foldl].
    destruct o as [n v|n]; cbn [do_op spec_op op_name fst snd] in *.
    - destruct (set_var_spec vars c n v Hi Ho) as [Hr Hi']. destruct (script_set_var _ _ c) as [r c'], (set_spec n v vars) as [r' vars'].
      cbn [fst snd] in *. subst r'. by apply IH.
    - apply IH; [done|]. by apply unset_var_spec. }
  destruct (H [] c vars H0) as [H1 H2]. split; [done|]. intros n. by apply get_var_spec.
Qed.

Definition script0 : script := Script empty_ctx 0 console0 ipc_bss.
Lemma script_vars_refine_witness :
  script_get_var (Some (str "HOME")) (snd (foldl do_op ([], script_ctx (script_init script0)) [SetVar (str "A") (str "1"); UnsetVar (str "PATH")])) = Some (str "/home").
Proof.
  rewrite (proj2 (script_vars_refine [SetVar (str "A") (str "1"); UnsetVar (str "PATH")] script0 eq_refl ltac:(repeat constructor; cbn; lia)) (str "HOME")).
  reflexivity.
Defined.
Lemma script_execute_correct_witness : exists s', script_execute (Some (str " A = b c " ++ [10])) script0 = (0, s') /\
  script_get_var (Some (str "A")) (script_ctx s') = Some (str "b c").
Proof.
  destruct (script_execute_correct [str " A = b c "] ∅ script0) as (s' & H1 & _ & H2 & _).
  - apply empty_implements.
  - repeat constructor; cbn; lia.
  - exists s'. split; [exact H1|]. rewrite H2. reflexivity.
Defined.

(** A longer name is stored cut and then never found. *)
Lemma long_name_lost : let n := replicate 32 65 in
  script_get_var (Some n) (snd (script_set_var (Some n) (Some [49]) empty_ctx)) = None.
Proof. vm_compute. reflexivity. Qed.
(** A last line without a newline is not executed. *)
Lemma last_line_dropped s line : Forall (fun c => c <> 10) line -> (length line <= 255)%nat ->
  script_ctx (snd (script_execute (Some line) s)) = script_ctx s.
Proof.
  intros Hc Hl. cbn [script_execute snd script_ctx say]. assert (forall l acc s, Forall (fun c => c <> 10) l -> (length acc + length l <= 255)%nat -> script_loop l acc s = s) as H.
  { induction l as [|c l IH]; intros acc s' Hl' Hlen; [done|]. apply Forall_cons_iff in Hl' as [Hc' Hl']. cbn [script_loop length] in *.
    rewrite (proj2 (Z.eqb_neq c 10) Hc'). destruct (Z.leb_spec 255 (Z.of_nat (length acc))); [lia|]. cbn [orb]. apply IH; [done|]. rewrite length_app. cbn. lia. }
  by rewrite H.
Qed.
(** The character at position 256 of a line is neither in the line nor in the next. *)
Lemma long_line_splits rest s l c : Forall (fun c => c <> 10 /\ c <> 0) l -> length l = 255%nat ->
  script_loop (l ++ c :: rest) [] s = script_loop rest [] (run_line l s).
Proof.
  intros Hl Hlen. assert (forall l acc, Forall (fun c => c <> 10 /\ c <> 0) l -> (length acc + length l = 255)%nat ->
    script_loop (l ++ c :: rest) acc s = script_loop rest [] (run_line (acc ++ l) s)) as H; [|by apply (H l [])].
  clear l Hl Hlen. induction l as [|v l IH]; intros acc Hl Hlen; cbn [app script_loop length] in *.
  - rewrite app_nil_r, Nat.add_0_r in *. rewrite Hlen. by rewrite orb_true_r.
  - apply Forall_cons_iff in Hl as [[Hv _] Hl]. rewrite (proj2 (Z.eqb_neq v 10) Hv). destruct (Z.leb_spec 255 (Z.of_nat (length acc))); [lia|].
    cbn [orb]. rewrite IH; [by rewrite <- app_assoc|done|]. rewrite length_app. cbn. lia.
Qed.
