(* ===== verification/Shell.v ===== *)
(** * The shell (kernel/shell.c, and the command table of kernel/commands.c)

    Registration of the commands, and the dispatcher: it skips blank input, splits the
    line in place with the tokenizer into at most 16 arguments, and looks the first one
    up. The commands themselves are modelled with the components they drive; here a
    handler is its name, and the result says which handler is called with which
    arguments. *)
From Stdlib Require Import String.
From S2P Require Import Prelude Mem CString Devices Console.
Local Close Scope string_scope.

Definition SHELL_MAX_ARGS : nat := 16.
Definition MAX_COMMANDS : nat := 48.

Inductive command_handler :=
  | h_help | h_clear | h_echo | h_uname | h_uptime | h_pwd | h_ls | h_cd | h_cat | h_stat
  | h_mkdir | h_touch | h_write | h_rm | h_meminfo | h_reboot
  | h_test_ipc | h_test_smp | h_test_gui | h_test_net | h_test_script
  | h_ps | h_kill | h_spawn | h_forktest | h_user | h_counters | h_psleep | h_sched.
#[export] Instance command_handler_eq_dec : EqDecision command_handler.
Proof. solve_decision. Defined.

Record shell_command_t := Command { c_name : list Z; c_description : list Z; c_handler : command_handler }.

(** The table up to [command_count], and the screen. *)
Definition registry : Type := list shell_command_t * console.

Definition shell_register_command (name description : list Z) (handler : command_handler) (x : registry) : registry :=
  let '(table, con) := x in
  if (MAX_COMMANDS <=? length table)%nat
  then (table, console_write (str "Error: Maximum number of commands reached" ++ [10]) con)
  else (table ++ [Command name description handler], con).

Definition commands : list (string * string * command_handler) := [
  ("help", "Display list of available commands", h_help);
  ("clear", "Clear the console screen", h_clear);
  ("echo", "Print text to console", h_echo);
  ("uname", "Display OS name and version", h_uname);
  ("uptime", "Show system uptime", h_uptime);
  ("pwd", "Print current working directory", h_pwd);
  ("ls", "List directory contents [-a] [-l] [-R]", h_ls);
  ("cd", "Change directory", h_cd);
  ("cat", "Display file contents [-n] [file...]", h_cat);
  ("stat", "Show file or directory metadata", h_stat);
  ("mkdir", "Create a directory", h_mkdir);
  ("touch", "Create an empty file", h_touch);
  ("write", "Write text to a file [write <file> <text...>]", h_write);
  ("rm", "Remove a file or directory", h_rm);
  ("meminfo", "Show physical and heap memory usage", h_meminfo);
  ("reboot", "Reboot the system", h_reboot);
  ("test_ipc", "Test IPC mechanisms (pipes, message queues)", h_test_ipc);
  ("test_smp", "Test multi-core SMP support", h_test_smp);
  ("test_gui", "Test GUI/windowing system", h_test_gui);
  ("test_net", "Test networking stack", h_test_net);
  ("test_script", "Test shell scripting", h_test_script);
  ("ps", "List processes", h_ps);
  ("kill", "Terminate a process [kill <pid>]", h_kill);
  ("spawn", "Spawn demo kernel threads [spawn <n>]", h_spawn);
  ("forktest", "Run ring 3 fork()/wait() demo", h_forktest);
  ("user", "Run ring 3 hello program (syscalls)", h_user);
  ("counters", "Run N ring 3 counters [counters <n>]", h_counters);
  ("psleep", "Sleep the shell [psleep <ms>]", h_psleep);
  ("sched", "Show scheduler statistics", h_sched)]%string.
Definition commands_register_all (x : registry) : registry :=
  foldl (fun x c => let '(n, d, h) := c in shell_register_command (str n) (str d) h x) x commands.
Definition shell_init (x : registry) : registry := commands_register_all ([], snd x).
Definition shell_get_commands (x : registry) : list shell_command_t := fst x.

(** [parse_command], with [max_args] places left; the state is memory and the
    tokenizer's position, the result the pointers stored in [argv]. *)
Fixpoint parse_loop (max_args fuel : nat) (delims token : Z) (x : mem * Z) : option (list Z * (mem * Z)) :=
  if token =? 0 then Some ([], x)
  else match max_args with
       | O => Some ([], x)
       | S max_args =>
           '(next, x) ← string_tokenize fuel x 0 delims;
           '(argv, x) ← parse_loop max_args fuel delims next x;
           Some (token :: argv, x)
       end.
Definition parse_command (max_args fuel : nat) (delims input : Z) (x : mem * Z) : option (list Z * (mem * Z)) :=
  '(token, x) ← string_tokenize fuel x input delims;
  parse_loop max_args fuel delims token x.

(** The loop that looks for a character that is not white space. *)
Fixpoint only_whitespace (fuel : nat) (m : mem) (p : Z) : option bool :=
  match fuel with
  | O => None
  | S fuel => if ld m p =? 0 then Some true else if negb (is_whitespace (ld m p)) then Some false else only_whitespace fuel m (p + 1)
  end.

Inductive shell_action := Idle | Run (h : command_handler) (argv : list (list Z)) | Unknown (name : list Z).

Definition lookup_command (table : list shell_command_t) (name : list Z) : option command_handler :=
  c_handler ∘ snd <$> list_find (fun c => lex name (c_name c) = 0) table.

(** [delims] is the address of the literal " \t\n\r". *)
Definition shell_execute (fuel : nat) (table : list shell_command_t) (delims input : Z) (x : mem * Z) : option (shell_action * (mem * Z)) :=
  if (input =? 0) || (ld (fst x) input =? 0) then Some (Idle, x)
  else
    only ← only_whitespace fuel (fst x) input;
    if only : bool then Some (Idle, x)
    else
      '(argv, x) ← parse_command SHELL_MAX_ARGS fuel delims input x;
      words ← mapM (text fuel (fst x)) argv;
      match words with
      | [] => Some (Idle, x)
      | cmd_name :: _ =>
          match lookup_command table cmd_name with
          | Some h => Some (Run h words, x)
          | None => Some (Unknown cmd_name, x)
          end
      end.
(** What the dispatcher prints for an unknown command. *)
Definition not_found (name : list Z) (con : console) : console :=
  console_write (str "Type 'help' for a list of available commands." ++ [10])
    (console_write [10] (console_write name (console_write (str "Command not found: ") con))).

(** ** Properties *)

Lemma parse_rest fuel delims ds : 0 < delims -> forall k m last r, rest_at m last r -> cstr m delims ds ->
  delims + len ds < last \/ last + len r < delims -> (length r + length ds < fuel)%nat ->
  exists p x, string_tokenize fuel (m, last) 0 delims = Some (p, x) /\
  exists ps m' last', parse_loop k fuel delims p x = Some (ps, (m', last')) /\
    Forall2 (cstr m') ps (take k (tokens (is_in ds) r)) /\ same_out m m' last (len r + 1) /\ (r = [] -> m' = m).
Proof.
  intros Hdel. induction k as [|k IH]; intros m last r Hr Hd Hdis Hf;
    destruct (tokenize_spec delims ds m last r fuel Hr Hd Hdis Hf) as (p & m1 & last1 & E & H); exists p, (m1, last1); (split; [exact E|]);
    destruct (tokens (is_in ds) r) as [|t ts] eqn:Et.
  - destruct H as [-> ->]. exists [], m, last1. split; [done|]. split; [constructor|done].
  - destruct H as [Hp Hs _ O]. exists [], m1, last1. split; [cbn; by destruct (p =? 0)|]. split; [constructor|]. split; [|by intros ->].
    apply (same_out_sub _ _ (p + len t) 1); [done|lia|lia].
  - destruct H as [-> ->]. exists [], m, last1. split; [done|]. split; [constructor|done].
  - destruct H as [Hp Hs (r' & Hr' & Et' & Hl & Hl1) O]. subst ts. cbn [parse_loop]. rewrite (proj2 (Z.eqb_neq p 0)) by lia.
    assert (cstr m1 delims ds) as Hd1 by (apply (cstr_same m); [|done]; intros b Hb; apply O; lia).
    assert (last1 = 0 -> r' = []) as Hz by (intros ->; by destruct Hr' as [[_ ->]|[? _]]; [|lia]).
    assert (delims + len ds < last1 \/ last1 + len r' < delims) as Hdis1.
    { destruct Hl1 as [E0|[-> El]]; [|lia]. rewrite (Hz E0), E0. cbn. lia. }
    destruct (IH m1 last1 r' Hr' Hd1 Hdis1 ltac:(lia)) as (p' & x' & -> & ps & m2 & last2 & E2 & F & O2 & Hsame). cbn [mbind option_bind]. rewrite E2. cbn [mbind option_bind].
    exists (p :: ps), m2, last2. split; [done|].
    assert (forall b, b <= p + len t \/ last + len r + 1 <= b -> ld m2 b = ld m1 b) as Hkeep.
    { intros b Hb. destruct Hl1 as [E0|[-> El]]; [by rewrite (Hsame (Hz E0))|]. apply O2. lia. }
    split; [constructor; [apply (cstr_same m1); [|done]; intros b Hb; apply Hkeep; lia|done]|]. split; [|by intros ->].
    intros b Hb. rewrite Hkeep by lia. apply O. lia.
Qed.

Definition blanks : list Z := [32; 9; 10; 13].
Definition words (line : list Z) : list (list Z) := tokens (is_in blanks) line.

Lemma blank_is_in c : is_whitespace c = is_in blanks c.
Proof. unfold is_whitespace, is_in, blanks. cbn [existsb]. rewrite !orb_assoc. by rewrite orb_false_r. Qed.
Lemma only_whitespace_spec m fuel : forall a l, cstr m a l -> (length l < fuel)%nat ->
  only_whitespace fuel m a = Some (forallb is_whitespace l).
Proof.
  induction fuel as [|fuel IH]; intros a l Hc Hf; [lia|]. cbn [only_whitespace]. rewrite (cstr_head _ _ _ Hc).
  destruct l as [|c l]; [done|]. cbn [cstr length forallb] in *. destruct Hc as (_ & -> & Hc).
  destruct (is_whitespace c); cbn [negb andb]; [|done]. apply IH; [done|lia].
Qed.
Lemma words_blank l : forallb is_whitespace l = true <-> words l = [].
Proof.
  unfold words. split.
  - intros H. rewrite <- (app_nil_r l), tokens_skip; [done|]. apply Forall_forall. intros c Hc. rewrite <- blank_is_in.
    by apply (proj1 (forallb_forall _ _) H).
  - intros H. destruct (split_while (is_in blanks) l) as (pre & l' & -> & Hp & [->|(c & r & -> & Hc)]).
    + rewrite app_nil_r. apply forallb_forall. intros c Hc. rewrite blank_is_in. by apply (proj1 (Forall_forall _ _) Hp).
    + rewrite tokens_skip in H by done. destruct (split_while (fun v => negb (is_in blanks v)) (c :: r)) as (t & l'' & Et & Ht & Hl).
      assert (t <> []) as Hn.
      { intros ->. destruct Hl as [->|(c' & r' & -> & Hc')]; [discriminate|]. injection Et as <- <-. by rewrite Hc in Hc'. }
      assert (Forall (fun v => is_in blanks v = false) t) as Ht' by (refine (Forall_impl _ _ Ht); intros v; by destruct (is_in blanks v)).
      rewrite Et in H. destruct Hl as [->|(c' & r' & -> & Hc')].
      * rewrite app_nil_r, tokens_last in H by done. discriminate.
      * rewrite tokens_token in H; [discriminate|done|done|]. by destruct (is_in blanks c').
Qed.
Lemma pieces_short d l : Forall (fun t => (length t <= length l)%nat) (pieces d l) /\ pieces d l <> [].
Proof.
  induction l as [|c l [IH Hn]]; cbn [pieces length]; [by repeat constructor|]. destruct (d c).
  - split; [|done]. constructor; [cbn; lia|]. refine (Forall_impl _ _ IH). intros t Ht. lia.
  - destruct (pieces d l) as [|p ps]; [done|]. split; [|done]. apply Forall_cons_iff in IH as [Hp Hps]. constructor; [cbn; lia|].
    refine (Forall_impl _ _ Hps). intros t Ht. lia.
Qed.
Lemma mapM_text m fuel ps ts : Forall2 (cstr m) ps ts -> Forall (fun t => (length t < fuel)%nat) ts -> mapM (text fuel m) ps = Some ts.
Proof.
  induction 1 as [|p t ps ts Hp Hps IH]; intros Hl; [done|]. apply Forall_cons_iff in Hl as [Hl Hls].
  cbn. rewrite (text_cstr m p t fuel Hp Hl). cbn. rewrite IH by done. done.
Qed.

(** What the shell does with a line. *)
Definition dispatch (table : list shell_command_t) (line : list Z) : shell_action :=
  match take SHELL_MAX_ARGS (words line) with
  | [] => Idle
  | name :: args => match lookup_command table name with Some h => Run h (name :: args) | None => Unknown name end
  end.

Lemma execute_spec table m old input delims l fuel :
  0 < input -> 0 < delims -> cstr m input l -> cstr m delims blanks -> delims + 4 < input \/ input + len l < delims ->
  (length l + 4 < fuel)%nat ->
  exists m' last, shell_execute fuel table delims input (m, old) = Some (dispatch table l, (m', last)) /\ same_out m m' input (len l + 1).
Proof.
  intros Hi Hd Hc Hds Hdis Hf. unfold shell_execute. cbn [fst]. rewrite (proj2 (Z.eqb_neq input 0)) by lia. cbn [orb].
  rewrite (cstr_head _ _ _ Hc). destruct (decide (l = [])) as [->|Hne]; [by exists m, old|].
  assert (match l with [] => true | _ => false end = false) as -> by (by destruct l).
  rewrite (only_whitespace_spec m fuel input l Hc) by lia. cbn [mbind option_bind].
  destruct (forallb is_whitespace l) eqn:Hw.
  { exists m, old. split; [|by intros b _]. unfold dispatch. by rewrite (proj1 (words_blank l) Hw). }
  unfold parse_command. assert (string_tokenize fuel (m, old) input delims = string_tokenize fuel (m, input) 0 delims) as ->.
  { unfold string_tokenize. rewrite (proj2 (Z.eqb_neq input 0)) by lia. cbn [Z.eqb]. rewrite (proj2 (Z.eqb_neq input 0)) by lia.
    rewrite (cstr_head _ _ _ Hc). by destruct l. }
  destruct (parse_rest fuel delims blanks Hd SHELL_MAX_ARGS m input l) as (p & x & -> & ps & m' & last & Hp & F & O & _);
    [by right|done|cbn; lia|cbn; lia|]. cbn [mbind option_bind]. rewrite Hp. cbn [mbind option_bind fst].
  rewrite (mapM_text m' fuel ps _ F).
  2:{ apply Forall_take. unfold tokens. apply list.Forall_forall. intros t Ht. apply list_elem_of_filter in Ht as [_ Ht].
    pose proof (proj1 (list.Forall_forall _ _) (proj1 (pieces_short (is_in blanks) l)) t Ht) as Hlt. cbn beta in Hlt. lia. }
  cbn [mbind option_bind]. exists m', last. split; [|exact O]. unfold dispatch. fold (words l).
  destruct (take SHELL_MAX_ARGS (words l)) as [|name args]; [done|]. by destruct (lookup_command table name).
Qed.

(** Whatever line is typed, the dispatcher returns: a line of blanks does nothing;
    otherwise the first of the words between blanks is looked up, and the handler found
    is called with at most the first 16 words as its arguments, in order and intact.
    Only the line's own bytes are written. *)
Theorem shell_execute_correct table m old input delims l fuel :
  0 < input -> 0 < delims -> cstr m input l -> cstr m delims blanks -> delims + 4 < input \/ input + len l < delims ->
  (length l + 4 < fuel)%nat ->
  exists m' last, shell_execute fuel table delims input (m, old) = Some (dispatch table l, (m', last)) /\ same_out m m' input (len l + 1).
Proof. apply execute_spec. Qed.

Definition boot_table : list shell_command_t := fst (shell_init ([], console0)).

(** Every registered command is there under its name: with the table of [shell_init],
    which registers them all without an error, typing the name of a command calls its
    handler. *)
Theorem shell_init_complete con name description h :
  (name, description, h) ∈ commands ->
  snd (shell_init ([], con)) = con /\ shell_get_commands (shell_init ([], con)) = boot_table /\
  dispatch boot_table (str name) = Run h [str name].
Proof.
  intros Hin. split; [reflexivity|]. split; [reflexivity|].
  repeat (apply elem_of_cons in Hin as [[= -> -> ->]|Hin]; [vm_compute; reflexivity|]). by apply elem_of_nil in Hin.
Qed.
Lemma shell_init_complete_witness : dispatch boot_table (str "ls") = Run h_ls [str "ls"].
Proof.
  apply (shell_init_complete console0 "ls" "List directory contents [-a] [-l] [-R]" h_ls). do 6 right. left.
Defined.

(** "ls  /etc" typed at 1000, the delimiters at 500. *)
Fixpoint put (m : mem) (a : Z) (l : list Z) : mem :=
  match l with [] => st m a 0 | v :: l => put (st m a v) (a + 1) l end.
Definition typed_mem : mem := put (put ∅ 1000 (str "ls  /etc")) 500 blanks.
Lemma shell_execute_correct_witness : exists m' last,
  shell_execute 40 boot_table 500 1000 (typed_mem, 0) = Some (Run h_ls [str "ls"; str "/etc"], (m', last)).
Proof.
  destruct (shell_execute_correct boot_table typed_mem 0 1000 500 (str "ls  /etc") 40) as (m' & last & E & _);
    [lia|lia|vm_compute; repeat split; discriminate|vm_compute; repeat split; discriminate|vm_compute; by left|cbn; lia|].
  exists m', last. rewrite E. vm_compute. reflexivity.
Defined.
