(* ===== verification/Commands.v ===== *)
(** * File commands of the shell (kernel/commands.c, the current directory of
    kernel/kernel.c)

    The commands on files and directories, on the file system, the current directory
    and the screen. Arguments and paths are the strings between terminators, as for the
    other components; the local path arrays hold 255 characters, and a command whose
    string does not fit one has no result ([None]). Paths are resolved as walking the
    tree, which [resolve_spec] proves of [vfs_resolve_path]. *)
From Stdlib Require Import String.
From S2P Require Import Prelude Mem CString Vfs Devices Console.
Local Close Scope string_scope.

Record shell := Shell { fs : vfs; current_directory : option nat; screen : console }.
Definition with_fs (v : vfs) (s : shell) : shell := Shell v (current_directory s) (screen s).
Definition out (t : list Z) (s : shell) : shell := Shell (fs s) (current_directory s) (console_write t (screen s)).
Definition line (t : list Z) : list Z := t ++ [10].

Definition kernel_get_current_directory (s : shell) : option nat := current_directory s.
Definition kernel_set_current_directory (dir : option nat) (s : shell) : shell :=
  match dir with
  | Some d => if decide (n_type (node_at d (fs s)) = NODE_DIRECTORY) then Shell (fs s) (Some d) (screen s) else s
  | None => s
  end.

(** ** Numbers *)

(** The digits put in front of [buffer + i], with [i] places left. *)
Fixpoint number_loop (i : nat) (value : Z) (buffer : list Z) : list Z :=
  match i with
  | O => buffer
  | S i => if 0 <? value then number_loop i (value / 10) (48 + value mod 10 :: buffer) else buffer
  end.
Definition print_number (value : Z) (s : shell) : shell :=
  if value =? 0 then out [48] s else out (number_loop 10 value []) s.
Definition print_number_padded (value width : Z) (s : shell) : shell :=
  let buf := if value =? 0 then [48] else number_loop 10 value [] in
  out buf (for_range (len buf) width (fun _ s => out [32] s) s).

(** ** Paths *)

(** A string stored in a [VFS_MAX_PATH_LENGTH] array. *)
Definition fits (t : list Z) : option (list Z) := if len t <? VFS_MAX_PATH_LENGTH then Some t else None.

(** The loop that prepends names up to the root, which is its own parent; inode
    numbers decrease on the way up. *)
Fixpoint up_path (fuel : nat) (v : vfs) (node : option nat) (path : list Z) : option (list Z) :=
  match node with
  | None => Some path
  | Some i =>
      if decide (n_parent (node_at i v) = Some i) then Some path
      else match fuel with
           | O => None
           | S fuel =>
               temp ← fits (47 :: n_name (node_at i v) ++ path);
               up_path fuel v (n_parent (node_at i v)) temp
           end
  end.
Definition up_fuel (v : vfs) (node : option nat) : nat :=
  match node with Some i => Z.to_nat (n_inode (node_at i v)) | None => 0 end.

Definition build_absolute_path (relative_path : list Z) (s : shell) : option (list Z) :=
  let current := kernel_get_current_directory s in
  current_path ← up_path (up_fuel (fs s) current) (fs s) current [];
  let abs_path := match current_path with [] => [47] | _ => current_path end in
  fits (abs_path ++ [47] ++ relative_path).

(** [vfs_resolve_path], on an initialized file system: NULL for a path that is not
    absolute. *)
Definition resolve_path (path : list Z) (v : vfs) : option (option nat) :=
  match path with
  | [] => Some None
  | c :: l =>
      if negb (c =? 47) then Some None
      else r ← vfs_root v; if len l <? VFS_MAX_PATH_LENGTH then Some (walk v r (tokens (is_in [47]) l)) else None
  end.

(** The three lines every command starts with: absolute paths are resolved as they
    are, others below the current directory. *)
Definition resolve_arg (path : list Z) (s : shell) : option (option nat) :=
  if hd 0 path =? 47 then resolve_path path (fs s)
  else abs_path ← build_absolute_path path s; resolve_path abs_path (fs s).

(** The index of the last slash, -1 without one. *)
Definition last_slash (path : list Z) : Z :=
  for_range 0 (len path) (fun i last => if aget path i =? 47 then i else last) (-1).
Definition copy_leaf (src : list Z) : list Z := take (Z.to_nat (VFS_NAME_LENGTH - 1)) src.

Definition resolve_parent_and_leaf (path : list Z) (s : shell) : option (option nat * list Z) :=
  let ls := last_slash path in
  if ls <? 0 then Some (kernel_get_current_directory s, copy_leaf path)
  else
    let leaf := copy_leaf (drop (Z.to_nat (ls + 1)) path) in
    parent ← (if ls =? 0 then Some (vfs_root (fs s))
              else resolve_arg (take (Z.to_nat (Z.min ls (VFS_MAX_PATH_LENGTH - 1))) path) s);
    match parent with
    | Some p => if decide (n_type (node_at p (fs s)) = NODE_DIRECTORY) then Some (Some p, leaf) else Some (None, leaf)
    | None => Some (None, leaf)
    end.

(** ** Simple commands *)

Definition cmd_clear (s : shell) : shell := Shell (fs s) (current_directory s) (console_clear (screen s)).
Fixpoint echo_args (i : nat) (args : list (list Z)) (s : shell) : shell :=
  match args with
  | [] => s
  | a :: args => echo_args (S i) args (out a (if (1 <? i)%nat then out [32] s else s))
  end.
Definition cmd_echo (argv : list (list Z)) (s : shell) : shell := out [10] (echo_args 1 (tail argv) s).
Definition cmd_uname (s : shell) : shell :=
  out (line (str "Kernel: Educational Operating System"))
    (out (line (str "Architecture: i386 (32-bit x86)")) (out (line (str "OpenOS version 0.1.0")) s)).

Definition cmd_pwd (s : shell) : option shell :=
  match kernel_get_current_directory s with
  | None => Some (out (line [47]) s)
  | Some d =>
      path ← up_path (up_fuel (fs s) (Some d)) (fs s) (Some d) [];
      match path with [] => Some (out (line [47]) s) | _ => Some (out [10] (out path s)) end
  end.

Definition no_such_file : list Z := line (str ": No such file or directory").

Definition cmd_cd (argv : list (list Z)) (s : shell) : option shell :=
  match argv with
  | _ :: dir :: _ =>
      if decide (dir = [46]) then Some s
      else
        target ← (if decide (dir = [47]) then Some (vfs_root (fs s))
                  else if decide (dir = [46; 46]) then
                    match kernel_get_current_directory s with
                    | Some c => match n_parent (node_at c (fs s)) with Some p => Some (Some p) | None => Some (vfs_root (fs s)) end
                    | None => Some (vfs_root (fs s))
                    end
                  else resolve_arg dir s);
        match target with
        | None => Some (out no_such_file (out dir (out (str "cd: ") s)))
        | Some t =>
            if decide (n_type (node_at t (fs s)) <> NODE_DIRECTORY) then Some (out (line (str ": Not a directory")) (out dir (out (str "cd: ") s)))
            else Some (kernel_set_current_directory target s)
        end
  | _ => Some (out (line (str "Usage: cd <directory>")) s)
  end.

(** ** ls *)

Definition is_directory (v : vfs) (c : nat) : bool := bool_decide (n_type (node_at c v) = NODE_DIRECTORY).
Definition hidden (flag_all : bool) (v : vfs) (c : nat) : bool := negb flag_all && (hd 0 (n_name (node_at c v)) =? 46).

(** One entry. *)
Definition ls_entry (flag_long flag_all : bool) (child : option nat) (s : shell) : shell :=
  match child with
  | None => s
  | Some c =>
      if hidden flag_all (fs s) c then s
      else if flag_long then
        let s := out (str "  ") (out [if is_directory (fs s) c then 100 else 45] s) in
        let s := out (n_name (node_at c (fs s))) (out (str "  ") (print_number_padded (n_length (node_at c (fs s))) 8 s)) in
        out [10] (if is_directory (fs s) c then out [47] s else s)
      else
        let s := out (n_name (node_at c (fs s))) s in
        out [32] (if is_directory (fs s) c then out [47] s else s)
  end.
Definition ls_list_dir (dir : nat) (flag_long flag_all : bool) (header : option (list Z)) (s : shell) : shell :=
  let s := match header with Some h => out (line [58]) (out h s) | None => s end in
  let s := foldl (fun s c => ls_entry flag_long flag_all c s) s (take (Z.to_nat (n_count (node_at dir (fs s)))) (n_children (node_at dir (fs s)))) in
  if flag_long then s else out [10] s.

(** The path of an entry below [path]. *)
Definition child_path (path name : list Z) : option (list Z) :=
  match path with [47] => fits (path ++ name) | _ => fits (path ++ [47] ++ name) end.
Fixpoint ls_recursive (fuel : nat) (dir : nat) (flag_long flag_all : bool) (path : list Z) (s : shell) : option shell :=
  match fuel with
  | O => None
  | S fuel =>
      let s := ls_list_dir dir flag_long flag_all (Some path) s in
      foldl (fun s c =>
        s ← s;
        match c with
        | None => Some s
        | Some c =>
            if negb (is_directory (fs s) c) || hidden flag_all (fs s) c then Some s
            else p ← child_path path (n_name (node_at c (fs s))); ls_recursive fuel c flag_long flag_all p s
        end) (Some s) (take (Z.to_nat (n_count (node_at dir (fs s)))) (n_children (node_at dir (fs s))))
  end.

Record ls_flags := LsFlags { flag_all : bool; flag_long : bool; flag_recursive : bool }.
Inductive ls_parse := LsHelp | LsInvalid (c : Z) | LsRun (f : ls_flags) (path : option (list Z)).

(** One flag argument, each character after the dash. *)
Fixpoint parse_flags (chars : list Z) (f : ls_flags) : Z + ls_flags :=
  match chars with
  | [] => inr f
  | c :: chars =>
      if c =? 97 then parse_flags chars (LsFlags true (flag_long f) (flag_recursive f))
      else if c =? 108 then parse_flags chars (LsFlags (flag_all f) true (flag_recursive f))
      else if c =? 82 then parse_flags chars (LsFlags (flag_all f) (flag_long f) true)
      else inl c
  end.
Fixpoint ls_args (args : list (list Z)) (f : ls_flags) (path : option (list Z)) : ls_parse :=
  match args with
  | [] => LsRun f path
  | a :: args =>
      if decide (a = str "--help" \/ a = str "-h") then LsHelp
      else match a with
           | 45 :: c :: chars =>
               match parse_flags (c :: chars) f with inl bad => LsInvalid bad | inr f => ls_args args f path end
           | _ => ls_args args f (Some a)
           end
  end.
Definition ls_usage (s : shell) : shell :=
  out (line (str "  -h    show this help message")) (out (line (str "  -R    list subdirectories recursively"))
    (out (line (str "  -l    long listing format (type, size, name)")) (out (line (str "  -a    include entries starting with '.'"))
      (out (line (str "Usage: ls [-a] [-l] [-R] [-h] [path]")) s)))).

(** The path -R starts with. *)
Definition start_path (dir : nat) (path : option (list Z)) (s : shell) : option (list Z) :=
  match path with
  | Some p => fits p
  | None =>
      if decide (n_parent (node_at dir (fs s)) = Some dir) then Some [47]
      else p ← up_path (up_fuel (fs s) (Some dir)) (fs s) (Some dir) []; Some (match p with [] => [47] | _ => p end)
  end.
Definition ls_run (f : ls_flags) (path : option (list Z)) (s : shell) : option shell :=
  dir ← match path with None => Some (kernel_get_current_directory s) | Some p => resolve_arg p s end;
  match dir with
  | None => Some (out (line (str "': No such file or directory")) (out (default [46] path) (out (str "ls: cannot access '") s)))
  | Some d =>
      if negb (is_directory (fs s) d) then
        let name := n_name (node_at d (fs s)) in
        if flag_long f then Some (out [10] (out name (out (str "  ") (print_number_padded (n_length (node_at d (fs s))) 8 (out (str "  ") (out [45] s))))))
        else Some (out [10] (out name s))
      else if flag_recursive f then
        p ← start_path d path s;
        ls_recursive (Z.to_nat (next_inode (fs s))) d (flag_long f) (flag_all f) p s
      else Some (ls_list_dir d (flag_long f) (flag_all f) None s)
  end.
Definition cmd_ls (argv : list (list Z)) (s : shell) : option shell :=
  match ls_args (tail argv) (LsFlags false false false) None with
  | LsHelp => Some (ls_usage s)
  | LsInvalid c => Some (out (str "'" ++ [10] ++ line (str "Try 'ls -h' for more information.")) (out [c] (out (str "ls: invalid option -- '") s)))
  | LsRun f path => ls_run f path s
  end.

(** ** cat and stat *)

Inductive cat_parse := CatHelp | CatInvalid (a : list Z) | CatRun (number : bool) (files : nat).
Fixpoint cat_args (args : list (list Z)) (number : bool) (files : nat) : cat_parse :=
  match args with
  | [] => CatRun number files
  | a :: args =>
      if decide (a = str "--help" \/ a = str "-h") then CatHelp
      else if decide (a = str "-n") then cat_args args true files
      else if (hd 0 a =? 45) && negb (hd 0 (tail a) =? 0) then CatInvalid a
      else cat_args args number (S files)
  end.
(** The output with line numbers: [start] at the start of a line. *)
Fixpoint cat_numbered (data : list Z) (line_num : Z) (start : bool) (s : shell) : shell :=
  match data with
  | [] => s
  | c :: data =>
      let s := if start then out (str "  ") (print_number_padded line_num 6 s) else s in
      let s := out [c] s in
      if c =? 10 then cat_numbered data (u32 (line_num + 1)) true s else cat_numbered data line_num false s
  end.
Definition cat_file (number : bool) (a : list Z) (s : shell) : option shell :=
  file ← resolve_arg a s;
  match file with
  | None => Some (out no_such_file (out a (out (str "cat: ") s)))
  | Some f =>
      if decide (n_type (node_at f (fs s)) <> NODE_FILE) then Some (out (line (str ": Is a directory")) (out a (out (str "cat: ") s)))
      else
        '(bytes_read, data) ← vfs_read (Some f) 0 (n_length (node_at f (fs s))) (fs s);
        if bytes_read <? 0 then Some (out (line (str ": Error reading file")) (out a (out (str "cat: ") s)))
        else if number : bool then Some (cat_numbered data 1 true s)
        else Some (foldl (fun s c => out [c] s) s data)
  end.
Definition cmd_cat (argv : list (list Z)) (s : shell) : option shell :=
  match cat_args (tail argv) false 0 with
  | CatHelp =>
      Some (out (line (str "  -h    show this help message")) (out (line (str "  -n    number output lines"))
        (out (line (str "Usage: cat [-n] [-h] file [file...]")) s)))
  | CatInvalid a =>
      Some (out (str "'" ++ [10] ++ line (str "Try 'cat -h' for more information.")) (out a (out (str "cat: invalid option '") s)))
  | CatRun number files =>
      if (files =? 0)%nat then Some (out (line (str "Usage: cat [-n] file [file...]")) s)
      else foldl (fun s a => s ← s; if hd 0 a =? 45 then Some s else cat_file number a s) (Some s) (tail argv)
  end.

Definition stat_print (n : vfs_node) (s : shell) : shell :=
  let s := out [10] (out (n_name n) (out (str "  File: ") s)) in
  let s := out (str "  Type: ") s in
  let s := out (line (if decide (n_type n = NODE_DIRECTORY) then str "directory" else str "regular file")) s in
  let s := out (line (str " bytes")) (print_number (n_length n) (out (str "  Size: ") s)) in
  out [10] (print_number (n_inode n) (out (str " Inode: ") s)).
Definition cmd_stat (argv : list (list Z)) (s : shell) : option shell :=
  match tail argv with
  | [] => Some (out (line (str "Usage: stat [-h] path")) s)
  | args =>
      if existsb (fun a => bool_decide (a = str "--help") || bool_decide (a = str "-h")) args then
        Some (out (line (str "  -h    show this help message")) (out (line (str "  Shows: name, type, size, and inode number."))
          (out (line (str "  Display metadata for a file or directory.")) (out (line (str "Usage: stat [-h] path")) s))))
      else
        match foldl (fun p a => if hd 0 a =? 45 then p else Some a) None args with
        | None => Some (out (line (str "Try 'stat -h' for more information.")) (out (line (str "stat: missing operand")) s))
        | Some path =>
            node ← resolve_arg path s;
            match node with
            | None => Some (out (line (str "': No such file or directory")) (out path (out (str "stat: cannot stat '") s)))
            | Some n => Some (stat_print (node_at n (fs s)) s)
            end
        end
  end.

(** ** mkdir, touch, write and rm *)

Definition mkdir_one (a : list Z) (s : shell) : option shell :=
  '(parent, leaf) ← resolve_parent_and_leaf a s;
  match parent with
  | None => Some (out no_such_file (out a (out (str "mkdir: ") s)))
  | Some p =>
      match leaf with
      | [] => Some (out (line (str "mkdir: invalid directory name")) s)
      | _ =>
          match vfs_find_node (Some p) leaf (fs s) with
          | Some _ => Some (out (line (str ": File exists")) (out a (out (str "mkdir: ") s)))
          | None =>
              '(dir, v) ← vfs_create_node leaf NODE_DIRECTORY (fs s);
              match dir with
              | None => Some (out (line (str "mkdir: cannot create directory (out of nodes)")) (with_fs v s))
              | Some _ =>
                  let '(r, v) := vfs_add_child (Some p) dir v in
                  if r =? 0 then Some (with_fs v s)
                  else Some (out (line (str "mkdir: cannot create directory (parent full)")) (with_fs v s))
              end
          end
      end
  end.
Definition cmd_mkdir (argv : list (list Z)) (s : shell) : option shell :=
  match tail argv with
  | [] => Some (out (line (str "Usage: mkdir <name>")) s)
  | args => foldl (fun s a => s ← s; mkdir_one a s) (Some s) args
  end.

Definition touch_one (a : list Z) (s : shell) : option shell :=
  '(parent, leaf) ← resolve_parent_and_leaf a s;
  match parent with
  | None => Some (out no_such_file (out a (out (str "touch: ") s)))
  | Some p =>
      match leaf with
      | [] => Some (out (line (str "touch: invalid file name")) s)
      | _ =>
          match vfs_find_node (Some p) leaf (fs s) with
          | Some _ => Some s
          | None =>
              '(file, v) ← vfs_create_node leaf NODE_FILE (fs s);
              match file with
              | None => Some (out (line (str "touch: cannot create file (out of nodes)")) (with_fs v s))
              | Some _ =>
                  let '(r, v) := vfs_add_child (Some p) file v in
                  if r =? 0 then Some (with_fs v s)
                  else Some (out (line (str "touch: cannot create file (directory full)")) (with_fs v s))
              end
          end
      end
  end.
Definition cmd_touch (argv : list (list Z)) (s : shell) : option shell :=
  match tail argv with
  | [] => Some (out (line (str "Usage: touch <name>")) s)
  | args => foldl (fun s a => s ← s; touch_one a s) (Some s) args
  end.

(** The static buffer of [cmd_write], filled up to its size. *)
Definition buf_put (buffer : list Z) (c : Z) : list Z := if len buffer <? VFS_MAX_FILE_SIZE then buffer ++ [c] else buffer.
Fixpoint write_words (i : nat) (words : list (list Z)) (buffer : list Z) : list Z :=
  match words with
  | [] => buffer
  | w :: words =>
      if len buffer <? VFS_MAX_FILE_SIZE
      then write_words (S i) words (foldl buf_put (if (2 <? i)%nat then buf_put buffer 32 else buffer) w)
      else buffer
  end.
Definition write_payload (words : list (list Z)) : list Z := buf_put (write_words 2 words []) 10.

(** [file], created if there is none: NULL when it cannot be. *)
Definition open_or_create (p : nat) (leaf : list Z) (v : vfs) : option (option nat * vfs) :=
  match vfs_find_node (Some p) leaf v with
  | Some f => Some (Some f, v)
  | None =>
      '(file, v) ← vfs_create_node leaf NODE_FILE v;
      match file with
      | None => Some (None, v)
      | Some _ => let '(r, v) := vfs_add_child (Some p) file v in if r =? 0 then Some (file, v) else Some (None, v)
      end
  end.
Definition write_file (a : list Z) (words : list (list Z)) (s : shell) : option shell :=
  '(parent, leaf) ← resolve_parent_and_leaf a s;
  match parent with
  | None => Some (out no_such_file (out a (out (str "write: ") s)))
  | Some p =>
      match leaf with
      | [] => Some (out (line (str "write: invalid file name")) s)
      | _ =>
          if match vfs_find_node (Some p) leaf (fs s) with Some f => bool_decide (n_type (node_at f (fs s)) <> NODE_FILE) | None => false end
          then Some (out (line (str ": Is a directory")) (out a (out (str "write: ") s)))
          else
            '(file, v) ← open_or_create p leaf (fs s);
            match file with
            | None => Some (out (line (str "write: cannot create file")) (with_fs v s))
            | Some f =>
                let buffer := write_payload words in
                '(written, v) ← vfs_write (Some f) 0 (len buffer) buffer v;
                if written <? 0 then Some (out (line (str "write: error writing file")) (with_fs v s))
                else Some (with_fs (set_node f (with_length (u32 written) (node_at f v)) v) s)
            end
      end
  end.
Definition cmd_write (argv : list (list Z)) (s : shell) : option shell :=
  match argv with
  | _ :: a :: w :: words => write_file a (w :: words) s
  | _ => Some (out (line (str "Usage: write <file> <text...>")) s)
  end.

Definition rm_one (a : list Z) (s : shell) : option shell :=
  '(parent, leaf) ← resolve_parent_and_leaf a s;
  match parent with
  | None => Some (out no_such_file (out a (out (str "rm: ") s)))
  | Some p =>
      if decide (leaf = [] \/ leaf = [46] \/ leaf = [46; 46]) then
        Some (out (line (str "'")) (out a (out (str "rm: refusing to remove '") s)))
      else match vfs_find_node (Some p) leaf (fs s) with
           | None => Some (out no_such_file (out a (out (str "rm: ") s)))
           | Some _ =>
               let '(r, v) := vfs_remove_child (Some p) leaf (fs s) in
               if r =? 0 then Some (with_fs v s)
               else Some (out (line (str ": failed to remove")) (out a (out (str "rm: ") (with_fs v s))))
           end
  end.
Definition cmd_rm (argv : list (list Z)) (s : shell) : option shell :=
  match tail argv with
  | [] => Some (out (line (str "Usage: rm <name>")) s)
  | args => foldl (fun s a => s ← s; rm_one a s) (Some s) args
  end.

Lemma out_app t u s : out (t ++ u) s = out u (out t s).
Proof. unfold out. cbn [fs current_directory screen]. f_equal. unfold console_write. apply foldl_app. Qed.

(** ** Where nodes are *)

(** A name a path can lead to. *)
Definition good_name (n : list Z) : Prop :=
  n <> [] /\ Forall (fun v => 0 < v) n /\ Forall (fun v => is_in [47] v = false) n /\ n <> [46] /\ n <> [46; 46].

(** [d] is found from the root along [names]. *)
Inductive path_to (v : vfs) (r : nat) : nat -> list (list Z) -> Prop :=
| pt_root : path_to v r r []
| pt_child d c names : path_to v r d names -> child v d c -> good_name (n_name (node_at c v)) ->
    path_to v r c (names ++ [n_name (node_at c v)]).
Definition placed (v : vfs) (r d : nat) : Prop := exists names, path_to v r d names.
Definition join (names : list (list Z)) : list Z := concat (cons 47 <$> names).

Lemma join_snoc names n : join (names ++ [n]) = join names ++ 47 :: n.
Proof. unfold join. rewrite fmap_app, concat_app. cbn. by rewrite app_nil_r. Qed.

Section Places.
Context (v : vfs) (r : nat) (Ht : tree v r).

Lemma walk_app a b : forall n, walk v n (a ++ b) = match walk v n a with Some m => walk v m b | None => None end.
Proof.
  induction a as [|t a IH]; intros n; cbn [app walk]; [done|]. destruct (walk_component v (Some n) t) as [[m|]| |]; [apply IH|done..].
Qed.
Lemma component_name d t : good_name t -> walk_component v (Some d) t = match vfs_find_node (Some d) t v with Some c => At (Some c) | None => Missing end.
Proof.
  intros (_ & Hp & _ & H1 & H2). unfold walk_component.
  rewrite (proj2 (Z.eqb_neq _ _)) by (rewrite lex_eq; [done|done|by repeat constructor]).
  rewrite (proj2 (Z.eqb_neq _ _)) by (rewrite lex_eq; [done|done|by repeat constructor]). done.
Qed.
Lemma walk_name d c : child v d c -> good_name (n_name (node_at c v)) -> walk v d [n_name (node_at c v)] = Some c.
Proof.
  intros Hc Hn. cbn [walk]. rewrite component_name by done. pose proof Hn as (_ & Hp & _).
  by rewrite (proj2 (find_iff v r d _ c Ht (proj1 Hc) Hp) (conj Hc eq_refl)).
Qed.
Lemma walk_path d names : path_to v r d names -> walk v r names = Some d.
Proof.
  induction 1 as [|d c names _ IH Hc Hn]; [done|]. rewrite walk_app, IH. by apply walk_name.
Qed.
Lemma path_names d names : path_to v r d names -> Forall good_name names.
Proof. induction 1 as [|d c names _ IH _ Hn]; [constructor|]. apply Forall_app. split; [exact IH|]. constructor; [exact Hn|constructor]. Qed.
Lemma path_reach d names : path_to v r d names -> reach v r d.
Proof. induction 1 as [|d c names _ IH Hc _]; [constructor|]. by eapply rtc_r. Qed.
Lemma placed_used d : placed v r d -> used d v = true.
Proof. intros [names H]. by apply (reach_used v r), (path_reach d names). Qed.
Lemma placed_parent d : placed v r d -> exists p, n_parent (node_at d v) = Some p /\ placed v r p.
Proof.
  intros [names H]. destruct H as [|d c names H Hc Hn].
  - exists r. split; [apply (tr_root _ _ Ht)|]. exists []. constructor.
  - exists d. split; [by destruct (child_facts v r Ht d c Hc) as (_ & ? & _)|]. by exists names.
Qed.

(** The loop that climbs to the root. *)
Lemma up_path_spec d names : path_to v r d names -> forall fuel path, (Z.to_nat (n_inode (node_at d v)) <= fuel)%nat ->
  len (join names ++ path) < VFS_MAX_PATH_LENGTH -> up_path fuel v (Some d) path = Some (join names ++ path).
Proof.
  induction 1 as [|d c names Hd IH Hc Hn]; intros fuel path Hf Hl.
  - destruct fuel; cbn [up_path]; by rewrite decide_True by apply (tr_root _ _ Ht).
  - destruct (child_facts v r Ht d c Hc) as (Hu & Hp & Hi & Hne & _).
    pose proof (nk_inode _ _ (tr_node _ _ Ht d (placed_used d (ex_intro _ names Hd)))) as Hpos.
    destruct fuel as [|fuel]; [lia|]. cbn [up_path]. rewrite Hp, decide_False by congruence.
    rewrite join_snoc, <- app_assoc in *. cbn [app] in *. unfold fits. rewrite length_app in Hl.
    rewrite (proj2 (Z.ltb_lt _ _)) by lia. cbn [mbind option_bind]. apply IH; [lia|]. rewrite length_app. lia.
Qed.
End Places.

(** ** Tokens of a path *)

Lemma pieces_app d l1 c l2 : d c = true -> pieces d (l1 ++ c :: l2) = pieces d l1 ++ pieces d l2.
Proof.
  intros Hc. induction l1 as [|x l1 IH]; cbn [app pieces]; [by rewrite Hc|]. destruct (d x); [by rewrite IH|].
  rewrite IH. destruct (pieces d l1) as [|p ps] eqn:E; [|done]. exfalso. destruct l1 as [|y l1]; cbn in E; [done|]. destruct (d y); [done|]. by destruct (pieces d l1).
Qed.
Lemma tokens_app l1 l2 : tokens (is_in [47]) (l1 ++ 47 :: l2) = tokens (is_in [47]) l1 ++ tokens (is_in [47]) l2.
Proof. unfold tokens. rewrite pieces_app by done. apply list.filter_app. Qed.
Lemma tokens_slash l : tokens (is_in [47]) (47 :: l) = tokens (is_in [47]) l.
Proof. apply (tokens_app [] l). Qed.
Lemma tokens_join names : Forall good_name names -> tokens (is_in [47]) (join names) = names.
Proof.
  induction names as [|n names IH] using rev_ind; intros H; [done|]. apply Forall_app in H as [H1 H2]. apply Forall_cons_iff in H2 as [(Hn & _ & Hs & _) _].
  rewrite join_snoc, tokens_app, IH by done. by rewrite tokens_last.
Qed.
Lemma token_good l t : Forall (fun v => 0 < v) l -> t ∈ tokens (is_in [47]) l ->
  t <> [] /\ Forall (fun v => 0 < v) t /\ Forall (fun v => is_in [47] v = false) t.
Proof.
  intros Hp Hin. unfold tokens in Hin. apply list_elem_of_filter in Hin as [Hn Hin]. split; [done|]. split.
  - apply list.Forall_forall. intros x Hx. rewrite list.Forall_forall in Hp. apply Hp. by eapply pieces_in.
  - clear Hp Hn. revert t Hin. induction l as [|c l IH]; intros t; cbn [pieces].
    + intros Hin. apply list_elem_of_singleton in Hin as ->. constructor.
    + destruct (is_in [47] c) eqn:E.
      * intros Hin. apply elem_of_cons in Hin as [->|Hin]; [constructor|by apply IH].
      * destruct (pieces (is_in [47]) l) as [|p ps].
        -- intros Hin. apply list_elem_of_singleton in Hin as ->. by repeat constructor.
        -- intros Hin. apply elem_of_cons in Hin as [->|Hin]; [|apply IH; by right]. constructor; [done|]. apply IH. left.
Qed.

(** ** Resolving arguments *)

(** Walking from a placed node stays among placed nodes. *)
Lemma walk_placed v r path : tree v r -> Forall (fun t => t <> [] /\ Forall (fun v => 0 < v) t /\ Forall (fun v => is_in [47] v = false) t) path ->
  forall d, placed v r d -> match walk v d path with Some n => placed v r n | None => True end.
Proof.
  intros Ht Hp. induction Hp as [|t path (Hn & Hpos & Hs) _ IH]; intros d Hd; cbn [walk]; [done|].
  destruct (decide (t = [46])) as [->|H1]; [by apply IH|]. destruct (decide (t = [46; 46])) as [->|H2].
  - cbn. destruct (placed_parent v r Ht d Hd) as (p & -> & Hp'). by apply IH.
  - assert (good_name t) as Hg by done. rewrite component_name by done.
    destruct (vfs_find_node (Some d) t v) as [c|] eqn:E; [|done]. apply IH.
    destruct (decide (n_type (node_at d v) = NODE_DIRECTORY)) as [Hty|Hty]; [|cbn [vfs_find_node] in E; by rewrite decide_True in E].
    assert (is_dir v d) as Hdir by (split; [by apply (placed_used v r)|done]).
    apply (find_iff v r d t c Ht Hdir Hpos) in E as [Hc <-]. destruct Hd as [names Hd]. exists (names ++ [n_name (node_at c v)]). by apply (pt_child v r d c names).
Qed.
Lemma tokens_placed v r l d : tree v r -> Forall (fun v => 0 < v) l -> placed v r d ->
  match walk v d (tokens (is_in [47]) l) with Some n => placed v r n | None => True end.
Proof. intros Ht Hl. apply walk_placed; [done|]. apply list.Forall_forall. intros t. by apply token_good. Qed.

(** The shell is where the file system has a directory. *)
Record shell_ok (r : nat) (s : shell) : Prop := {
  so_tree : tree (fs s) r;
  so_cwd : exists d names, current_directory s = Some d /\ is_dir (fs s) d /\ path_to (fs s) r d names;
}.

Lemma ok_out r s t : shell_ok r s -> shell_ok r (out t s).
Proof. intros [H1 H2]. by constructor. Qed.

(** The room the path arrays must have for an argument. *)
Definition fits_below (r : nat) (s : shell) (a : list Z) : Prop :=
  Forall (fun v => 0 < v) a /\ forall d names, current_directory s = Some d -> path_to (fs s) r d names -> len (join names) + len a + 2 < VFS_MAX_PATH_LENGTH.

Lemma path_unique v r d names names' : tree v r -> path_to v r d names -> path_to v r d names' -> names = names'.
Proof.
  intros Ht H. assert (forall d, ~ child v d r) as Hno by (intros d' Hc; by destruct (child_facts v r Ht d' r Hc) as (_ & _ & _ & _ & ?)).
  revert names'. induction H as [|d c names _ IH Hc Hn]; intros names' H'; inversion H'; subst; try done;
    try (match goal with Hc' : child v ?d' ?x, Hno' : forall d, ~ child v d ?x |- _ => by destruct (Hno' d') end).
  match goal with Hc' : child v ?d' c |- _ => assert (d' = d) as -> by (by apply (child_unique v r d' d c)) end. f_equal. by apply IH.
Qed.

Lemma build_spec r s d names a : shell_ok r s -> current_directory s = Some d -> path_to (fs s) r d names ->
  len (join names) + len a + 2 < VFS_MAX_PATH_LENGTH ->
  build_absolute_path a s = Some ((match join names with [] => [47] | p => p end) ++ [47] ++ a).
Proof.
  intros [Ht _] Hd Hp Hl. unfold build_absolute_path, kernel_get_current_directory. rewrite Hd.
  rewrite (up_path_spec (fs s) r Ht d names Hp) by (cbn; rewrite ?app_nil_r; lia). cbn [mbind option_bind]. rewrite app_nil_r.
  unfold fits. rewrite (proj2 (Z.ltb_lt _ _)); [by destruct (join names)|]. rewrite !length_app. cbn [length]. destruct (join names); cbn [length] in *; lia.
Qed.
Lemma resolve_below r s d names a : shell_ok r s -> current_directory s = Some d -> path_to (fs s) r d names ->
  resolve_path ((match join names with [] => [47] | p => p end) ++ [47] ++ a) (fs s) =
  if (len (match join names with [] => [47] | p => p end) + len a <? VFS_MAX_PATH_LENGTH) then Some (walk (fs s) d (tokens (is_in [47]) a)) else None.
Proof.
  intros [Ht _] Hd Hp. pose proof (path_names _ _ d names Hp) as Hg. pose proof (tokens_join names Hg) as Htok.
  destruct (tr_root _ _ Ht) as (Hroot & _). destruct (join names) as [|c p] eqn:E.
  - cbn [app resolve_path]. rewrite Hroot. cbn [mbind option_bind length].
    replace (Z.of_nat (S (length a))) with (Z.of_nat 1 + len a) by lia. destruct (_ <? _); [|done].
    rewrite tokens_slash. assert (names = []) as Hnil by (by rewrite <- Htok). rewrite Hnil in Hp.
    pose proof (walk_path (fs s) r Ht d [] Hp) as Hw. cbn in Hw. by injection Hw as ->.
  - assert (c = 47) as ->. { destruct names as [|n names]; [done|]. cbn in E. by injection E. }
    cbn [app resolve_path]. rewrite Hroot. cbn [mbind option_bind length]. rewrite length_app. cbn [length].
    replace (Z.of_nat (length p + S (length a))) with (Z.of_nat (S (length p)) + len a) by lia. destruct (_ <? _); [|done].
    rewrite tokens_app. rewrite tokens_slash in Htok. rewrite Htok, walk_app. by rewrite (walk_path (fs s) r Ht d names Hp).
Qed.

(** An argument is resolved from the root or from the current directory. *)
Definition meaning (r : nat) (s : shell) (a : list Z) : option nat :=
  if hd 0 a =? 47 then walk (fs s) r (tokens (is_in [47]) a)
  else match current_directory s with Some d => walk (fs s) d (tokens (is_in [47]) a) | None => None end.
Lemma resolve_arg_spec r s a : shell_ok r s -> fits_below r s a ->
  resolve_arg a s = Some (meaning r s a) /\ match meaning r s a with Some n => placed (fs s) r n | None => True end.
Proof.
  intros Hs [Hpos Hfit]. pose proof Hs as [Ht (d & names & Hd & Hdir & Hp)]. specialize (Hfit d names Hd Hp).
  destruct (tr_root _ _ Ht) as (Hroot & _). assert (placed (fs s) r r) as Hr by (exists []; constructor).
  assert (placed (fs s) r d) as Hpd by (by exists names). unfold meaning, resolve_arg. rewrite Hd.
  destruct (Z.eqb_spec (hd 0 a) 47) as [Hc|Hc].
  - split; [|by apply tokens_placed]. destruct a as [|c l]; [done|]. cbn in Hc. subst c. cbn [resolve_path Z.eqb Pos.eqb negb]. rewrite Hroot. cbn [mbind option_bind].
    rewrite tokens_slash, (proj2 (Z.ltb_lt _ _)); [done|]. cbn [length] in Hfit. lia.
  - split; [|by apply tokens_placed]. rewrite (build_spec r s d names a Hs Hd Hp Hfit). cbn [mbind option_bind]. rewrite (resolve_below r s d names a Hs Hd Hp).
    rewrite (proj2 (Z.ltb_lt _ _)); [done|]. destruct (join names); cbn [length] in *; lia.
Qed.

(** [resolve_path] is what [vfs_resolve_path] computes on the string in memory. *)
Lemma resolve_path_refines v r m last path path_copy slash l n fuel :
  tree v r -> cstr m path l -> Forall (fun v => 0 < v) l -> 0 < path -> 0 < path_copy -> 0 < slash ->
  len l < VFS_MAX_PATH_LENGTH -> cstr m slash [47] ->
  path + len l < path_copy \/ path_copy + VFS_MAX_PATH_LENGTH <= path ->
  slash + 1 < path_copy \/ path_copy + VFS_MAX_PATH_LENGTH <= slash ->
  (length l + 2 <= fuel)%nat -> (length l < n)%nat ->
  exists x node, vfs_resolve_path n fuel path path_copy slash v (m, last) = Some (node, x) /\ resolve_path l v = Some node.
Proof.
  intros Ht Hc Hp H1 H2 H3 Hl Hs Hd1 Hd2 Hf Hn. destruct l as [|c l].
  { exists (m, last), None. unfold vfs_resolve_path. rewrite (cstr_head _ _ _ Hc), orb_true_r. done. }
  destruct (Z.eqb_spec c 47) as [->|Hne].
  - apply Forall_cons_iff in Hp as [_ Hp]. cbn [length] in *.
    destruct (resolve_spec v r m last path path_copy slash l n fuel) as (x & Hx & _); try done; try lia.
    exists x, (walk v r (tokens (is_in [47]) l)). split; [exact Hx|]. cbn [resolve_path Z.eqb Pos.eqb negb]. destruct (tr_root _ _ Ht) as (-> & _).
    cbn [mbind option_bind]. rewrite (proj2 (Z.ltb_lt _ _)); [done|lia].
  - exists (m, last), None. unfold vfs_resolve_path, resolve_path. rewrite (cstr_head _ _ _ Hc). cbn [cstr] in Hc. destruct Hc as (_ & -> & _).
    rewrite (proj2 (Z.eqb_neq path 0)), (proj2 (Z.eqb_neq c 47)) by lia. done.
Qed.

(** ** pwd and cd *)

Lemma pwd_spec r s d names : shell_ok r s -> current_directory s = Some d -> path_to (fs s) r d names ->
  len (join names) + 2 < VFS_MAX_PATH_LENGTH ->
  cmd_pwd s = Some (out [10] (out (match join names with [] => [47] | p => p end) s)) /\
  resolve_path (match join names with [] => [47] | p => p end) (fs s) = Some (Some d).
Proof.
  intros Hs Hd Hp Hl. pose proof Hs as [Ht _]. pose proof (path_names _ _ d names Hp) as Hg. pose proof (tokens_join names Hg) as Htok.
  pose proof (walk_path (fs s) r Ht d names Hp) as Hw. destruct (tr_root _ _ Ht) as (Hroot & _). split.
  - unfold cmd_pwd, kernel_get_current_directory. rewrite Hd. rewrite (up_path_spec (fs s) r Ht d names Hp) by (cbn; rewrite ?app_nil_r; lia).
    cbn [mbind option_bind]. rewrite app_nil_r. destruct (join names); [|done]. unfold line. by rewrite out_app.
  - destruct (join names) as [|c p] eqn:E.
    + cbn [resolve_path Z.eqb Pos.eqb negb]. rewrite Hroot. cbn. assert (names = []) as Hnil by (by rewrite <- Htok). rewrite Hnil in Hw. cbn in Hw. by injection Hw as ->.
    + assert (c = 47) as ->. { destruct names as [|n names]; [done|]. cbn in E. by injection E. }
      cbn [resolve_path Z.eqb Pos.eqb negb]. rewrite Hroot. cbn [mbind option_bind length] in *. rewrite (proj2 (Z.ltb_lt _ _)) by lia.
      rewrite tokens_slash in Htok. by rewrite Htok, Hw.
Qed.

Lemma cd_target r s a cmd rest : shell_ok r s -> fits_below r s a -> a <> [46] ->
  cmd_cd (cmd :: a :: rest) s = Some (match meaning r s a with
    | None => out no_such_file (out a (out (str "cd: ") s))
    | Some t => if decide (n_type (node_at t (fs s)) <> NODE_DIRECTORY) then out (line (str ": Not a directory")) (out a (out (str "cd: ") s))
                else kernel_set_current_directory (Some t) s
    end).
Proof.
  intros Hs Hfit Hdot. pose proof Hs as [Ht (d & names & Hd & Hdir & Hp)]. destruct (resolve_arg_spec r s a Hs Hfit) as [Hres _].
  destruct (tr_root _ _ Ht) as (Hroot & _). unfold cmd_cd, kernel_get_current_directory. rewrite decide_False by done. rewrite Hd, Hroot.
  assert ((if decide (a = [47]) then Some (Some r) else if decide (a = [46; 46])
    then match n_parent (node_at d (fs s)) with Some p => Some (Some p) | None => Some (Some r) end else resolve_arg a s) = Some (meaning r s a)) as ->.
  { destruct (decide (a = [47])) as [->|]; [done|]. destruct (decide (a = [46; 46])) as [->|]; [|done].
    unfold meaning. rewrite Hd. change (tokens (is_in [47]) [46; 46]) with [[46; 46]]. cbn [hd Z.eqb Pos.eqb walk].
    change (walk_component (fs s) (Some d) [46; 46]) with (At (Some (default d (n_parent (node_at d (fs s)))))).
    by destruct (placed_parent (fs s) r Ht d (ex_intro _ names Hp)) as (p & -> & _). }
  cbn [mbind option_bind]. destruct (meaning r s a) as [t|]; [|done]. by destruct (decide _).
Qed.


(** ** Changes that keep the places *)

(** [v'] has the entries of [v], and perhaps more. *)
Record extends (r : nat) (v v' : vfs) : Prop := {
  ex_tree : tree v' r;
  ex_child : forall d c, child v d c -> child v' d c /\ n_name (node_at c v') = n_name (node_at c v) /\ n_type (node_at c v') = n_type (node_at c v);
}.
Section Extends.
Context (r : nat) (v v' : vfs) (Ht : tree v r) (He : extends r v v').

Lemma extends_path d names : path_to v r d names -> path_to v' r d names.
Proof.
  induction 1 as [|d c names _ IH Hc Hn]; [constructor|]. destruct (ex_child _ _ _ He d c Hc) as (Hc' & E & _).
  rewrite <- E in *. by apply (pt_child v' r d c names).
Qed.
Lemma extends_placed d : placed v r d -> placed v' r d.
Proof. intros [names H]. exists names. by apply extends_path. Qed.
Lemma extends_type d : placed v r d -> n_type (node_at d v') = n_type (node_at d v).
Proof.
  intros [names H]. destruct H as [|d c names _ Hc _]; [|by apply (ex_child _ _ _ He d c)].
  destruct (tr_root _ _ Ht) as (_ & [_ ->] & _). by destruct (tr_root _ _ (ex_tree _ _ _ He)) as (_ & [_ ->] & _).
Qed.
Lemma extends_dir d : placed v r d -> is_dir v d -> is_dir v' d.
Proof.
  intros Hp [_ Hd]. split; [by apply (placed_used v' r (ex_tree _ _ _ He)), extends_placed|]. by rewrite extends_type.
Qed.
Lemma extends_parent d : placed v r d -> n_parent (node_at d v') = n_parent (node_at d v).
Proof.
  intros [names H]. destruct H as [|d c names _ Hc _].
  - destruct (tr_root _ _ Ht) as (_ & _ & ->). by destruct (tr_root _ _ (ex_tree _ _ _ He)) as (_ & _ & ->).
  - destruct (child_facts v r Ht d c Hc) as (_ & -> & _). destruct (ex_child _ _ _ He d c Hc) as [Hc' _].
    by destruct (child_facts v' r (ex_tree _ _ _ He) d c Hc') as (_ & -> & _).
Qed.

(** What a path led to it still leads to. *)
Lemma extends_walk path : Forall (fun t => t <> [] /\ Forall (fun v => 0 < v) t /\ Forall (fun v => is_in [47] v = false) t) path ->
  forall d n, placed v r d -> walk v d path = Some n -> walk v' d path = Some n.
Proof.
  induction 1 as [|t path (Hn & Hpos & Hs) Hp IH]; intros d n Hd; cbn [walk]; [done|].
  destruct (decide (t = [46])) as [->|H1]; [by apply IH|]. destruct (decide (t = [46; 46])) as [->|H2].
  - change (walk_component v (Some d) [46; 46]) with (At (Some (default d (n_parent (node_at d v))))).
    change (walk_component v' (Some d) [46; 46]) with (At (Some (default d (n_parent (node_at d v'))))).
    rewrite extends_parent by done. destruct (placed_parent v r Ht d Hd) as (p & -> & Hp'). by apply IH.
  - assert (good_name t) as Hg by done. rewrite !component_name by done.
    destruct (vfs_find_node (Some d) t v) as [c|] eqn:E; [|done].
    destruct (decide (n_type (node_at d v) = NODE_DIRECTORY)) as [Hty|Hty]; [|cbn [vfs_find_node] in E; by rewrite decide_True in E].
    assert (is_dir v d) as Hdir by (split; [by apply (placed_used v r)|done]).
    apply (find_iff v r d t c Ht Hdir Hpos) in E as [Hc <-]. destruct (ex_child _ _ _ He d c Hc) as (Hc' & E' & _).
    rewrite (proj2 (find_iff v' r d _ c (ex_tree _ _ _ He) (proj1 Hc') Hpos) (conj Hc' E')).
    apply IH. destruct Hd as [names Hd]. exists (names ++ [n_name (node_at c v)]). by apply (pt_child v r d c names).
Qed.
Lemma extends_tokens l d n : Forall (fun v => 0 < v) l -> placed v r d ->
  walk v d (tokens (is_in [47]) l) = Some n -> walk v' d (tokens (is_in [47]) l) = Some n.
Proof. intros Hl. apply extends_walk. apply list.Forall_forall. intros t. by apply token_good. Qed.
End Extends.

Lemma extends_same r v : tree v r -> extends r v v.
Proof. intros Ht. by constructor. Qed.
Lemma extends_step r v1 v2 v3 : extends r v1 v2 -> extends r v2 v3 -> extends r v1 v3.
Proof.
  intros [H1 H2] [H3 H4]. constructor; [done|]. intros d c Hc. destruct (H2 d c Hc) as (Hc' & <- & <-). by apply H4.
Qed.
Lemma ok_extends r s v : shell_ok r s -> extends r (fs s) v -> shell_ok r (with_fs v s).
Proof.
  intros [Ht (d & names & Hd & Hdir & Hp)] He. constructor; [apply He|]. exists d, names. split; [done|]. cbn [fs with_fs].
  split; [apply (extends_dir r (fs s)); [done..|by exists names|done]|by apply (extends_path r (fs s))].
Qed.
Lemma fits_extends r s v a : shell_ok r s -> extends r (fs s) v -> fits_below r s a -> fits_below r (with_fs v s) a.
Proof.
  intros [Ht (d & names & Hd & Hdir & Hp)] He [H1 H2]. split; [done|]. cbn [fs current_directory with_fs]. intros d' names' Hd' Hp'.
  rewrite Hd in Hd'. injection Hd' as <-. rewrite (path_unique v r d names' names (ex_tree _ _ _ He) Hp'); [by apply (H2 d)|]. by apply (extends_path r (fs s)).
Qed.

Lemma made_extends v v' r p c name type : tree v r -> made v v' r p c name type -> extends r v v'.
Proof.
  intros Ht [M1 M2 _ M4 M5]. constructor; [done|]. intros d x [[Hd Hty] Hx].
  assert (d <> c) as Hdc by congruence. destruct (child_facts v r Ht d x (conj (conj Hd Hty) Hx)) as (Hu & _).
  assert (x <> c) as Hxc by congruence. destruct (M5 d Hdc) as (U & _ & T & _), (M5 x Hxc) as (_ & N & T' & _).
  split; [|done]. split; [split; congruence|]. rewrite M4 by done. destruct (decide (d = p)) as [->|]; [|done]. apply elem_of_app. by left.
Qed.
Lemma added_extends v v' r i n : tree v r -> tree v' r -> added v v' i n -> extends r v v'.
Proof.
  intros Ht Ht' [A1 A2 A3 A4 A5 A6 A7]. constructor; [done|]. intros d x [[Hd Hty] Hx].
  assert (d <> i) as Hdi by congruence. destruct (child_facts v r Ht d x (conj (conj Hd Hty) Hx)) as (Hu & _).
  assert (x <> i) as Hxi by congruence. unfold child, is_dir, entries. by rewrite !A6, A7, !decide_False.
Qed.

(** Creating an entry: it is there, or there was no room, and what was there stays. *)
Record new_entry (r : nat) (v v' : vfs) (p c : nat) (name : list Z) (type : vfs_node_type) : Prop := {
  ne_extends : extends r v v';
  ne_child : child v' p c /\ n_name (node_at c v') = name;
  ne_node : n_type (node_at c v') = type /\ n_length (node_at c v') = 0;
}.
Lemma create_entry r v p name type : tree v r -> is_dir v p -> name_ok name -> next_inode v + 1 < 2 ^ 32 ->
  vfs_find_node (Some p) name v = None ->
  exists c v1, vfs_create_node name type v = Some (c, v1) /\
  match c with
  | None => v1 = v /\ forall i, (i < VFS_MAX_NODES)%nat -> used i v = true
  | Some i => exists res v2, vfs_add_child (Some p) (Some i) v1 = (res, v2) /\ extends r v v2 /\
      if n_count (node_at p v) <? VFS_MAX_CHILDREN then res = 0 /\ new_entry r v v2 p i name type else res = -1
  end.
Proof.
  intros Ht Hp Hn Hnx Hf. destruct (create_in_dir_spec v r p name type Ht Hp Hn Hnx Hf) as (c & v1 & E & Ht1 & H).
  exists c, v1. split; [done|]. destruct c as [i|]; [|done].
  destruct (create_node_spec v r name type Ht (next_pos v r Ht) Hnx Hn) as (c' & v1' & E' & Ha). rewrite E in E'. injection E' as <- <-.
  destruct (n_count (node_at p v) <? VFS_MAX_CHILDREN).
  - destruct H as (v2 & E2 & Hm). exists 0, v2. pose proof (made_extends v v2 r p i name type Ht Hm) as He.
    split; [done|]. split; [done|]. split; [done|]. pose proof Hm as [M1 M2 (M3 & M4 & M5 & M6) M7 M8]. constructor; [done| |done].
    split; [|done]. assert (p <> i) as Hpi by (destruct Hp; congruence). destruct (M8 p Hpi) as (U & _ & T & _), Hp as [Hu Hty].
    split; [split; congruence|]. rewrite M7, decide_True by done. apply elem_of_app. right. left.
  - exists (-1), v1. split; [done|]. split; [|done]. by apply (added_extends v v1 r i _ Ht Ht1 Ha).
Qed.

(** ** The parent of an argument and its leaf *)

Lemma last_slash_spec path :
  (last_slash path = -1 /\ Forall (fun c => is_in [47] c = false) path) \/
  exists k, last_slash path = Z.of_nat k /\ path = take k path ++ 47 :: drop (S k) path /\ Forall (fun c => is_in [47] c = false) (drop (S k) path).
Proof.
  assert ((last_slash path = -1 /\ forall j, 0 <= j < len path -> aget path j <> 47) \/
    (0 <= last_slash path < len path /\ aget path (last_slash path) = 47 /\ forall j, last_slash path < j < len path -> aget path j <> 47)) as H.
  { unfold last_slash. apply (for_range_ind (fun k last => (last = -1 /\ forall j, 0 <= j < k -> aget path j <> 47) \/
      (0 <= last < k /\ aget path last = 47 /\ forall j, last < j < k -> aget path j <> 47))); [lia|left; split; [done|lia]|].
    intros i last Hi Hl. destruct (Z.eqb_spec (aget path i) 47) as [E|E].
    - right. split; [lia|]. split; [done|lia].
    - destruct Hl as [[-> Hl]|(H1 & H2 & H3)]; [left; split; [done|]|right; split; [lia|]; split; [done|]];
        intros j Hj; destruct (Z.eq_dec j i) as [->|]; try done; [apply Hl; lia|apply H3; lia]. }
  assert (forall j c, path !! j = Some c -> aget path (Z.of_nat j) <> 47 -> is_in [47] c = false) as Hin.
  { intros j c Hj Hne. unfold aget in Hne. rewrite Nat2Z.id, Hj in Hne. unfold is_in. cbn in *. rewrite orb_false_r. by apply Z.eqb_neq. }
  destruct H as [[H1 H2]|(H1 & H2 & H3)]; [left|right].
  - split; [done|]. apply Forall_lookup. intros j c Hj. apply (Hin j c Hj), H2. apply lookup_lt_Some in Hj. lia.
  - exists (Z.to_nat (last_slash path)). split; [lia|]. split.
    + destruct (lookup_lt_is_Some_2 path (Z.to_nat (last_slash path))) as [c Hc]; [lia|].
      unfold aget in H2. rewrite Hc in H2. cbn in H2. subst c. by rewrite take_drop_middle.
    + apply Forall_lookup. intros j c Hj. rewrite lookup_drop in Hj. apply (Hin _ c Hj), H3. apply lookup_lt_Some in Hj. lia.
Qed.

(** Where an argument's last component is looked for, and that component. *)
Definition leaf_of (a : list Z) : list Z := drop (Z.to_nat (last_slash a + 1)) a.
Definition parent_of (r : nat) (s : shell) (a : list Z) : option nat :=
  if last_slash a <? 0 then current_directory s
  else if last_slash a =? 0 then Some r else meaning r s (take (Z.to_nat (last_slash a)) a).

Lemma meaning_leaf r s a : good_name (leaf_of a) ->
  meaning r s a = match parent_of r s a with Some p => walk (fs s) p [leaf_of a] | None => None end.
Proof.
  intros Hg. pose proof Hg as (Hn & _ & Hns & _). unfold parent_of, leaf_of in *. destruct (last_slash_spec a) as [[E Hs]|(k & E & Ea & Hs)]; rewrite E in *.
  - cbn [Z.ltb Z.compare] in *. change (Z.to_nat (-1 + 1)) with 0%nat in *. rewrite drop_0 in *. unfold meaning. rewrite (tokens_last _ a) by done.
    destruct (Z.eqb_spec (hd 0 a) 47) as [H|H]; [|done]. destruct a as [|c a]; [done|]. cbn in H. subst c. apply Forall_cons_iff in Hs as [Hs _]. done.
  - destruct (Z.ltb_spec (Z.of_nat k) 0); [lia|]. rewrite Nat2Z.id in *. replace (Z.to_nat (Z.of_nat k + 1)) with (S k) in * by lia.
    assert (tokens (is_in [47]) a = tokens (is_in [47]) (take k a) ++ [drop (S k) a]) as Htok.
    { rewrite Ea at 1. rewrite tokens_app. f_equal. by apply tokens_last. }
    unfold meaning. rewrite Htok. destruct (Z.eqb_spec (Z.of_nat k) 0) as [Hk|Hk].
    + replace k with 0%nat in * by lia. cbn [take app] in *. destruct (Z.eqb_spec (hd 0 a) 47) as [Hh|Hh]; [done|]. rewrite Ea in Hh. done.
    + assert (hd 0 (take k a) = hd 0 a) as ->. { destruct a as [|c a]; [done|]. destruct k; [lia|done]. }
      destruct (hd 0 a =? 47); [by rewrite walk_app|]. destruct (current_directory s); [by rewrite walk_app|done].
Qed.

Lemma parent_spec r s a : shell_ok r s -> fits_below r s a ->
  let leaf := take 127 (leaf_of a) in
  resolve_parent_and_leaf a s = Some (match parent_of r s a with Some p => if is_directory (fs s) p then Some p else None | None => None end, leaf) /\
  Forall (fun c => is_in [47] c = false) leaf /\ name_ok leaf /\
  (forall p, parent_of r s a = Some p -> is_directory (fs s) p = true -> is_dir (fs s) p /\ placed (fs s) r p).
Proof.
  intros Hs Hfit leaf. pose proof Hs as [Ht (d & names & Hd & Hdir & Hp)]. pose proof Hfit as [Hpos Hlen]. specialize (Hlen d names Hd Hp).
  assert (Forall (fun c => is_in [47] c = false) (leaf_of a)) as Hns.
  { unfold leaf_of. destruct (last_slash_spec a) as [[-> H]|(k & -> & _ & H)]; [done|]. by replace (Z.to_nat (Z.of_nat k + 1)) with (S k) by lia. }
  assert (forall p, parent_of r s a = Some p -> placed (fs s) r p) as Hpl.
  { unfold parent_of. intros p. destruct (last_slash a <? 0); [intros E; rewrite Hd in E; injection E as <-; by exists names|].
    destruct (last_slash a =? 0); [intros [= <-]; exists []; constructor|]. intros E. unfold meaning in E.
    assert (Forall (fun v => 0 < v) (take (Z.to_nat (last_slash a)) a)) as Hpos' by (by apply Forall_take).
    assert (placed (fs s) r r) as Hr by (exists []; constructor). assert (placed (fs s) r d) as Hpd by (by exists names). rewrite Hd in E.
    destruct (hd 0 (take (Z.to_nat (last_slash a)) a) =? 47).
    - pose proof (tokens_placed (fs s) r _ r Ht Hpos' Hr) as H. by rewrite E in H.
    - pose proof (tokens_placed (fs s) r _ d Ht Hpos' Hpd) as H. by rewrite E in H. }
  split; [|split; [by apply Forall_take|split]].
  - unfold resolve_parent_and_leaf, parent_of, kernel_get_current_directory, copy_leaf. change (Z.to_nat (VFS_NAME_LENGTH - 1)) with 127%nat.
    unfold leaf, leaf_of. destruct (last_slash_spec a) as [[E H]|(k & E & Ea & H)]; rewrite E.
    + cbn [Z.ltb Z.compare]. rewrite Hd. unfold is_directory. by rewrite bool_decide_true by apply Hdir.
    + destruct (Z.ltb_spec (Z.of_nat k) 0); [lia|]. assert (k < length a)%nat as Hk. { apply (f_equal length) in Ea. rewrite length_app, length_take in Ea. cbn in Ea. lia. }
      rewrite Z.min_l by lia. rewrite Nat2Z.id.
      assert ((if Z.of_nat k =? 0 then Some (vfs_root (fs s)) else resolve_arg (take k a) s) = Some (if Z.of_nat k =? 0 then Some r else meaning r s (take k a))) as ->.
      { destruct (Z.of_nat k =? 0); [by destruct (tr_root _ _ Ht) as (-> & _)|]. apply (resolve_arg_spec r s); [done|]. split; [by apply Forall_take|].
        intros d' names' Hd' Hp'. rewrite Hd in Hd'. injection Hd' as <-. rewrite (path_unique _ r d names' names Ht Hp' Hp), length_take. lia. }
      cbn [mbind option_bind]. destruct (if Z.of_nat k =? 0 then Some r else meaning r s (take k a)) as [p|]; [|done].
      unfold is_directory. destruct (decide (n_type (node_at p (fs s)) = NODE_DIRECTORY)); [by rewrite bool_decide_true|by rewrite bool_decide_false].
  - split; [|apply Forall_take; unfold leaf_of; by apply Forall_drop]. unfold leaf. rewrite length_take. change VFS_NAME_LENGTH with 128. lia.
  - intros p E Hty. specialize (Hpl p E). split; [|done]. split; [by apply (placed_used _ r Ht)|]. by apply bool_decide_eq_true in Hty.
Qed.

(** ** Creating and removing *)

(** Where an argument names a new entry: in a directory, under a name that is free. *)
Definition new_at (r : nat) (s : shell) (a : list Z) (p : nat) : Prop :=
  parent_of r s a = Some p /\ is_directory (fs s) p = true /\ take 127 (leaf_of a) <> [] /\ vfs_find_node (Some p) (take 127 (leaf_of a)) (fs s) = None.
(** Room for it. *)
Definition room (v : vfs) (p : nat) : Prop := n_count (node_at p v) < VFS_MAX_CHILDREN /\ exists i, (i < VFS_MAX_NODES)%nat /\ used i v = false.

Record grown (r : nat) (s s' : shell) (a : list Z) (type : vfs_node_type) : Prop := {
  gr_ok : shell_ok r s';
  gr_extends : extends r (fs s) (fs s');
  gr_cwd : current_directory s' = current_directory s;
  gr_new : forall p, new_at r s a p -> room (fs s) p -> screen s' = screen s /\
    exists c, new_entry r (fs s) (fs s') p c (take 127 (leaf_of a)) type;
}.
Lemma grown_same r s t a type : shell_ok r s -> (forall p, ~ new_at r s a p) -> grown r s (out t s) a type.
Proof. intros Hs Hn. constructor; [by apply ok_out|by apply extends_same, Hs|done|]. intros p Hp. by destruct (Hn p). Qed.

(** The part [mkdir] and [touch] share. *)
Lemma create_grown r s a p type full : shell_ok r s -> fits_below r s a -> next_inode (fs s) + 1 < 2 ^ 32 -> new_at r s a p ->
  exists c v1, vfs_create_node (take 127 (leaf_of a)) type (fs s) = Some (c, v1) /\
  match c with
  | None => v1 = fs s /\ (forall i, (i < VFS_MAX_NODES)%nat -> used i (fs s) = true)
  | Some i => exists res v2, vfs_add_child (Some p) (Some i) v1 = (res, v2) /\
      grown r s (if res =? 0 then with_fs v2 s else out full (with_fs v2 s)) a type
  end.
Proof.
  intros Hs Hfit Hnx Hnew. pose proof Hnew as (Hpar & Hdir & Hne & Hfree). destruct (parent_spec r s a Hs Hfit) as (_ & _ & Hname & Hpd).
  destruct (Hpd p Hpar Hdir) as [Hd _]. pose proof (so_tree r s Hs) as Ht.
  destruct (create_entry r (fs s) p _ type Ht Hd Hname Hnx Hfree) as (c & v1 & E & H). exists c, v1. split; [done|]. destruct c as [i|]; [|done].
  destruct H as (res & v2 & E2 & He & H). exists res, v2. split; [done|].
  assert (forall q, new_at r s a q -> q = p) as Hq by (intros q (Hq & _); congruence).
  destruct (Z.ltb_spec (n_count (node_at p (fs s))) VFS_MAX_CHILDREN) as [Hlt|Hge].
  - destruct H as [-> H]. cbn [Z.eqb]. constructor; [by apply ok_extends|done|done|]. intros q Hn _. rewrite (Hq q Hn). split; [done|]. by exists i.
  - rewrite H. cbn [Z.eqb]. constructor; [by apply ok_out, ok_extends|done|done|]. intros q Hn [Hc _]. rewrite (Hq q Hn) in Hc. lia.
Qed.

Lemma mkdir_spec r s a : shell_ok r s -> fits_below r s a -> next_inode (fs s) + 1 < 2 ^ 32 ->
  exists s', mkdir_one a s = Some s' /\ grown r s s' a NODE_DIRECTORY.
Proof.
  intros Hs Hfit Hnx. destruct (parent_spec r s a Hs Hfit) as (Hpar & _). unfold mkdir_one. rewrite Hpar. cbn [mbind option_bind].
  destruct (parent_of r s a) as [p|] eqn:Ep.
  2:{ eexists. split; [reflexivity|]. rewrite <- !out_app. apply grown_same; [done|]. intros q (Hq & _). congruence. }
  destruct (is_directory (fs s) p) eqn:Ed.
  2:{ eexists. split; [reflexivity|]. rewrite <- !out_app. apply grown_same; [done|]. intros q (Hq & Hq' & _). congruence. }
  destruct (take 127 (leaf_of a)) as [|x l] eqn:El.
  { eexists. split; [reflexivity|]. apply grown_same; [done|]. intros q (_ & _ & Hne & _). congruence. }
  rewrite <- El. destruct (vfs_find_node (Some p) (take 127 (leaf_of a)) (fs s)) as [f|] eqn:Ef.
  { eexists. split; [reflexivity|]. rewrite <- !out_app. apply grown_same; [done|]. intros q (Hq & _ & _ & Hf). congruence. }
  assert (new_at r s a p) as Hnew by (repeat split; [done|done|congruence|done]).
  destruct (create_grown r s a p NODE_DIRECTORY (line (str "mkdir: cannot create directory (parent full)")) Hs Hfit Hnx Hnew) as (c & v1 & -> & H).
  cbn [mbind option_bind]. destruct c as [i|].
  - destruct H as (res & v2 & -> & Hg). eexists. split; [|exact Hg]. by destruct (res =? 0).
  - destruct H as [-> Hfull]. eexists. split; [reflexivity|]. destruct s as [v d con]. constructor; [by apply ok_out|by apply extends_same, Hs|done|].
    intros q _ [_ (i & Hi & Hu)]. rewrite Hfull in Hu by done. done.
Qed.
Lemma touch_spec r s a : shell_ok r s -> fits_below r s a -> next_inode (fs s) + 1 < 2 ^ 32 ->
  exists s', touch_one a s = Some s' /\ grown r s s' a NODE_FILE.
Proof.
  intros Hs Hfit Hnx. destruct (parent_spec r s a Hs Hfit) as (Hpar & _). unfold touch_one. rewrite Hpar. cbn [mbind option_bind].
  destruct (parent_of r s a) as [p|] eqn:Ep.
  2:{ eexists. split; [reflexivity|]. rewrite <- !out_app. apply grown_same; [done|]. intros q (Hq & _). congruence. }
  destruct (is_directory (fs s) p) eqn:Ed.
  2:{ eexists. split; [reflexivity|]. rewrite <- !out_app. apply grown_same; [done|]. intros q (Hq & Hq' & _). congruence. }
  destruct (take 127 (leaf_of a)) as [|x l] eqn:El.
  { eexists. split; [reflexivity|]. apply grown_same; [done|]. intros q (_ & _ & Hne & _). congruence. }
  rewrite <- El. destruct (vfs_find_node (Some p) (take 127 (leaf_of a)) (fs s)) as [f|] eqn:Ef.
  { exists s. split; [done|]. constructor; [done|by apply extends_same, Hs|done|]. intros q (Hq & _ & _ & Hf). congruence. }
  assert (new_at r s a p) as Hnew by (repeat split; [done|done|congruence|done]).
  destruct (create_grown r s a p NODE_FILE (line (str "touch: cannot create file (directory full)")) Hs Hfit Hnx Hnew) as (c & v1 & -> & H).
  cbn [mbind option_bind]. destruct c as [i|].
  - destruct H as (res & v2 & -> & Hg). eexists. split; [|exact Hg]. by destruct (res =? 0).
  - destruct H as [-> Hfull]. eexists. split; [reflexivity|]. destruct s as [v d con]. constructor; [by apply ok_out|by apply extends_same, Hs|done|].
    intros q _ [_ (i & Hi & Hu)]. rewrite Hfull in Hu by done. done.
Qed.

(** [mkdir] and [touch] of one name. Both return whatever the argument is, keep the file
    system's shape, the current directory and every entry there was; where the argument
    names a free name in a directory and there is room, the entry is there afterwards,
    empty and of the right kind, and nothing is printed. *)
Theorem mkdir_touch_correct r s a cmd :
  shell_ok r s -> fits_below r s a -> next_inode (fs s) + 1 < 2 ^ 32 ->
  (exists s', cmd_mkdir [cmd; a] s = Some s' /\ grown r s s' a NODE_DIRECTORY) /\
  (exists s', cmd_touch [cmd; a] s = Some s' /\ grown r s s' a NODE_FILE).
Proof. intros Hs Hfit Hnx. split; [by apply mkdir_spec|by apply touch_spec]. Qed.

(** ** Writing *)

Lemma content_extends v r f c l : tree v r -> used f v = true -> 0 <= l <= VFS_MAX_FILE_SIZE ->
  extends r v (set_node f (with_length l (with_content c (node_at f v))) v).
Proof.
  intros Ht Hf Hl. constructor; [by apply tree_content|]. intros d x [[Hd Hty] Hx]. pose proof (tree_lt v r Ht f Hf) as [Hlt _].
  unfold child, is_dir, entries. rewrite !(node_at_set f) by done. repeat split; [done|..]; repeat (destruct (decide _); subst); done.
Qed.
Lemma set_node_set f n n' v : set_node f n' (set_node f n v) = set_node f n' v.
Proof. unfold set_node. cbn. by rewrite list_insert_insert_eq. Qed.

(** What a file is opened as: the entry of that name, new if there was none. *)
Lemma open_spec r v p name : tree v r -> is_dir v p -> name_ok name -> next_inode v + 1 < 2 ^ 32 ->
  exists f v', open_or_create p name v = Some (f, v') /\ extends r v v' /\
  match f with
  | Some f => child v' p f /\ n_name (node_at f v') = name /\
      match vfs_find_node (Some p) name v with Some c => f = c /\ v' = v | None => n_type (node_at f v') = NODE_FILE end
  | None => vfs_find_node (Some p) name v = None /\ ~ room v p
  end.
Proof.
  intros Ht Hd Hname Hnx. unfold open_or_create. destruct (vfs_find_node (Some p) name v) as [c|] eqn:Ef.
  { exists (Some c), v. split; [done|]. split; [by apply extends_same|].
    apply (find_iff v r p name c Ht Hd (proj2 Hname)) in Ef as [Hc En]. done. }
  destruct (create_entry r v p name NODE_FILE Ht Hd Hname Hnx Ef) as (c & v1 & -> & H). cbn [mbind option_bind]. destruct c as [i|].
  - destruct H as (res & v2 & -> & He & H). destruct (Z.ltb_spec (n_count (node_at p v)) VFS_MAX_CHILDREN).
    + destruct H as [-> [_ [Hc En] [Hty _]]]. exists (Some i), v2. done.
    + rewrite H. exists None, v2. split; [done|]. split; [exact He|]. split; [done|]. intros [Hlt _]. lia.
  - destruct H as [-> Hfull]. exists None, v. split; [done|]. split; [by apply extends_same|]. split; [done|]. intros [_ (i & Hi & Hu)]. by rewrite Hfull in Hu.
Qed.

(** The file holds exactly these bytes. *)
Record holds (v : vfs) (p f : nat) (name data : list Z) : Prop := {
  ho_child : child v p f /\ n_name (node_at f v) = name;
  ho_type : n_type (node_at f v) = NODE_FILE;
  ho_length : n_length (node_at f v) = len data;
  ho_bytes : ((fun j => byte_at (n_content (node_at f v)) j) <$> seqZ 0 (len data)) = data;
}.
Lemma rewrite_file r v p f name data : tree v r -> child v p f -> n_name (node_at f v) = name -> n_type (node_at f v) = NODE_FILE ->
  len data <= VFS_MAX_FILE_SIZE ->
  exists v1, vfs_write (Some f) 0 (len data) data v = Some (len data, v1) /\
  let v' := set_node f (with_length (u32 (len data)) (node_at f v1)) v1 in extends r v v' /\ holds v' p f name data.
Proof.
  intros Ht Hc En Hty Hl. destruct (child_facts v r Ht p f Hc) as (Hu & _). pose proof (tree_lt v r Ht f Hu) as [Hlt _].
  assert (0 <= len data <= 4096) as Hl' by (change VFS_MAX_FILE_SIZE with 4096 in Hl; lia).
  destruct (write_spec v r f 0 (len data) data Ht Hu Hty) as (v1 & E & [(c & l & -> & _ & Hb & _)]);
    [change VFS_MAX_FILE_SIZE with 4096; lia|lia|lia|]. change VFS_MAX_FILE_SIZE with 4096 in *.
  rewrite Z.sub_0_r, Z.min_l in * by lia. eexists. split; [exact E|]. cbv zeta. rewrite u32_small by (unfold is_u32; lia).
  rewrite set_node_set, node_at_set, decide_True by done. cbn [with_length with_content n_name n_type n_inode n_flags n_parent n_children n_count n_content n_ops].
  pose proof (content_extends v r f c (len data) Ht Hu ltac:(done)) as He. split; [exact He|]. destruct (ex_child _ _ _ He p f Hc) as (Hc' & En' & Hty').
  rewrite En in En'. rewrite Hty in Hty'.
  constructor; [split; [exact Hc'|exact En']|exact Hty'|..]; rewrite node_at_set, decide_True by done; cbn [with_length with_content n_length n_content]; [done|].
  rewrite Nat2Z.id, firstn_all in Hb. exact Hb.
Qed.

(** The text [write] stores: its words separated by blanks, and a newline. *)
Definition spaced (words : list (list Z)) : list Z := concat (match words with [] => [] | w :: ws => w :: (cons 32 <$> ws) end) ++ [10].
Lemma put_all l buffer : len (buffer ++ l) <= VFS_MAX_FILE_SIZE -> foldl buf_put buffer l = buffer ++ l.
Proof.
  revert buffer. induction l as [|c l IH]; intros b H; cbn [foldl]; [by rewrite app_nil_r|].
  unfold buf_put at 2. rewrite length_app in H. cbn [length] in H. destruct (Z.ltb_spec (Z.of_nat (length b)) VFS_MAX_FILE_SIZE); [|lia].
  rewrite IH; [by rewrite <- app_assoc|]. rewrite !length_app. cbn. lia.
Qed.
Lemma put_len l buffer : len buffer <= VFS_MAX_FILE_SIZE -> len (foldl buf_put buffer l) <= VFS_MAX_FILE_SIZE.
Proof.
  revert buffer. induction l as [|c l IH]; intros b H; cbn [foldl]; [done|]. apply IH. unfold buf_put.
  destruct (Z.ltb_spec (Z.of_nat (length b)) VFS_MAX_FILE_SIZE); [|done]. rewrite length_app. cbn. lia.
Qed.
Lemma payload_len words : len (write_payload words) <= VFS_MAX_FILE_SIZE.
Proof.
  assert (forall ws i b, len b <= VFS_MAX_FILE_SIZE -> len (write_words i ws b) <= VFS_MAX_FILE_SIZE) as H.
  { induction ws as [|w ws IH]; intros i b H; [done|]. cbn [write_words]. destruct (_ <? _); [|done]. apply IH, put_len.
    destruct (_ <? _)%nat; [by apply (put_len [32])|done]. }
  apply (put_len [10]), H. done.
Qed.
Lemma write_words_fit ws : forall i b, (2 < i)%nat -> len (b ++ concat (cons 32 <$> ws)) < VFS_MAX_FILE_SIZE ->
  write_words i ws b = b ++ concat (cons 32 <$> ws).
Proof.
  induction ws as [|w ws IH]; intros i b Hi H; cbn [write_words fmap list_fmap concat]; [by rewrite app_nil_r|].
  cbn [fmap list_fmap concat] in H. rewrite !length_app in H. cbn [length] in H.
  rewrite (proj2 (Z.ltb_lt _ _)) by lia. rewrite (proj2 (Nat.ltb_lt 2 i)) by lia.
  change (foldl buf_put (buf_put b 32) w) with (foldl buf_put b (32 :: w)).
  rewrite put_all by (rewrite length_app; cbn [length]; lia).
  rewrite IH; [by rewrite <- app_assoc|lia|]. rewrite !length_app. cbn [length]. lia.
Qed.
Lemma payload_spaced w ws : len (spaced (w :: ws)) <= VFS_MAX_FILE_SIZE -> write_payload (w :: ws) = spaced (w :: ws).
Proof.
  unfold spaced, write_payload. cbn [concat]. intros H. rewrite !length_app in H. cbn [length] in H.
  cbn [write_words]. change (len [] <? VFS_MAX_FILE_SIZE) with true. cbn match. change (2 <? 2)%nat with false. cbn match.
  rewrite put_all by (cbn [app]; lia). rewrite write_words_fit; [|lia|rewrite length_app; cbn [app]; lia].
  cbn [app]. change (buf_put ?b 10) with (foldl buf_put b [10]). rewrite put_all; [done|]. rewrite !length_app. cbn [length]. lia.
Qed.

(** Where [write] can store: over a file, or in a new entry. *)
Definition writable (r : nat) (s : shell) (a : list Z) (p : nat) : Prop :=
  parent_of r s a = Some p /\ is_directory (fs s) p = true /\ take 127 (leaf_of a) <> [] /\
  match vfs_find_node (Some p) (take 127 (leaf_of a)) (fs s) with Some f => n_type (node_at f (fs s)) = NODE_FILE | None => room (fs s) p end.
Record wrote (r : nat) (s s' : shell) (a data : list Z) : Prop := {
  wo_ok : shell_ok r s';
  wo_extends : extends r (fs s) (fs s');
  wo_cwd : current_directory s' = current_directory s;
  wo_data : forall p, writable r s a p -> screen s' = screen s /\ exists f, holds (fs s') p f (take 127 (leaf_of a)) data;
}.
Lemma wrote_same r s v t a data : shell_ok r s -> extends r (fs s) v -> (forall p, ~ writable r s a p) -> wrote r s (out t (with_fs v s)) a data.
Proof. intros Hs He Hn. constructor; [by apply ok_out, ok_extends|done|done|]. intros p Hp. by destruct (Hn p). Qed.
Lemma with_fs_same s : with_fs (fs s) s = s.
Proof. by destruct s. Qed.

Lemma write_file_spec r s a words : shell_ok r s -> fits_below r s a -> next_inode (fs s) + 1 < 2 ^ 32 ->
  exists s', write_file a words s = Some s' /\ wrote r s s' a (write_payload words).
Proof.
  intros Hs Hfit Hnx. destruct (parent_spec r s a Hs Hfit) as (Hpar & _ & Hname & Hpd). unfold write_file. rewrite Hpar. cbn [mbind option_bind].
  pose proof (so_tree r s Hs) as Ht. pose proof (extends_same r (fs s) Ht) as Hrefl.
  pose proof (fun t => wrote_same r s (fs s) t a (write_payload words) Hs Hrefl) as Hsame. rewrite with_fs_same in Hsame.
  destruct (parent_of r s a) as [p|] eqn:Ep.
  2:{ eexists. split; [reflexivity|]. rewrite <- !out_app. apply Hsame. intros q (Hq & _). congruence. }
  destruct (is_directory (fs s) p) eqn:Ed.
  2:{ eexists. split; [reflexivity|]. rewrite <- !out_app. apply Hsame. intros q (Hq & Hq' & _). congruence. }
  destruct (Hpd p eq_refl Ed) as [Hd _].
  destruct (take 127 (leaf_of a)) as [|x l] eqn:El.
  { eexists. split; [reflexivity|]. apply Hsame. intros q (_ & _ & Hne & _). congruence. }
  rewrite <- El in *. destruct (open_spec r (fs s) p _ Ht Hd Hname Hnx) as (f & v & Eo & He & Hf).
  destruct (match vfs_find_node _ _ _ with Some _ => _ | None => _ end) eqn:Eb.
  { eexists. split; [reflexivity|]. rewrite <- !out_app. apply Hsame. intros q (Hq & _ & _ & Hq'). assert (q = p) as -> by congruence.
    destruct (vfs_find_node (Some p) _ (fs s)) as [g|]; [|done]. by apply bool_decide_eq_true in Eb. }
  rewrite Eo. cbn [mbind option_bind]. destruct f as [f|].
  - destruct Hf as (Hc & En & Hf). assert (n_type (node_at f v) = NODE_FILE) as Hty.
    { destruct (vfs_find_node _ _ _) as [g|]; [|done]. destruct Hf as [-> ->]. apply bool_decide_eq_false in Eb. exact (dec_stable Eb). }
    destruct (rewrite_file r v p f _ (write_payload words) (ex_tree _ _ _ He) Hc En Hty (payload_len words)) as (v1 & -> & He' & Hh).
    cbn [mbind option_bind]. rewrite (proj2 (Z.ltb_ge _ _)) by lia. eexists. split; [reflexivity|].
    pose proof (extends_step _ _ _ _ He He') as He2. constructor; [by apply ok_extends|done|done|].
    intros q (Hq & _). assert (q = p) as -> by congruence. split; [done|]. by exists f.
  - eexists. split; [reflexivity|]. apply wrote_same; [done|done|]. intros q (Hq & _ & _ & Hq'). assert (q = p) as -> by congruence.
    destruct Hf as [Hf Hr]. by rewrite Hf in Hq'.
Qed.

Lemma parent_extends r s s' a p : shell_ok r s -> extends r (fs s) (fs s') -> current_directory s' = current_directory s ->
  Forall (fun v => 0 < v) a -> parent_of r s a = Some p -> parent_of r s' a = Some p.
Proof.
  intros [Ht (d & names & Hd & _ & Hp)] He Hcwd Hpos. unfold parent_of, meaning. rewrite Hcwd, Hd.
  assert (forall n, Forall (fun v => 0 < v) (take n a)) as Hpos' by (intros n; by apply Forall_take).
  destruct (_ <? _); [done|]. destruct (last_slash a =? 0); [done|]. destruct (hd 0 _ =? 47).
  - apply (extends_tokens r (fs s)); [done|done|done|]. exists []. constructor.
  - apply (extends_tokens r (fs s)); [done|done|done|]. by exists names.
Qed.

(** Reading a file back. *)
Lemma out_bytes data : forall s, foldl (fun s c => out [c] s) s data = out data s.
Proof.
  induction data as [|c data IH]; intros s; cbn [foldl]; [by destruct s|]. rewrite IH. by rewrite (out_app [c] data).
Qed.
Lemma cat_args_file a : hd 0 a <> 45 -> cat_args [a] false 0 = CatRun false 1.
Proof.
  intros H. cbn [cat_args]. rewrite decide_False by (intros [E|E]; rewrite E in H; by apply H).
  rewrite decide_False by (intros E; rewrite E in H; by apply H).
  by rewrite (proj2 (Z.eqb_neq _ _)).
Qed.
Lemma cat_spec r s a p f data cmd : shell_ok r s -> fits_below r s a -> hd 0 a <> 45 -> good_name (leaf_of a) ->
  parent_of r s a = Some p -> holds (fs s) p f (leaf_of a) data ->
  cmd_cat [cmd; a] s = Some (out data s).
Proof.
  intros Hs Hfit Hdash Hg Hpar [[Hc En] Hty Hl Hb]. pose proof (so_tree r s Hs) as Ht.
  destruct (child_facts (fs s) r Ht p f Hc) as (Hu & _). destruct (resolve_arg_spec r s a Hs Hfit) as [Hres _].
  rewrite (meaning_leaf r s a Hg), Hpar in Hres. rewrite <- En in Hg, Hres. rewrite (walk_name (fs s) r Ht p f Hc Hg) in Hres.
  pose proof (nk_length _ _ (tr_node _ _ Ht f Hu)) as Hlen. change VFS_MAX_FILE_SIZE with 4096 in Hlen.
  unfold cmd_cat. cbn [tail]. rewrite cat_args_file by done. cbn [Nat.eqb foldl mbind option_bind]. rewrite (proj2 (Z.eqb_neq _ _)) by done.
  unfold cat_file. rewrite Hres. cbn [mbind option_bind]. rewrite decide_False by (by intros []).
  rewrite (read_spec (fs s) r f 0 _ Ht Hu Hty) by lia. cbn [mbind option_bind]. rewrite (proj2 (Z.ltb_ge _ _)) by lia.
  rewrite Z.max_r, Z.min_l, Hl by lia. f_equal. rewrite out_bytes. f_equal. exact Hb.
Qed.


(** ** Removing *)

(** Where the places outside the removed entry stay. *)
Record pruned (r : nat) (v v' : vfs) (p c : nat) (name : list Z) : Prop := {
  pr_tree : tree v' r;
  pr_gone : vfs_find_node (Some p) name v' = None /\ used c v' = false;
  pr_keeps : forall d names, path_to v r d names -> ~ rtc (child v) c d -> path_to v' r d names /\ used d v' = true /\ n_type (node_at d v') = n_type (node_at d v);
}.
Lemma remove_spec r v p name c : tree v r -> is_dir v p -> Forall (fun v => 0 < v) name -> vfs_find_node (Some p) name v = Some c ->
  exists v', vfs_remove_child (Some p) name v = (0, v') /\ pruned r v v' p c name.
Proof.
  intros Ht Hp Hn Hf. destruct (removed_find v r p name c Ht Hp Hn Hf) as (v' & E & _ & _ & _ & Hnone & _).
  destruct (removed_child v r p name c Ht Hp Hn Hf) as (v2 & E2 & Ht2 & Hu & _ & _ & Hch & Hfl). assert (v2 = v') as -> by congruence.
  exists v'. split; [done|]. assert (forall d names, path_to v r d names -> ~ rtc (child v) c d -> path_to v' r d names) as Hpath.
  { induction 1 as [|d x names Hd IH Hx Hg]; intros Hnb; [constructor|]. destruct (Hfl x) as [Ex _]. rewrite <- Ex. apply (pt_child v' r d); [| |by rewrite Ex].
    - apply IH. intros Hb. apply Hnb. by eapply rtc_r.
    - apply Hch. split; [done|]. split; intros ->; apply Hnb; [by apply rtc_once|constructor]. }
  constructor; [done|done|]. intros d names Hd Hnb. pose proof (Hpath d names Hd Hnb) as Hd'. split; [done|].
  split; [by apply (placed_used v' r Ht2), (ex_intro _ names)|]. apply Hfl.
Qed.

(** What [rm] takes away: an entry of a directory, not the directory itself. *)
Definition removes (r : nat) (s : shell) (a : list Z) (p c : nat) : Prop :=
  parent_of r s a = Some p /\ is_directory (fs s) p = true /\ take 127 (leaf_of a) <> [] /\ take 127 (leaf_of a) <> [46] /\ take 127 (leaf_of a) <> [46; 46] /\
  vfs_find_node (Some p) (take 127 (leaf_of a)) (fs s) = Some c.

(** Removing an entry. [rm] takes away exactly the entry its argument names and prints
    nothing; it changes nothing when there is none, and never the directory itself
    under its names dot and dot dot. Unless the current directory is the entry or below
    it, the current directory stays where it was, and so does every place outside the
    entry. *)
Theorem rm_correct r s a cmd :
  shell_ok r s -> fits_below r s a ->
  exists s', cmd_rm [cmd; a] s = Some s' /\ current_directory s' = current_directory s /\
    ((exists p c, removes r s a p c) \/ (fs s' = fs s /\ shell_ok r s')) /\
    forall p c, removes r s a p c -> screen s' = screen s /\ pruned r (fs s) (fs s') p c (take 127 (leaf_of a)) /\
      ((forall d, current_directory s = Some d -> ~ rtc (child (fs s)) c d) -> shell_ok r s').
Proof.
  intros Hs Hfit. destruct (parent_spec r s a Hs Hfit) as (Hpar & _ & Hname & Hpd). cbn [cmd_rm tail foldl mbind option_bind].
  unfold rm_one. rewrite Hpar. cbn [mbind option_bind]. set (leaf := take 127 (leaf_of a)) in *. pose proof (so_tree r s Hs) as Ht.
  assert (forall t, (forall p c, ~ removes r s a p c) -> exists s', Some (out t s) = Some s' /\ current_directory s' = current_directory s /\
    ((exists p c, removes r s a p c) \/ (fs s' = fs s /\ shell_ok r s')) /\
    forall p c, removes r s a p c -> screen s' = screen s /\ pruned r (fs s) (fs s') p c leaf /\
      ((forall d, current_directory s = Some d -> ~ rtc (child (fs s)) c d) -> shell_ok r s')) as Hsame.
  { intros t Hn. exists (out t s). repeat (split; [done|]). split; [right; split; [done|by apply ok_out]|]. intros p c H. by destruct (Hn p c). }
  destruct (parent_of r s a) as [p|] eqn:Ep.
  2:{ rewrite <- !out_app. apply Hsame. intros q c (Hq & _). congruence. }
  destruct (is_directory (fs s) p) eqn:Ed.
  2:{ rewrite <- !out_app. apply Hsame. intros q c (Hq & Hq' & _). congruence. }
  destruct (Hpd p eq_refl Ed) as [Hd _]. destruct (decide _) as [Hl|Hl].
  { rewrite <- !out_app. apply Hsame. intros q c (_ & _ & H1 & H2 & H3 & _). fold leaf in H1, H2, H3. tauto. }
  destruct (vfs_find_node (Some p) leaf (fs s)) as [c|] eqn:Ef.
  2:{ rewrite <- !out_app. apply Hsame. intros q c (Hq & _ & _ & _ & _ & Hf). fold leaf in Hf. congruence. }
  destruct (remove_spec r (fs s) p leaf c Ht Hd (proj2 Hname) Ef) as (v' & -> & Hpr). cbn [Z.eqb]. exists (with_fs v' s).
  assert (removes r s a p c) as Hrm by (unfold removes; fold leaf; tauto).
  split; [done|]. split; [done|]. split; [left; by exists p, c|]. intros q x (Hq & _ & _ & _ & _ & Hx). fold leaf in Hx.
  assert (q = p) as -> by congruence. assert (x = c) as -> by congruence. split; [done|]. split; [done|]. intros Hnb.
  destruct Hs as [_ (d & names & Hcd & [Hud Htyd] & Hpd')]. destruct (pr_keeps _ _ _ _ _ _ Hpr d names Hpd' (Hnb d Hcd)) as (H1 & H2 & H3).
  constructor; [apply Hpr|]. exists d, names. split; [done|]. split; [|done]. split; [done|]. cbn [fs with_fs]. congruence.
Qed.

(** ** What the commands do not handle *)

(** A name that is refused because the directory is full still takes a node of the
    pool: it is used and an entry of no directory. *)
Lemma mkdir_full_leaks r s a p : shell_ok r s -> fits_below r s a -> next_inode (fs s) + 1 < 2 ^ 32 -> new_at r s a p ->
  n_count (node_at p (fs s)) = VFS_MAX_CHILDREN -> (exists i, (i < VFS_MAX_NODES)%nat /\ used i (fs s) = false) ->
  exists s' c, mkdir_one a s = Some s' /\ used c (fs s) = false /\ used c (fs s') = true /\ forall d, ~ child (fs s') d c.
Proof.
  intros Hs Hfit Hnx (Hpar & Hdir & Hne & Hf) Hfull (j & Hj & Huj). destruct (parent_spec r s a Hs Hfit) as (Hp & _ & Hname & Hpd).
  pose proof (so_tree r s Hs) as Ht. destruct (Hpd p Hpar Hdir) as [Hd _].
  unfold mkdir_one. rewrite Hp, Hpar, Hdir. cbn [mbind option_bind]. destruct (take 127 (leaf_of a)) as [|x l] eqn:El; [done|]. rewrite <- El in *. rewrite Hf.
  destruct (create_in_dir_spec (fs s) r p _ NODE_DIRECTORY Ht Hd Hname Hnx Hf) as (c & v1 & E & Ht1 & H).
  destruct (create_node_spec (fs s) r _ NODE_DIRECTORY Ht (next_pos _ r Ht) Hnx Hname) as (c' & v1' & E' & Ha). rewrite E in E'. injection E' as <- <-.
  rewrite E. cbn [mbind option_bind]. destruct c as [c|]; [|destruct H as [_ H]; by rewrite H in Huj].
  rewrite Hfull in H. change (VFS_MAX_CHILDREN <? VFS_MAX_CHILDREN) with false in H. rewrite H. cbn [Z.eqb].
  eexists _, c. split; [reflexivity|]. destruct Ha as [A1 A2 A3 A4 A5 A6 A7]. cbn [fs with_fs out].
  split; [done|]. split; [by rewrite A7, decide_True|]. intros d [Hdd Hc].
  assert (d <> c) as Hdc.
  { intros ->. destruct (child_facts v1 r Ht1 c c (conj Hdd Hc)) as (_ & _ & _ & Hcc & _). done. }
  assert (child (fs s) d c) as Hold.
  { unfold child, is_dir, entries in *. by rewrite A6, A7, !decide_False in * by done. }
  destruct (child_facts (fs s) r Ht d c Hold) as (Hu & _). congruence.
Qed.

(** [mkdir .] takes a node and an entry of the directory, but no path leads to it: the
    component dot is the directory itself. *)
Lemma dot_unreachable v d c : child v d c -> n_name (node_at c v) = [46] -> walk v d [n_name (node_at c v)] = Some d.
Proof. intros _ ->. reflexivity. Qed.

(** The current directory can be removed: its node is free afterwards and it is still
    the current directory. *)
Lemma rm_current_directory r s a p c : shell_ok r s -> fits_below r s a -> removes r s a p c -> current_directory s = Some c ->
  exists s', rm_one a s = Some s' /\ current_directory s' = Some c /\ used c (fs s') = false.
Proof.
  intros Hs Hfit (Hpar & Hdir & H1 & H2 & H3 & Hf) Hcwd. destruct (parent_spec r s a Hs Hfit) as (Hp & _ & Hname & Hpd).
  destruct (Hpd p Hpar Hdir) as [Hd _]. unfold rm_one. rewrite Hp, Hpar, Hdir. cbn [mbind option_bind]. rewrite decide_False by tauto. rewrite Hf.
  destruct (remove_spec r (fs s) p _ c (so_tree r s Hs) Hd (proj2 Hname) Hf) as (v' & -> & [_ [_ Hu] _]). by exists (with_fs v' s).
Qed.

(** ** At boot *)

Definition boot_shell : shell := Shell boot_vfs (Some 0%nat) console0.
Lemma boot_ok : shell_ok 0 boot_shell.
Proof.
  assert (vfs_init vfs_bss = Some boot_vfs) as E by (vm_compute; reflexivity). pose proof (boot_tree boot_vfs E) as Ht.
  constructor; [exact Ht|]. exists 0%nat, []. split; [reflexivity|]. split; [apply (tr_root _ _ Ht)|constructor].
Qed.
Lemma root_fits r s a : shell_ok r s -> current_directory s = Some r -> Forall (fun v => 0 < v) a -> len a + 2 < VFS_MAX_PATH_LENGTH ->
  fits_below r s a.
Proof.
  intros Hs Hd Ha Hl. split; [exact Ha|]. intros d names Hd' Hp. assert (d = r) as -> by congruence.
  assert (names = []) as -> by (apply (path_unique (fs s) r r); [apply Hs|exact Hp|constructor]). cbn. lia.
Qed.
Lemma boot_fits a : Forall (fun v => 0 < v) a -> len a + 2 < VFS_MAX_PATH_LENGTH -> fits_below 0 boot_shell a.
Proof. exact (root_fits 0 boot_shell a boot_ok eq_refl). Qed.
Lemma bytes_pos a : forallb (fun v => 0 <? v) a = true -> Forall (fun v => 0 < v) a.
Proof. intros H. apply list.Forall_forall. intros x Hx. apply Z.ltb_lt. by apply (proj1 (forallb_forall _ _) H x), list_elem_of_In. Qed.

Lemma mkdir_touch_correct_witness : exists s' c, cmd_mkdir [str "mkdir"; str "/home/a"] boot_shell = Some s' /\ child (fs s') 3 c.
Proof.
  destruct (mkdir_touch_correct 0 boot_shell (str "/home/a") (str "mkdir")) as [(s' & E & [_ _ _ H]) _].
  - exact boot_ok.
  - apply boot_fits; [by apply bytes_pos|vm_compute; reflexivity].
  - vm_compute. reflexivity.
  - destruct (H 3%nat) as (_ & c & [_ [Hc _] _]).
    + split; [vm_compute; reflexivity|]. split; [vm_compute; reflexivity|]. split; [vm_compute; discriminate|vm_compute; reflexivity].
    + split; [vm_compute; reflexivity|]. exists 20%nat. split; [unfold VFS_MAX_NODES; lia|vm_compute; reflexivity].
    + exists s', c. split; [exact E|exact Hc].
Defined.
Lemma rm_correct_witness : exists s', cmd_rm [str "rm"; str "/tmp"] boot_shell = Some s' /\ vfs_find_node (Some 0%nat) (str "tmp") (fs s') = None.
Proof.
  destruct (rm_correct 0 boot_shell (str "/tmp") (str "rm")) as (s' & E & _ & _ & H).
  - exact boot_ok.
  - apply boot_fits; [by apply bytes_pos|vm_compute; reflexivity].
  - destruct (vfs_find_node (Some 0%nat) (str "tmp") boot_vfs) as [c|] eqn:Ec; [|vm_compute in Ec; discriminate].
    destruct (H 0%nat c) as (_ & [_ [Hg _] _] & _).
    + split; [vm_compute; reflexivity|]. split; [vm_compute; reflexivity|]. split; [vm_compute; discriminate|].
      split; [vm_compute; discriminate|]. split; [vm_compute; discriminate|exact Ec].
    + exists s'. split; [exact E|exact Hg].
Defined.
