(* ===== verification/ProcCommands.v ===== *)
(** * Process commands of the shell (kernel/proc_commands.c)

    The commands on processes, on the process table, the scheduler and the screen, and
    the code of the worker threads they start. The shell runs each command in its own
    thread; a command or thread that sleeps has a definition for what it does before
    and one for what it does when it runs again. The addresses of the functions that
    are started are section variables. *)
From Stdlib Require Import String.
From S2P Require Import Prelude Mem CString Heap Proc Sched Process Devices Console Shell.
Local Close Scope string_scope.

Record pshell := PShell { system : sys; screen : console }.
Definition with_system (y : sys) (s : pshell) : pshell := PShell y (screen s).
Definition say (t : list Z) (s : pshell) : pshell := PShell (system s) (console_write t (screen s)).

(** The digits of [buf], last one first: they are written from [buf[pos - 1]] down. *)
Fixpoint dec_buf (room : nat) (v : Z) (buf : list Z) : list Z :=
  match room with
  | O => buf
  | S room => if 0 <? v / 10 then dec_buf room (v / 10) (48 + v mod 10 :: buf) else 48 + v mod 10 :: buf
  end.
Definition write_dec (v : Z) (s : pshell) : pshell := say (dec_buf 12 v []) s.
(** The blanks that [len] characters leave of [width]. *)
Definition pad (len width : Z) : list Z := replicate (Z.to_nat (width - len)) 32.
Definition write_dec_pad (v width : Z) (s : pshell) : pshell :=
  write_dec v (say (pad (len (dec_buf 12 v [])) width) s).
Definition write_str_pad (t : list Z) (width : Z) (s : pshell) : pshell := say (pad (len t) width) (say t s).

Fixpoint parse_digits (l : list Z) (v : Z) : option Z :=
  match l with
  | [] => Some v
  | c :: l => if (c <? 48) || (57 <? c) then None else parse_digits l (u32 (v * 10 + (c - 48)))
  end.
(** [None]: -1. *)
Definition parse_uint (s : option (list Z)) : option Z :=
  match s with
  | None | Some [] => None
  | Some l => parse_digits l 0
  end.

Definition ps_line (p : process) (s : pshell) : pshell :=
  let s := write_dec_pad (p_pid p) 3 (say (str "  ") s) in
  let s := write_dec_pad (p_ppid p) 4 (say (str "  ") s) in
  let s := write_str_pad (str (process_state_name (p_state p))) 8 (say (str "  ") s) in
  let s := write_dec_pad (p_priority p) 3 (say (str "  ") s) in
  let s := write_dec_pad (u32 (p_cpu_ticks p)) 10 (say (str "  ") s) in
  let s := write_str_pad (if negb (p_is_user p =? 0) then str "user" else str "kern") 5 (say (str "  ") s) in
  say [10] (say (c_string (p_name p)) (say (str "  ") s)).
Definition cmd_ps (s : pshell) : pshell :=
  let s := say ([10] ++ str "  PID  PPID  STATE     PRI  CPU(ticks)  MODE   NAME" ++ [10]) s in
  let s := say (str "  ---  ----  --------  ---  ----------  -----  ----------------" ++ [10]) s in
  let s := foldl (fun s i => if is_unused (proc (system s) i) then s else ps_line (proc (system s) i) s) s slots in
  say (str " processes" ++ [10; 10]) (write_dec (process_count (system s)) (say ([10] ++ str "  ") s)).

(** [None]: the call does not come back. *)
Definition cmd_kill (argv : list (list Z)) (s : pshell) : option pshell :=
  match argv with
  | _ :: a :: _ =>
      match parse_uint (Some a) with
      | None => Some (say (str "kill: invalid pid" ++ [10]) s)
      | Some pid =>
          if pid =? process_getpid (system s) then Some (say (str "kill: refusing to kill the shell" ++ [10]) s)
          else
            '(r, y) ← process_kill pid (system s);
            r ← r;
            let s := with_system y s in
            if r =? 0 then Some (say (str " terminated" ++ [10]) (write_dec pid (say (str "Process ") s)))
            else Some (say (str "kill: no such process" ++ [10]) s)
      end
  | _ => Some (say (str "Usage: kill <pid>" ++ [10]) s)
  end.

(** The number an optional argument gives, [dflt] without one; [None]: it is no
    number. *)
Definition arg_or (dflt : Z) (argv : list (list Z)) : option Z :=
  match argv with
  | _ :: a :: _ => parse_uint (Some a)
  | _ => Some dflt
  end.

Section Programs.
Variables (process_thread_exit user_process_trampoline worker_thread uprog_forktest uprog_hello uprog_counter : Z).

Definition spawn_one (i : Z) (s : pshell) : option (bool * pshell) :=
  let prio := u8 (PRIORITY_NORMAL + i mod 2) in
  '(p, y) ← process_create process_thread_exit (Some (str "worker")) worker_thread 3 prio (system s);
  let s := with_system y s in
  match p with
  | Some p =>
      let s := write_dec (p_pid (proc (system s) p)) (say (str "Spawned worker pid ") s) in
      Some (true, say (str ")" ++ [10]) (write_dec prio (say (str " (priority ") s)))
  | None => Some (false, say (str "spawn: process_create failed" ++ [10]) s)
  end.
Fixpoint spawn_loop (todo : list Z) (s : pshell) : option (bool * pshell) :=
  match todo with
  | [] => Some (true, s)
  | i :: todo => '(ok, s) ← spawn_one i s; if ok : bool then spawn_loop todo s else Some (false, s)
  end.
Definition cmd_spawn (argv : list (list Z)) (s : pshell) : option pshell :=
  match arg_or 2 argv with
  | None => Some (say (str "Usage: spawn [count]" ++ [10]) s)
  | Some count =>
      let count := if (count =? 0) || (8 <? count) then 2 else count in
      '(ok, s) ← spawn_loop (seqZ 0 count) s;
      if ok : bool then Some (say (str "Run 'ps' to watch them; they print concurrently." ++ [10]) s) else Some s
  end.

(** Starting a user program, with what is written when it runs and when it does not. *)
Definition launch (name : list Z) (entry : Z) (done failed : list Z) (s : pshell) : option pshell :=
  '(p, y) ← process_create_user process_thread_exit user_process_trampoline (Some name) entry PRIORITY_NORMAL (system s);
  let s := with_system y s in
  match p with
  | Some p => Some (say [10] (write_dec (p_pid (proc (system s) p)) (say done s)))
  | None => Some (say failed s)
  end.
Definition cmd_forktest (s : pshell) : option pshell :=
  launch (str "forktest") uprog_forktest (str "Launched ring 3 fork test as pid ") (str "forktest: failed to create user process" ++ [10]) s.
Definition cmd_user (s : pshell) : option pshell :=
  launch (str "uhello") uprog_hello (str "Launched ring 3 program as pid ") (str "user: failed to create user process" ++ [10]) s.
Definition cmd_counters (argv : list (list Z)) (s : pshell) : option pshell :=
  match arg_or 2 argv with
  | None => Some (say (str "Usage: counters [count]" ++ [10]) s)
  | Some count =>
      let count := if (count =? 0) || (6 <? count) then 2 else count in
      foldl (fun s _ => s ← s; launch (str "ucounter") uprog_counter (str "Launched ring 3 counter pid ") [] s) (Some s) (seqZ 0 count)
  end.
End Programs.

(** Whether the shell sleeps, and what it writes when it runs again. *)
Definition cmd_psleep (argv : list (list Z)) (s : pshell) : bool * pshell :=
  match arg_or 1000 argv with
  | None => (false, say (str "Usage: psleep [ms]" ++ [10]) s)
  | Some ms =>
      let ms := if 10000 <? ms then 10000 else ms in
      let s := say (str " ms (other processes keep running)..." ++ [10]) (write_dec ms (say (str "Shell sleeping ") s)) in
      (true, with_system (process_sleep ms (system s)) s)
  end.
Definition psleep_resume (s : pshell) : pshell := say (str "Shell awake." ++ [10]) s.

Definition cmd_sched (s : pshell) : option pshell :=
  let '(switches, ticks, counts) := scheduler_get_stats (system s) in
  let s := say ([10] ++ str "Scheduler: preemptive multilevel round-robin" ++ [10]) s in
  let s := write_dec (SCHED_QUANTUM_TICKS * 10) (say (str "  Quantum:           ") s) in
  let s := write_dec SCHED_QUANTUM_TICKS (say (str " ms (") s) in
  let s := say (str " ticks @ 100 Hz)" ++ [10]) s in
  let s := write_dec AGING_THRESHOLD (say (str "  Aging threshold:   ") s) in
  let s := say (str " ticks" ++ [10]) s in
  let s := say [10] (write_dec (u32 switches) (say (str "  Context switches:  ") s)) in
  let s := say [10] (write_dec (u32 ticks) (say (str "  Timer ticks:       ") s)) in
  high ← default None (counts !! 0%nat);
  normal ← default None (counts !! 1%nat);
  low ← default None (counts !! 2%nat);
  let s := write_dec high (say (str "  Ready queues:      high=") s) in
  let s := write_dec normal (say (str " normal=") s) in
  Some (say [10; 10] (write_dec low (say (str " low=") s))).

(** The worker threads: one round up to its sleep, and what follows the last one. *)
Definition worker_rounds (arg : Z) : Z := if (arg =? 0) || (10 <? arg) then 3 else arg.
Definition worker_round (i rounds : Z) (s : pshell) : pshell :=
  let s := write_dec (process_getpid (system s)) (say (str "[worker pid ") s) in
  let s := write_dec i (say (str "] round ") s) in
  let s := say [10] (write_dec rounds (say (str "/") s)) in
  with_system (process_sleep 150 (system s)) s.
Definition worker_end (s : pshell) : pshell :=
  say (str "] finished" ++ [10]) (write_dec (process_getpid (system s)) (say (str "[worker pid ") s)).

(** ** Numbers *)

Lemma dec_buf_spec room : forall v buf, 0 <= v < 10 ^ Z.of_nat room -> (0 < room)%nat ->
  exists ds, dec_buf room v buf = ds ++ buf /\ Forall (fun c => 48 <= c <= 57) ds /\ of_digits 10 ds = v /\
    (1 <= length ds <= room)%nat /\ (hd 0 ds = 48 -> v = 0).
Proof.
  induction room as [|room IH]; intros v buf Hv Hr; [lia|]. cbn [dec_buf]. rewrite Nat2Z.inj_succ, Z.pow_succ_r in Hv by lia.
  assert (0 <= v mod 10 < 10) as Hm by (apply Z.mod_pos_bound; lia).
  assert (digit_value (48 + v mod 10) = v mod 10) as Hd by (unfold digit_value; destruct (Z.ltb_spec (48 + v mod 10) 58); lia).
  destruct (Z.ltb_spec 0 (v / 10)) as [Hq|Hq].
  - assert (0 < room)%nat as Hr' by (destruct room; [dlia|lia]).
    destruct (IH (v / 10) (48 + v mod 10 :: buf)) as (ds & -> & Hds & Hval & Hlen & Hlead); [dlia|done|].
    exists (ds ++ [48 + v mod 10]). rewrite <- app_assoc. split; [done|]. split; [apply Forall_app; split; [done|]; constructor; [lia|constructor]|].
    rewrite of_digits_snoc, Hval, Hd, length_app. cbn [length]. split; [dlia|]. split; [lia|].
    destruct ds as [|d ds]; [cbn in Hlen; lia|]. cbn [hd app] in *. intros E. specialize (Hlead E). dlia.
  - exists [48 + v mod 10]. split; [done|]. split; [constructor; [lia|constructor]|]. unfold of_digits. cbn [foldl length hd]. rewrite Hd.
    split; [dlia|]. split; [lia|]. intros E. dlia.
Qed.

Lemma dec_buf_room room : forall v buf, (0 < room)%nat -> 0 <= v < 10 ^ Z.of_nat room -> dec_buf (S room) v buf = dec_buf room v buf.
Proof.
  induction room as [|room IH]; intros v buf Hr Hv; [lia|]. rewrite Nat2Z.inj_succ, Z.pow_succ_r in Hv by lia.
  change (dec_buf (S (S room)) v buf) with (if 0 <? v / 10 then dec_buf (S room) (v / 10) (48 + v mod 10 :: buf) else 48 + v mod 10 :: buf).
  cbn [dec_buf]. destruct (Z.ltb_spec 0 (v / 10)) as [Hq|Hq]; [|done]. destruct room as [|room]; [dlia|]. apply IH; [lia|dlia].
Qed.

Lemma parse_digits_spec l : forall v, Forall (fun c => 48 <= c <= 57) l ->
  parse_digits l (u32 v) = Some (u32 (foldl (fun a c => a * 10 + digit_value c) v l)).
Proof.
  induction l as [|c l IH]; intros v H; cbn [parse_digits foldl]; [done|]. apply Forall_cons_iff in H as [Hc H].
  rewrite (proj2 (Z.ltb_ge _ _)), (proj2 (Z.ltb_ge _ _)) by lia. cbn [orb].
  replace (u32 (u32 v * 10 + (c - 48))) with (u32 (v * 10 + digit_value c)); [by apply IH|].
  replace (digit_value c) with (c - 48) by (unfold digit_value; destruct (Z.ltb_spec c 58); lia).
  unfold u32. symmetry. by rewrite <- Z.add_mod_idemp_l, Z.mul_mod_idemp_l, Z.add_mod_idemp_l by lia.
Qed.
Lemma parse_digits_bad l : forall v, ~ Forall (fun c => 48 <= c <= 57) l -> parse_digits l v = None.
Proof.
  induction l as [|c l IH]; intros v H; cbn [parse_digits]; [by destruct H|].
  destruct (Z.ltb_spec c 48), (Z.ltb_spec 57 c); try done. cbn [orb]. apply IH. intros Hl. apply H. by constructor; [lia|].
Qed.
Lemma parse_uint_spec l : parse_uint (Some l) =
  if decide (l <> [] /\ Forall (fun c => 48 <= c <= 57) l) then Some (u32 (of_digits 10 l)) else None.
Proof.
  destruct (decide _) as [[Hne H]|H].
  - destruct l as [|c l]; [done|]. exact (parse_digits_spec (c :: l) 0 H).
  - destruct l as [|c l]; [done|]. apply parse_digits_bad. intros Hl. by apply H.
Qed.

Lemma arg_u32 argv dflt n : is_u32 dflt -> arg_or dflt argv = Some n -> is_u32 n.
Proof.
  intros Hd. destruct argv as [|x [|a argv]]; cbn [arg_or]; [by intros [= <-]..|]. rewrite parse_uint_spec. destruct (decide _); [|done].
  intros [= <-]. unfold is_u32, u32. apply Z.mod_pos_bound. lia.
Qed.

(** C37. Numbers on the command line and on the screen. [write_dec] writes a value of 32 bits
    as a decimal numeral of at most ten digits without leading zeros, which [parse_uint]
    reads back. [parse_uint] accepts exactly the nonempty strings of digits and gives
    their value modulo 2^32: a larger number is not refused. *)
Theorem write_parse_roundtrip v s l :
  is_u32 v ->
  (exists ds, write_dec v s = say ds s /\ parse_uint (Some ds) = Some v /\ (1 <= length ds <= 10)%nat /\ (hd 0 ds = 48 -> v = 0)) /\
  parse_uint (Some l) = (if decide (l <> [] /\ Forall (fun c => 48 <= c <= 57) l) then Some (u32 (of_digits 10 l)) else None).
Proof.
  intros Hv. split; [|apply parse_uint_spec].
  assert (0 <= v < 10000000000) as Hv' by (unfold is_u32 in Hv; lia).
  assert (dec_buf 12 v [] = dec_buf 10 v []) as E by (rewrite (dec_buf_room 11), (dec_buf_room 10); first [reflexivity|cbn; lia]).
  destruct (dec_buf_spec 10 v []) as (ds & Eds & Hds & Hval & Hlen & Hlead); [cbn; lia|lia|].
  exists ds. unfold write_dec. rewrite E, Eds, app_nil_r. split; [done|]. split; [|done].
  rewrite parse_uint_spec, decide_True, Hval by (split; [intros ->; cbn in Hlen; lia|done]). by rewrite u32_small.
Qed.

(** ** Processes started *)

(** One new process, and the rest of the table as it was. *)
Record new_process (prio : Z) (c i : nat) (y y' : sys) : Prop := {
  np_free : p_state (proc y i) = UNUSED;
  np_ready : p_state (proc y' i) = READY /\ p_pid (proc y' i) = next_pid y /\ p_ppid (proc y' i) = p_pid (proc y c) /\ p_priority (proc y' i) = prio;
  np_other : forall j, j <> i -> pub (proc y' j) = pub (proc y j);
  np_next : next_pid y' = next_pid y + 1;
}.
(** New processes, in the order they were made. *)
Record spawned (prio : nat -> Z) (c : nat) (y y' : sys) (l : list nat) : Prop := {
  sp_new : forall k i, l !! k = Some i -> p_state (proc y i) = UNUSED /\ p_state (proc y' i) = READY /\
    p_pid (proc y' i) = next_pid y + Z.of_nat k /\ p_ppid (proc y' i) = p_pid (proc y c) /\ p_priority (proc y' i) = prio k;
  sp_other : forall j, j ∉ l -> pub (proc y' j) = pub (proc y j);
  sp_next : next_pid y' = next_pid y + len l;
}.
Lemma spawned_none prio c y : spawned prio c y y [].
Proof. constructor; [intros k i; by rewrite lookup_nil|done|cbn; lia]. Qed.
Lemma spawned_one prio c y y1 y2 l i : p_state (proc y c) <> UNUSED -> spawned prio c y y1 l -> new_process (prio (length l)) c i y1 y2 ->
  spawned prio c y y2 (l ++ [i]).
Proof.
  intros Hc [S1 S2 S3] [N1 (N2 & N3 & N4 & N5) N6 N7].
  assert (forall k j, l !! k = Some j -> j <> i) as Hl.
  { intros k j Hj ->. destruct (S1 k i Hj) as (_ & H & _). congruence. }
  assert (i ∉ l) as Hi by (intros H; apply list_elem_of_lookup in H as [k Hk]; by apply (Hl k i Hk)).
  assert (c ∉ l) as Hcl by (intros H; apply list_elem_of_lookup in H as [k Hk]; by destruct (S1 k c Hk)).
  constructor.
  - intros k j Hj. apply lookup_snoc_Some in Hj as [[Hk Hj]|[-> <-]].
    + destruct (S1 k j Hj) as (F1 & F2 & F3 & F4 & F5). destruct (pub_fields _ _ (N6 j (Hl k j Hj))) as (-> & -> & -> & -> & _). done.
    + destruct (pub_fields _ _ (S2 i Hi)) as (_ & _ & Hst & _), (pub_fields _ _ (S2 c Hcl)) as (Hpc & _). rewrite N2, N3, N4, N5, S3, Hpc. by rewrite <- Hst.
  - intros j Hj. rewrite not_elem_of_app, list_elem_of_singleton in Hj. destruct Hj as [Hj Hji]. rewrite N6 by done. by apply S2.
  - rewrite N7, S3, length_app. cbn. lia.
Qed.

Section Start.
Context (base size : Z) (other : gmap Z Z) (te tr : Z).

Lemma create_new name entry arg prio y qs c : proc_inv base size other y qs c -> entry <> 0 -> level prio -> next_pid y + 1 < 2 ^ 32 ->
  exists r y' qs', process_create te (Some name) entry arg prio y = Some (r, y') /\ proc_inv base size other y' qs' c /\
  match r with Some i => new_process prio c i y y' | None => next_pid y' = next_pid y /\ forall j, proc y' j = proc y j end.
Proof.
  intros Hi He Hl Hn. destruct (create_proc_spec base size other te (Some name) entry arg prio y qs c Hi He Hl Hn) as (r & y' & E & H).
  destruct r as [i|]; [|destruct H as (H1 & H2 & H3 & _); by exists None, y', qs].
  destruct H as [(_ & _ & Hu) Hi' (stack & Hp & _) Ho Hx]. exists (Some i), y', (push prio i qs). split; [done|]. split; [done|].
  destruct (pub_fields _ _ Hp) as (F1 & F2 & F3 & F4 & _). by constructor.
Qed.
Lemma create_user_new name entry prio y qs c : proc_inv base size other y qs c -> tr <> 0 -> level prio -> next_pid y + 1 < 2 ^ 32 ->
  exists r y' qs', process_create_user te tr (Some name) entry prio y = Some (r, y') /\ proc_inv base size other y' qs' c /\
  match r with Some i => new_process prio c i y y' | None => next_pid y' = next_pid y /\ forall j, proc y' j = proc y j end.
Proof.
  intros Hi Ht Hl Hn. destruct (create_user_spec base size other te tr (Some name) entry prio y qs c Hi Ht Hl Hn) as (r & y' & E & H).
  destruct r as [i|]; [|destruct H as (H1 & H2 & H3); by exists None, y', qs].
  destruct H as (Hi' & _ & Hu & Ho & Hx & (ks & us & Hp & _)). exists (Some i), y', (push prio i qs). split; [done|]. split; [done|].
  destruct (pub_fields _ _ Hp) as (F1 & F2 & F3 & F4 & _). by constructor.
Qed.
Lemma spawned_unchanged prio c y y1 y2 l : spawned prio c y y1 l -> next_pid y2 = next_pid y1 -> (forall j, proc y2 j = proc y1 j) -> spawned prio c y y2 l.
Proof. intros [S1 S2 S3] Hn Hp. constructor; [|intros j Hj; rewrite Hp; by apply S2|congruence]. intros k i Hk. rewrite Hp. by apply S1. Qed.

Context (worker : Z) (Hw : worker <> 0) (y : sys) (c : nat) (Hc : p_state (proc y c) <> UNUSED).

(** The loop of [spawn] goes on until a process cannot be made. *)
Lemma spawn_loop_spec n : forall k l s qs, proc_inv base size other (system s) qs c -> spawned (fun k => 1 + Z.of_nat k mod 2) c y (system s) l ->
  k = len l -> next_pid y + k + Z.of_nat n < 2 ^ 32 ->
  exists ok s' l' qs', spawn_loop te worker (seqZ k (Z.of_nat n)) s = Some (ok, s') /\ proc_inv base size other (system s') qs' c /\
    spawned (fun k => 1 + Z.of_nat k mod 2) c y (system s') l' /\ len l' <= k + Z.of_nat n /\ (ok = true -> len l' = k + Z.of_nat n).
Proof.
  induction n as [|n IH]; intros k l s qs Hi Hs Hk Hn.
  { exists true, s, l, qs. split; [done|]. split; [done|]. split; [done|]. lia. }
  rewrite seqZ_cons by lia. cbn [spawn_loop]. unfold spawn_one.
  assert (0 <= k mod 2 < 2) as Hm by (apply Z.mod_pos_bound; lia).
  assert (u8 (PRIORITY_NORMAL + k mod 2) = 1 + k mod 2) as -> by (unfold u8, PRIORITY_NORMAL; apply Z.mod_small; lia).
  destruct (create_new (str "worker") worker 3 (1 + k mod 2) (system s) qs c Hi Hw) as (r & y' & qs' & -> & Hi' & Hr);
    [unfold level; lia|rewrite (sp_next _ _ _ _ _ Hs); lia|]. cbn [mbind option_bind]. destruct r as [i|]; cbn [mbind option_bind].
  - replace (Z.pred (Z.of_nat (S n))) with (Z.of_nat n) by lia. change (Z.succ k) with (k + 1).
    edestruct (IH (k + 1) (l ++ [i])) as (ok & s' & l' & qs2 & E & Hi2 & Hs2 & Hl & Hok); cycle 4.
    { exists ok, s', l', qs2. split; [exact E|]. split; [done|]. split; [done|]. split; [lia|]. intros Hyes. specialize (Hok Hyes). lia. }
    + exact Hi'.
    + apply (spawned_one _ _ _ (system s)); [done|done|]. by rewrite <- Hk.
    + rewrite length_app. cbn. lia.
    + lia.
  - destruct Hr as [Hr1 Hr2]. eexists false, _, l, qs'. split; [reflexivity|]. split; [exact Hi'|].
    split; [by apply (spawned_unchanged _ _ _ (system s))|]. split; [lia|done].
Qed.
End Start.

Section User.
Context (base size : Z) (other : gmap Z Z) (te tr : Z) (Htr : tr <> 0).

Lemma launch_spec name entry done failed s qs c : proc_inv base size other (system s) qs c -> next_pid (system s) + 1 < 2 ^ 32 ->
  exists s' qs' , launch te tr name entry done failed s = Some s' /\ proc_inv base size other (system s') qs' c /\
  ((exists i, new_process PRIORITY_NORMAL c i (system s) (system s')) \/
   (next_pid (system s') = next_pid (system s) /\ forall j, proc (system s') j = proc (system s) j)).
Proof.
  intros Hi Hn. destruct (create_user_new base size other te tr name entry PRIORITY_NORMAL (system s) qs c Hi Htr) as (r & y' & qs' & E & Hi' & Hr);
    [done|done|]. unfold launch. rewrite E. cbn [mbind option_bind]. destruct r as [i|]; eexists _, qs'.
  - split; [reflexivity|]. split; [exact Hi'|]. left. exists i. exact Hr.
  - split; [reflexivity|]. split; [exact Hi'|]. right. exact Hr.
Qed.
Lemma counters_spec entry done y c : p_state (proc y c) <> UNUSED -> forall todo l s qs,
  proc_inv base size other (system s) qs c -> spawned (fun _ => PRIORITY_NORMAL) c y (system s) l ->
  next_pid y + len l + len (todo : list Z) < 2 ^ 32 ->
  exists s' l' qs', foldl (fun s _ => s ← s; launch te tr (str "ucounter") entry done [] s) (Some s) todo = Some s' /\
    proc_inv base size other (system s') qs' c /\ spawned (fun _ => PRIORITY_NORMAL) c y (system s') l' /\ len l' <= len l + len todo.
Proof.
  intros Hc. induction todo as [|x todo IH]; intros l s qs Hi Hs Hn.
  { exists s, l, qs. split; [done|]. split; [done|]. split; [done|]. cbn. lia. }
  cbn [length] in Hn. destruct (launch_spec (str "ucounter") entry done [] s qs c Hi) as (s1 & qs1 & E & Hi1 & Hr); [rewrite (sp_next _ _ _ _ _ Hs); lia|].
  cbn [foldl mbind option_bind]. rewrite E. destruct Hr as [[i Hr]|[Hr1 Hr2]].
  - destruct (IH (l ++ [i]) s1 qs1 Hi1) as (s' & l' & qs' & -> & H1 & H2 & H3); [by apply (spawned_one _ _ _ (system s))|rewrite length_app; cbn; lia|].
    rewrite length_app in H3. cbn [length] in *. exists s', l', qs'. split; [done|]. split; [done|]. split; [done|]. lia.
  - destruct (IH l s1 qs1 Hi1) as (s' & l' & qs' & -> & H1 & H2 & H3); [by apply (spawned_unchanged _ _ _ (system s))|lia|].
    exists s', l', qs'. split; [done|]. split; [done|]. split; [done|]. cbn. lia.
Qed.
End User.

(** ** Killing *)

Lemma kill_other base size other y qs c pid : proc_inv base size other y qs c -> pid <> p_pid (proc y c) ->
  exists r y' qs' c', process_kill pid y = Some (Some r, y') /\ proc_inv base size other y' qs' c' /\
  if r =? 0 then exists i, process_by_pid pid y = Some i /\ p_state (proc y' i) = ZOMBIE /\ p_exit_code (proc y' i) = -1
  else y' = y /\ (pid = 0 \/ forall i, process_by_pid pid y = Some i -> p_state (proc y i) = ZOMBIE).
Proof.
  intros Hi Hne. destruct (kill_inv base size other y qs c pid Hi) as (r & y' & qs' & c' & E & Hi' & Hr).
  pose proof (co_current _ _ _ (proj1 (pv_sched _ _ _ _ _ _ Hi))) as Hcur.
  rewrite E. unfold process_kill in E. destruct (Z.eqb_spec pid 0) as [E0|E0].
  { injection E as <- <-. exists (-1), y, qs, c. split; [done|]. split; [done|]. by split; [|left]. }
  destruct (process_by_pid pid y) as [i|] eqn:Ei.
  2:{ injection E as <- <-. exists (-1), y, qs, c. split; [done|]. split; [done|]. by split; [|right]. }
  destruct (by_pid_spec _ _ _ Ei) as (Hlt & Hu & Hpid).
  destruct (_ || _) eqn:Eb.
  { injection E as <- <-. exists (-1), y, qs, c. split; [done|]. split; [done|]. split; [done|]. right. intros j [= <-].
    apply orb_true_iff in Eb as [Eb|Eb]; apply bool_decide_eq_true in Eb; congruence. }
  rewrite Hcur in E. destruct (bool_decide_reflect (Some i = Some c)) as [Ec|Ec]; [congruence|].
  destruct (scheduler_dequeue (Some i) y) as [y1|]; [|done]. injection E as <- <-. exists 0. eexists _, qs', c'. split; [done|]. split; [done|].
  by apply Hr.
Qed.

Lemma kill_spec base size other s qs c argv :
  proc_inv base size other (system s) qs c ->
  exists s' qs' c', cmd_kill argv s = Some s' /\ proc_inv base size other (system s') qs' c' /\
    ((exists cmd a rest pid i, argv = cmd :: a :: rest /\ parse_uint (Some a) = Some pid /\ pid <> p_pid (proc (system s) c) /\
       process_by_pid pid (system s) = Some i /\ p_state (proc (system s') i) = ZOMBIE /\ p_exit_code (proc (system s') i) = -1 /\
       screen s' = screen (say (str " terminated" ++ [10]) (write_dec pid (say (str "Process ") s)))) \/
     (system s' = system s /\
      forall cmd a rest pid i, argv = cmd :: a :: rest -> parse_uint (Some a) = Some pid -> process_by_pid pid (system s) = Some i ->
        pid = 0 \/ pid = p_pid (proc (system s) c) \/ p_state (proc (system s) i) = ZOMBIE)).
Proof.
  intros Hi. pose proof (co_current _ _ _ (proj1 (pv_sched _ _ _ _ _ _ Hi))) as Hcur.
  destruct argv as [|cmd [|a rest]].
  1,2: eexists _, qs, c; split; [reflexivity|]; split; [exact Hi|]; right; split; [done|]; by intros.
  cbn [cmd_kill]. destruct (parse_uint (Some a)) as [pid|] eqn:Ep.
  2:{ eexists _, qs, c. split; [reflexivity|]. split; [exact Hi|]. right. split; [done|]. intros ? ? ? ? ? [= <- <- <-] ?. congruence. }
  unfold process_getpid. rewrite Hcur. destruct (Z.eqb_spec pid (p_pid (proc (system s) c))) as [E|E].
  { eexists _, qs, c. split; [reflexivity|]. split; [exact Hi|]. right. split; [done|]. intros ? ? ? pid' ? [= <- <- <-] Ep' _. right. left. congruence. }
  destruct (kill_other base size other (system s) qs c pid Hi E) as (r & y' & qs' & c' & -> & Hi' & Hr). cbn [mbind option_bind].
  destruct (r =? 0).
  - destruct Hr as (i & H1 & H2 & H3). eexists _, qs', c'. split; [reflexivity|]. split; [exact Hi'|]. left. exists cmd, a, rest, pid, i.
    split; [reflexivity|]. split; [exact Ep|]. split; [exact E|]. split; [exact H1|]. split; [exact H2|]. split; [exact H3|].
    unfold write_dec, say, with_system. cbn [screen]. reflexivity.
  - destruct Hr as [-> Hr]. eexists _, qs', c'. split; [reflexivity|]. split; [exact Hi'|]. right. split; [done|].
    intros ? ? ? pid' i [= <- <- <-] Ep' Hb. assert (pid' = pid) as -> by congruence. destruct Hr as [Hr|Hr]; [by left|]. right. right. by apply Hr.
Qed.

(** [kill]. It returns whatever its argument is, never kills the shell itself, and keeps
    the processes in order. For a number that is the pid of another live process, that
    process is a zombie with exit code -1 afterwards; in every other case no process
    changes. *)
Theorem kill_correct base size other s qs c argv :
  proc_inv base size other (system s) qs c ->
  exists s' qs' c', cmd_kill argv s = Some s' /\ proc_inv base size other (system s') qs' c' /\
    ((exists cmd a rest pid i, argv = cmd :: a :: rest /\ parse_uint (Some a) = Some pid /\ pid <> p_pid (proc (system s) c) /\
       process_by_pid pid (system s) = Some i /\ p_state (proc (system s') i) = ZOMBIE /\ p_exit_code (proc (system s') i) = -1 /\
       screen s' = screen (say (str " terminated" ++ [10]) (write_dec pid (say (str "Process ") s)))) \/
     (system s' = system s /\
      forall cmd a rest pid i, argv = cmd :: a :: rest -> parse_uint (Some a) = Some pid -> process_by_pid pid (system s) = Some i ->
        pid = 0 \/ pid = p_pid (proc (system s) c) \/ p_state (proc (system s) i) = ZOMBIE)).
Proof. apply kill_spec. Qed.

Lemma spawn_spec base size other te worker s qs c argv :
  proc_inv base size other (system s) qs c -> worker <> 0 -> next_pid (system s) + 8 < 2 ^ 32 ->
  exists s' qs' l, cmd_spawn te worker argv s = Some s' /\ proc_inv base size other (system s') qs' c /\
    spawned (fun k => 1 + Z.of_nat k mod 2) c (system s) (system s') l /\
    match arg_or 2 argv with
    | None => l = []
    | Some n => len l <= (if decide (1 <= n <= 8) then n else 2)
    end.
Proof.
  intros Hi Hw Hn. assert (p_state (proc (system s) c) <> UNUSED) as Hc.
  { destruct Hi as [[_ Hr] _ _ _ _]. congruence. }
  unfold cmd_spawn. destruct (arg_or 2 argv) as [n|] eqn:Ea.
  2:{ eexists _, qs, []. split; [reflexivity|]. split; [exact Hi|]. split; [apply spawned_none|done]. }
  set (count := if (n =? 0) || (8 <? n) then 2 else n).
  pose proof (arg_u32 argv 2 n ltac:(done) Ea) as [Hn0 _].
  assert (count = if decide (1 <= n <= 8) then n else 2) as <-.
  { unfold count. destruct (Z.eqb_spec n 0), (Z.ltb_spec 8 n), (decide (1 <= n <= 8)); cbn [orb]; lia. }
  assert (0 <= count <= 8) as Hcount by (unfold count; destruct (Z.eqb_spec n 0), (Z.ltb_spec 8 n); cbn [orb]; lia).
  destruct (spawn_loop_spec base size other te worker Hw (system s) c Hc (Z.to_nat count) 0 [] s qs Hi) as (ok & s' & l & qs' & E & Hi' & Hs & Hl & _);
    [apply spawned_none|done|lia|]. rewrite Z2Nat.id in E, Hl by lia. rewrite E. cbn [mbind option_bind].
  destruct ok; eexists _, qs', l; (split; [reflexivity|split; [exact Hi'|split; [exact Hs|lia]]]).
Qed.

(** [spawn]. It starts the number of workers it is asked for, from one to eight, two
    when it is asked for none or more: each in a free slot, ready, with the next pid, the
    shell as parent and normal and low priority in turn. It stops at the first one that
    cannot be made. No other process changes. *)
Theorem spawn_correct base size other te worker s qs c argv :
  proc_inv base size other (system s) qs c -> worker <> 0 -> next_pid (system s) + 8 < 2 ^ 32 ->
  exists s' qs' l, cmd_spawn te worker argv s = Some s' /\ proc_inv base size other (system s') qs' c /\
    spawned (fun k => 1 + Z.of_nat k mod 2) c (system s) (system s') l /\
    match arg_or 2 argv with
    | None => l = []
    | Some n => len l <= (if decide (1 <= n <= 8) then n else 2)
    end.
Proof. apply spawn_spec. Qed.

(** ** All commands *)

(** What the shell calls for the handlers of proc_commands.c. *)
Definition proc_command (te tr worker forktest hello counter : Z) (h : command_handler) (argv : list (list Z)) (s : pshell) : option pshell :=
  match h with
  | h_ps => Some (cmd_ps s)
  | h_kill => cmd_kill argv s
  | h_spawn => cmd_spawn te worker argv s
  | h_forktest => cmd_forktest te tr forktest s
  | h_user => cmd_user te tr hello s
  | h_counters => cmd_counters te tr counter argv s
  | h_psleep => Some (snd (cmd_psleep argv s))
  | h_sched => cmd_sched s
  | _ => Some s
  end.

Lemma say_system t s : system (say t s) = system s.
Proof. reflexivity. Qed.
Lemma dec_system v s : system (write_dec v s) = system s.
Proof. reflexivity. Qed.
Lemma ps_system s : system (cmd_ps s) = system s.
Proof.
  assert (forall l s, system (foldl (fun s i => if is_unused (proc (system s) i) then s else ps_line (proc (system s) i) s) s l) = system s) as H.
  { induction l as [|i l IH]; intros x; cbn [foldl]; [reflexivity|]. rewrite IH. by destruct (is_unused _). }
  unfold cmd_ps. by rewrite say_system, dec_system, say_system, H, !say_system.
Qed.
Lemma sched_spec s qs : queues (system s) qs -> exists s', cmd_sched s = Some s' /\ system s' = system s.
Proof.
  intros Hq. unfold cmd_sched. rewrite (get_stats_spec (system s) qs Hq). cbn [lookup list_lookup default id from_option mbind option_bind].
  eexists. split; [reflexivity|]. done.
Qed.
Lemma sleep_safe base size other y qs c ms : proc_inv base size other y qs c -> c <> 0%nat ->
  exists qs' c', proc_inv base size other (process_sleep ms y) qs' c'.
Proof.
  intros Hi Hc. destruct (decide (ms = 0)) as [->|Hms]; [exact (yield_inv base size other y qs c Hi)|].
  destruct (sleep_inv base size other y qs c ms Hi Hc Hms) as (qs' & c' & H & _). by exists qs', c'.
Qed.

(** C25. Every process command, whatever its arguments, comes back (or, for [psleep], leaves
    the shell asleep) and keeps the process table, the ready queues, the pids and the
    ownership of the stacks in order. *)
Theorem proc_commands_safe base size other te tr worker forktest hello counter h argv s qs c :
  proc_inv base size other (system s) qs c -> c <> 0%nat -> tr <> 0 -> worker <> 0 -> next_pid (system s) + 8 < 2 ^ 32 ->
  exists s' qs' c', proc_command te tr worker forktest hello counter h argv s = Some s' /\ proc_inv base size other (system s') qs' c'.
Proof.
  intros Hi Hc Htr Hw Hn. assert (p_state (proc (system s) c) <> UNUSED) as Hcu by (destruct Hi as [[_ Hr] _ _ _ _]; congruence).
  destruct h; cbn [proc_command]; try (by exists s, qs, c).
  - exists (cmd_ps s), qs, c. split; [done|]. by rewrite ps_system.
  - destruct (kill_spec base size other s qs c argv Hi) as (s' & qs' & c' & E & Hi' & _). by exists s', qs', c'.
  - destruct (spawn_spec base size other te worker s qs c argv Hi Hw Hn) as (s' & qs' & l & E & Hi' & _). by exists s', qs', c.
  - destruct (launch_spec base size other te tr Htr (str "forktest") forktest (str "Launched ring 3 fork test as pid ") (str "forktest: failed to create user process" ++ [10]) s qs c Hi)
      as (s' & qs' & E & Hi' & _); [lia|]. by exists s', qs', c.
  - destruct (launch_spec base size other te tr Htr (str "uhello") hello (str "Launched ring 3 program as pid ") (str "user: failed to create user process" ++ [10]) s qs c Hi)
      as (s' & qs' & E & Hi' & _); [lia|]. by exists s', qs', c.
  - unfold cmd_counters. destruct (arg_or 2 argv) as [n|] eqn:Ea; [|eexists _, qs, c; split; [reflexivity|exact Hi]].
    set (count := if (n =? 0) || (6 <? n) then 2 else n). pose proof (arg_u32 argv 2 n ltac:(done) Ea) as [Hn0 _].
    assert (0 <= count <= 6) as Hcount by (unfold count; destruct (Z.eqb_spec n 0), (Z.ltb_spec 6 n); cbn [orb]; lia).
    destruct (counters_spec base size other te tr Htr counter (str "Launched ring 3 counter pid ") (system s) c Hcu (seqZ 0 count) [] s qs Hi)
      as (s' & l & qs' & E & Hi' & _); [apply spawned_none|rewrite length_seqZ; cbn; lia|]. by exists s', qs', c.
  - unfold cmd_psleep. destruct (arg_or 1000 argv) as [n|]; [|exists (snd (false, say (str "Usage: psleep [ms]" ++ [10]) s)), qs, c; split; [reflexivity|exact Hi]].
    cbv zeta. cbn [snd]. set (ms := if 10000 <? n then 10000 else n). destruct (sleep_safe base size other (system s) qs c ms Hi Hc) as (qs' & c' & H).
    eexists _, qs', c'. split; [reflexivity|exact H].
  - destruct (sched_spec s qs) as (s' & -> & E); [apply Hi|]. exists s', qs, c. split; [done|]. by rewrite E.
Qed.

(** How long [psleep] and the workers sleep: the process that runs is asleep until the
    next tick at which the milliseconds have passed, ten to a tick, and another process
    runs. *)
Theorem sleep_commands_correct base size other s qs c i rounds ms a cmd :
  proc_inv base size other (system s) qs c -> c <> 0%nat -> parse_uint (Some a) = Some ms -> 0 < ms <= 10000 ->
  let asleep s' d := exists qs' c', proc_inv base size other (system s') qs' c' /\ c' <> c /\ p_state (proc (system s') c) = SLEEPING /\
    p_sleep_until (proc (system s') c) = u64 (timer_ticks (system s) + d) in
  asleep (worker_round i rounds s) 15 /\ asleep (snd (cmd_psleep [cmd; a] s)) ((ms + 9) / 10).
Proof.
  intros Hi Hc Ha Hms asleep.
  assert (forall m, 0 < m <= 10000 -> exists qs' c', proc_inv base size other (process_sleep m (system s)) qs' c' /\ c' <> c /\
    p_state (proc (process_sleep m (system s)) c) = SLEEPING /\ p_sleep_until (proc (process_sleep m (system s)) c) = u64 (timer_ticks (system s) + (m + 9) / 10)) as H.
  { intros m Hm. destruct (sleep_inv base size other (system s) qs c m Hi Hc) as (qs' & c' & H1 & H2 & v & H3); [lia|].
    exists qs', c'. split; [done|]. split; [done|]. rewrite (u32_small (m + 9)) in H3 by (unfold is_u32; lia).
    destruct (pub_fields _ _ H3) as (_ & _ & -> & _ & _ & _ & _ & _ & _ & -> & _). done. }
  split; [exact (H 150 ltac:(lia))|]. unfold cmd_psleep. cbn [arg_or]. rewrite Ha. cbv zeta. cbn [snd].
  rewrite (proj2 (Z.ltb_ge _ _)) by lia. exact (H ms Hms).
Qed.

(** ** Examples *)

Lemma write_parse_roundtrip_witness : exists ds, write_dec 4207 (PShell run2 console0) = say ds (PShell run2 console0) /\
  parse_uint (Some ds) = Some 4207 /\ parse_uint (Some (str "4294967301")) = Some 5.
Proof.
  destruct (write_parse_roundtrip 4207 (PShell run2 console0) (str "4294967301")) as [(ds & E & H & _) Hp].
  - vm_compute. split; [discriminate|reflexivity].
  - exists ds. split; [exact E|]. split; [exact H|]. rewrite Hp. vm_compute. reflexivity.
Defined.

Lemma run3_inv : exists qs, proc_inv 0x100000 0x20000 ∅ run3 qs 1.
Proof.
  destruct small_steps as (_ & _ & S3 & _). destruct (run_inv run3) as (qs & c & H & E).
  - transitivity run2; [exact (proj1 small_trace)|exact S3].
  - assert (current_process run3 = Some 1%nat) as E' by (vm_compute; reflexivity). rewrite E' in E. injection E as <-. by exists qs.
Qed.
Definition demo_shell : pshell := PShell run3 console0.
#[local] Opaque run3.

Lemma kill_correct_witness : exists s' i, cmd_kill [str "kill"; str "2"] demo_shell = Some s' /\ p_state (proc (system s') i) = ZOMBIE.
Proof.
  destruct run3_inv as [qs Hi]. destruct (kill_correct 0x100000 0x20000 ∅ demo_shell qs 1 [str "kill"; str "2"]) as (s' & qs' & c' & E & _ & H).
  - exact Hi.
  - destruct H as [(_ & _ & _ & _ & i & _ & _ & _ & _ & H & _)|[_ H]].
    + exists s', i. split; [exact E|exact H].
    + exfalso. destruct (H (str "kill") (str "2") [] 2 2%nat) as [H'|[H'|H']]; try (vm_compute in H'; discriminate); vm_compute; reflexivity.
Defined.
Lemma spawn_correct_witness : exists s' l, cmd_spawn 0x5000 0x6000 [str "spawn"; str "1"] demo_shell = Some s' /\
  spawned (fun k => 1 + Z.of_nat k mod 2) 1 run3 (system s') l.
Proof.
  destruct run3_inv as [qs Hi]. destruct (spawn_correct 0x100000 0x20000 ∅ 0x5000 0x6000 demo_shell qs 1 [str "spawn"; str "1"]) as (s' & qs' & l & E & _ & H & _).
  - exact Hi.
  - lia.
  - vm_compute. reflexivity.
  - exists s', l. split; [exact E|exact H].
Defined.
Lemma proc_commands_safe_witness : exists s', proc_command 0x5000 0x5100 0x6000 0x7000 0x7100 0x7200 h_user [str "user"] demo_shell = Some s'.
Proof.
  destruct run3_inv as [qs Hi].
  destruct (proc_commands_safe 0x100000 0x20000 ∅ 0x5000 0x5100 0x6000 0x7000 0x7100 0x7200 h_user [str "user"] demo_shell qs 1) as (s' & _ & _ & E & _).
  - exact Hi.
  - lia.
  - lia.
  - lia.
  - vm_compute. reflexivity.
  - exists s'. exact E.
Defined.
Lemma sleep_commands_correct_witness : p_state (proc (system (snd (cmd_psleep [str "psleep"; str "25"] demo_shell))) 1) = SLEEPING.
Proof.
  destruct run3_inv as [qs Hi]. destruct (sleep_commands_correct 0x100000 0x20000 ∅ demo_shell qs 1 1 3 25 (str "25") (str "psleep")) as [_ (_ & _ & _ & _ & H & _)].
  - exact Hi.
  - lia.
  - vm_compute. reflexivity.
  - lia.
  - exact H.
Defined.
