(* ===== verification/SysCommands.v ===== *)
(** * System commands of the shell (kernel/commands.c)

    The commands that report on the system and those that exercise a component, each on
    the state of the component and the screen. Numbers that go through [itoa] are
    written to a 16-byte array of the stack at [buf]; the bytes of a local array that is
    read before it is written are an argument. *)
From Stdlib Require Import String.
From S2P Require Import Prelude Mem CString Pmm Heap Ipc Devices Console Traps Network Smp Gui Script Shell Commands.
Local Close Scope string_scope.

Definition say (t : list Z) (con : console) : console := console_write t con.

(** ** Reports *)

Definition help_line (con : console) (c : shell_command_t) : console :=
  let con := say (c_name c) (say (str "  ") con) in
  let con := for_range (len (c_name c)) 12 (fun _ con => say (str " ") con) con in
  say [10] (say (c_description c) (say (str "- ") con)).
Definition cmd_help (commands : list shell_command_t) (con : console) : console :=
  let con := say ([10] ++ line (str "Available Commands:")) con in
  let con := say (line (str "===================") ++ [10]) con in
  say [10] (foldl help_line con commands).

(** [print_number]. *)
Definition say_number (value : Z) (con : console) : console :=
  say (if value =? 0 then [48] else number_loop 10 value []) con.

(** The parts [cmd_uptime] splits the milliseconds into. *)
Record uptime := Uptime { days : Z; hours : Z; minutes : Z; seconds : Z; milliseconds : Z }.
Definition split_uptime (uptime_ms : Z) : uptime :=
  let uptime_ms_low := u32 uptime_ms in
  let total_seconds := uptime_ms_low / 1000 in
  Uptime (total_seconds / 86400) ((total_seconds / 3600) mod 24) ((total_seconds / 60) mod 60) (total_seconds mod 60)
    (uptime_ms_low mod 1000).
(** One unit, when it is shown, and a leading zero. *)
Definition say_unit (show : bool) (v : Z) (plural : bool) (name : list Z) (con : console) : console :=
  if show then
    let con := say name (say_number v con) in
    say (str ", ") (if plural then say (str "s") con else con)
  else con.
Definition zero_if (b : bool) (con : console) : console := if b then console_put_char 48 con else con.
Definition cmd_uptime (t : timer) (con : console) : console :=
  let u := split_uptime (timer_get_uptime_ms t) in
  let con := say (str "System uptime: ") con in
  let con := say_unit (0 <? days u) (days u) (1 <? days u) (str " day") con in
  let con := say_unit ((0 <? hours u) || (0 <? days u)) (hours u) (negb (hours u =? 1)) (str " hour") con in
  let con := say_unit ((0 <? minutes u) || (0 <? hours u) || (0 <? days u)) (minutes u) (negb (minutes u =? 1)) (str " minute") con in
  let con := say (str ".") (say_number (seconds u) con) in
  let con := zero_if (milliseconds u <? 10) (zero_if (milliseconds u <? 100) con) in
  say (line (str " seconds")) (say_number (milliseconds u) con).

(** One figure between its label and its unit. *)
Definition figure (label : list Z) (v : Z) (unit : list Z) (con : console) : console := say unit (say_number v (say label con)).
Definition cmd_meminfo (p : pmm) (h : heap) (con : console) : option console :=
  let s := pmm_get_stats p in
  let con := say (line (str "Physical memory (PMM, 4 KiB pages)")) con in
  let con := figure [] (st_total_memory_kb s) (line (str " KiB)")) (figure (str "  total : ") (st_total_pages s) (str " pages (") con) in
  let con := figure [] (st_used_memory_kb s) (line (str " KiB)")) (figure (str "  used  : ") (st_used_pages s) (str " pages (") con) in
  let con := figure [] (st_free_memory_kb s) (line (str " KiB)")) (figure (str "  free  : ") (st_free_pages s) (str " pages (") con) in
  '(total, used, free, blocks) ← heap_get_stats h;
  let con := say (line (str "Kernel heap (first-fit free list)")) con in
  let con := figure (str "  total : ") total (line (str " bytes")) con in
  let con := figure (str "  used  : ") used (line (str " bytes")) con in
  Some (figure [] blocks (line (str " block(s)")) (figure (str "  free  : ") free (str " bytes across ") con)).

(** The keyboard controller's status is read until its input buffer is empty, then the
    reset pulse is sent: the writes that reach the port, [None] while the controller
    stays busy. A processor that is still running loads an empty interrupt table and
    raises an interrupt, which it cannot deliver. *)
Fixpoint reset_ready (reads : list Z) : option nat :=
  match reads with
  | [] => None
  | good :: reads => if Z.land good 0x02 =? 0 then Some 1%nat else option_map S (reset_ready reads)
  end.
Definition cmd_reboot (reads : list Z) (con : console) : option (console * list (Z * Z)) :=
  _ ← reset_ready reads; Some (say (line (str "Rebooting system...")) con, [(0x64, 0xFE)]).

(** ** Tests of the components *)

(** [buf] on the stack, [rest] the bytes of [read_buf] that [pipe_read] does not write. *)
Definition test_pipe (buf : Z) (rest : list Z) (x : ipc * (console * mem)) : option (ipc * (console * mem)) :=
  let '(i, (con, m)) := x in
  let con := say ([10] ++ line (str "1. Testing Pipe:")) con in
  let '(pipe, i) := pipe_create 1 2 i in
  match pipe with
  | Some _ =>
      let con := say (line (str "   - Pipe created successfully")) con in
      let test_data := str "Hello from pipe!" ++ [0] in
      let '(written, i) := pipe_write pipe (Some test_data) (len test_data) i in
      '(con, m) ← report buf (str "   - Wrote ") written (line (str " bytes to pipe")) (con, m);
      let '(read, read_buf, i) := pipe_read pipe true 64 i in
      '(con, m) ← report buf (str "   - Read ") read (str " bytes from pipe: ") (con, m);
      let con := say [10] (say (c_string (read_buf ++ rest)) con) in
      Some (pipe_close pipe i, (say (line (str "   - Pipe closed")) con, m))
  | None => Some (i, (say (line (str "   - Failed to create pipe")) con, m))
  end.
Definition test_queue (i : ipc) (con : console) : ipc * console :=
  let con := say ([10] ++ line (str "2. Testing Message Queue:")) con in
  let '(queue, i) := msgqueue_create 1 i in
  match queue with
  | Some _ =>
      let con := say (line (str "   - Message queue created successfully")) con in
      let msg_data := str "Test message" ++ [0] in
      let '(sent, i) := msgqueue_send queue 1 100 (Some msg_data) (len msg_data) i in
      let '(i, con) :=
        if sent =? 0 then
          let con := say (line (str "   - Sent message to queue")) con in
          match msgqueue_receive queue true i with
          | (0, Some msg, i) => (i, say [10] (say (c_string (m_data msg)) (say (str "   - Received message: ") con)))
          | (_, _, i) => (i, con)
          end
        else (i, con) in
      (msgqueue_close queue i, say (line (str "   - Message queue closed")) con)
  | None => (i, say (line (str "   - Failed to create message queue")) con)
  end.
Definition cmd_test_ipc (buf : Z) (rest : list Z) (x : ipc * (console * mem)) : option (ipc * (console * mem)) :=
  let '(i, (con, m)) := x in
  let con := say ([10] ++ line (str "=== Testing IPC Mechanisms ===")) con in
  '(i, (con, m)) ← test_pipe buf rest (i, (con, m));
  let '(i, con) := test_queue i con in
  Some (i, (say ([10] ++ line (str "IPC test complete!") ++ [10]) con, m)).

Definition state_text (st : cpu_state_t) : list Z :=
  match st with
  | CPU_STATE_ONLINE => str "ONLINE"
  | CPU_STATE_OFFLINE => str "OFFLINE"
  | CPU_STATE_HALTED => str "HALTED"
  end.
Fixpoint cpu_lines (buf : Z) (s : smp) (todo : list Z) (x : console * mem) : option (console * mem) :=
  match todo with
  | [] => Some x
  | i :: todo =>
      match smp_get_cpu_info i s with
      | Some info =>
          '(con, m) ← report buf (str "  CPU ") i (str ": ") x;
          cpu_lines buf s todo (say [10] (say (state_text (state info)) con), m)
      | None => cpu_lines buf s todo x
      end
  end.
Definition cmd_test_smp (buf : Z) (s : smp) (x : console * mem) : option (console * mem) :=
  let '(con, m) := x in
  let con := say ([10] ++ line (str "=== Testing Multi-core SMP Support ===") ++ [10]) con in
  let count := smp_get_cpu_count s in
  '(con, m) ← report buf (str "Detected CPU cores: ") count [10] (con, m);
  '(con, m) ← report buf (str "Current CPU ID: ") smp_get_current_cpu [10] (con, m);
  '(con, m) ← cpu_lines buf s (seqZ 0 count) (say ([10] ++ line (str "CPU Information:")) con, m);
  Some (say ([10] ++ line (str "SMP test complete!") ++ [10]) con, m).

Definition cmd_test_gui (buf : Z) (x : gui_state * (console * mem)) : option (gui_state * (console * mem)) :=
  let '(g, (con, m)) := x in
  let con := say ([10] ++ line (str "=== Testing GUI/Windowing System ===") ++ [10]) con in
  let con := say (line (str "Creating test window...")) con in
  '(window, g) ← gui_create_window 100 100 400 300 (Some (str "Test Window")) g;
  '(g, (con, m)) ←
    (if negb (window =? 0) then
       '(con, m) ← report buf (str "Window created with ID: ") (ld (h_mem (kheap g)) (w_id window)) [10] (con, m);
       let g := gui_show_window window g in
       let con := say (line (str "Rendering window...")) (say (line (str "Showing window...")) con) in
       g ← gui_render_window window g;
       let g := gui_hide_window window g in
       let con := say (line (str "Destroying window...")) (say (line (str "Hiding window...")) con) in
       g ← gui_destroy_window window g;
       Some (g, (say (line (str "Window operations complete!")) con, m))
     else Some (g, (say (line (str "Failed to create window")) con, m)));
  Some (g, (say ([10] ++ line (str "GUI test complete!") ++ [10]) con, m)).

Definition PROTO_TCP : Z := 6.
Fixpoint ip_text (buf : Z) (todo : list (Z * Z)) (x : console * mem) : option (console * mem) :=
  match todo with
  | [] => Some x
  | (i, b) :: todo => x ← report buf [] b (if i <? 3 then str "." else []) x; ip_text buf todo x
  end.
Definition hex_digits : list Z := str "0123456789abcdef".
Definition mac_text (con : console) (x : Z * Z) : console :=
  let '(i, byte) := x in
  let con := say [aget hex_digits (Z.shiftr byte 4); aget hex_digits (Z.land byte 0xF)] con in
  if i <? 5 then say (str ":") con else con.
Definition cmd_test_net (buf : Z) (x : net * (console * mem)) : option (net * (console * mem)) :=
  let '(s, (con, m)) := x in
  let dev := net_get_device s in
  let con := say ([10] ++ line (str "=== Testing Networking Stack ===") ++ [10]) con in
  let con := say [10] (say (c_string (Network.name dev)) (say (str "Network device: ") con)) in
  '(con, m) ← ip_text buf (zip (seqZ 0 4) (Network.ip dev)) (say (str "IP address: ") con, m);
  let con := say (str "MAC address: ") (say [10] con) in
  let con := foldl mac_text con (zip (seqZ 0 6) (Network.mac dev)) in
  let con := say (if negb (is_up dev =? 0) then str "UP" else str "DOWN") (say (str "Status: ") (say [10] con)) in
  let con := say ([10] ++ line (str "Creating test socket...")) (say [10] con) in
  let '(sock, s) := net_socket_create PROTO_TCP s in
  let '(s, con) :=
    match sock with
    | Some _ =>
        let con := say (line (str "Binding to port 8080...")) (say (line (str "Socket created successfully")) con) in
        let '(r, s) := net_socket_bind sock 8080 s in
        let con := if r =? 0 then say (line (str "Socket bound successfully")) con else con in
        (net_socket_close sock s, say (line (str "Closing socket...")) con)
    | None => (s, say (line (str "Failed to create socket")) con)
    end in
  Some (s, (say ([10] ++ line (str "Networking test complete!") ++ [10]) con, m)).

Definition say_var (label name : list Z) (s : script) : script :=
  match script_get_var (Some name) (script_ctx s) with
  | Some val => Script.say [10] (Script.say val (Script.say label s))
  | None => s
  end.
Definition test_script : list (list Z) := [str "NAME=OpenOS"; str "echo Starting script"; str "if true"; str "echo Condition is true"].
(** The variables, and then the script. *)
Definition test_script_vars (s : script) : script :=
  let s := Script.say (line (str "Setting test variables...")) s in
  let s := with_ctx (snd (script_set_var (Some (str "TEST_VAR")) (Some (str "Hello World")) (script_ctx s))) s in
  let s := with_ctx (snd (script_set_var (Some (str "VERSION")) (Some (str "1.0")) (script_ctx s))) s in
  let s := Script.say (line (str "Reading variables:")) s in
  let s := say_var (str "  TEST_VAR = ") (str "TEST_VAR") s in
  say_var (str "  VERSION = ") (str "VERSION") s.
Definition test_script_run (s : script) : script :=
  let s := Script.say ([10] ++ line (str "Executing test script:")) s in
  snd (script_execute (Some (concat ((fun l => l ++ [10]) <$> test_script))) s).
Definition cmd_test_script (s : script) : script :=
  let s := Script.say ([10] ++ line (str "=== Testing Shell Scripting ===") ++ [10]) s in
  Script.say ([10] ++ line (str "Scripting test complete!") ++ [10]) (test_script_run (test_script_vars s)).

(** ** Reports *)

Lemma say_app t u con : say (t ++ u) con = say u (say t con).
Proof. unfold say, console_write. apply foldl_app. Qed.

Lemma say_nil con : say [] con = con.
Proof. done. Qed.

Lemma report_said buf before value after con m : 0 <= value < 2 ^ 31 -> exists l m',
  report buf before value after (con, m) = Some (say after (say l (say before con)), m') /\ read_int 10 l = value /\ same_out m m' buf 33.
Proof. exact (report_spec buf before value after con m). Qed.

(** The numeral [print_number] writes. *)
Definition figures (value : Z) : list Z := if value =? 0 then [48] else number_loop 10 value [].
Lemma figures_spec value : is_u32 value -> numeral 10 (figures value) /\ number 10 (figures value) = value /\ (hd 0 (figures value) = 48 -> value = 0).
Proof.
  intros Hv. unfold figures. destruct (Z.eqb_spec value 0) as [->|Hz]; [split; [|done]; constructor; [|constructor]; cbn; wsolve|].
  change (number_loop 10 value []) with (dec_loop 10 value []). destruct (dec_loop_spec 10 value []) as (ds & -> & H1 & H2 & _ & H3); [cbn; unfold is_u32 in Hv; lia|].
  rewrite app_nil_r. split; [done|]. split; [done|]. destruct H3 as (d & ds' & -> & Hd); [unfold is_u32 in Hv; lia|]. cbn [hd]. congruence.
Qed.

(** What [cmd_uptime] writes, from the parts. *)
Definition unit_text (show : bool) (v : Z) (plural : bool) (name : list Z) : list Z :=
  if show then figures v ++ name ++ (if plural then str "s" else []) ++ str ", " else [].
Definition zero_text (b : bool) : list Z := if b then [48] else [].
Definition uptime_text (u : uptime) : list Z :=
  str "System uptime: " ++ unit_text (0 <? days u) (days u) (1 <? days u) (str " day") ++
  unit_text ((0 <? hours u) || (0 <? days u)) (hours u) (negb (hours u =? 1)) (str " hour") ++
  unit_text ((0 <? minutes u) || (0 <? hours u) || (0 <? days u)) (minutes u) (negb (minutes u =? 1)) (str " minute") ++
  figures (seconds u) ++ str "." ++ zero_text (milliseconds u <? 100) ++ zero_text (milliseconds u <? 10) ++
  figures (milliseconds u) ++ line (str " seconds").
Lemma unit_said show v plural name con : say_unit show v plural name con = say (unit_text show v plural name) con.
Proof. unfold say_unit, unit_text. destruct show; [|done]. rewrite !say_app. by destruct plural. Qed.
Lemma zero_said b con : zero_if b con = say (zero_text b) con.
Proof. by destruct b. Qed.
Lemma number_said v con : say_number v con = say (figures v) con.
Proof. done. Qed.

Lemma split_uptime_spec ms : is_u32 ms -> let u := split_uptime ms in
  0 <= days u < 50 /\ 0 <= hours u < 24 /\ 0 <= minutes u < 60 /\ 0 <= seconds u < 60 /\ 0 <= milliseconds u < 1000 /\
  days u * 86400000 + hours u * 3600000 + minutes u * 60000 + seconds u * 1000 + milliseconds u = ms.
Proof.
  intros Hu. unfold split_uptime. rewrite u32_small by done. cbn [days hours minutes seconds milliseconds].
  unfold is_u32 in Hu. change (2 ^ 32) with 4294967296 in Hu.
  assert (ms / 1000 / 86400 = ms / 1000 / 60 / 60 / 24 /\ ms / 1000 / 3600 = ms / 1000 / 60 / 60) as [E1 E2] by (by rewrite !Z.div_div by lia).
  rewrite E1, E2. dlia.
Qed.

(** The uptime [uptime] shows. Its parts are in range and add up to the milliseconds the
    timer has counted, and what is written is their numerals, the larger units only
    when they are not all zero, with a plural ending when it is due and the
    milliseconds with three digits. *)
Theorem uptime_correct t con : 0 <= system_ticks t -> 0 <= timer_frequency t ->
  exists u, cmd_uptime t con = say (uptime_text u) con /\
    0 <= days u /\ 0 <= hours u < 24 /\ 0 <= minutes u < 60 /\ 0 <= seconds u < 60 /\ 0 <= milliseconds u < 1000 /\
    days u * 86400000 + hours u * 3600000 + minutes u * 60000 + seconds u * 1000 + milliseconds u = timer_get_uptime_ms t /\
    Forall (fun v => numeral 10 (figures v) /\ number 10 (figures v) = v) [days u; hours u; minutes u; seconds u; milliseconds u].
Proof.
  intros Ht Hf. assert (is_u32 (timer_get_uptime_ms t)) as Hu.
  { unfold timer_get_uptime_ms. destruct (Z.eqb_spec (timer_frequency t) 0) as [E|E]; [done|]. unfold is_u32, u32.
    set (x := (system_ticks t mod 2 ^ 32 * 1000) mod 2 ^ 32). assert (0 <= x < 2 ^ 32) as Hx by (apply Z.mod_pos_bound; lia).
    split; [apply Z.div_pos; lia|]. apply Z.div_lt_upper_bound; nia. }
  destruct (split_uptime_spec _ Hu) as (H1 & H2 & H3 & H4 & H5 & H6). set (u := split_uptime (timer_get_uptime_ms t)) in *. exists u. split.
  - unfold cmd_uptime, uptime_text. fold u. rewrite !unit_said, !zero_said, !number_said, !say_app. reflexivity.
  - repeat (split; [lia|]). repeat constructor; apply figures_spec; unfold is_u32; lia.
Qed.

(** Memory. *)
Lemma meminfo_figures p : pmm_wf p -> total_pages p < 2 ^ 20 -> let s := pmm_get_stats p in
  st_total_pages s = st_used_pages s + st_free_pages s /\ st_total_memory_kb s = 4 * st_total_pages s /\
  st_used_memory_kb s = 4 * st_used_pages s /\ st_free_memory_kb s = 4 * st_free_pages s.
Proof.
  intros Hwf Ht. pose proof (wf_used_bounds p Hwf) as Hu. unfold pmm_get_stats, PMM_PAGE_SIZE. cbn [st_total_pages st_used_pages st_free_pages st_total_memory_kb st_used_memory_kb st_free_memory_kb].
  change (2 ^ 20) with 1048576 in Ht.
  rewrite (u32_small (total_pages p - used_pages p)), (u32_small (total_pages p * 4096)), (u32_small (used_pages p * 4096)) by (unfold is_u32; lia).
  replace (total_pages p * 4096) with (4 * total_pages p * 1024) by lia. replace (used_pages p * 4096) with (4 * used_pages p * 1024) by lia.
  rewrite !Z.div_mul by lia. rewrite u32_small by (unfold is_u32; lia). lia.
Qed.
(** With 4 GiB the figures in KiB are those of no memory. *)
Lemma meminfo_wraps p : total_pages p = 2 ^ 20 -> st_total_memory_kb (pmm_get_stats p) = 0.
Proof. intros E. unfold pmm_get_stats. cbn [st_total_memory_kb]. by rewrite E. Qed.

Definition memory_text (s : pmm_stats) (total used free blocks : Z) : list Z :=
  line (str "Physical memory (PMM, 4 KiB pages)") ++
  str "  total : " ++ figures (st_total_pages s) ++ str " pages (" ++ figures (st_total_memory_kb s) ++ line (str " KiB)") ++
  str "  used  : " ++ figures (st_used_pages s) ++ str " pages (" ++ figures (st_used_memory_kb s) ++ line (str " KiB)") ++
  str "  free  : " ++ figures (st_free_pages s) ++ str " pages (" ++ figures (st_free_memory_kb s) ++ line (str " KiB)") ++
  line (str "Kernel heap (first-fit free list)") ++ str "  total : " ++ figures total ++ line (str " bytes") ++
  str "  used  : " ++ figures used ++ line (str " bytes") ++ str "  free  : " ++ figures free ++ str " bytes across " ++ figures blocks ++ line (str " block(s)").

(** [meminfo] always ends, changes nothing and writes figures that add up: on a machine
    with less than 4 GiB of memory the pages in use and the free ones are all pages and
    each counts four KiB; the used and free bytes of the heap are its total, which with
    the block headers is the whole arena. *)
Theorem meminfo_correct p h l con : pmm_wf p -> total_pages p < 2 ^ 20 -> heap_rep h l ->
  exists total used free blocks, cmd_meminfo p h con = Some (say (memory_text (pmm_get_stats p) total used free blocks) con) /\
    total = used + free /\ blocks = len l /\ total + HEADER_SIZE * blocks = heap_size h /\
    let s := pmm_get_stats p in
    st_total_pages s = total_pages p /\ st_total_pages s = st_used_pages s + st_free_pages s /\ st_total_memory_kb s = 4 * st_total_pages s /\
    st_used_memory_kb s = 4 * st_used_pages s /\ st_free_memory_kb s = 4 * st_free_pages s.
Proof.
  intros Hp Ht Hh. destruct (heap_stats_spec h l Hh) as (total & used & free & blocks & E & _ & _ & H1 & H2 & H3).
  exists total, used, free, blocks. split; [|split; [done|split; [done|split; [done|split; [done|by apply meminfo_figures]]]]].
  unfold cmd_meminfo. rewrite E. cbn [mbind option_bind]. f_equal. unfold memory_text, figure. rewrite !number_said, !say_nil, !say_app. exact eq_refl.
Qed.

(** ** Windows *)

(** Showing, painting, hiding and destroying a window of the list. *)
Lemma exercise_window base size live ws g p w : gui_inv base size live ((p, w) :: ws) g -> p <> 0 ->
  exists g1 g2, gui_render_window p (gui_show_window p g) = Some g1 /\ gui_destroy_window p (gui_hide_window p g1) = Some g2 /\
    gui_inv base size (delete p live) ws g2.
Proof.
  intros Hi Hp. assert (p ∈ ((p, w) :: ws).*1) as Hin by (rewrite fmap_cons; by left).
  pose proof (gi_nodup _ _ _ _ _ Hi) as Hnd. rewrite fmap_cons in Hnd. apply list.NoDup_cons in Hnd as [Hnew _]. cbn [fst] in Hnew.
  assert (forall v l, (restate p v <$> (p, w) :: l) = restate p v (p, w) :: (restate p v <$> l)) as Hcons by done.
  assert (forall v, restate p v <$> ws = ws) as Hws.
  { intros v. rewrite <- (list_fmap_id ws) at 2. apply list_fmap_ext. intros k [q x] Hk. unfold restate. cbn [fst id].
    rewrite (proj2 (Z.eqb_neq q p)); [done|]. intros ->. apply Hnew. apply list_elem_of_fmap. exists (p, x). split; [done|]. by apply list_elem_of_lookup_2 in Hk. }
  destruct (set_state_inv base size live _ g p WINDOW_VISIBLE Hi Hin) as [Hi1 _]. fold (gui_show_window p g) in Hi1. rewrite Hcons, Hws in Hi1.
  set (w1 := restate p WINDOW_VISIBLE (p, w)) in Hi1. assert (w1 = (p, snd w1)) as Ew1 by (unfold w1, restate; cbn [fst]; by rewrite Z.eqb_refl).
  rewrite Ew1 in Hi1. destruct (gi_list _ _ _ _ _ Hi1) as (_ & Hw1 & _).
  destruct (render_window_spec p (snd w1) (gui_show_window p g) (gi_screen _ _ _ _ _ Hi1) Hp Hw1) as (g1 & E1 & R). exists g1.
  assert (gui_inv base size live ((p, snd w1) :: ws) g1) as Hi2.
  { destruct Hi1 as [H1 H2 H3 H4 H5]. rewrite (rd_same _ _ _ R). by constructor. }
  destruct (set_state_inv base size live _ g1 p WINDOW_HIDDEN Hi2 Hin) as [Hi3 _]. fold (gui_hide_window p g1) in Hi3.
  destruct (destroy_inv base size live _ (gui_hide_window p g1) p Hi3) as (g2 & E2 & _ & Hi4); [by rewrite restate_fst|].
  exists g2. split; [done|]. split; [done|]. replace ws with (without p (restate p WINDOW_HIDDEN <$> (p, snd w1) :: ws)); [done|].
  change (restate p WINDOW_HIDDEN <$> (p, snd w1) :: ws) with (restate p WINDOW_HIDDEN (p, snd w1) :: (restate p WINDOW_HIDDEN <$> ws)). rewrite Hws.
  unfold restate at 1. cbn [fst]. rewrite Z.eqb_refl. apply (without_split p _ [] ws). exact (gi_nodup _ _ _ _ _ Hi).
Qed.

(** [test_gui] returns and leaves the windows and the heap as they were: the window it
    makes, if the heap has room, is shown, painted, hidden, taken off the list and
    freed. *)
Theorem test_gui_correct base size live ws g buf con m :
  gui_inv base size live ws g -> 0 <= next_window_id g < 2 ^ 31 ->
  exists g' con' m', cmd_test_gui buf (g, (con, m)) = Some (g', (con', m')) /\ gui_inv base size live ws g'.
Proof.
  intros Hi Hid. unfold cmd_test_gui. assert (title_ok (Some (str "Test Window"))) as Ht by (cbn; repeat constructor; cbn; lia).
  destruct (create_inv base size live ws g (Rect 100 100 400 300) (Some (str "Test Window")) Hi Ht) as (p & g1 & E & _ & [[-> Hi1]|[Hnone Hi1]]);
    cbn [r_x r_y r_width r_height] in E; rewrite E; cbn [mbind option_bind].
  { eexists g1, _, m. split; [reflexivity|exact Hi1]. }
  destruct (gui_apart _ _ _ _ _ Hi1) as (_ & Hnz & _). rewrite fmap_cons in Hnz. apply Forall_cons_iff in Hnz as [Hp _]. cbn [fst] in Hp.
  rewrite (proj2 (Z.eqb_neq _ _) Hp). cbn [negb].
  assert (ld (h_mem (kheap g1)) (w_id p) = next_window_id g) as -> by (destruct (gi_list _ _ _ _ _ Hi1) as (_ & [Hw _ _ _ _ _] & _); exact Hw).
  destruct (exercise_window _ _ _ _ _ _ _ Hi1 Hp) as (g2 & g3 & E2 & E3 & Hi3). rewrite delete_insert_id in Hi3 by done.
  generalize (say (line (str "Creating test window...")) (say ([10] ++ line (str "=== Testing GUI/Windowing System ===") ++ [10]) con)) as con1. intros con1.
  destruct (report_said buf (str "Window created with ID: ") (next_window_id g) [10] con1 m Hid) as (t & m' & -> & _).
  cbn [mbind option_bind]. rewrite E2. cbn [mbind option_bind]. rewrite E3. cbn [mbind option_bind]. eexists g3, _, m'. split; [reflexivity|exact Hi3].
Qed.

(** ** Pipes and message queues *)

Lemma c_string_end t rest : Forall (fun c => c <> 0) t -> c_string (t ++ 0 :: rest) = t.
Proof. induction 1 as [|c t Hc _ IH]; [done|]. cbn [app c_string]. rewrite (proj2 (Z.eqb_neq c 0) Hc). by rewrite IH. Qed.

(** What is left of the tables: nothing has changed but entries that are closed before
    and after. *)
Record same_open (i i' : ipc) : Prop := {
  so_ok : ipc_ok i';
  so_pipes : forall j, p_open (pipe_at j i') = p_open (pipe_at j i) /\ (p_open (pipe_at j i) = true -> pipe_at j i' = pipe_at j i);
  so_queues : forall j, q_open (queue_at j i') = q_open (queue_at j i) /\ (q_open (queue_at j i) = true -> queue_at j i' = queue_at j i);
}.
Lemma same_open_pipe i j p : ipc_ok i -> (j < MAX_PIPES)%nat -> p_open (pipe_at j i) = false -> pipe_ok p -> p_open p = false -> same_open i (set_pipe j p i).
Proof.
  intros Hi Hj Hc Hp Ho. constructor; [by apply ipc_ok_pipe| |done]. intros k. rewrite pipe_at_set by (done || apply Hi).
  destruct (decide (k = j)) as [->|]; [|done]. split; congruence.
Qed.
Lemma same_open_queue i j q : ipc_ok i -> (j < MAX_MSG_QUEUES)%nat -> q_open (queue_at j i) = false -> queue_ok q -> q_open q = false -> same_open i (set_queue j q i).
Proof.
  intros Hi Hj Hc Hq Ho. constructor; [by apply ipc_ok_queue|done|]. intros k. rewrite queue_at_set by (done || apply Hi).
  destruct (decide (k = j)) as [->|]; [|done]. split; congruence.
Qed.
Lemma same_open_trans i1 i2 i3 : same_open i1 i2 -> same_open i2 i3 -> same_open i1 i3.
Proof.
  intros [A1 A2 A3] [B1 B2 B3]. constructor; [done|..]; intros j.
  - destruct (A2 j) as [E1 F1], (B2 j) as [E2 F2]. split; [congruence|]. intros Ho. rewrite F2 by congruence. by apply F1.
  - destruct (A3 j) as [E1 F1], (B3 j) as [E2 F2]. split; [congruence|]. intros Ho. rewrite F2 by congruence. by apply F1.
Qed.
Lemma set_pipe_set j p p' i : set_pipe j p' (set_pipe j p i) = set_pipe j p' i.
Proof. unfold set_pipe. cbn. by rewrite list_insert_insert_eq. Qed.
Lemma set_queue_set j q q' i : set_queue j q' (set_queue j q i) = set_queue j q' i.
Proof. unfold set_queue. cbn. by rewrite list_insert_insert_eq. Qed.

(** A pipe that is made, written, read and closed delivers the data. *)
Lemma pipe_roundtrip i data : ipc_ok i -> (exists j, (j < MAX_PIPES)%nat /\ p_open (pipe_at j i) = false) -> len data <= 64 ->
  exists j i1 i2 i3 i4, pipe_create 1 2 i = (Some j, i1) /\ pipe_write (Some j) (Some data) (len data) i1 = (len data, i2) /\
    pipe_read (Some j) true 64 i2 = (len data, data, i3) /\ pipe_close (Some j) i3 = i4 /\ same_open i i4.
Proof.
  intros Hi (j0 & Hj0 & Hc0) Hl. unfold pipe_create. destruct (list_find (fun p => p_open p = false) (pipes i)) as [[j p]|] eqn:Ef.
  2:{ apply list_find_None in Ef. destruct Hi as [Hlp _ _ _]. destruct (lookup_lt_is_Some_2 (pipes i) j0) as [p Hp]; [lia|].
      exfalso. apply (proj1 (list.Forall_forall _ _) Ef p); [by apply list_elem_of_lookup_2 in Hp|]. unfold pipe_at in Hc0. by rewrite Hp in Hc0. }
  apply find_pipe in Ef as [Hp Hpc]. assert (j < MAX_PIPES)%nat as Hj by (apply lookup_lt_Some in Hp; destruct Hi; lia).
  set (p1 := Pipe (buffer p) 0 0 0 1 2 true). pose proof (fresh_pipe_ok (buffer p) 1 2 true) as Hp1. fold p1 in Hp1.
  pose proof (ipc_ok_pipe j p1 i Hi Hj Hp1) as Hi1.
  assert (forall q k, ipc_ok k -> pipe_at j (set_pipe j q k) = q) as Hat by (intros q k Hk; rewrite pipe_at_set by (done || apply Hk); by rewrite decide_True).
  destruct (pipe_write_spec j data (len data) (set_pipe j p1 i) Hi1) as (k & p2 & E2 & Hk & _ & Hp2 & Ho2 & Hc2); [by rewrite Hat|lia|].
  rewrite Hat in Hk, Hc2 by done. change (p_count p1) with 0 in Hk. change (contents p1) with (@nil Z) in Hc2. change PIPE_BUF_SIZE with 4096 in Hk.
  assert (k = len data) as -> by lia. rewrite Nat2Z.id, firstn_all in Hc2. cbn [app] in Hc2. rewrite set_pipe_set in E2.
  pose proof (ipc_ok_pipe j p2 i Hi Hj Hp2) as Hi2.
  destruct (pipe_read_spec j 64 (set_pipe j p2 i) Hi2) as (k & dst & p3 & E3 & Hk3 & Hd & Hp3 & Ho3 & _); [by rewrite Hat|lia|].
  rewrite Hat in Hk3, Hd by done. assert (p_count p2 = len data) as Hcnt by (rewrite <- Hc2; symmetry; apply ring_length; apply Hp2).
  assert (k = len data) as -> by lia. rewrite Nat2Z.id, Hc2, firstn_all in Hd. rewrite Hd, set_pipe_set in E3.
  eexists j, _, _, _, _. split; [reflexivity|]. split; [exact E2|]. split; [exact E3|]. split; [reflexivity|].
  unfold pipe_close. rewrite Hat, set_pipe_set by done. apply same_open_pipe; [done|done| | |done].
  - unfold pipe_at. by rewrite Hp.
  - destruct Hp3 as [A1 A2 A3]. by constructor.
Qed.
(** A queue that is made, sent one message and read delivers it. *)
Lemma queue_roundtrip i data : ipc_ok i -> (exists j, (j < MAX_MSG_QUEUES)%nat /\ q_open (queue_at j i) = false) -> 0 < len data <= MSG_MAX_SIZE ->
  exists j i1 i2 i3 i4 msg, msgqueue_create 1 i = (Some j, i1) /\ msgqueue_send (Some j) 1 100 (Some data) (len data) i1 = (0, i2) /\
    msgqueue_receive (Some j) true i2 = (0, Some msg, i3) /\ (exists rest, m_data msg = data ++ rest) /\
    msgqueue_close (Some j) i3 = i4 /\ same_open i i4.
Proof.
  intros Hi (j0 & Hj0 & Hc0) Hl. unfold msgqueue_create. destruct (list_find (fun q => q_open q = false) (msg_queues i)) as [[j q]|] eqn:Ef.
  2:{ apply list_find_None in Ef. destruct Hi as [_ Hlq _ _]. destruct (lookup_lt_is_Some_2 (msg_queues i) j0) as [q Hq]; [lia|].
      exfalso. apply (proj1 (list.Forall_forall _ _) Ef q); [by apply list_elem_of_lookup_2 in Hq|]. unfold queue_at in Hc0. by rewrite Hq in Hc0. }
  apply find_queue in Ef as [Hq Hqc]. assert (j < MAX_MSG_QUEUES)%nat as Hj by (apply lookup_lt_Some in Hq; destruct Hi; lia).
  set (q1 := Queue (messages q) 0 0 0 1 true). pose proof (fresh_queue_ok (messages q) 1 true) as Hq1. fold q1 in Hq1.
  pose proof (ipc_ok_queue j q1 i Hi Hj Hq1) as Hi1.
  assert (forall q k, ipc_ok k -> queue_at j (set_queue j q k) = q) as Hat by (intros x k Hk; rewrite queue_at_set by (done || apply Hk); by rewrite decide_True).
  destruct (msgqueue_send_spec j 1 100 (Some data) (len data) (set_queue j q1 i) Hi1) as [(_ & _ & q2 & msg & E2 & Hq2 & Ho2 & Hp2 & Hcar)|[[H|H] _]];
    [by rewrite Hat|lia| |lia|rewrite Hat in H by done; by vm_compute in H].
  rewrite Hat in Hp2 by done. change (pending q1) with (@nil message_t) in Hp2. cbn [app] in Hp2. rewrite set_queue_set in E2.
  pose proof (ipc_ok_queue j q2 i Hi Hj Hq2) as Hi2.
  pose proof (msgqueue_receive_spec j (set_queue j q2 i) Hi2) as H3. rewrite Hat, Hp2 in H3 by done. destruct (H3 Ho2) as (q3 & E3 & Hq3 & Ho3 & _).
  rewrite set_queue_set in E3. eexists j, _, _, _, _, msg. split; [reflexivity|]. split; [exact E2|]. split; [exact E3|]. split.
  - destruct Hcar as (_ & _ & _ & Hd). rewrite Nat2Z.id, firstn_all in Hd. exists (drop (length data) (m_data msg)). rewrite <- Hd at 1. by rewrite take_drop.
  - split; [reflexivity|]. unfold msgqueue_close. rewrite Hat, set_queue_set by done. apply same_open_queue; [done|done| | |done].
    + unfold queue_at. by rewrite Hq.
    + destruct Hq3 as [A1 A2 A3]. by constructor.
Qed.

(** What [test_ipc] writes, with the numbers of bytes written and read. *)
Definition ipc_text (written read : list Z) : list Z :=
  ([10] ++ line (str "=== Testing IPC Mechanisms ===")) ++ ([10] ++ line (str "1. Testing Pipe:")) ++
  line (str "   - Pipe created successfully") ++ str "   - Wrote " ++ written ++ line (str " bytes to pipe") ++
  str "   - Read " ++ read ++ str " bytes from pipe: " ++ str "Hello from pipe!" ++ [10] ++ line (str "   - Pipe closed") ++
  ([10] ++ line (str "2. Testing Message Queue:")) ++ line (str "   - Message queue created successfully") ++
  line (str "   - Sent message to queue") ++ str "   - Received message: " ++ str "Test message" ++ [10] ++ line (str "   - Message queue closed") ++
  ([10] ++ line (str "IPC test complete!") ++ [10]).

(** [test_ipc] on tables in order with a pipe and a queue free. The text written to the
    pipe and the message sent to the queue are the ones read back and shown, with the
    number of bytes; both are closed again, and every pipe and queue in use is as it was. *)
Theorem test_ipc_correct i con m buf rest :
  ipc_ok i -> (exists j, (j < MAX_PIPES)%nat /\ p_open (pipe_at j i) = false) -> (exists j, (j < MAX_MSG_QUEUES)%nat /\ q_open (queue_at j i) = false) ->
  exists i' m' a b, cmd_test_ipc buf rest (i, (con, m)) = Some (i', (say (ipc_text a b) con, m')) /\
    read_int 10 a = 17 /\ read_int 10 b = 17 /\ same_open i i' /\ same_out m m' buf 33.
Proof.
  intros Hi Hp Hq. set (text := str "Hello from pipe!" ++ [0]). assert (len text = 17) as Hl by reflexivity.
  destruct (pipe_roundtrip i text Hi Hp) as (j & i1 & i2 & i3 & i4 & E1 & E2 & E3 & E4 & S4); [lia|]. rewrite Hl in E2, E3.
  assert (exists k, (k < MAX_MSG_QUEUES)%nat /\ q_open (queue_at k i4) = false) as Hq4.
  { destruct Hq as (k & Hk & Hc). exists k. split; [done|]. destruct (so_queues _ _ S4 k) as [-> _]. done. }
  set (data := str "Test message" ++ [0]). assert (len data = 13) as Hd by reflexivity.
  destruct (queue_roundtrip i4 data (so_ok _ _ S4) Hq4) as (k & i5 & i6 & i7 & i8 & msg & F1 & F2 & F3 & (mrest & Hm) & F4 & S8); [rewrite Hd; unfold MSG_MAX_SIZE; lia|].
  rewrite Hd in F2.
  set (c1 := say (line (str "   - Pipe created successfully")) (say ([10] ++ line (str "1. Testing Pipe:")) (say ([10] ++ line (str "=== Testing IPC Mechanisms ===")) con))).
  destruct (report_said buf (str "   - Wrote ") 17 (line (str " bytes to pipe")) c1 m) as (a & m1 & R1 & Ha & O1); [lia|].
  destruct (report_said buf (str "   - Read ") 17 (str " bytes from pipe: ") (say (line (str " bytes to pipe")) (say a (say (str "   - Wrote ") c1))) m1) as (b & m2 & R2 & Hb & O2); [lia|].
  exists i8, m2, a, b. split; [|split; [done|split; [done|split; [by apply (same_open_trans i i4)|by apply (same_out_trans m m1)]]]].
  unfold cmd_test_ipc, test_pipe, test_queue. fold text data. rewrite E1, Hl, E2. fold c1. rewrite R1. cbn [mbind option_bind].
  rewrite E3, R2. cbn [mbind option_bind]. rewrite E4, F1, Hd, F2. cbn [Z.eqb]. rewrite F3, F4, Hm.
  assert (c_string (text ++ rest) = str "Hello from pipe!") as -> by (unfold text; rewrite <- app_assoc; apply c_string_end; repeat constructor; done).
  assert (c_string (data ++ mrest) = str "Test message") as -> by (unfold data; rewrite <- app_assoc; apply c_string_end; repeat constructor; done).
  f_equal. f_equal. f_equal. unfold ipc_text, c1. rewrite !say_app. exact eq_refl.
Qed.

(** ** Sockets *)

Lemma ip_text_spec buf bytes : Forall is_u8 bytes -> forall k con m, exists con' m', ip_text buf (zip (seqZ k (len bytes)) bytes) (con, m) = Some (con', m') /\ same_out m m' buf 33.
Proof.
  induction 1 as [|b bytes Hb _ IH]; intros k con m; [by exists con, m|]. cbn [length]. rewrite seqZ_cons by lia. cbn [zip zip_with ip_text].
  destruct (report_said buf [] b (if k <? 3 then str "." else []) con m) as (t & m1 & -> & _ & O1); [unfold is_u8 in Hb; lia|]. cbn [mbind option_bind].
  replace (Z.pred (Z.of_nat (S (length bytes)))) with (len bytes) by lia.
  destruct (IH (Z.succ k) (say (if k <? 3 then str "." else []) (say t (say [] con))) m1) as (con' & m' & E & O2).
  exists con', m'. split; [exact E|]. by apply (same_out_trans m m1).
Qed.

(** The test socket is closed again: no open socket changes and none is added. *)
Lemma socket_roundtrip s proto port : length (sockets s) = 32%nat ->
  match net_socket_create proto s with
  | (Some i, s1) => fst (net_socket_bind (Some i) port s1) = 0 /\
      let s3 := net_socket_close (Some i) (snd (net_socket_bind (Some i) port s1)) in
      net_dev s3 = net_dev s /\ length (sockets s3) = 32%nat /\
      forall j, (is_open (socket_at s j) <> 0 -> socket_at s3 j = socket_at s j) /\ (is_open (socket_at s j) = 0 -> is_open (socket_at s3 j) = 0)
  | (None, s1) => s1 = s /\ forall j, (j < 32)%nat -> is_open (socket_at s j) <> 0
  end.
Proof.
  intros Hl. pose proof (create_cases proto s Hl) as H. destruct (net_socket_create proto s) as [[i|] s1]; [|exact H].
  destruct H as (Hi & Hz & _ & ->). set (k := Socket _ _ _ _ _ _). unfold net_socket_bind, usable.
  assert (forall x y, length (sockets y) = 32%nat -> socket_at (set_socket i x y) i = x) as Hat.
  { intros x y Hy. rewrite socket_at_set by lia. by rewrite Nat.eqb_refl. }
  rewrite Hat by done. cbn [is_open k Z.eqb fst snd]. split; [done|]. cbn [net_socket_close]. split; [done|].
  split; [cbn [sockets set_socket]; by rewrite !length_insert|]. intros j. rewrite !socket_at_set by (cbn [sockets set_socket]; rewrite ?length_insert; lia).
  destruct (Nat.eqb_spec i j) as [<-|]; [|done]. split; [congruence|done].
Qed.

(** [test_net] returns, shows the device, and leaves every open socket as it was and no
    new one open. *)
Theorem test_net_correct s con m buf : net_wf s ->
  exists s' con' m', cmd_test_net buf (s, (con, m)) = Some (s', (con', m')) /\ net_dev s' = net_dev s /\ same_out m m' buf 33 /\
    forall j, (is_open (socket_at s j) <> 0 -> socket_at s' j = socket_at s j) /\ (is_open (socket_at s j) = 0 -> is_open (socket_at s' j) = 0).
Proof.
  intros [Hl _ _ (_ & _ & Hip & _ & _ & Hu)]. unfold cmd_test_net, net_get_device.
  set (c1 := say (str "IP address: ") _). destruct (ip_text_spec buf (ip (net_dev s)) Hu 0 c1 m) as (c2 & m' & E & O). rewrite Hip in E.
  change (Z.of_nat 4) with 4 in E. rewrite E. cbn [mbind option_bind]. set (c3 := say ([10] ++ line (str "Creating test socket...")) _).
  pose proof (socket_roundtrip s PROTO_TCP 8080 Hl) as H. destruct (net_socket_create PROTO_TCP s) as [[i|] s1].
  - destruct H as (Hb & Hd & _ & Hj). destruct (net_socket_bind (Some i) 8080 s1) as [r s2]. cbn [fst snd] in *. eexists _, _, m'.
    split; [reflexivity|]. split; [exact Hd|]. split; [exact O|exact Hj].
  - destruct H as [-> _]. eexists _, _, m'. split; [reflexivity|]. split; [reflexivity|]. split; [exact O|]. intros j. split; [reflexivity|]. intros Hz. exact Hz.
Qed.

(** ** Scripts *)

Definition test_vars (vars : gmap (list Z) (list Z)) : gmap (list Z) (list Z) :=
  foldl assign (snd (set_spec (str "VERSION") (str "1.0") (snd (set_spec (str "TEST_VAR") (str "Hello World") vars)))) test_script.
Lemma execute_text t s : snd (script_execute (Some t) s) =
  Script.say (str "SCRIPT: Execution complete" ++ [10]) (script_loop t [] (Script.say (str "SCRIPT: Executing script..." ++ [10]) s)).
Proof. reflexivity. Qed.
Lemma said_ctx t s : script_ctx (Script.say t s) = script_ctx s.
Proof. reflexivity. Qed.
Lemma say_var_ctx label n s : script_ctx (say_var label n s) = script_ctx s.
Proof. unfold say_var. by destruct (script_get_var _ _). Qed.

Lemma with_ctx_ctx c s : script_ctx (with_ctx c s) = c.
Proof. reflexivity. Qed.
Lemma script_vars_spec vars s : implements vars (script_ctx s) ->
  implements (snd (set_spec (str "VERSION") (str "1.0") (snd (set_spec (str "TEST_VAR") (str "Hello World") vars)))) (script_ctx (test_script_vars s)).
Proof.
  intros Hi. destruct (set_var_spec vars (script_ctx s) (str "TEST_VAR") (str "Hello World") Hi) as [_ H1]; [cbn; lia|].
  destruct (set_var_spec _ _ (str "VERSION") (str "1.0") H1) as [_ H2]; [cbn; lia|].
  unfold test_script_vars. by rewrite !say_var_ctx, said_ctx, !with_ctx_ctx, said_ctx.
Qed.
Lemma script_run_vars vars s : implements vars (script_ctx s) -> implements (foldl assign vars test_script) (script_ctx (test_script_run s)).
Proof.
  intros Hi. unfold test_script_run. rewrite execute_text. rewrite <- (said_ctx ([10] ++ line (str "Executing test script:"))) in Hi.
  revert Hi. generalize (Script.say ([10] ++ line (str "Executing test script:")) s). intros s1 Hi. assert (Forall line_ok test_script) as Hok by (repeat constructor; cbn; lia).
  exact (proj1 (script_run_spec test_script vars s1 _ _ Hok Hi)).
Qed.

(** [test_script] sets its variables and those of its script, each as one assignment to
    the map of variables, and every variable then reads as the map says. *)
Theorem test_script_correct vars s : implements vars (script_ctx s) ->
  implements (test_vars vars) (script_ctx (cmd_test_script s)) /\
  forall n, script_get_var (Some n) (script_ctx (cmd_test_script s)) = test_vars vars !! n.
Proof.
  intros Hi. assert (implements (test_vars vars) (script_ctx (cmd_test_script s))) as H; [|split; [exact H|intros n; by apply get_var_spec]].
  unfold cmd_test_script. rewrite said_ctx. apply script_run_vars, script_vars_spec. by rewrite said_ctx.
Qed.

(** ** Processors, help and reset *)

(** The line of each processor of the table, in order. *)
Lemma cpu_lines_spec buf count f s : tracks count f s -> forall n k con m, 0 <= k -> k + Z.of_nat n < 2 ^ 31 ->
  exists con' m', cpu_lines buf s (seqZ k (Z.of_nat n)) (con, m) = Some (con', m') /\ same_out m m' buf 33.
Proof.
  intros (_ & _ & Hf). induction n as [|n IH]; intros k con m Hk Hn; [by exists con, m|]. rewrite seqZ_cons by lia. cbn [cpu_lines].
  replace (Z.pred (Z.of_nat (S n))) with (Z.of_nat n) by lia. destruct (decide (k < MAX_CPUS)) as [Hlt|Hge].
  - rewrite Hf by lia. destruct (report_said buf (str "  CPU ") k (str ": ") con m) as (t & m1 & -> & _ & O1); [lia|]. cbn [mbind option_bind].
    destruct (IH (Z.succ k) (say [10] (say (state_text (f k)) (say (str ": ") (say t (say (str "  CPU ") con))))) m1) as (con' & m' & E & O2); [lia|lia|].
    exists con', m'. split; [exact E|]. by apply (same_out_trans m m1).
  - unfold smp_get_cpu_info at 1. rewrite (proj2 (Z.leb_le _ _)) by lia. apply IH; lia.
Qed.
(** [test_smp] returns whatever number of processors CPUID reports. *)
Theorem test_smp_correct buf count f s con m : tracks count f s -> 0 <= count < 256 ->
  exists con' m', cmd_test_smp buf s (con, m) = Some (con', m') /\ same_out m m' buf 33.
Proof.
  intros Ht Hc. pose proof Ht as (Hcount & _). unfold cmd_test_smp. rewrite Hcount.
  assert (0 <= smp_get_current_cpu < 2 ^ 31) as Hcur by done. revert Hcur. generalize smp_get_current_cpu. intros cur Hcur.
  generalize (say ([10] ++ line (str "=== Testing Multi-core SMP Support ===") ++ [10]) con). intros con1.
  destruct (report_said buf (str "Detected CPU cores: ") count [10] con1 m) as (a & m1 & -> & _ & O1); [lia|]. cbn [mbind option_bind].
  generalize (say [10] (say a (say (str "Detected CPU cores: ") con1))). intros con2.
  destruct (report_said buf (str "Current CPU ID: ") cur [10] con2 m1 Hcur) as (b & m2 & -> & _ & O2). cbn [mbind option_bind].
  generalize (say ([10] ++ line (str "CPU Information:")) (say [10] (say b (say (str "Current CPU ID: ") con2)))). intros con3.
  destruct (cpu_lines_spec buf count f s Ht (Z.to_nat count) 0 con3 m2) as (con4 & m3 & E & O3); [lia|lia|]. rewrite Z2Nat.id in E by lia.
  rewrite E. cbn [mbind option_bind]. eexists _, m3. split; [reflexivity|]. apply (same_out_trans m m1); [done|]. by apply (same_out_trans m1 m2).
Qed.

Definition help_entry (c : shell_command_t) : list Z :=
  str "  " ++ c_name c ++ replicate (Z.to_nat (12 - len (c_name c))) 32 ++ str "- " ++ c_description c ++ [10].
Lemma blanks_said n : forall k con, for_range k (k + Z.of_nat n) (fun _ con => say (str " ") con) con = say (replicate n 32) con.
Proof.
  induction n as [|n IH]; intros k con; [by rewrite Z.add_0_r, for_range_nil by lia|]. rewrite for_range_cons by lia.
  replace (k + Z.of_nat (S n)) with (k + 1 + Z.of_nat n) by lia. rewrite IH. change (replicate (S n) 32) with ([32] ++ replicate n 32). by rewrite say_app.
Qed.
Lemma help_line_said con c : help_line con c = say (help_entry c) con.
Proof.
  unfold help_line, help_entry. rewrite !say_app. do 3 f_equal. destruct (decide (len (c_name c) <= 12)) as [H|H].
  - rewrite <- blanks_said with (k := len (c_name c)). do 2 f_equal. lia.
  - rewrite for_range_nil by lia. by replace (Z.to_nat (12 - len (c_name c))) with 0%nat by lia.
Qed.
(** [help] lists every registered command once, in the order they were registered, with
    its description in the same column. *)
Theorem help_correct commands con : cmd_help commands con =
  say ([10] ++ line (str "Available Commands:") ++ line (str "===================") ++ [10] ++ concat (help_entry <$> commands) ++ [10]) con.
Proof.
  assert (forall l con, foldl help_line con l = say (concat (help_entry <$> l)) con) as H.
  { induction l as [|c l IH]; intros x; [done|]. cbn [foldl fmap list_fmap concat]. by rewrite IH, help_line_said, say_app. }
  unfold cmd_help. rewrite H, !say_app. reflexivity.
Qed.

(** [reboot] sends the reset pulse after the first status that says the controller is
    ready, and waits while it is busy. *)
Lemma reboot_spec busy ready rest con : Forall (fun v => Z.testbit v 1 = true) busy -> Z.testbit ready 1 = false ->
  cmd_reboot busy con = None /\ cmd_reboot (busy ++ ready :: rest) con = Some (say (line (str "Rebooting system...")) con, [(0x64, 0xFE)]).
Proof.
  intros Hb Hr. assert (forall v, (Z.land v 0x02 =? 0) = negb (Z.testbit v 1)) as Hbit.
  { intros v. change 2 with (2 ^ 1). rewrite <- (Z.shiftl_1_l 1). destruct (Z.testbit v 1) eqn:E; cbn [negb].
    - apply Z.eqb_neq. intros H. apply (f_equal (fun z => Z.testbit z 1)) in H. rewrite Z.land_spec, E in H. by cbn in H.
    - apply Z.eqb_eq. apply Z.bits_inj'. intros n Hn. rewrite Z.land_spec, Z.bits_0. change (Z.shiftl 1 1) with (2 ^ 1).
      destruct (decide (n = 1)) as [->|Hne]; [by rewrite E|]. rewrite Z.pow2_bits_false by lia. by rewrite andb_false_r. }
  assert (reset_ready busy = None /\ reset_ready (busy ++ ready :: rest) = Some (S (length busy))) as [E1 E2].
  { induction Hb as [|v busy Hv _ [IH1 IH2]]; cbn [app reset_ready length]; rewrite Hbit; [by rewrite Hr|]. rewrite Hv. cbn [negb]. by rewrite IH1, IH2. }
  unfold cmd_reboot. by rewrite E1, E2.
Qed.

(** ** Examples *)

Lemma uptime_correct_witness : exists u, cmd_uptime (Timer 9000000 100) console0 = say (uptime_text u) console0.
Proof.
  destruct (uptime_correct (Timer 9000000 100) console0) as (u & E & _).
  - cbn. lia.
  - cbn. lia.
  - exists u. exact E.
Defined.
Lemma meminfo_correct_witness : exists total used free blocks,
  cmd_meminfo (one_free 3 1) demo_heap console0 = Some (say (memory_text (pmm_get_stats (one_free 3 1)) total used free blocks) console0) /\ total = used + free.
Proof.
  destruct (meminfo_correct (one_free 3 1) demo_heap [Block 0xFF0 true] console0) as (total & used & free & blocks & E & H & _).
  - apply one_free_spec; unfold PMM_BITMAP_SIZE; lia.
  - rewrite (proj1 (proj2 (one_free_spec 3 1 ltac:(lia) ltac:(unfold PMM_BITMAP_SIZE; lia)))). lia.
  - exact demo_heap_rep.
  - exists total, used, free, blocks. split; [exact E|exact H].
Defined.
(** The window state after [gui_init]. *)
Definition demo_gui : gui_state := Gui ∅ GUI_WIDTH GUI_HEIGHT 0 1 1 demo_heap.
Lemma demo_gui_inv : gui_inv 0x10000 0x1000 ∅ [] demo_gui.
Proof.
  constructor; [split; reflexivity| |reflexivity|constructor|constructor].
  exists [Block 0xFF0 true]. exact (heap_init_inv 0x8000 0x10000 0x1000 (Heap ∅ 0x8000 65536 0) demo_region).
Qed.
Lemma test_gui_correct_witness : exists g' con' m', cmd_test_gui 0x7000 (demo_gui, (console0, ∅)) = Some (g', (con', m')) /\ gui_inv 0x10000 0x1000 ∅ [] g'.
Proof.
  apply (test_gui_correct 0x10000 0x1000 ∅ [] demo_gui 0x7000 console0 ∅).
  - exact demo_gui_inv.
  - cbn. lia.
Defined.
Lemma fresh_ipc_ok : ipc_ok (ipc_init ipc_bss).
Proof. exact (fi_ok _ _ init_inv). Qed.
Lemma test_ipc_correct_witness : exists i' m' a b, cmd_test_ipc 0x7000 [] (ipc_init ipc_bss, (console0, ∅)) = Some (i', (say (ipc_text a b) console0, m')) /\
  same_open (ipc_init ipc_bss) i'.
Proof.
  destruct (test_ipc_correct (ipc_init ipc_bss) console0 ∅ 0x7000 []) as (i' & m' & a & b & E & _ & _ & H & _).
  - exact fresh_ipc_ok.
  - exists 0%nat. split; [unfold MAX_PIPES; lia|vm_compute; reflexivity].
  - exists 0%nat. split; [unfold MAX_MSG_QUEUES; lia|vm_compute; reflexivity].
  - exists i', m', a, b. split; [exact E|exact H].
Defined.
Lemma test_net_correct_witness : exists s' con' m', cmd_test_net 0x7000 (net_bss, (console0, ∅)) = Some (s', (con', m')) /\ net_dev s' = net_dev net_bss.
Proof.
  destruct (test_net_correct net_bss console0 ∅ 0x7000 zero_wf) as (s' & con' & m' & E & H & _). exists s', con', m'. split; [exact E|exact H].
Defined.
Lemma test_script_correct_witness : implements (test_vars ∅) (script_ctx (cmd_test_script script0)).
Proof. apply (test_script_correct ∅ script0). apply empty_implements. Defined.
Definition demo_smp : smp :=
  Smp (SmpInfo 2 0 ((fun i => CpuInfo i (if i =? 0 then CPU_STATE_ONLINE else CPU_STATE_OFFLINE) i 0 0) <$> seqZ 0 MAX_CPUS)) 1 console0 ∅.
Lemma test_smp_correct_witness : exists con' m', cmd_test_smp 0x7000 demo_smp (console0, ∅) = Some (con', m').
Proof.
  destruct (test_smp_correct 0x7000 2 (fun i => if i =? 0 then CPU_STATE_ONLINE else CPU_STATE_OFFLINE) demo_smp console0 ∅) as (con' & m' & E & _).
  - split; [reflexivity|]. split; [reflexivity|]. intros k Hk. unfold smp_get_cpu_info. rewrite (proj2 (Z.leb_gt _ _)) by lia. unfold demo_smp. cbn [smp_system cpus].
    rewrite list_lookup_fmap, lookup_seqZ_lt by lia. cbn [fmap option_fmap option_map]. by replace (0 + Z.of_nat (Z.to_nat k)) with k by lia.
  - lia.
  - exists con', m'. exact E.
Defined.
