(* ===== verification/UserPrograms.v ===== *)
(** * Programs that run in ring 3 (kernel/user_programs.c, include/usyscall.h)

    The three demonstration programs, as the system calls they make and what they do with
    the answers, and a machine that runs such programs on the kernel: it hands each call
    to [syscall_dispatch], keeps what is left of each program with its process, and takes
    a timer tick when no program can go on. *)
From Stdlib Require Import String.
From S2P Require Import Prelude Mem Heap Proc Sched Process CString Console Shell ProcCommands Syscall.
Local Close Scope string_scope.

(** ** Numbers *)

(** The do-while loop over the digits; [tmp] is filled from its start. *)
Fixpoint u_digits (room : nat) (v : Z) (tmp : list Z) : list Z :=
  match room with
  | O => tmp
  | S room => let tmp := tmp ++ [48 + v mod 10] in let v := v / 10 in if 0 <? v then u_digits room v tmp else tmp
  end.
(** [while (pos > 0) buf[i++] = tmp[--pos]]. *)
Definition u_itoa (value : Z) : list Z :=
  let '(neg, v) := if value <? 0 then (true, u32 (- value)) else (false, u32 value) in
  (if neg : bool then [45] else []) ++ reverse (u_digits 12 v []).

(** ** System calls *)

(** The wrappers of usyscall.h; [u_wait] also gives the status it stores. *)
Inductive ucall :=
  | u_exit (code : Z) | u_write (s : list Z) | u_getpid | u_getppid | u_fork | u_yield | u_sleep (ms : Z) | u_wait.

(** A program: a call and what follows on its result and the stored status. After
    [u_exit] there is the endless loop. *)
Inductive prog := Do (c : ucall) (k : Z -> Z -> prog) | Forever.
Definition exits (code : Z) : prog := Do (u_exit code) (fun _ _ => Forever).
Fixpoint writes (l : list (list Z)) (p : prog) : prog :=
  match l with [] => p | t :: l => Do (u_write t) (fun _ _ => writes l p) end.
Definition line (t : string) : list Z := str t ++ [10].

Definition uprog_hello : prog :=
  Do u_getpid (fun pid _ =>
    writes [str "[user] hello from ring 3! pid="; u_itoa pid; [10] ++ line "[user] sleeping 300 ms via sys_sleep..."]
      (Do (u_sleep 300) (fun _ _ => writes [line "[user] awake again, exiting via sys_exit"] (exits 0)))).

(** The branches of [uprog_forktest] on the result of [u_fork]. *)
Definition fork_child : prog :=
  writes [str "[fork]   child: fork() returned 0, my pid="]
    (Do u_getpid (fun me _ => writes [u_itoa me; str ", ppid="]
      (Do u_getppid (fun par _ => writes [u_itoa par; [10] ++ line "[fork]   child: doing some work..."]
        (Do (u_sleep 200) (fun _ _ => writes [line "[fork]   child: exiting with code 42"] (exits 42))))))).
Definition fork_wait : prog :=
  Do u_wait (fun reaped status =>
    writes [str "[fork] parent: wait() reaped pid="; u_itoa reaped; str " exit code="; u_itoa status; [10]] (exits 0)).
Definition fork_parent (pid : Z) : prog :=
  writes [str "[fork] parent: fork() returned child pid="; u_itoa pid; [10] ++ line "[fork] parent: waiting for child..."] fork_wait.
Definition uprog_forktest : prog :=
  writes [str "[fork] parent pid="]
   (Do u_getpid (fun me _ => writes [u_itoa me; line " calling fork()..."]
     (Do u_fork (fun pid _ =>
       if pid =? 0 then fork_child
       else if 0 <? pid then fork_parent pid
       else writes [line "[fork] fork() failed"] (exits 1))))).

(** [for (int i = 1; i <= 5; i++)] with [n] rounds left. *)
Fixpoint counter_rounds (pid_buf : list Z) (n : nat) (i : Z) (p : prog) : prog :=
  match n with
  | O => p
  | S n => writes [str "[counter pid "; pid_buf; str "] tick "; u_itoa i; [10]]
             (Do (u_sleep 100) (fun _ _ => counter_rounds pid_buf n (i + 1) p))
  end.
Definition uprog_counter : prog :=
  Do u_getpid (fun pid _ =>
    counter_rounds (u_itoa pid) 5 1 (writes [str "[counter pid "; u_itoa pid; line "] done"] (exits 0))).

(** ** Running programs on the kernel *)

(** The registers of a call: the number in EAX, the argument in EBX; a string is at the
    address [text_at], the status of [u_wait] is stored at [status_at]. *)
Definition text_at : Z := 0x1000.
Definition status_at : Z := 0x2000.
Definition call_args (c : ucall) : Z * Z :=
  match c with
  | u_exit code => (SYS_EXIT, u32 code) | u_write _ => (SYS_WRITE, text_at) | u_getpid => (SYS_GETPID, 0) | u_getppid => (SYS_GETPPID, 0)
  | u_fork => (SYS_FORK, 0) | u_yield => (SYS_YIELD, 0) | u_sleep ms => (SYS_SLEEP, ms) | u_wait => (SYS_WAIT, status_at)
  end.
Definition call_regs (c : ucall) (ustack : Z) : regs :=
  Regs 0x23 0x23 0x23 0x23 0 0 (ustack + 16000) 0 (snd (call_args c)) 0 0 (fst (call_args c)) 0x400010 0x1B 0x202 (ustack + 15990) 0x23.
Definition call_mem (c : ucall) : mem := match c with u_write t => put ∅ text_at t | _ => ∅ end.

(** The kernel, the programs by the slot of their process, and the screen's text. *)
Record userland := Userland { ul_sys : sys; ul_progs : gmap nat prog; ul_waiting : gset nat; ul_text : list Z }.

(** One step of the running process, or a tick of the timer. The process a successful
    [fork] made goes on after the call with the result 0. *)
Definition ustep (fork_ret : Z) (x : userland) : option userland :=
  let s := ul_sys x in
  c ← current_process s;
  match ul_progs x !! c with
  | None => s ← timer_handler s; Some (Userland s (ul_progs x) (ul_waiting x) (ul_text x))
  | Some Forever => None
  | Some (Do o k) =>
      let s := if decide (c ∈ ul_waiting x) then process_wait_resume s else s in
      r ← syscall_dispatch fork_ret (call_mem o) (call_regs o (p_ustack (proc s c))) s;
      match r with
      | Exited s => Some (Userland s (delete c (ul_progs x)) (ul_waiting x) (ul_text x))
      | Suspended s => Some (Userland s (ul_progs x) ({[c]} ∪ ul_waiting x) (ul_text x))
      | Returned r out stored s' =>
          let progs := <[c := k (s32 (f_eax r)) (match stored with Some (_, v) => v | None => 0 end)]> (ul_progs x) in
          let progs := match o with
                       | u_fork => if s32 (f_eax r) <=? 0 then progs
                                   else match process_by_pid (f_eax r) s' with Some i => <[i := k 0 0]> progs | None => progs end
                       | _ => progs
                       end in
          Some (Userland s' progs (ul_waiting x ∖ {[c]}) (ul_text x ++ out))
      end
  end.
Fixpoint urun (n : nat) (fork_ret : Z) (x : userland) : option userland :=
  match n with O => Some x | S n => x ← ustep fork_ret x; urun n fork_ret x end.
Definition launch_user (p : prog) : userland := Userland user_run {[1%nat := p]} ∅ [].

(** ** Properties *)

Lemma u_digits_dec room : forall v tmp, reverse (u_digits room v tmp) = dec_buf room v (reverse tmp).
Proof.
  induction room as [|room IH]; intros v tmp; [done|]. cbn [u_digits dec_buf]. cbv zeta. destruct (0 <? v / 10).
  - rewrite IH, reverse_app. done.
  - by rewrite reverse_app.
Qed.

Lemma u_digits_spec v : 0 <= v <= 2147483648 -> exists ds, reverse (u_digits 12 v []) = ds /\ Forall (fun c => 48 <= c <= 57) ds /\
  of_digits 10 ds = v /\ (1 <= length ds <= 10)%nat /\ (hd 0 ds = 48 -> ds = [48]).
Proof.
  intros Hr. rewrite u_digits_dec. change (reverse (@nil Z)) with (@nil Z). destruct (decide (v = 0)) as [->|Hn].
  { exists [48]. split_and!; try done; try (cbn; lia). repeat constructor; lia. }
  assert (dec_buf 12 v [] = dec_buf 10 v []) as -> by (rewrite (dec_buf_room 11), (dec_buf_room 10); first [reflexivity|cbn; lia]).
  destruct (dec_buf_spec 10 v []) as (ds & -> & Hds & Hval & Hlen & Hlead); [cbn; lia|lia|]. exists ds. rewrite app_nil_r.
  split_and!; try done; lia.
Qed.

Lemma u_itoa_spec value : - 2 ^ 31 <= value < 2 ^ 31 ->
  (1 <= length (u_itoa value) <= 11)%nat /\ Forall (fun c => c <> 0) (u_itoa value) /\ read_int 10 (u_itoa value) = value /\
  (hd_error (u_itoa value) = Some 48 -> u_itoa value = [48]).
Proof.
  intros Hv. change (2 ^ 31) with 2147483648 in Hv. unfold u_itoa.
  assert (forall ds, Forall (fun c => 48 <= c <= 57) ds -> Forall (fun c => c <> 0) ds) as Hnz.
  { intros ds. apply Forall_impl. intros; lia. }
  destruct (Z.ltb_spec value 0); rewrite u32_small by (red; change (2 ^ 32) with 4294967296; lia).
  - destruct (u_digits_spec (- value)) as (ds & -> & Hds & Hval & Hlen & _); [lia|]. cbn [app length hd_error].
    split; [lia|]. split; [by constructor; auto|]. split; [|done]. cbn [read_int]. rewrite Z.eqb_refl. lia.
  - destruct (u_digits_spec value) as (ds & -> & Hds & Hval & Hlen & Hlead); [lia|]. cbn [app].
    split; [lia|]. split; [auto|]. destruct ds as [|d ds]; [cbn in Hlen; lia|]. apply Forall_cons_iff in Hds as [Hd _]. split.
    + cbn [read_int]. by rewrite (proj2 (Z.eqb_neq d 45)) by lia.
    + cbn [hd_error]. intros [= ->]. by apply Hlead.
Qed.



(** *** The phases of a program *)

(** Process [c] runs and has [p] left to do. *)
Definition runs (x : userland) (c : nat) (p : prog) : Prop :=
  current_process (ul_sys x) = Some c /\ ul_progs x !! c = Some p /\ c ∉ ul_waiting x.
(** The state [x] with another kernel state, the program [p] for [c], and [out] written. *)
Definition stepped (x : userland) (c : nat) (p : prog) (out : list Z) (s : sys) : userland :=
  Userland s (<[c := p]> (ul_progs x)) (ul_waiting x) (ul_text x ++ out).
Definition printable (t : list Z) : Prop := Forall (fun v => v <> 0) t /\ (length t <= 4096)%nat.

Lemma ustep_returned fr x c o k r out stored s' : runs x c (Do o k) -> o <> u_fork ->
  syscall_dispatch fr (call_mem o) (call_regs o (p_ustack (proc (ul_sys x) c))) (ul_sys x) = Some (Returned r out stored s') ->
  ustep fr x = Some (stepped x c (k (s32 (f_eax r)) (match stored with Some (_, v) => v | None => 0 end)) out s').
Proof.
  intros (Hc & Hp & Hw) Ho E. unfold ustep. rewrite Hc. cbn [mbind option_bind]. rewrite Hp, decide_False, E by done. cbn [mbind option_bind].
  assert (ul_waiting x ∖ {[c]} = ul_waiting x) as -> by (by apply difference_disjoint_L, disjoint_singleton_r). by destruct o.
Qed.

Lemma put_before l : forall m a b, b < a -> ld (put m a l) b = ld m b.
Proof. induction l as [|v l IH]; intros m a b Hb; cbn [put]; [|rewrite IH by lia]; by rewrite ld_st_ne by lia. Qed.
Lemma write_put t n : forall m a, Forall (fun v => v <> 0) t -> (length t <= n)%nat -> write_chars n (put m a t) a = t.
Proof.
  revert n. induction t as [|v t IH]; intros [|n] m a Ht Hn; cbn [put write_chars length] in *; [done| |lia|].
  - by rewrite ld_st_eq.
  - apply Forall_cons_iff in Ht as [Hv Ht]. rewrite put_before, ld_st_eq by lia. rewrite (proj2 (Z.eqb_neq v 0) Hv). rewrite IH; [done|done|lia].
Qed.

Lemma write_step fr x c t p : runs x c (Do (u_write t) (fun _ _ => p)) -> printable t ->
  ustep fr x = Some (stepped x c p t (ul_sys x)).
Proof.
  intros Hx [Hz Hl]. erewrite (ustep_returned fr x c (u_write t) (fun _ _ => p)); [reflexivity|done|done|].
  unfold syscall_dispatch, sys_write. cbn [call_regs call_args call_mem f_eax f_ebx fst snd].
  rewrite (write_put t 4096) by (done || lia). reflexivity.
Qed.

Lemma stepped_runs x c p out s : runs x c p -> forall q, current_process s = Some c -> runs (stepped x c q out s) c q.
Proof. intros (_ & _ & Hw) q Hs. split; [done|]. split; [apply lookup_insert_eq|done]. Qed.
Lemma stepped_stepped x c p q o1 o2 s1 s2 : stepped (stepped x c p o1 s1) c q o2 s2 = stepped x c q (o1 ++ o2) s2.
Proof. unfold stepped. cbn. by rewrite insert_insert_eq, app_assoc. Qed.
Lemma urun_S fr x y n : ustep fr x = Some y -> urun (S n) fr x = urun n fr y.
Proof. intros E. cbn [urun]. by rewrite E. Qed.

(** A sequence of writes shows its texts in order and changes nothing else. *)
Lemma writes_run fr l : forall x c p n, runs x c (writes l p) -> Forall printable l ->
  urun (length l + n) fr x = urun n fr (stepped x c p (concat l) (ul_sys x)).
Proof.
  induction l as [|t l IH]; intros x c p n Hx Hl; cbn [writes length Nat.add concat] in *.
  - unfold stepped. rewrite app_nil_r, insert_id by apply Hx. by destruct x.
  - apply Forall_cons_iff in Hl as [Ht Hl]. rewrite (urun_S _ _ _ _ (write_step fr x c t _ Hx Ht)).
    rewrite (IH _ c p) by (done || apply (stepped_runs _ _ _ _ _ Hx), Hx). by rewrite stepped_stepped.
Qed.

Lemma printable_itoa v : printable (u_itoa (s32 v)).
Proof.
  destruct (u_itoa_spec (s32 v)) as (Hl & Hz & _); [|split; [done|lia]].
  unfold s32. pose proof (Z.mod_pos_bound (v + 2 ^ 31) (2 ^ 32)). lia.
Qed.

Lemma getpid_step fr x c k : runs x c (Do u_getpid k) ->
  ustep fr x = Some (stepped x c (k (s32 (p_pid (proc (ul_sys x) c))) 0) [] (ul_sys x)).
Proof.
  intros Hx. erewrite (ustep_returned fr x c u_getpid k); [|done|done|reflexivity]. cbn [f_eax set_eax].
  unfold process_getpid. by rewrite (proj1 Hx).
Qed.

(** From [x] to [x'] process [c] wrote [out] and left the processor to the process [c']. *)
Definition wrote (x x' : userland) (c : nat) (out : list Z) : Prop :=
  ul_text x' = ul_text x ++ out /\ ul_waiting x' = ul_waiting x /\ forall i, i <> c -> ul_progs x' !! i = ul_progs x !! i.

Section Phases.
Context (base size : Z) (other : gmap Z Z).

(** [c] sleeps [ticks] timer ticks and then goes on with [p]. *)
Definition sleeps (x x' : userland) (c : nat) (ticks : Z) (p : prog) : Prop :=
  (exists qs' c', proc_inv base size other (ul_sys x') qs' c' /\ c' <> c) /\
  p_state (proc (ul_sys x') c) = SLEEPING /\ p_sleep_until (proc (ul_sys x') c) = u64 (timer_ticks (ul_sys x) + ticks) /\
  p_pid (proc (ul_sys x') c) = p_pid (proc (ul_sys x) c) /\ ul_progs x' !! c = Some p.
(** [c] is a zombie with the exit code [code]. *)
Definition ended (x' : userland) (c : nat) (code : Z) : Prop :=
  (exists qs' c', proc_inv base size other (ul_sys x') qs' c' /\ c' <> c) /\
  p_state (proc (ul_sys x') c) = ZOMBIE /\ p_exit_code (proc (ul_sys x') c) = code /\ ul_progs x' !! c = None.
(** [c] runs with [p] left, in a kernel that satisfies the process invariant. *)
Definition runs_inv (x : userland) (c : nat) (p : prog) : Prop :=
  runs x c p /\ c <> 0%nat /\ exists qs, proc_inv base size other (ul_sys x) qs c.

Lemma print_sleep fr x c l ms k : runs_inv x c (writes l (Do (u_sleep ms) k)) -> Forall printable l -> 0 < ms -> is_u32 (ms + 9) ->
  exists x', urun (length l + 1) fr x = Some x' /\ wrote x x' c (concat l) /\ sleeps x x' c ((ms + 9) / 10) (k 0 0).
Proof.
  intros (Hx & Hc & qs & Hinv) Hl Hms Hu. rewrite (writes_run fr l x c _ 1 Hx Hl).
  rewrite (urun_S fr _ (stepped x c (k 0 0) (concat l) (process_sleep ms (ul_sys x)))).
  2: { rewrite (ustep_returned fr _ c (u_sleep ms) k (set_eax 0 (call_regs (u_sleep ms) (p_ustack (proc (ul_sys x) c)))) []
         None (process_sleep ms (ul_sys x))); [by rewrite stepped_stepped, app_nil_r| |done|done].
       apply (stepped_runs _ _ _ _ _ Hx), Hx. }
  eexists. split; [reflexivity|]. split.
  { split; [done|]. split; [done|]. intros i Hi. apply lookup_insert_ne. congruence. }
  destruct (sleep_inv base size other _ qs c ms Hinv Hc ltac:(lia)) as (qs' & c' & H1 & H2 & v & H3).
  destruct (pub_fields _ _ H3) as (F1 & _ & F3 & _ & _ & _ & _ & _ & _ & F10 & _). split; [by exists qs', c'|].
  cbn [stepped ul_sys ul_progs]. rewrite F1, F3, F10. rewrite (u32_small (ms + 9)) by done. rewrite lookup_insert_eq. done.
Qed.

Lemma print_exit fr x c l code : runs_inv x c (writes l (exits code)) -> Forall printable l -> - 2 ^ 31 <= code < 2 ^ 31 ->
  exists x', urun (length l + 1) fr x = Some x' /\ wrote x x' c (concat l) /\ ended x' c code.
Proof.
  intros (Hx & Hc & qs & Hinv) Hl Hcode. rewrite (writes_run fr l x c _ 1 Hx Hl).
  destruct (stepped_runs _ _ _ (concat l) _ Hx (exits code) (proj1 Hx)) as (R1 & R2 & R3).
  unfold urun, ustep. rewrite R1. cbn [mbind option_bind]. rewrite R2. cbn [exits]. rewrite decide_False by done.
  unfold syscall_dispatch. cbn [call_regs call_args f_eax f_ebx fst snd]. change (SYS_EXIT =? SYS_EXIT) with true. cbn [mbind option_bind].
  assert (s32 (u32 code) = code) as -> by (rewrite <- (s32_small code) at 2 by done; unfold s32, u32; by rewrite Zplus_mod_idemp_l).
  eexists. split; [reflexivity|]. cbn [stepped ul_sys ul_progs ul_text ul_waiting]. rewrite delete_insert_eq. split.
  { split; [done|]. split; [done|]. intros i Hi. apply lookup_delete_ne. congruence. }
  destruct (exit_inv base size other _ qs c code Hinv Hc) as (qs' & c' & H1 & H2 & (v & H3) & _).
  destruct (pub_fields _ _ H3) as (_ & _ & F3 & _). split; [by exists qs', c'|]. split; [exact F3|]. split; [exact (f_equal p_exit_code H3)|].
  apply lookup_delete_eq.
Qed.
End Phases.

(** *** The programs *)

Lemma runs_stepped base size other x c p q out : runs_inv base size other x c p -> runs_inv base size other (stepped x c q out (ul_sys x)) c q.
Proof. intros (Hx & Hc & Hq). split; [|done]. apply (stepped_runs _ _ _ _ _ Hx), Hx. Qed.
Lemma wrote_stepped x c p out x' out' s : wrote (stepped x c p out s) x' c out' -> wrote x x' c (out ++ out').
Proof.
  intros (H1 & H2 & H3). split; [by rewrite H1; cbn; rewrite app_assoc|]. split; [done|].
  intros i Hi. rewrite H3 by done. apply lookup_insert_ne. congruence.
Qed.
Lemma printable_text t : forallb (fun v => negb (v =? 0)) t && Nat.leb (length t) 4096 = true -> printable t.
Proof.
  intros [H1 H2]%andb_prop. split; [|by apply Nat.leb_le]. rewrite List.forallb_forall in H1. apply Forall_forall. intros v Hv.
  pose proof (H1 v Hv) as E. by destruct (Z.eqb_spec v 0).
Qed.
Ltac printed := repeat (constructor; [first [apply printable_itoa | by apply printable_text]|]); constructor.

(** The step of [u_getpid], with the state after it. *)
Ltac get_pid fr Hx E R :=
  match type of Hx with runs_inv ?b ?z ?o ?x ?c _ =>
    pose proof (getpid_step fr x c _ (proj1 Hx)) as E; cbv beta in E;
    match type of E with _ = Some (stepped _ _ ?q ?out _) => pose proof (runs_stepped b z o x c _ q out Hx) as R end end.

(** The hello program: it greets with its own pid and sleeps 30 ticks of the timer, and
    once it runs again says so and leaves a zombie with the exit code 0. *)
Theorem hello_correct base size other fr x c : runs_inv base size other x c uprog_hello ->
  exists n x1 rest, urun n fr x = Some x1 /\
    wrote x x1 c (str "[user] hello from ring 3! pid=" ++ u_itoa (s32 (p_pid (proc (ul_sys x) c))) ++ [10] ++
      line "[user] sleeping 300 ms via sys_sleep...") /\
    sleeps base size other x x1 c 30 rest /\
    forall x2, runs_inv base size other x2 c rest -> exists m x3, urun m fr x2 = Some x3 /\
      wrote x2 x3 c (line "[user] awake again, exiting via sys_exit") /\ ended base size other x3 c 0.
Proof.
  intros Hx. get_pid fr Hx E R. destruct (print_sleep base size other fr _ c _ 300 _ R) as (x1 & E1 & W1 & S1); [printed|lia|split; lia|].
  eexists (S _), x1, _. split; [rewrite (urun_S _ _ _ _ E); exact E1|]. split; [exact (wrote_stepped _ _ _ _ _ _ _ W1)|].
  split; [exact S1|]. intros x2 H2. destruct (print_exit base size other fr x2 c _ 0 H2) as (x3 & E3 & W3 & S3); [printed|lia|].
  eexists _, x3. split; [exact E3|]. split; [|done]. revert W3. cbn [concat]. by rewrite app_nil_r.
Qed.

(** C23. The counter: its first run shows tick 1 with its pid and sleeps 10 ticks of the timer;
    each time it runs again it shows the next tick, up to 5, and sleeps as long; after the
    fifth it says that it is done and leaves a zombie with the exit code 0. *)
Theorem counter_correct base size other fr x c : runs_inv base size other x c uprog_counter ->
  let pid := u_itoa (s32 (p_pid (proc (ul_sys x) c))) in
  let tick i := str "[counter pid " ++ pid ++ str "] tick " ++ u_itoa i ++ [10] in
  exists rest : nat -> prog,
    (exists n x1, urun n fr x = Some x1 /\ wrote x x1 c (tick 1) /\ sleeps base size other x x1 c 10 (rest 1%nat)) /\
    (forall i x2, (1 <= i < 5)%nat -> runs_inv base size other x2 c (rest i) -> exists n x3, urun n fr x2 = Some x3 /\
       wrote x2 x3 c (tick (Z.of_nat i + 1)) /\ sleeps base size other x2 x3 c 10 (rest (S i))) /\
    (forall x2, runs_inv base size other x2 c (rest 5%nat) -> exists n x3, urun n fr x2 = Some x3 /\
       wrote x2 x3 c (str "[counter pid " ++ pid ++ line "] done") /\ ended base size other x3 c 0).
Proof.
  intros Hx pid tick. get_pid fr Hx E R. fold pid in E, R.
  set (fin := writes [str "[counter pid "; pid; line "] done"] (exits 0)) in *.
  assert (forall n i x2, 1 <= i <= 5 -> runs_inv base size other x2 c (counter_rounds pid (S n) i fin) -> exists x3, urun 6 fr x2 = Some x3 /\
    wrote x2 x3 c (tick i) /\ sleeps base size other x2 x3 c 10 (counter_rounds pid n (i + 1) fin)) as Hround.
  { intros n i x2 Hi H2. cbn [counter_rounds] in H2. destruct (print_sleep base size other fr _ c _ 100 _ H2) as (x3 & E3 & W3 & S3);
      [|lia|split; lia|].
    - rewrite <- (s32_small i) by lia. printed.
    - exists x3. split; [exact E3|]. split; [|exact S3]. revert W3. cbn [concat]. by rewrite app_nil_r. }
  exists (fun i => counter_rounds pid (5 - i) (Z.of_nat i + 1) fin). split; [|split].
  - destruct (Hround 4%nat 1 _ ltac:(lia) R) as (x1 & E1 & W1 & S1). exists 7%nat, x1. rewrite (urun_S _ _ _ _ E). split; [exact E1|].
    split; [exact (wrote_stepped _ _ _ _ _ _ _ W1)|exact S1].
  - intros i x2 Hi H2. replace (5 - i)%nat with (S (5 - S i)) in H2 by lia.
    destruct (Hround _ (Z.of_nat i + 1) _ ltac:(lia) H2) as (x3 & E3 & W3 & S3). exists 6%nat, x3. rewrite Nat2Z.inj_succ. by unfold Z.succ.
  - intros x2 H2. destruct (print_exit base size other fr x2 c _ 0 H2) as (x3 & E3 & W3 & S3); [printed|lia|].
    eexists _, x3. split; [exact E3|]. split; [|done]. revert W3. cbn [concat]. by rewrite app_nil_r.
Qed.

(** [fork] made the process [i]: it is ready, its parent is [c] and it goes on with [p]. *)
Definition forked_off (base size : Z) (other : gmap Z Z) (x x' : userland) (c i : nat) (p : prog) : Prop :=
  i <> c /\ p_state (proc (ul_sys x) i) = UNUSED /\ p_state (proc (ul_sys x') i) = READY /\
  p_ppid (proc (ul_sys x') i) = p_pid (proc (ul_sys x) c) /\ (exists qs', sys_safe base size other (ul_sys x') qs' c) /\
  ul_progs x' !! i = Some p.

(** The slot a pid names, when no other process has it. *)
Lemma by_pid_unique s i : (i < PROCESS_MAX)%nat -> p_state (proc s i) <> UNUSED ->
  (forall j, (j < PROCESS_MAX)%nat -> j <> i -> p_state (proc s j) <> UNUSED -> p_pid (proc s j) <> p_pid (proc s i)) ->
  process_by_pid (p_pid (proc s i)) s = Some i.
Proof.
  intros Hi Hs Hu. unfold process_by_pid. destruct (List.find _ slots) as [j|] eqn:E.
  - apply List.find_some in E as [Hj [Ht Hp]%andb_prop]. apply List.in_seq in Hj. destruct (decide (j = i)) as [->|Hji]; [done|].
    exfalso. apply (Hu j); [lia|done| |lia]. unfold is_unused in Ht. by destruct (p_state (proc s j)).
  - pose proof (List.find_none _ _ E i) as H. cbv beta in H. rewrite Z.eqb_refl, andb_true_r in H. unfold is_unused in H.
    destruct (p_state (proc s i)) eqn:Es; try done; exfalso; specialize (H ltac:(apply List.in_seq; lia)); done.
Qed.

(** The step of [u_fork]: the caller goes on with -1, or with the child's pid, and the
    child goes on with 0. *)
Lemma fork_step base size other fr x c k : runs_inv base size other x c (Do u_fork k) -> exists x',
  ustep fr x = Some x' /\ ul_text x' = ul_text x /\
  ((runs_inv base size other x' c (k (-1) 0) /\ wrote x x' c []) \/
   (exists i, forked_off base size other x x' c i (k 0 0) /\ 1 <= p_pid (proc (ul_sys x') i) <= 65 /\
      runs x' c (k (p_pid (proc (ul_sys x') i)) 0))).
Proof.
  intros ((Hcur & Hp & Hw) & Hc & qs & Hinv). unfold ustep. rewrite Hcur. cbn [mbind option_bind]. rewrite Hp, decide_False by done.
  unfold syscall_dispatch. cbn [call_regs call_args f_eax f_ebx fst snd].
  change (SYS_FORK =? SYS_EXIT) with false. change (SYS_FORK =? SYS_WRITE) with false. change (SYS_FORK =? SYS_GETPID) with false.
  change (SYS_FORK =? SYS_FORK) with true. cbv iota.
  match goal with |- context [sys_fork _ ?rr _] => set (r := rr) end.
  destruct (fork_spec base size other fr r (ul_sys x) qs c Hinv) as (res & s' & E & H). rewrite E. cbn [mbind option_bind f_eax set_eax].
  assert (ul_waiting x ∖ {[c]} = ul_waiting x) as -> by (by apply difference_disjoint_L, disjoint_singleton_r).
  eexists. split; [reflexivity|]. split; [apply app_nil_r|]. cbn [ul_sys ul_progs]. destruct H as [(-> & Hi & _ & _)|(i & -> & F)].
  - left. change (s32 (u32 (-1))) with (-1). cbn [Z.leb Z.compare]. split.
    + split; [|by split; [|exists qs]]. split; [apply (co_current _ _ _ (proj1 (pv_sched _ _ _ _ _ _ Hi)))|]. split; [apply lookup_insert_eq|done].
    + split; [done|]. split; [done|]. intros i Hne. apply lookup_insert_ne. congruence.
  - right. exists i. destruct F as [(Hi & Hne & Hun) Hsafe [Hp1 Hp2] _ (ks & cu & Hpcb & _)].
    destruct (pub_fields _ _ Hpcb) as (_ & F2 & F3 & _). cbn [child_pcb p_ppid p_state] in F2, F3.
    assert (u32 (p_pid (proc s' i)) = p_pid (proc s' i)) as Eu by (apply u32_small; split; lia). rewrite Eu.
    rewrite (s32_small (p_pid (proc s' i))) by lia. rewrite (proj2 (Z.leb_gt _ _)) by lia.
    rewrite by_pid_unique by (done || congruence). split.
    + split_and!; try done; [by eexists|apply lookup_insert_eq].
    + split; [done|]. split; [apply (co_current _ _ _ (proj1 (sf_sched _ _ _ _ _ _ Hsafe)))|].
      split; [cbn [ul_progs]; by rewrite lookup_insert_ne, lookup_insert_eq|done].
Qed.

(** A phase that leaves the kernel alone, and phases one after the other. *)
Definition talks (base size : Z) (other : gmap Z Z) (fr : Z) (x : userland) (c : nat) (out : list Z) (p : prog) : Prop :=
  exists n x', urun n fr x = Some x' /\ runs_inv base size other x' c p /\ wrote x x' c out /\ ul_sys x' = ul_sys x.
Lemma urun_app fr n : forall x y m, urun n fr x = Some y -> urun (n + m) fr x = urun m fr y.
Proof. induction n as [|n IH]; intros x y m; cbn [urun Nat.add]; [by intros [= ->]|]. destruct (ustep fr x); cbn; [apply IH|done]. Qed.
Lemma wrote_trans x y z c o1 o2 : wrote x y c o1 -> wrote y z c o2 -> wrote x z c (o1 ++ o2).
Proof.
  intros (A1 & A2 & A3) (B1 & B2 & B3). split; [by rewrite B1, A1, app_assoc|]. split; [congruence|]. intros i Hi. by rewrite B3, A3.
Qed.
Lemma talk_writes base size other fr x c l p : runs_inv base size other x c (writes l p) -> Forall printable l ->
  talks base size other fr x c (concat l) p.
Proof.
  intros Hx Hl. exists (length l + 0)%nat, (stepped x c p (concat l) (ul_sys x)). rewrite (writes_run fr l x c p 0 (proj1 Hx) Hl).
  split; [done|]. split; [exact (runs_stepped _ _ _ _ _ _ _ _ Hx)|]. split; [|done]. split; [done|]. split; [done|].
  intros i Hi. apply lookup_insert_ne. congruence.
Qed.
Lemma talk_getpid base size other fr x c k : runs_inv base size other x c (Do u_getpid k) ->
  talks base size other fr x c [] (k (s32 (p_pid (proc (ul_sys x) c))) 0).
Proof.
  intros Hx. get_pid fr Hx E R. exists 1%nat. eexists. rewrite (urun_S _ _ _ _ E). split; [reflexivity|]. split; [exact R|].
  split; [|done]. split; [done|]. split; [done|]. intros i Hi. apply lookup_insert_ne. congruence.
Qed.
Lemma talks_then base size other fr x c o1 p o2 q : talks base size other fr x c o1 p ->
  (forall y, runs_inv base size other y c p -> ul_sys y = ul_sys x -> talks base size other fr y c o2 q) -> talks base size other fr x c (o1 ++ o2) q.
Proof.
  intros (n & y & E & R & W & S) H. destruct (H y R S) as (m & z & E2 & R2 & W2 & S2). exists (n + m)%nat, z.
  rewrite (urun_app _ _ _ _ _ E). split; [done|]. split; [done|]. split; [by apply (wrote_trans x y)|congruence].
Qed.

(** C22. The fork test: the parent shows its pid and calls [fork]. When that fails it says so
    and leaves a zombie with the exit code 1. Otherwise there is one more process, ready,
    with the parent's pid as its parent, that goes on as the child, and the parent shows
    the child's pid and goes on to wait. *)
Theorem forktest_correct base size other fr x c : runs_inv base size other x c uprog_forktest ->
  let first := str "[fork] parent pid=" ++ u_itoa (s32 (p_pid (proc (ul_sys x) c))) ++ line " calling fork()..." in
  exists n x', urun n fr x = Some x' /\
    ((wrote x x' c (first ++ line "[fork] fork() failed") /\ ended base size other x' c 1) \/
     exists i, forked_off base size other x x' c i fork_child /\ runs x' c fork_wait /\ 1 <= p_pid (proc (ul_sys x') i) <= 65 /\
       ul_text x' = ul_text x ++ first ++ str "[fork] parent: fork() returned child pid=" ++ u_itoa (p_pid (proc (ul_sys x') i)) ++ [10] ++
         line "[fork] parent: waiting for child...").
Proof.
  intros Hx first.
  assert (talks base size other fr x c first (Do u_fork (fun pid _ => if pid =? 0 then fork_child
    else if 0 <? pid then fork_parent pid else writes [line "[fork] fork() failed"] (exits 1)))) as (n & y & E & R & W & S).
  { apply (talks_then _ _ _ _ _ _ (concat [str "[fork] parent pid="]) _ _ _ (talk_writes _ _ _ _ _ _ _ _ Hx ltac:(printed))).
    intros y1 R1 S1. apply (talks_then _ _ _ _ _ _ [] _ _ _ (talk_getpid _ _ _ _ _ _ _ R1)). intros y2 R2 S2.
    rewrite S1 in R2. apply (talk_writes _ _ _ _ _ _ _ _ R2). printed. }
  destruct (fork_step _ _ _ fr y c _ R) as (z & Ez & Tz & [[Rz Wz]|(i & F & Hp & Rz)]).
  - destruct (print_exit _ _ _ fr z c _ 1 Rz) as (z' & E' & W' & F'); [printed|lia|]. exists (n + (1 + 2))%nat, z'.
    rewrite (urun_app _ _ _ _ _ E), (urun_app _ 1 _ _ _ (urun_S _ _ _ 0 Ez)). split; [exact E'|]. left. split; [|done].
    apply (wrote_trans _ y); [done|]. exact (wrote_trans _ _ _ _ _ _ Wz W').
  - rewrite (proj2 (Z.eqb_neq _ _)), (proj2 (Z.ltb_lt _ _)) in Rz by lia. pose proof (writes_run fr _ z c fork_wait 0 Rz) as Ew.
    exists (n + (1 + (3 + 0)))%nat. eexists. rewrite (urun_app _ _ _ _ _ E), (urun_app _ 1 _ _ _ (urun_S _ _ _ 0 Ez)).
    split; [apply Ew|]. { rewrite <- (s32_small (p_pid (proc (ul_sys z) i))) by lia. printed. }
    right. exists i. cbn [ul_sys stepped ul_text]. rewrite Tz, (proj1 W), <- app_assoc. split; [|split; [|done]].
    + destruct F as (F1 & F2 & F3 & F4 & F5 & F6). rewrite S in F2, F4. split_and!; try done.
      cbn [stepped ul_progs]. by rewrite lookup_insert_ne.
    + apply (stepped_runs _ _ _ _ _ Rz), Rz.
Qed.

(** *** Concrete states *)

Lemma launched_runs p : runs_inv 0x100000 0x20000 ∅ (launch_user p) 1 p.
Proof.
  split; [|split; [done|exact user_run_inv]]. split; [vm_compute; reflexivity|]. split; [apply lookup_insert_eq|]. apply not_elem_of_empty.
Qed.

Lemma hello_correct_witness : exists n x1 rest, urun n 0x7000 (launch_user uprog_hello) = Some x1 /\
  sleeps 0x100000 0x20000 ∅ (launch_user uprog_hello) x1 1 30 rest.
Proof.
  destruct (hello_correct 0x100000 0x20000 ∅ 0x7000 _ 1%nat (launched_runs uprog_hello)) as (n & x1 & rest & H1 & _ & H2 & _).
  exists n, x1, rest. split; [exact H1|exact H2].
Defined.

Lemma counter_correct_witness : exists n x1 p, urun n 0x7000 (launch_user uprog_counter) = Some x1 /\
  sleeps 0x100000 0x20000 ∅ (launch_user uprog_counter) x1 1 10 p.
Proof.
  destruct (counter_correct 0x100000 0x20000 ∅ 0x7000 _ 1%nat (launched_runs uprog_counter)) as (rest & (n & x1 & H1 & _ & H2) & _).
  exists n, x1, (rest 1%nat). split; [exact H1|exact H2].
Defined.

Lemma forktest_correct_witness : exists n x', urun n 0x7000 (launch_user uprog_forktest) = Some x' /\
  (ended 0x100000 0x20000 ∅ x' 1 1 \/ exists i, forked_off 0x100000 0x20000 ∅ (launch_user uprog_forktest) x' 1 i fork_child).
Proof.
  destruct (forktest_correct 0x100000 0x20000 ∅ 0x7000 _ 1%nat (launched_runs uprog_forktest)) as (n & x' & H1 & [[_ H2]|(i & H2 & _)]);
    exists n, x'; (split; [exact H1|]); [left; exact H2|right; exists i; exact H2].
Defined.
