(* ===== verification/DriverConfig.v ===== *)
(** * Driver configuration (drivers/config/src/*.rs, drivers/driver_config.h)

    The Rust library that keeps the console, keyboard and timer configurations and its C
    interface: the [repr(C)] layout of the three structures on a byte memory, and the
    get, set, reset and get-default functions of each driver. *)
From Stdlib Require Import String.
From S2P Require Import Prelude Mem.
Local Close Scope string_scope.

(** ** Structures in memory *)

(** A little-endian number of [w] bytes. *)
Fixpoint rd_le (w : nat) (m : mem) (a : Z) : Z :=
  match w with O => 0 | S w => ld m a + 256 * rd_le w m (a + 1) end.
Fixpoint wr_le (w : nat) (m : mem) (a v : Z) : mem :=
  match w with O => m | S w => wr_le w (st m a (v mod 256)) (a + 1) (v / 256) end.

(** The C layout: each field at the next multiple of its alignment, which is its size. *)
Definition align_up (a n : Z) : Z := (n + a - 1) / a * a.
Fixpoint field_offsets (l : list (string * nat)) (at_ : Z) : list (Z * nat) :=
  match l with
  | [] => []
  | (_, w) :: l => let o := align_up (Z.of_nat w) at_ in (o, w) :: field_offsets l (o + Z.of_nat w)
  end.
Definition align_of (l : list (string * nat)) : Z := foldr (fun f a => Z.max (Z.of_nat (snd f)) a) 1 l.
Definition fields_end (l : list (string * nat)) : Z := foldl (fun n f => align_up (Z.of_nat (snd f)) n + Z.of_nat (snd f)) 0 l.
Definition size_of (l : list (string * nat)) : Z := align_up (align_of l) (fields_end l).

Fixpoint write_fields (offs : list (Z * nat)) (vs : list Z) (p : Z) (m : mem) : mem :=
  match offs, vs with
  | (o, w) :: offs, v :: vs => write_fields offs vs p (wr_le w m (p + o) v)
  | _, _ => m
  end.
Definition read_fields (offs : list (Z * nat)) (p : Z) (m : mem) : list Z := map (fun f => rd_le (snd f) m (p + fst f)) offs.

(** Field values that fit their widths. *)
Definition fit (l : list (string * nat)) (vs : list Z) : Prop := Forall2 (fun f v => 0 <= v < 256 ^ Z.of_nat (snd f)) l vs.

(** A [repr(C)] structure with a compiled-in default: the names and sizes of its fields,
    and the values of the fields in that order. *)
Class ReprC (T : Type) := {
  layout : list (string * nat);
  fields : T -> list Z;
  of_fields : list Z -> T;
  default : T;
  fields_of : forall vs, length vs = length layout -> fields (of_fields vs) = vs;
  of_fields_of : forall v, of_fields (fields v) = v;
  layout_sizes : Forall (fun f => snd f <> 0%nat) layout;
  default_fit : fit layout (fields default)
}.

Definition write_struct `{ReprC T} (p : Z) (v : T) (m : mem) : mem := write_fields (field_offsets layout 0) (fields v) p m.
Definition read_struct `{ReprC T} (p : Z) (m : mem) : T := of_fields (read_fields (field_offsets layout 0) p m).

(** ** Configurations *)

Inductive VgaColor :=
  | Black | Blue | Green | Cyan | Red | Magenta | Brown | LightGrey
  | DarkGrey | LightBlue | LightGreen | LightCyan | LightRed | Pink | Yellow | White.
(** The [repr(u8)] value. *)
Definition vga_code (c : VgaColor) : Z :=
  match c with
  | Black => 0 | Blue => 1 | Green => 2 | Cyan => 3 | Red => 4 | Magenta => 5 | Brown => 6 | LightGrey => 7
  | DarkGrey => 8 | LightBlue => 9 | LightGreen => 10 | LightCyan => 11 | LightRed => 12 | Pink => 13 | Yellow => 14 | White => 15
  end.
Inductive KeyboardLayout := QwertyUs | QwertyUk | Azerty | Qwertz.
Definition layout_code (l : KeyboardLayout) : Z := match l with QwertyUs => 0 | QwertyUk => 1 | Azerty => 2 | Qwertz => 3 end.

(** The constants of driver_config.h. *)
Definition VGA_COLOR (c : VgaColor) : Z :=
  match c with
  | Black => 0 | Blue => 1 | Green => 2 | Cyan => 3 | Red => 4 | Magenta => 5 | Brown => 6 | LightGrey => 7
  | DarkGrey => 8 | LightBlue => 9 | LightGreen => 10 | LightCyan => 11 | LightRed => 12 | Pink => 13 | Yellow => 14 | White => 15
  end.
Definition KB_LAYOUT (l : KeyboardLayout) : Z := match l with QwertyUs => 0 | QwertyUk => 1 | Azerty => 2 | Qwertz => 3 end.

Record ConsoleConfig := { width : Z; height : Z; fg_color : Z; bg_color : Z; auto_scroll : Z; tab_width : Z }.
Definition console_default : ConsoleConfig :=
  {| width := 80; height := 25; fg_color := vga_code White; bg_color := vga_code Black; auto_scroll := 1; tab_width := 4 |}.
Definition console_fields : list (string * nat) :=
  [("width"%string, 4%nat); ("height"%string, 4%nat); ("fg_color"%string, 1%nat); ("bg_color"%string, 1%nat);
   ("auto_scroll"%string, 1%nat); ("tab_width"%string, 1%nat)].

Record KeyboardConfig := { kb_layout : Z; repeat_delay_ms : Z; repeat_rate_ms : Z; caps_lock_enabled : Z; buffer_size : Z }.
Definition keyboard_default : KeyboardConfig :=
  {| kb_layout := layout_code QwertyUs; repeat_delay_ms := 500; repeat_rate_ms := 30; caps_lock_enabled := 0; buffer_size := 256 |}.
Definition keyboard_fields : list (string * nat) :=
  [("layout"%string, 1%nat); ("repeat_delay_ms"%string, 4%nat); ("repeat_rate_ms"%string, 4%nat);
   ("caps_lock_enabled"%string, 1%nat); ("buffer_size"%string, 4%nat)].

Record TimerConfig := { frequency_hz : Z; base_frequency : Z; enabled : Z }.
Definition timer_default : TimerConfig := {| frequency_hz := 100; base_frequency := 1193182; enabled := 1 |}.
Definition timer_fields : list (string * nat) :=
  [("frequency_hz"%string, 4%nat); ("base_frequency"%string, 4%nat); ("enabled"%string, 1%nat)].

(** The structures of driver_config.h: [uint32_t] has 4 bytes, [uint8_t] one. *)
Definition uint32_t : nat := 4.
Definition uint8_t : nat := 1.
Definition ConsoleConfig_h : list (string * nat) :=
  [("width"%string, uint32_t); ("height"%string, uint32_t); ("fg_color"%string, uint8_t); ("bg_color"%string, uint8_t);
   ("auto_scroll"%string, uint8_t); ("tab_width"%string, uint8_t)].
Definition KeyboardConfig_h : list (string * nat) :=
  [("layout"%string, uint8_t); ("repeat_delay_ms"%string, uint32_t); ("repeat_rate_ms"%string, uint32_t);
   ("caps_lock_enabled"%string, uint8_t); ("buffer_size"%string, uint32_t)].
Definition TimerConfig_h : list (string * nat) :=
  [("frequency_hz"%string, uint32_t); ("base_frequency"%string, uint32_t); ("enabled"%string, uint8_t)].

Ltac fit_default := repeat (apply List.Forall2_cons; [split; vm_compute; congruence|]); apply List.Forall2_nil.
Ltac all_sizes := repeat (apply List.Forall_cons; [done|]); apply List.Forall_nil.

#[global] Program Instance console_repr : ReprC ConsoleConfig := {|
  layout := console_fields;
  fields := fun v => [width v; height v; fg_color v; bg_color v; auto_scroll v; tab_width v];
  of_fields := fun l => Build_ConsoleConfig (nth 0 l 0) (nth 1 l 0) (nth 2 l 0) (nth 3 l 0) (nth 4 l 0) (nth 5 l 0);
  default := console_default |}.
Next Obligation. by intros [|? [|? [|? [|? [|? [|? [|]]]]]]]. Qed.
Next Obligation. by intros []. Qed.
Next Obligation. all_sizes. Qed.
Next Obligation. fit_default. Qed.

#[global] Program Instance keyboard_repr : ReprC KeyboardConfig := {|
  layout := keyboard_fields;
  fields := fun v => [kb_layout v; repeat_delay_ms v; repeat_rate_ms v; caps_lock_enabled v; buffer_size v];
  of_fields := fun l => Build_KeyboardConfig (nth 0 l 0) (nth 1 l 0) (nth 2 l 0) (nth 3 l 0) (nth 4 l 0);
  default := keyboard_default |}.
Next Obligation. by intros [|? [|? [|? [|? [|? [|]]]]]]. Qed.
Next Obligation. by intros []. Qed.
Next Obligation. all_sizes. Qed.
Next Obligation. fit_default. Qed.

#[global] Program Instance timer_repr : ReprC TimerConfig := {|
  layout := timer_fields;
  fields := fun v => [frequency_hz v; base_frequency v; enabled v];
  of_fields := fun l => Build_TimerConfig (nth 0 l 0) (nth 1 l 0) (nth 2 l 0);
  default := timer_default |}.
Next Obligation. by intros [|? [|? [|? [|]]]]. Qed.
Next Obligation. by intros []. Qed.
Next Obligation. all_sizes. Qed.
Next Obligation. fit_default. Qed.

(** ** The library's state and functions *)

(** The three static variables, and the memory of the callers. *)
Record drivers := Drivers { CONSOLE_CONFIG : ConsoleConfig; KEYBOARD_CONFIG : KeyboardConfig; TIMER_CONFIG : TimerConfig; d_mem : mem }.
Definition initial (m : mem) : drivers := Drivers console_default keyboard_default timer_default m.
Definition with_mem (m : mem) (d : drivers) : drivers := Drivers (CONSOLE_CONFIG d) (KEYBOARD_CONFIG d) (TIMER_CONFIG d) m.
Definition with_console (v : ConsoleConfig) (d : drivers) : drivers := Drivers v (KEYBOARD_CONFIG d) (TIMER_CONFIG d) (d_mem d).
Definition with_keyboard (v : KeyboardConfig) (d : drivers) : drivers := Drivers (CONSOLE_CONFIG d) v (TIMER_CONFIG d) (d_mem d).
Definition with_timer (v : TimerConfig) (d : drivers) : drivers := Drivers (CONSOLE_CONFIG d) (KEYBOARD_CONFIG d) v (d_mem d).

Definition console_config_get (cfg : Z) (d : drivers) : drivers :=
  if negb (cfg =? 0) then with_mem (write_struct cfg (CONSOLE_CONFIG d) (d_mem d)) d else d.
Definition console_config_set (cfg : Z) (d : drivers) : drivers :=
  if negb (cfg =? 0) then with_console (read_struct cfg (d_mem d)) d else d.
Definition console_config_reset (d : drivers) : drivers := with_console console_default d.
Definition console_config_get_default (cfg : Z) (d : drivers) : drivers :=
  if negb (cfg =? 0) then with_mem (write_struct cfg console_default (d_mem d)) d else d.

Definition keyboard_config_get (cfg : Z) (d : drivers) : drivers :=
  if negb (cfg =? 0) then with_mem (write_struct cfg (KEYBOARD_CONFIG d) (d_mem d)) d else d.
Definition keyboard_config_set (cfg : Z) (d : drivers) : drivers :=
  if negb (cfg =? 0) then with_keyboard (read_struct cfg (d_mem d)) d else d.
Definition keyboard_config_reset (d : drivers) : drivers := with_keyboard keyboard_default d.
Definition keyboard_config_get_default (cfg : Z) (d : drivers) : drivers :=
  if negb (cfg =? 0) then with_mem (write_struct cfg keyboard_default (d_mem d)) d else d.

Definition timer_config_get (cfg : Z) (d : drivers) : drivers :=
  if negb (cfg =? 0) then with_mem (write_struct cfg (TIMER_CONFIG d) (d_mem d)) d else d.
Definition timer_config_set (cfg : Z) (d : drivers) : drivers :=
  if negb (cfg =? 0) then with_timer (read_struct cfg (d_mem d)) d else d.
Definition timer_config_reset (d : drivers) : drivers := with_timer timer_default d.
Definition timer_config_get_default (cfg : Z) (d : drivers) : drivers :=
  if negb (cfg =? 0) then with_mem (write_struct cfg timer_default (d_mem d)) d else d.

(** A call of the library. *)
Inductive driver := Console | Keyboard | Timer.
#[global] Instance driver_eq : EqDecision driver.
Proof. solve_decision. Defined.
Inductive op := Get (cfg : Z) | Set_ (cfg : Z) | Reset_ | GetDefault (cfg : Z).
Definition call (k : driver) (o : op) : drivers -> drivers :=
  match k, o with
  | Console, Get p => console_config_get p | Console, Set_ p => console_config_set p
  | Console, Reset_ => console_config_reset | Console, GetDefault p => console_config_get_default p
  | Keyboard, Get p => keyboard_config_get p | Keyboard, Set_ p => keyboard_config_set p
  | Keyboard, Reset_ => keyboard_config_reset | Keyboard, GetDefault p => keyboard_config_get_default p
  | Timer, Get p => timer_config_get p | Timer, Set_ p => timer_config_set p
  | Timer, Reset_ => timer_config_reset | Timer, GetDefault p => timer_config_get_default p
  end.
Definition calls (l : list (driver * op)) (d : drivers) : drivers := foldl (fun d x => call (fst x) (snd x) d) d l.

(** ** Properties *)

Definition cfg_type (k : driver) : Type := match k with Console => ConsoleConfig | Keyboard => KeyboardConfig | Timer => TimerConfig end.
#[global] Instance cfg_repr (k : driver) : ReprC (cfg_type k) := match k with Console => console_repr | Keyboard => keyboard_repr | Timer => timer_repr end.
Definition active (k : driver) (d : drivers) : cfg_type k :=
  match k with Console => CONSOLE_CONFIG d | Keyboard => KEYBOARD_CONFIG d | Timer => TIMER_CONFIG d end.

(** *** Numbers and fields *)

Lemma wr_le_out w : forall m a v x, x < a \/ a + Z.of_nat w <= x -> ld (wr_le w m a v) x = ld m x.
Proof. induction w as [|w IH]; intros m a v x Hx; cbn [wr_le]; [done|]. rewrite IH, ld_st_ne by lia. done. Qed.
Lemma rd_wr w : forall m a v, 0 <= v < 256 ^ Z.of_nat w -> rd_le w (wr_le w m a v) a = v.
Proof.
  induction w as [|w IH]; intros m a v Hv; cbn [rd_le wr_le]; [cbn in Hv; lia|].
  rewrite Nat2Z.inj_succ, Z.pow_succ_r in Hv by lia. rewrite wr_le_out, ld_st_eq by lia. rewrite IH by dlia. dlia.
Qed.
Lemma rd_le_same w : forall m m' a, (forall x, a <= x < a + Z.of_nat w -> ld m' x = ld m x) -> rd_le w m' a = rd_le w m a.
Proof. induction w as [|w IH]; intros m m' a H; cbn [rd_le]; [done|]. rewrite (IH m m'), H by (intros; try apply H; lia). done. Qed.
Definition bytes (m : mem) : Prop := forall a, 0 <= ld m a < 256.
Lemma rd_le_range w : forall m a, bytes m -> 0 <= rd_le w m a < 256 ^ Z.of_nat w.
Proof.
  induction w as [|w IH]; intros m a Hm; cbn [rd_le]; [cbn; lia|]. rewrite Nat2Z.inj_succ, Z.pow_succ_r by lia.
  pose proof (Hm a). pose proof (IH m (a + 1) Hm). lia.
Qed.
Lemma wr_le_bytes w : forall m a v, bytes m -> bytes (wr_le w m a v).
Proof.
  induction w as [|w IH]; intros m a v Hm; cbn [wr_le]; [done|]. apply IH. intros x. destruct (decide (a = x)) as [->|].
  - rewrite ld_st_eq. apply Z.mod_pos_bound. lia.
  - by rewrite ld_st_ne.
Qed.

(** Fields in increasing order from [lo] up to [hi]. *)
Fixpoint ordered (lo : Z) (offs : list (Z * nat)) (hi : Z) : Prop :=
  match offs with [] => lo <= hi | (o, w) :: offs => lo <= o /\ ordered (o + Z.of_nat w) offs hi end.
Lemma ordered_le offs : forall lo hi, ordered lo offs hi -> lo <= hi.
Proof. induction offs as [|[o w] offs IH]; intros lo hi; cbn [ordered]; [done|]. intros [H1 H2%IH]. lia. Qed.

Lemma align_up_ge a n : 0 < a -> n <= align_up a n.
Proof. intros Ha. unfold align_up. dlia. Qed.
Lemma align_of_pos l : 0 < align_of l.
Proof. unfold align_of. induction l as [|f l IH]; cbn; lia. Qed.

Lemma offsets_ordered l : forall lo, Forall (fun f => snd f <> 0%nat) l ->
  ordered lo (field_offsets l lo) (foldl (fun n f => align_up (Z.of_nat (snd f)) n + Z.of_nat (snd f)) lo l).
Proof.
  induction l as [|[x w] l IH]; intros lo Hl; cbn [field_offsets ordered foldl snd]; [lia|]. apply Forall_cons_iff in Hl as [Hw Hl].
  cbn in Hw. split; [apply align_up_ge; lia|by apply IH].
Qed.
Lemma ordered_hi offs : forall lo hi hi', hi <= hi' -> ordered lo offs hi -> ordered lo offs hi'.
Proof. induction offs as [|[o w] offs IH]; intros lo hi hi' Hh; cbn [ordered]; [lia|]. intros [H1 H2]. split; [done|by apply (IH _ hi)]. Qed.
Lemma layout_ordered l : Forall (fun f => snd f <> 0%nat) l -> ordered 0 (field_offsets l 0) (size_of l).
Proof. intros Hl. apply (ordered_hi _ _ (fields_end l)); [apply align_up_ge, align_of_pos|by apply offsets_ordered]. Qed.

Lemma write_fields_out offs : forall vs lo hi p m x, ordered lo offs hi -> x < p + lo \/ p + hi <= x ->
  ld (write_fields offs vs p m) x = ld m x.
Proof.
  induction offs as [|[o w] offs IH]; intros vs lo hi p m x Ho Hx; [done|]. destruct vs as [|v vs]; [done|].
  cbn [write_fields ordered] in *. destruct Ho as [H1 H2]. pose proof (ordered_le _ _ _ H2). rewrite (IH _ (o + Z.of_nat w) hi), wr_le_out by (done || lia). done.
Qed.
Lemma read_write_fields l : forall lo vs p m, Forall (fun f => snd f <> 0%nat) l -> fit l vs ->
  read_fields (field_offsets l lo) p (write_fields (field_offsets l lo) vs p m) = vs.
Proof.
  induction l as [|[x w] l IH]; intros lo vs p m Hl Hf; destruct vs as [|v vs]; try (by inversion Hf).
  apply List.Forall2_cons_iff in Hf as [Hv Hf]. apply Forall_cons_iff in Hl as [Hw Hl]. cbn [field_offsets write_fields snd] in *.
  set (o := align_up (Z.of_nat w) lo) in *. set (m' := write_fields _ vs p _).
  change (rd_le w m' (p + o) :: read_fields (field_offsets l (o + Z.of_nat w)) p m' = v :: vs). unfold m' at 2. rewrite IH by done. f_equal. rewrite <- (rd_wr w m (p + o) v Hv). apply rd_le_same. intros y Hy.
  apply (write_fields_out _ _ _ _ _ _ _ (offsets_ordered l _ Hl)). lia.
Qed.
Lemma write_fields_bytes offs : forall vs p m, bytes m -> bytes (write_fields offs vs p m).
Proof. induction offs as [|[o w] offs IH]; intros [|v vs] p m Hm; cbn [write_fields]; try done. by apply IH, wr_le_bytes. Qed.
Lemma read_fields_fit l : forall lo p m, bytes m -> fit l (read_fields (field_offsets l lo) p m).
Proof.
  induction l as [|[x w] l IH]; intros lo p m Hm; cbn [field_offsets read_fields map fst snd]; [constructor|].
  constructor; [by apply rd_le_range|by apply IH].
Qed.
Lemma read_fields_length l lo p m : length (read_fields (field_offsets l lo) p m) = length l.
Proof. revert lo. induction l as [|[x w] l IH]; intros lo; [done|]. cbn. f_equal. apply IH. Qed.

(** *** Structures *)

Section Struct.
Context {T : Type} `{!ReprC T}.

Definition typed (v : T) : Prop := fit layout (fields v).
(** The bytes a structure at [p] takes. *)
Definition covers (p x : Z) : Prop := p <= x < p + size_of layout.

Lemma read_write_struct p (v : T) m : typed v -> read_struct p (write_struct p v m) = v.
Proof. intros Hv. unfold read_struct, write_struct. rewrite read_write_fields by (done || apply layout_sizes). apply of_fields_of. Qed.
Lemma write_struct_out p (v : T) m x : ~ covers p x -> ld (write_struct p v m) x = ld m x.
Proof.
  intros Hx. apply (write_fields_out _ _ 0 (size_of layout)); [apply layout_ordered, layout_sizes|]. unfold covers in Hx. lia.
Qed.
Lemma read_struct_typed p m : bytes m -> typed (read_struct p m).
Proof. intros Hm. unfold typed, read_struct. rewrite fields_of by apply read_fields_length. by apply read_fields_fit. Qed.
End Struct.

(** *** Calls *)

Definition drivers_ok (d : drivers) : Prop := bytes (d_mem d) /\ forall k, typed (active k d).

(** The effect of a call, in terms of the configuration it is about. *)
Lemma call_spec k o d :
  (forall k', k' <> k -> active k' (call k o d) = active k' d) /\
  match o with
  | Get p => active k (call k o d) = active k d /\ d_mem (call k o d) = (if p =? 0 then d_mem d else write_struct p (active k d) (d_mem d))
  | Set_ p => active k (call k o d) = (if p =? 0 then active k d else read_struct p (d_mem d)) /\ d_mem (call k o d) = d_mem d
  | Reset_ => active k (call k o d) = default /\ d_mem (call k o d) = d_mem d
  | GetDefault p => active k (call k o d) = active k d /\ d_mem (call k o d) = (if p =? 0 then d_mem d else write_struct p (default : cfg_type k) (d_mem d))
  end.
Proof.
  destruct k, o; cbv beta iota delta [call console_config_get console_config_set console_config_reset console_config_get_default
    keyboard_config_get keyboard_config_set keyboard_config_reset keyboard_config_get_default
    timer_config_get timer_config_set timer_config_reset timer_config_get_default];
  try destruct (cfg =? 0); (split; [intros [] Hk; done|split; reflexivity]).
Qed.

Lemma call_ok k o d : drivers_ok d -> drivers_ok (call k o d).
Proof.
  intros [Hm Ha]. destruct (call_spec k o d) as [Ho Hk]. split.
  - destruct o as [p|p| |p]; destruct Hk as [_ ->]; try destruct (p =? 0); try done; by apply write_fields_bytes.
  - intros k'. destruct (decide (k' = k)) as [->|Hne]; [|by rewrite Ho]. destruct o as [p|p| |p]; destruct Hk as [-> _]; try done.
    + destruct (p =? 0); [done|]. by apply read_struct_typed.
    + apply default_fit.
Qed.
Lemma calls_ok l : forall d, drivers_ok d -> drivers_ok (calls l d).
Proof. induction l as [|[k o] l IH]; intros d Hd; [done|]. apply IH, call_ok, Hd. Qed.

Lemma initial_typed k m : typed (active k (initial m)).
Proof. destruct k; [exact (@default_fit _ console_repr)|exact (@default_fit _ keyboard_repr)|exact (@default_fit _ timer_repr)]. Qed.

(** Calls that do not change the configuration of [k]. *)
Definition leaves (k : driver) (x : driver * op) : Prop :=
  fst x = k -> match snd x with Get _ | GetDefault _ => True | Set_ p => p = 0 | Reset_ => False end.
Lemma calls_leave k l : forall d, Forall (leaves k) l -> active k (calls l d) = active k d.
Proof.
  induction l as [|[k' o] l IH]; intros d Hl; [done|]. apply Forall_cons_iff in Hl as [Hx Hl]. cbn [calls foldl fst snd].
  fold (calls l (call k' o d)). rewrite IH by done. destruct (call_spec k' o d) as [Ho Hk].
  destruct (decide (k = k')) as [->|Hne]; [|by apply Ho]. specialize (Hx eq_refl). cbn [snd] in Hx.
  destruct o as [p|p| |p]; destruct Hk as [-> _]; try done. by subst p.
Qed.

(** C36. A configuration set from [p] is what a later get writes at [q], whatever the other
    calls between them do: calls for the other drivers, gets, and sets from NULL. The get
    writes no byte outside the structure, and every configuration stays within the widths
    of its fields from the defaults on. *)
Theorem config_set_get k p q before between m : bytes m -> p <> 0 -> q <> 0 -> Forall (leaves k) between ->
  let d := calls before (initial m) in
  let d1 := calls between (call k (Set_ p) d) in
  let d2 := call k (Get q) d1 in
  read_struct q (d_mem d2) = (read_struct p (d_mem d) : cfg_type k) /\ drivers_ok d2 /\
  (forall x, ~ covers (T := cfg_type k) q x -> ld (d_mem d2) x = ld (d_mem d1) x) /\ (forall k', active k' d2 = active k' d1).
Proof.
  intros Hm Hp Hq Hl d d1 d2. assert (drivers_ok d) as Hd. { apply calls_ok. split; [done|]. intros k'. by apply initial_typed. }
  assert (drivers_ok d1) as Hd1 by (apply calls_ok, call_ok, Hd). assert (active k d1 = read_struct p (d_mem d)) as Ea.
  { unfold d1. rewrite calls_leave by done. destruct (call_spec k (Set_ p) d) as [_ [-> _]]. by rewrite (proj2 (Z.eqb_neq p 0) Hp). }
  destruct (call_spec k (Get q) d1) as [Ho [Hk Hmem]]. fold d2 in Ho, Hk, Hmem. rewrite (proj2 (Z.eqb_neq q 0) Hq) in Hmem.
  split; [rewrite Hmem, Ea; apply read_write_struct; rewrite <- Ea; apply Hd1|]. split; [by apply call_ok|]. split.
  - intros x Hx. rewrite Hmem. by apply write_struct_out.
  - intros k'. destruct (decide (k' = k)) as [->|Hne]; [done|by apply Ho].
Qed.

(** A reset brings the compiled-in configuration back, get-default writes it without
    changing the active one, and no function does anything with a NULL pointer. *)
Theorem config_defaults k d p : (active k (call k Reset_ d) = default /\ d_mem (call k Reset_ d) = d_mem d) /\
  (p <> 0 -> read_struct p (d_mem (call k (GetDefault p) d)) = (default : cfg_type k)) /\
  (forall k', active k' (call k (GetDefault p) d) = active k' d) /\
  call k (Get 0) d = d /\ call k (Set_ 0) d = d /\ call k (GetDefault 0) d = d.
Proof.
  split; [apply (call_spec k Reset_ d)|]. destruct (call_spec k (GetDefault p) d) as [Ho [Hk Hm]]. split; [|split].
  - intros Hp. rewrite Hm, (proj2 (Z.eqb_neq p 0) Hp). apply read_write_struct, default_fit.
  - intros k'. destruct (decide (k' = k)) as [->|Hne]; [done|by apply Ho].
  - by destruct k.
Qed.

(** The structures and constants of the C header are those of the Rust library: the same
    fields in the same order with the same sizes, so the same offsets and total size. *)
Theorem header_agrees :
  ConsoleConfig_h = layout (T := ConsoleConfig) /\ KeyboardConfig_h = layout (T := KeyboardConfig) /\ TimerConfig_h = layout (T := TimerConfig) /\
  map fst (field_offsets ConsoleConfig_h 0) = [0; 4; 8; 9; 10; 11] /\ size_of ConsoleConfig_h = 12 /\
  map fst (field_offsets KeyboardConfig_h 0) = [0; 4; 8; 12; 16] /\ size_of KeyboardConfig_h = 20 /\
  map fst (field_offsets TimerConfig_h 0) = [0; 4; 8] /\ size_of TimerConfig_h = 12 /\
  (forall c, VGA_COLOR c = vga_code c) /\ (forall l, KB_LAYOUT l = layout_code l).
Proof. split_and!; reflexivity. Qed.

Lemma config_set_get_witness :
  read_struct 300 (d_mem (calls [(Timer, Reset_); (Keyboard, Set_ 0); (Keyboard, Get 300)] (call Keyboard (Set_ 200) (initial (st ∅ 204 7)))))
    = (read_struct 200 (st ∅ 204 7) : KeyboardConfig).
Proof.
  apply (config_set_get Keyboard 200 300 [] [(Timer, Reset_); (Keyboard, Set_ 0)]); [|discriminate|discriminate|].
  - intros a. destruct (decide (204 = a)) as [<-|]; [rewrite ld_st_eq; lia|rewrite ld_st_ne by done; change (ld ∅ a) with 0; lia].
  - constructor; [intros [=]|]. constructor; [intros _; reflexivity|]. constructor.
Defined.

Lemma config_defaults_witness : read_struct 64 (d_mem (call Timer (GetDefault 64) (initial ∅))) = timer_default.
Proof. destruct (config_defaults Timer (initial ∅) 64) as (_ & H & _). exact (H ltac:(discriminate)). Defined.
