(* ===== verification/Benchmark.v ===== *)
(** * The processor benchmark (benchmarks/pipeline_vs_single.c)

    The program that runs both processor simulators on one generated program, and the
    cache and the bus on access patterns, and prints their counters. The printed lines
    are pairs of a label and a number; the ratios ([double]) and the times are left out. *)
From Stdlib Require Import String.
From S2P Require Import Prelude Cpu.
Local Close Scope string_scope.

Definition NUM_INSTRUCTIONS : Z := 20000.
Definition MEMORY_SIZE : Z := 8192.

Definition report : Type := list (string * Z).

(** The [switch] on [i % 4]. *)
Definition test_word (i : Z) : Z :=
  let k := i mod 4 in
  if k =? 0 then Z.lor (Z.lor (Z.lor 0x33 (Z.shiftl 1 7)) (Z.shiftl 2 15)) (Z.shiftl 3 20)
  else if k =? 1 then Z.lor (Z.lor (Z.lor 0x13 (Z.shiftl 4 7)) (Z.shiftl 5 15)) (Z.shiftl 10 20)
  else if k =? 2 then Z.lor (Z.lor (Z.lor 0x03 (Z.shiftl 6 7)) (Z.shiftl 7 15)) (Z.shiftl 4 20)
  else Z.lor (Z.lor (Z.lor 0x23 (Z.shiftl 8 15)) (Z.shiftl 9 20)) (Z.shiftl 4 7).
Definition generate_test_program (memory : list Z) (size : Z) : list Z :=
  for_range 0 (Z.min size NUM_INSTRUCTIONS) (fun i memory => aset memory i (test_word i)) memory.

Definition benchmark_pipeline (memory : list Z) (mem_size : Z) : option (report * PerformanceCounters) :=
  match pipeline_execute memory mem_size NUM_INSTRUCTIONS pipeline_init with
  | None => None
  | Some cpu =>
      let cycles := pipeline_get_cycles cpu in
      let instructions := pipeline_get_instructions cpu in
      let stalls := pipeline_get_stalls cpu in
      let perf := performance_update_cycles cycles performance_init in
      let perf := performance_update_instructions instructions perf in
      let perf := performance_update_stalls stalls perf in
      Some ([("Instructions executed"%string, instructions); ("Total cycles"%string, cycles); ("Pipeline stalls"%string, stalls)], perf)
  end.

(** The processor stores into the memory its caller passes. *)
Definition benchmark_single_cycle (memory : list Z) (mem_size : Z) : report * PerformanceCounters * list Z :=
  let '(cpu, memory) := single_cycle_execute mem_size (Z.to_nat NUM_INSTRUCTIONS) (single_cycle_init, memory) in
  let cycles := single_cycle_get_cycles cpu in
  let instructions := single_cycle_get_instructions cpu in
  let perf := performance_update_cycles cycles performance_init in
  let perf := performance_update_instructions instructions perf in
  ([("Instructions executed"%string, instructions); ("Total cycles"%string, cycles)], perf, memory).

(** The address of access [i]. *)
Definition access_address (i : Z) : Z :=
  if i mod 3 =? 0 then u32 (i * 4) mod (CACHE_NUM_LINES * CACHE_BLOCK_SIZE)
  else u32 (i * 137) mod (CACHE_NUM_LINES * CACHE_BLOCK_SIZE * 4).
Definition benchmark_cache : report :=
  let cache := for_range 0 10000 (fun i cache => snd (cache_access (access_address i) Read cache)) cache_init in
  [("Cache accesses"%string, cache_get_accesses cache); ("Cache hits"%string, cache_get_hits cache); ("Cache misses"%string, cache_get_misses cache)].

Definition bus_round (i : Z) (bus : MemoryBus) : MemoryBus :=
  bus_cycle (snd (bus_request (if i mod 2 =? 0 then BUS_READ else BUS_WRITE) (i * 4) 8 bus)).
Definition benchmark_bus : report :=
  let bus := for_range 0 1000 bus_round bus_init in
  [("Bus frequency"%string, BUS_FREQUENCY_MHZ); ("Bus width"%string, BUS_WIDTH_BYTES); ("Memory latency"%string, bus_get_memory_latency_cycles);
   ("Read transactions"%string, bus_get_read_transactions bus); ("Write transactions"%string, bus_get_write_transactions bus);
   ("Total bytes"%string, bus_get_total_bytes bus)].

(** The body of [main] on the instruction memory. *)
Definition run_benchmarks (memory : list Z) : option (list report) :=
  match benchmark_pipeline memory MEMORY_SIZE with
  | None => None
  | Some (pipelined, _) =>
      Some [pipelined; fst (fst (benchmark_single_cycle memory MEMORY_SIZE)); benchmark_cache; benchmark_bus]
  end.
(** [main] with the memory [calloc] gave: the four reports. *)
Definition benchmark : option (list report) :=
  run_benchmarks (generate_test_program (replicate (Z.to_nat MEMORY_SIZE) 0) MEMORY_SIZE).

(** ** Properties *)

Lemma generate_words memory size : 0 <= size <= Z.of_nat (length memory) -> size <= NUM_INSTRUCTIONS ->
  forall i, 0 <= i < size -> aget (generate_test_program memory size) i = test_word i.
Proof.
  intros Hs Hn. unfold generate_test_program. rewrite Z.min_l by done.
  pose proof (for_range_ind (fun k m => length m = length memory /\ forall i, 0 <= i < k -> aget m i = test_word i) 0 size
    (fun i memory => aset memory i (test_word i)) memory) as H. apply H; [lia|split; [done|lia]|].
  intros k m Hk [Hl Hm]. split; [by rewrite length_aset|]. intros i Hi. destruct (Z.eq_dec i k) as [->|Hne].
  - apply aget_aset_eq. lia.
  - rewrite aget_aset_ne by lia. apply Hm. lia.
Qed.

(** Among neighbours, only the load after an ADDI counts as dependent: the immediate 4 of
    the load is taken for a second source register, and the ADDI writes register 4. *)
Lemma word_depends i : 0 <= i -> depends (decode (test_word i) (4 * i)) (decode (test_word (i + 1)) (4 * (i + 1))) = (i mod 4 =? 1).
Proof.
  intros Hi. unfold test_word. assert (i mod 4 = 0 \/ i mod 4 = 1 \/ i mod 4 = 2 \/ i mod 4 = 3) as Hk by dlia.
  rewrite (Z.add_mod i 1) by lia. destruct Hk as [->|[->|[->| ->]]]; vm_compute; reflexivity.
Qed.
Lemma load_hazards memory n j : (forall i, 0 <= i < Z.of_nat n -> aget memory i = test_word i) -> (j < n)%nat ->
  Z.of_nat (hazards memory n j) = (Z.of_nat j + 2) / 4.
Proof.
  intros Hm. induction j as [|j IH]; intros Hj; [done|]. rewrite hazards_S, Nat2Z.inj_add, IH by lia. unfold dep.
  rewrite !program_at by lia. rewrite !Hm, Nat2Z.inj_succ by lia. unfold Z.succ. rewrite word_depends by lia.
  destruct (Z.eqb_spec (Z.of_nat j mod 4) 1); cbn [Z.of_nat]; dlia.
Qed.

Lemma pipeline_report memory n : (0 < n)%nat -> Z.of_nat n < NUM_INSTRUCTIONS -> (forall i, 0 <= i < Z.of_nat n -> aget memory i = test_word i) ->
  option_map fst (benchmark_pipeline memory (Z.of_nat n)) =
    Some [("Instructions executed"%string, Z.of_nat n); ("Total cycles"%string, Z.of_nat n + 5 + (Z.of_nat n + 1) / 4);
          ("Pipeline stalls"%string, (Z.of_nat n + 1) / 4)].
Proof.
  intros Hn Hlt Hm. assert (Z.of_nat n < 2 ^ 29) as Hs by (unfold NUM_INSTRUCTIONS in Hlt; lia).
  unfold benchmark_pipeline, pipeline_execute. cbn [instruction_count pipeline_init]. rewrite Z.add_0_l, (u64_small NUM_INSTRUCTIONS), (u64_small (NUM_INSTRUCTIONS * 10)) by (split; vm_compute; congruence).
  destruct (execute_loop_drains memory n Hn Hs NUM_INSTRUCTIONS (Z.to_nat (NUM_INSTRUCTIONS * 10) + 2) Hlt eq_refl 0 0 0 pipeline_init (init_flows memory n Hn))
    as (cpu & E & F). { cbn [cycle_count pipeline_init]. unfold NUM_INSTRUCTIONS in *. lia. }
  rewrite E. cbn [option_map fst]. unfold pipeline_get_instructions, pipeline_get_cycles, pipeline_get_stalls.
  assert (p_id cpu = None) as Hid. { pose proof (fl_young _ _ _ _ _ _ F) as Hy. destruct n; [lia|]. by apply flight_empty in Hy as [? _]. }
  rewrite (fl_count _ _ _ _ _ _ F), (fl_cycles _ _ _ _ _ _ F), (fl_stalls _ _ _ _ _ _ F), Hid, load_hazards by (done || lia).
  replace (Z.of_nat (n - 1) + 2) with (Z.of_nat n + 1) by lia. repeat f_equal. lia.
Qed.

Lemma single_report memory n : Z.of_nat n < NUM_INSTRUCTIONS ->
  fst (fst (benchmark_single_cycle memory (Z.of_nat n))) = [("Instructions executed"%string, Z.of_nat n); ("Total cycles"%string, Z.of_nat n)].
Proof.
  intros Hlt. destruct (single_cycle_stops (Z.of_nat n) (Z.to_nat (NUM_INSTRUCTIONS - 1 - Z.of_nat n)) memory) as (_ & H1 & H2);
    [unfold NUM_INSTRUCTIONS in Hlt; lia|].
  replace (Z.to_nat (Z.of_nat n) + S (Z.to_nat (NUM_INSTRUCTIONS - 1 - Z.of_nat n)))%nat with (Z.to_nat NUM_INSTRUCTIONS) in H1, H2
    by (unfold NUM_INSTRUCTIONS in *; lia).
  unfold benchmark_single_cycle. destruct (single_cycle_execute _ _ _) as [cpu m]. cbn [fst] in *.
  unfold single_cycle_get_instructions, single_cycle_get_cycles. by rewrite H1, H2.
Qed.

Lemma access_range i : 0 <= access_address i < 2 ^ 32.
Proof.
  unfold access_address. change (CACHE_NUM_LINES * CACHE_BLOCK_SIZE) with 8192. change (8192 * 4) with 32768. change (2 ^ 32) with 4294967296.
  destruct (i mod 3 =? 0); dlia.
Qed.
Definition access_trace (k : Z) : list (Z * access) := (fun j => (access_address (Z.of_nat j), Read)) <$> seq 0 (Z.to_nat k).
Lemma cache_run : for_range 0 10000 (fun i cache => snd (cache_access (access_address i) Read cache)) cache_init = run_cache (access_trace 10000).
Proof.
  apply (for_range_ind (fun k c => c = run_cache (access_trace k))); [lia|done|]. intros k c Hk ->.
  unfold access_trace at 2. replace (Z.to_nat (k + 1)) with (S (Z.to_nat k)) by lia. rewrite seq_S, fmap_app. cbn [fmap list_fmap Nat.add].
  rewrite run_cache_snoc. cbn [fst snd]. rewrite Z2Nat.id by lia. done.
Qed.

Lemma bus_run : let bus := for_range 0 1000 bus_round bus_init in
  read_transactions bus = 500 /\ write_transactions bus = 500 /\ total_bytes bus = 8000.
Proof.
  pose proof (for_range_ind (fun k b => busy b = false /\ read_transactions b = (k + 1) / 2 /\ write_transactions b = k / 2 /\ total_bytes b = 8 * k)
    0 1000 bus_round bus_init) as H. cbv zeta. destruct H as (_ & -> & -> & ->); [lia|done| |done].
  intros k b Hk (Hb & Hr & Hw & Ht). unfold bus_round, bus_request. rewrite Hb, Hr, Hw, Ht.
  assert (forall v, 0 <= v < 2000000 -> u64 v = v) as Hu by (intros; apply u64_small; split; [lia|change (2 ^ 64) with 18446744073709551616; lia]).
  destruct (Z.eqb_spec (k mod 2) 0); cbn [snd bus_cycle busy read_transactions write_transactions total_bytes]; rewrite !Hu by dlia; split_and!; try done; dlia.
Qed.

Lemma processor_reports memory : (forall i, 0 <= i < MEMORY_SIZE -> aget memory i = test_word i) ->
  run_benchmarks memory = Some [
    [("Instructions executed"%string, 8192); ("Total cycles"%string, 10245); ("Pipeline stalls"%string, 2048)];
    [("Instructions executed"%string, 8192); ("Total cycles"%string, 8192)]; benchmark_cache; benchmark_bus].
Proof.
  intros Hw. assert (exists n, Z.of_nat n = MEMORY_SIZE) as [n Hn] by (exists (Z.to_nat MEMORY_SIZE); apply Z2Nat.id; unfold MEMORY_SIZE; lia).
  unfold run_benchmarks. rewrite <- Hn in Hw |- *.
  pose proof (pipeline_report memory n ltac:(unfold MEMORY_SIZE in Hn; lia) ltac:(unfold MEMORY_SIZE, NUM_INSTRUCTIONS in *; lia) Hw) as Hp.
  pose proof (single_report memory n ltac:(unfold MEMORY_SIZE, NUM_INSTRUCTIONS in *; lia)) as Hc.
  destruct (benchmark_pipeline memory (Z.of_nat n)) as [[r perf]|]; [|discriminate]. injection Hp as ->. rewrite Hc, Hn. reflexivity.
Qed.
Lemma cache_report : exists hit miss, 0 <= hit /\ 0 <= miss /\ hit + miss = 10000 /\
  benchmark_cache = [("Cache accesses"%string, 10000); ("Cache hits"%string, hit); ("Cache misses"%string, miss)].
Proof.
  assert (Z.of_nat (length (access_trace 10000)) = 10000) as Hlen by (unfold access_trace; rewrite length_fmap, length_seq; lia).
  destruct (run_caches (access_trace 10000)) as (_ & Ha & Hs & Hh & Hm).
  { unfold addresses_ok, access_trace. apply Forall_fmap, Forall_true. intros j. apply access_range. }
  { rewrite Hlen. lia. }
  rewrite Hlen in Ha, Hs. unfold benchmark_cache. rewrite cache_run. revert Ha Hs Hh Hm. generalize (run_cache (access_trace 10000)).
  intros c <- Hs Hh Hm. by exists (hits c), (misses c).
Qed.

(** What the benchmark prints. Both processors execute each of the 8192 words of the
    generated program once and stop there, although 20000 instructions are asked for: the
    single-cycle one in as many cycles, the pipeline in five more and one for each load,
    which it stalls on the ADDI before it. The cache counts 10000 accesses, each a hit
    or a miss, and the bus takes every request: 500 reads and 500 writes of 8 bytes. *)
Theorem benchmark_correct : exists hit miss, 0 <= hit /\ 0 <= miss /\ hit + miss = 10000 /\ benchmark = Some [
  [("Instructions executed"%string, 8192); ("Total cycles"%string, 10245); ("Pipeline stalls"%string, 2048)];
  [("Instructions executed"%string, 8192); ("Total cycles"%string, 8192)];
  [("Cache accesses"%string, 10000); ("Cache hits"%string, hit); ("Cache misses"%string, miss)];
  [("Bus frequency"%string, 800); ("Bus width"%string, 8); ("Memory latency"%string, 24);
   ("Read transactions"%string, 500); ("Write transactions"%string, 500); ("Total bytes"%string, 8000)]].
Proof.
  destruct cache_report as (hit & miss & H1 & H2 & H3 & Ec). exists hit, miss. split; [exact H1|]. split; [exact H2|]. split; [exact H3|].
  unfold benchmark. rewrite processor_reports, Ec.
  - unfold benchmark_bus. destruct bus_run as (B1 & B2 & B3).
    unfold bus_get_read_transactions, bus_get_write_transactions, bus_get_total_bytes. rewrite B1, B2, B3. reflexivity.
  - apply generate_words; [rewrite length_replicate, Z2Nat.id; unfold MEMORY_SIZE; lia|discriminate].
Qed.
