(* ===== verification/Entry.v ===== *)
(** * Entries to the kernel (arch/x86/isr.S, arch/x86/exceptions.S, arch/x86/syscall.S,
    arch/x86/boot.S)

    The assembly stubs that the gates of the interrupt table lead to, as programs on the
    machine of Context.v, with what the processor does when it takes an interrupt or an
    exception and returns from it. The C function a stub calls is any function that keeps
    to the calling convention. *)
From S2P Require Import Prelude Mem CString Traps Heap Proc Process Syscall Context.

(** ** The processor *)

(** The flags an interrupt gate clears: TF, IF, NT, RF and VM. *)
Definition gate_flags (f : Z) : Z := Z.land f (Z.lnot 0x34300).

(** An interrupt or exception through an interrupt gate. Code of another ring is left for
    the stack of the TSS; [err] is the error code of the exceptions that have one. *)
Definition interrupt (esp0 ss0 handler : Z) (err : list Z) (x : mach) : mach :=
  let c := fst x in
  let x := if Z.land (r_cs c) 3 =? 0 then x
           else run [push (r_ss c); push (r_esp c)] (w_ss ss0 (w_esp esp0 c), snd x) in
  let x := run ([push (r_eflags c); push (r_cs c); push (r_eip c)] ++ (push <$> err)) x in
  (w_eflags (gate_flags (r_eflags c)) (w_cs KERNEL_CODE_SEGMENT (w_eip handler (fst x))), snd x).

(** [iret] also takes ESP and SS when it leaves for another ring. *)
Definition iret (x : mach) : mach :=
  let cpl := Z.land (r_cs (fst x)) 3 in
  let x := run [pop w_eip; pop (seg w_cs); pop w_eflags] x in
  if Z.land (r_cs (fst x)) 3 =? cpl then x else pop_stack x.

Definition pusha (x : mach) : mach :=
  let temp := r_esp (fst x) in
  run [push_r r_eax; push_r r_ecx; push_r r_edx; push_r r_ebx; push temp; push_r r_ebp; push_r r_esi; push_r r_edi] x.

(** ** The stubs *)

Section Stubs.
Context (call : mach -> mach).

Definition save_all : list (mach -> mach) := [pusha; push_r r_ds; push_r r_es; push_r r_fs; push_r r_gs].
Definition kernel_data : list (mach -> mach) := [mov_ax KERNEL_DATA_SEGMENT; mov_data KERNEL_DATA_SEGMENT].
Definition restore_all : list (mach -> mach) := [pop (seg w_gs); pop (seg w_fs); pop (seg w_es); pop (seg w_ds)] ++ popa ++ [iret].

Definition irq0_handler : list (mach -> mach) := save_all ++ kernel_data ++ [call] ++ restore_all.
Definition irq1_handler : list (mach -> mach) := save_all ++ kernel_data ++ [call] ++ restore_all.

(** [push %esp] passes the address of the saved registers. *)
Definition int80_handler : list (mach -> mach) := save_all ++ kernel_data ++ [push_r r_esp; call; skip_word] ++ restore_all.

(** The exceptions that come with an error code, as the stubs have them. *)
Definition has_error (n : Z) : bool := bool_decide (n ∈ [8; 10; 11; 12; 13; 14; 17; 21; 30]).
Definition exception_common : list (mach -> mach) :=
  [pusha; push_r r_ds] ++ kernel_data ++ [push_r r_esp; call; skip_word; pop (seg w_ds)] ++ popa ++ [skip_word; skip_word; iret].
Definition exception_stub (n : Z) : list (mach -> mach) :=
  (if has_error n then [push n] else [push 0; push n]) ++ exception_common.
End Stubs.

(** ** Boot *)

Definition MULTIBOOT_MAGIC : Z := 0x1BADB002.
Definition MULTIBOOT_FLAGS : Z := Z.lor (Z.shiftl 1 0) (Z.shiftl 1 1).
Definition multiboot_header : list Z := [MULTIBOOT_MAGIC; MULTIBOOT_FLAGS; u32 (- (MULTIBOOT_MAGIC + MULTIBOOT_FLAGS))].
(** [_start] up to the first instruction of [kmain]. *)
Definition start (stack_top kmain ret : Z) : list (mach -> mach) :=
  [fun x => (w_eflags (Z.land (r_eflags (fst x)) (Z.lnot 0x200)) (fst x), snd x);
   fun x => (w_esp stack_top (fst x), snd x); push_r r_ebx; push ret; fun x => (w_eip kmain (fst x), snd x)].

(** ** Stacks *)

(** The values pushed on the stack below [top], first to last. *)
Fixpoint push_all (m : mem) (top : Z) (vs : list Z) : mem :=
  match vs with [] => m | v :: vs => push_all (st m (top - 4) v) (top - 4) vs end.

Lemma push_all_out vs : forall m top a, a < top - 4 * len vs \/ top <= a -> ld (push_all m top vs) a = ld m a.
Proof.
  induction vs as [|v vs IH]; intros m top a Ha; [done|]. cbn [push_all length] in *. rewrite IH by lia. rewrite ld_st_ne by lia. done.
Qed.
Lemma push_all_at vs : forall m top i v, vs !! i = Some v -> ld (push_all m top vs) (top - 4 * (Z.of_nat i + 1)) = v.
Proof.
  induction vs as [|w vs IH]; intros m top i v Hi; [done|]. destruct i as [|i]; cbn [push_all].
  - injection Hi as ->. rewrite push_all_out by lia. replace (top - 4 * (Z.of_nat 0 + 1)) with (top - 4) by lia. apply ld_st_eq.
  - replace (top - 4 * (Z.of_nat (S i) + 1)) with (top - 4 - 4 * (Z.of_nat i + 1)) by lia. by apply IH.
Qed.
Lemma push_all_app us vs : forall m top, push_all m top (us ++ vs) = push_all (push_all m top us) (top - 4 * len us) vs.
Proof.
  induction us as [|u us IH]; intros m top; cbn [app push_all length]; [f_equal; lia|]. rewrite IH. f_equal. lia.
Qed.

Lemma w_esp_twice a b c : w_esp a (w_esp b c) = w_esp a c.
Proof. done. Qed.

(** A row of pushes of registers other than ESP. *)
Lemma run_pushes rs : forall c m, 4 * len rs <= r_esp c < 2 ^ 32 -> Forall (fun r => forall v c, r (w_esp v c) = r c) rs ->
  run (push_r <$> rs) (c, m) = (w_esp (r_esp c - 4 * len rs) c, push_all m (r_esp c) ((fun r => r c) <$> rs)).
Proof.
  induction rs as [|r rs IH]; intros c m Hr Hf.
  { replace (r_esp c - 4 * len (@nil (cpu -> Z))) with (r_esp c) by (change (len (@nil (cpu -> Z))) with 0; lia). by destruct c. }
  apply Forall_cons_iff in Hf as [Hr1 Hf]. cbn [fmap list_fmap length] in *. change (run (push_r r :: ?l) ?x) with (run l (push (r c) (c, m))).
  unfold push. cbn [fst snd]. rewrite u32_small by wsolve. rewrite IH; [|cbn [w_esp r_esp]; lia|done].
  cbn [push_all w_esp r_esp]. f_equal.
  - rewrite w_esp_twice. f_equal. lia.
  - f_equal. apply list_fmap_ext. intros i r' Hi. by apply (proj1 (Forall_lookup _ _) Hf i r' Hi).
Qed.
Lemma run_values vs c m : 4 * len vs <= r_esp c < 2 ^ 32 ->
  run (push <$> vs) (c, m) = (w_esp (r_esp c - 4 * len vs) c, push_all m (r_esp c) vs).
Proof.
  intros H. assert (push <$> vs = push_r <$> ((fun (v : Z) (_ : cpu) => v) <$> vs)) as -> by (rewrite <- list_fmap_compose; done).
  rewrite run_pushes.
  - rewrite length_fmap, <- list_fmap_compose. by rewrite list_fmap_id.
  - by rewrite length_fmap.
  - apply Forall_fmap, Forall_true. done.
Qed.

(** What [pusha] and the segment pushes save, in the order of the pushes. *)
Definition gprs (c : cpu) : list Z := [r_eax c; r_ecx c; r_edx c; r_ebx c; r_esp c; r_ebp c; r_esi c; r_edi c].
Definition segs (c : cpu) : list Z := [r_ds c; r_es c; r_fs c; r_gs c].
Lemma pusha_spec c m : 32 <= r_esp c < 2 ^ 32 -> pusha (c, m) = (w_esp (r_esp c - 32) c, push_all m (r_esp c) (gprs c)).
Proof.
  intros H. exact (run_pushes [r_eax; r_ecx; r_edx; r_ebx; fun _ => r_esp c; r_ebp; r_esi; r_edi] c m H ltac:(repeat constructor)).
Qed.
Lemma save_all_spec c m l : 48 <= r_esp c < 2 ^ 32 ->
  run (save_all ++ l) (c, m) = run l (w_esp (r_esp c - 48) c, push_all m (r_esp c) (gprs c ++ segs c)).
Proof.
  intros H. change (save_all ++ l) with ([pusha] ++ (push_r <$> [r_ds; r_es; r_fs; r_gs]) ++ l). rewrite !run_app. change (run [pusha] ?x) with (pusha x).
  rewrite pusha_spec by lia. rewrite run_pushes; [|cbn [w_esp r_esp length]; lia|repeat constructor].
  rewrite push_all_app. cbn [w_esp r_esp]. rewrite w_esp_twice. change (4 * len (gprs c)) with 32. change (4 * len [r_ds; r_es; r_fs; r_gs]) with 16.
  replace (r_esp c - 32 - 16) with (r_esp c - 48) by lia. done.
Qed.
Lemma kernel_data_spec c m l : run (kernel_data ++ l) (c, m) =
  run l (w_data KERNEL_DATA_SEGMENT (w_eax (Z.lor (Z.land (r_eax c) 0xFFFF0000) KERNEL_DATA_SEGMENT) c), m).
Proof. done. Qed.

(** What the way out reads: word [k] above the stack pointer. *)
Definition restored (M : mem) (B ss : Z) : cpu :=
  let w k := ld M (B + 4 * k) in
  Cpu (w 11) (w 10) (w 9) (w 8) (B + 60) (w 6) (w 5) (w 4) (w 12) (w 14) (u16 (w 13)) ss (u16 (w 3)) (u16 (w 2)) (u16 (w 1)) (u16 (w 0)).
Lemma iret_spec eax ecx edx ebx esp ebp esi edi eip fl cs ss ds es fs gs M : 0 <= esp -> esp + 20 < 2 ^ 32 ->
  iret (Cpu eax ecx edx ebx esp ebp esi edi eip fl cs ss ds es fs gs, M) =
  let c := Cpu eax ecx edx ebx (esp + 12) ebp esi edi (ld M esp) (ld M (esp + 8)) (u16 (ld M (esp + 4))) ss ds es fs gs in
  if Z.land (u16 (ld M (esp + 4))) 3 =? Z.land cs 3 then (c, M)
  else (w_ss (u16 (ld M (esp + 16))) (w_esp (ld M (esp + 12)) c), M).
Proof.
  intros H1 H2. unfold iret. cbn [fst r_cs]. do 3 asm_step. cbn [run fst r_cs].
  replace (esp + 4 + 4 + 4) with (esp + 12) by lia. replace (esp + 4 + 4) with (esp + 8) by lia.
  destruct (_ =? _); [done|]. rewrite stack_step by lia. replace (esp + 12 + 4) with (esp + 16) by lia. done.
Qed.
Lemma run_pop w l c m : 0 <= r_esp c < 2 ^ 32 - 4 -> run (pop w :: l) (c, m) = run l (w (ld m (r_esp c)) (w_esp (r_esp c + 4) c), m).
Proof. intros H. change (run (pop w :: l) (c, m)) with (run l (pop w (c, m))). unfold pop. cbn [fst snd]. by rewrite u32_small by wsolve. Qed.
Lemma run_skip l c m : 0 <= r_esp c < 2 ^ 32 - 4 -> run (skip_word :: l) (c, m) = run l (w_esp (r_esp c + 4) c, m).
Proof. intros H. change (run (skip_word :: l) (c, m)) with (run l (skip_word (c, m))). unfold skip_word. cbn [fst snd]. by rewrite u32_small by wsolve. Qed.
Ltac pop1 := first [rewrite run_pop by (cbn [r_esp]; lia) | rewrite run_skip by (cbn [r_esp]; lia)];
  cbv beta iota delta [seg w_eax w_ecx w_edx w_ebx w_esp w_ebp w_esi w_edi w_ds w_es w_fs w_gs
    r_eax r_ecx r_edx r_ebx r_esp r_ebp r_esi r_edi r_eip r_eflags r_cs r_ss r_ds r_es r_fs r_gs].
Lemma restore_spec c M : 0 <= r_esp c -> r_esp c + 68 < 2 ^ 32 -> r_cs c = KERNEL_CODE_SEGMENT ->
  run restore_all (c, M) =
  let B := r_esp c in let w k := ld M (B + 4 * k) in
  if Z.land (u16 (w 13)) 3 =? 0 then (restored M B (r_ss c), M)
  else (w_ss (u16 (w 16)) (w_esp (w 15) (restored M B (r_ss c))), M).
Proof.
  intros H1 H2 H3. destruct c as [eax ecx edx ebx esp ebp esi edi eip fl cs ss ds es fs gs]. cbn [r_esp r_cs] in *. subst cs. cbn [r_esp r_ss].
  unfold restore_all, popa. cbn [app]. do 12 pop1. change (run [iret] ?x) with (iret x). rewrite iret_spec by lia.
  change (Z.land KERNEL_CODE_SEGMENT 3) with 0. cbv zeta. unfold restored.
  rewrite <- !Z.add_assoc. simpl Z.add. simpl Z.mul. rewrite !Z.add_0_r. reflexivity.
Qed.

(** ** Taking an interrupt *)

Definition ring0 (c : cpu) : bool := Z.land (r_cs c) 3 =? 0.
(** The stack the processor uses, and what it pushes there. *)
Definition stack_of (esp0 : Z) (c : cpu) : Z := if ring0 c then r_esp c else esp0.
Definition cpu_frame (c : cpu) : list Z := (if ring0 c then [] else [r_ss c; r_esp c]) ++ [r_eflags c; r_cs c; r_eip c].

Lemma interrupt_spec esp0 ss0 h err c m : 4 * len (cpu_frame c ++ err) <= stack_of esp0 c < 2 ^ 32 ->
  interrupt esp0 ss0 h err (c, m) =
  (w_eflags (gate_flags (r_eflags c)) (w_cs KERNEL_CODE_SEGMENT (w_eip h
     (w_ss (if ring0 c then r_ss c else ss0) (w_esp (stack_of esp0 c - 4 * len (cpu_frame c ++ err)) c)))),
   push_all m (stack_of esp0 c) (cpu_frame c ++ err)).
Proof.
  intros H. unfold interrupt. cbn [fst]. fold (ring0 c).
  change ([push (r_eflags c); push (r_cs c); push (r_eip c)] ++ (push <$> err)) with (push <$> ([r_eflags c; r_cs c; r_eip c] ++ err)).
  unfold stack_of, cpu_frame in *. destruct (ring0 c).
  - cbn [app] in H |- *. rewrite run_values by done. cbn [fst snd]. by destruct c.
  - change [push (r_ss c); push (r_esp c)] with (push <$> [r_ss c; r_esp c]). rewrite <- run_app, <- fmap_app.
    rewrite <- app_assoc in H |- *. rewrite run_values by exact H. cbn [fst snd]. by destruct c.
Qed.

(** A call came back: the stack pointer and the segments of the kernel are as they were,
    and the [n] bytes above the stack pointer, which are the caller's. *)
Definition returned (n : Z) (x y : mach) : Prop :=
  r_esp (fst y) = r_esp (fst x) /\ r_cs (fst y) = r_cs (fst x) /\ r_ss (fst y) = r_ss (fst x) /\
  forall a, r_esp (fst x) <= a < r_esp (fst x) + n -> ld (snd y) a = ld (snd x) a.

(** Segment registers hold 16 bits. *)
Definition seg_regs (c : cpu) : Prop :=
  is_u16 (r_cs c) /\ is_u16 (r_ss c) /\ is_u16 (r_ds c) /\ is_u16 (r_es c) /\ is_u16 (r_fs c) /\ is_u16 (r_gs c).

(** Reading back, lowest word first. *)
Lemma push_all_word vs m top k v : 0 <= k -> reverse vs !! Z.to_nat k = Some v -> ld (push_all m top vs) (top - 4 * len vs + 4 * k) = v.
Proof.
  intros Hk Hv. assert (Z.to_nat k < length vs)%nat as Hlt by (rewrite <- length_reverse; by apply lookup_lt_Some in Hv).
  rewrite reverse_lookup in Hv by done. rewrite <- (push_all_at vs m top (length vs - S (Z.to_nat k)) v Hv). f_equal. lia.
Qed.

(** ** Interrupts are transparent *)

Section Irq.
Context (call : mach -> mach) (esp0 ss0 h : Z) (c : cpu) (m : mem).
Let top := stack_of esp0 c.
Let all := cpu_frame c ++ gprs (w_esp (top - 4 * len (cpu_frame c)) c) ++ segs c.

Lemma frame_len : len (cpu_frame c) = if ring0 c then 3 else 5.
Proof. unfold cpu_frame. by destruct (ring0 c). Qed.

(** The state in which the C function is called. *)
Lemma irq_call : 68 <= top < 2 ^ 32 ->
  run (save_all ++ kernel_data) (interrupt esp0 ss0 h [] (c, m)) =
  (w_data KERNEL_DATA_SEGMENT (w_eax (Z.lor (Z.land (r_eax c) 0xFFFF0000) KERNEL_DATA_SEGMENT)
    (w_eflags (gate_flags (r_eflags c)) (w_cs KERNEL_CODE_SEGMENT (w_eip h (w_ss (if ring0 c then r_ss c else ss0) (w_esp (top - 4 * len all) c)))))),
   push_all m top all).
Proof.
  intros Ht. pose proof frame_len as Hl. rewrite interrupt_spec; rewrite app_nil_r; fold top; [|destruct (ring0 c); lia].
  rewrite save_all_spec; [|cbn [w_eflags w_cs w_eip w_ss w_esp r_esp]; destruct (ring0 c); lia].
  change kernel_data with (kernel_data ++ []). rewrite kernel_data_spec. cbn [run].
  cbn [w_eflags w_cs w_eip w_ss w_esp r_esp]. rewrite <- push_all_app.
  replace (top - 4 * len (cpu_frame c) - 48) with (top - 4 * len all).
  - destruct c. reflexivity.
  - unfold all. rewrite length_app. change (length (gprs ?x ++ segs ?y)) with 12%nat. lia.
Qed.

(** The way out, from memory that holds the words pushed on the way in. *)
Lemma way_out c' m' : seg_regs c -> 68 <= top -> top + 8 < 2 ^ 32 -> r_esp c' = top - 4 * len all -> r_cs c' = KERNEL_CODE_SEGMENT ->
  r_ss c' = (if ring0 c then r_ss c else ss0) -> (forall a, top - 4 * len all <= a < top -> ld m' a = ld (push_all m top all) a) ->
  run restore_all (c', m') = (c, m').
Proof.
  intros (S1 & S2 & S3 & S4 & S5 & S6) H1 H2 E1 E2 E3 Hm. assert (len all = if ring0 c then 15 else 17) as Hl.
  { unfold all. rewrite length_app. change (length (gprs ?x ++ segs ?y)) with 12%nat. pose proof frame_len. destruct (ring0 c); lia. }
  assert (forall k v, 0 <= k < len all -> reverse all !! Z.to_nat k = Some v -> ld m' (top - 4 * len all + 4 * k) = v) as Hw.
  { intros k v Hk Hv. rewrite Hm by lia. apply push_all_word; [lia|done]. }
  rewrite restore_spec; [|rewrite E1; destruct (ring0 c); lia..|done]. cbv zeta. unfold restored. rewrite E1, E3.
  assert ((Z.land (r_cs c) 3 =? 0) = ring0 c) as Er by done.
  assert (top = if ring0 c then r_esp c else esp0) as Et by done.
  assert (all = (if ring0 c then [] else [r_ss c; r_esp c]) ++ [r_eflags c; r_cs c; r_eip c] ++ gprs (w_esp (top - 4 * len (cpu_frame c)) c) ++ segs c) as Ea.
  { unfold all, cpu_frame. by rewrite <- app_assoc. }
  set (B := top - 4 * len all) in *. assert (B = top - 4 * (if ring0 c then 15 else 17)) as EB by (unfold B; by rewrite Hl).
  rewrite Hl in Hw. rewrite Ea in Hw. clearbody B all. destruct (ring0 c); cbn [app] in Hw.
  - rewrite (Hw 0 _ ltac:(lia) eq_refl), (Hw 1 _ ltac:(lia) eq_refl), (Hw 2 _ ltac:(lia) eq_refl), (Hw 3 _ ltac:(lia) eq_refl), (Hw 4 _ ltac:(lia) eq_refl), (Hw 5 _ ltac:(lia) eq_refl), (Hw 6 _ ltac:(lia) eq_refl), (Hw 8 _ ltac:(lia) eq_refl), (Hw 9 _ ltac:(lia) eq_refl), (Hw 10 _ ltac:(lia) eq_refl), (Hw 11 _ ltac:(lia) eq_refl), (Hw 12 _ ltac:(lia) eq_refl), (Hw 13 _ ltac:(lia) eq_refl), (Hw 14 _ ltac:(lia) eq_refl), !u16_small, Er by done. destruct c. cbn [gprs segs w_esp Context.r_esp] in *. cbn. repeat f_equal. lia.
  - rewrite (Hw 0 _ ltac:(lia) eq_refl), (Hw 1 _ ltac:(lia) eq_refl), (Hw 2 _ ltac:(lia) eq_refl), (Hw 3 _ ltac:(lia) eq_refl), (Hw 4 _ ltac:(lia) eq_refl), (Hw 5 _ ltac:(lia) eq_refl), (Hw 6 _ ltac:(lia) eq_refl), (Hw 8 _ ltac:(lia) eq_refl), (Hw 9 _ ltac:(lia) eq_refl), (Hw 10 _ ltac:(lia) eq_refl), (Hw 11 _ ltac:(lia) eq_refl), (Hw 12 _ ltac:(lia) eq_refl), (Hw 13 _ ltac:(lia) eq_refl), (Hw 14 _ ltac:(lia) eq_refl), (Hw 15 _ ltac:(lia) eq_refl), (Hw 16 _ ltac:(lia) eq_refl), !u16_small, Er by done. by destruct c.
Qed.
End Irq.

(** C14. Interrupts are transparent. When a device interrupts code of any ring, and the C
    handler returns as a C function does, the stub ends with every register, the flags and
    the stack of the interrupted code as they were, and memory as the handler left it.
    The handler itself runs on the kernel's data segments with interrupts off, and the
    stub has written only below the stack pointer it was given. *)
Theorem irq_transparent call esp0 ss0 h c m : seg_regs c -> 68 <= stack_of esp0 c -> stack_of esp0 c + 8 < 2 ^ 32 ->
  let x := interrupt esp0 ss0 h [] (c, m) in
  let y := run (save_all ++ kernel_data) x in
  returned (if ring0 c then 60 else 68) y (call y) ->
  run (irq0_handler call) x = (c, snd (call y)) /\ run (irq1_handler call) x = (c, snd (call y)) /\
  (r_ds (fst y), r_es (fst y), r_fs (fst y), r_gs (fst y)) = (KERNEL_DATA_SEGMENT, KERNEL_DATA_SEGMENT, KERNEL_DATA_SEGMENT, KERNEL_DATA_SEGMENT) /\
  Z.testbit (r_eflags (fst y)) 9 = false /\
  forall a, a < stack_of esp0 c - 68 \/ stack_of esp0 c <= a -> ld (snd y) a = ld m a.
Proof.
  intros Hs H1 H2 x y. assert (len (cpu_frame c) = if ring0 c then 3 else 5) as Hf by apply frame_len.
  set (all := cpu_frame c ++ gprs (w_esp (stack_of esp0 c - 4 * len (cpu_frame c)) c) ++ segs c).
  assert (4 * len all = if ring0 c then 60 else 68) as Hl.
  { unfold all. rewrite length_app. change (length (gprs ?u ++ segs ?v)) with 12%nat. destruct (ring0 c); lia. }
  assert (y = (_, _)) as Ey by (apply (irq_call esp0 ss0 h c m); lia). fold all in Ey. intros (R1 & R2 & R3 & R4).
  assert (run ((save_all ++ kernel_data) ++ [call] ++ restore_all) x = (c, snd (call y))) as Hr.
  { rewrite run_app. fold y. change (run ([call] ++ restore_all) y) with (run restore_all (call y)). destruct (call y) as [c' m']. cbn [fst snd] in *.
    rewrite Ey in R1, R2, R3, R4. cbn [fst snd w_data w_eax w_eflags w_cs w_eip w_ss w_esp r_esp r_cs r_ss] in R1, R2, R3, R4.
    apply (way_out esp0 ss0 c m); try done. intros a Ha. apply R4. fold all in Ha. destruct (ring0 c); lia. }
  rewrite <- app_assoc in Hr. split; [exact Hr|]. split; [exact Hr|]. rewrite Ey. split; [done|]. split.
  - cbn [fst w_data w_eax w_eflags r_eflags]. unfold gate_flags. rewrite Z.land_spec, Z.lnot_spec by lia. by rewrite andb_false_r.
  - intros a Ha. cbn [snd]. apply push_all_out. destruct (ring0 c); lia.
Qed.

(** ** System calls *)

(** The frame of [int80_handler] as [regs_t] has it, and the registers it becomes. *)
Definition regs_of (esp0 : Z) (c : cpu) : regs :=
  Regs (r_gs c) (r_fs c) (r_es c) (r_ds c) (r_edi c) (r_esi c) (r_ebp c) (esp0 - 20) (r_ebx c) (r_edx c) (r_ecx c) (r_eax c)
    (r_eip c) (r_cs c) (r_eflags c) (r_esp c) (r_ss c).
Definition cpu_of (r : regs) : cpu :=
  Cpu (f_eax r) (f_ecx r) (f_edx r) (f_ebx r) (f_useresp r) (f_ebp r) (f_esi r) (f_edi r) (f_eip r) (f_eflags r)
    (f_cs r) (f_ss r) (f_ds r) (f_es r) (f_fs r) (f_gs r).

Lemma words_at (m : mem) a n i v : words m a n !! i = Some v -> ld m (a + 4 * Z.of_nat i) = v.
Proof.
  unfold words. rewrite list_lookup_fmap. intros H. destruct (seq 0 n !! i) as [j|] eqn:E; [|done]. apply lookup_seq in E as [-> _].
  by injection H.
Qed.
Lemma restore_regs c m r : 0 <= r_esp c -> r_esp c + 68 < 2 ^ 32 -> r_cs c = KERNEL_CODE_SEGMENT -> seg_regs (cpu_of r) -> ring0 (cpu_of r) = false ->
  words m (r_esp c) 17 = regs_words r -> run restore_all (c, m) = (cpu_of r, m).
Proof.
  intros H1 H2 H3 (S1 & S2 & S3 & S4 & S5 & S6) Hr Hw. cbn [cpu_of r_cs r_ss r_ds r_es r_fs r_gs] in *. unfold ring0 in Hr. cbn [r_cs cpu_of] in Hr.
  assert (forall k v, 0 <= k -> regs_words r !! Z.to_nat k = Some v -> ld m (r_esp c + 4 * k) = v) as W.
  { intros k v Hk Hv. rewrite <- Hw in Hv. apply words_at in Hv. by rewrite Z2Nat.id in Hv. }
  rewrite restore_spec by done. cbv zeta. unfold restored.
  rewrite (W 0 _ ltac:(lia) eq_refl), (W 1 _ ltac:(lia) eq_refl), (W 2 _ ltac:(lia) eq_refl), (W 3 _ ltac:(lia) eq_refl), (W 4 _ ltac:(lia) eq_refl),
    (W 5 _ ltac:(lia) eq_refl), (W 6 _ ltac:(lia) eq_refl), (W 8 _ ltac:(lia) eq_refl), (W 9 _ ltac:(lia) eq_refl), (W 10 _ ltac:(lia) eq_refl),
    (W 11 _ ltac:(lia) eq_refl), (W 12 _ ltac:(lia) eq_refl), (W 13 _ ltac:(lia) eq_refl), (W 14 _ ltac:(lia) eq_refl), (W 15 _ ltac:(lia) eq_refl),
    (W 16 _ ltac:(lia) eq_refl), !u16_small, Hr by done. reflexivity.
Qed.

(** C13. A system call from ring 3. The stub calls the dispatcher with the address of a frame
    that is [regs_t] of the caller's registers, on the stack of the TSS; when the
    dispatcher returns with the frame [r], the caller continues with exactly the registers
    of [r]. In particular, when only the [eax] field was written, the caller sees its own
    registers with the result in EAX. *)
Theorem int80_correct call esp0 ss0 h c m r : seg_regs c -> ring0 c = false -> 72 <= esp0 -> esp0 + 8 < 2 ^ 32 ->
  let x := interrupt esp0 ss0 h [] (c, m) in
  let y := run (save_all ++ kernel_data ++ [push_r r_esp]) x in
  ld (snd y) (r_esp (fst y)) = esp0 - 68 /\ words (snd y) (esp0 - 68) 17 = regs_words (regs_of esp0 c) /\
  (returned 0 y (call y) -> words (snd (call y)) (esp0 - 68) 17 = regs_words r -> seg_regs (cpu_of r) -> ring0 (cpu_of r) = false ->
   run (int80_handler call) x = (cpu_of r, snd (call y))) /\
  forall v, cpu_of (set_eax v (regs_of esp0 c)) = w_eax v c.
Proof.
  intros Hs Hr H1 H2 x y. assert (stack_of esp0 c = esp0) as Et by (unfold stack_of; by rewrite Hr).
  set (all := cpu_frame c ++ gprs (w_esp (stack_of esp0 c - 4 * len (cpu_frame c)) c) ++ segs c).
  pose proof (irq_call esp0 ss0 h c m ltac:(lia)) as Ec. fold x in Ec. fold all in Ec. rewrite Et in Ec.
  assert (reverse all = regs_words (regs_of esp0 c)) as Ea by (unfold all, cpu_frame; rewrite Et, Hr; reflexivity).
  assert (len all = 17) as Hl by (rewrite <- length_reverse, Ea; done). rewrite Hl in Ec.
  set (c1 := w_data _ _) in Ec. assert (r_esp c1 = esp0 - 68) as E1 by done.
  assert (y = (w_esp (esp0 - 72) c1, st (push_all m esp0 all) (esp0 - 72) (esp0 - 68))) as Ey.
  { unfold y. rewrite app_assoc, run_app, Ec. change (run [push_r r_esp] ?z) with (push_r r_esp z). unfold push_r, push. cbn [fst snd].
    rewrite E1, u32_small by wsolve. replace (esp0 - 68 - 4) with (esp0 - 72) by lia. done. }
  assert (r_esp (fst y) = esp0 - 72 /\ r_cs (fst y) = KERNEL_CODE_SEGMENT) as [E2 E3] by (by rewrite Ey). split; [|split; [|split]].
  - rewrite E2, Ey. apply ld_st_eq.
  - rewrite Ey, <- Ea. cbn [snd]. apply list_eq. intros i. unfold words. rewrite list_lookup_fmap. destruct (lt_dec i 17) as [Hi|Hi].
    + rewrite lookup_seq_lt by done. cbn [fmap option_fmap option_map Nat.add]. rewrite ld_st_ne by lia. symmetry.
      destruct (lookup_lt_is_Some_2 (reverse all) i) as [v Hv]; [rewrite length_reverse; lia|]. rewrite Hv. f_equal.
      pose proof (push_all_word all m esp0 (Z.of_nat i) v ltac:(lia)) as Hp. rewrite Nat2Z.id, Hl in Hp. by rewrite <- (Hp Hv).
    + rewrite !lookup_ge_None_2; [done|rewrite length_reverse; lia|rewrite length_seq; lia].
  - intros (R1 & R2 & R3 & _) Hw Hsr Hrr. rewrite E2 in R1. rewrite E3 in R2.
    assert (int80_handler call = (save_all ++ kernel_data ++ [push_r r_esp]) ++ [call; skip_word] ++ restore_all) as -> by (unfold int80_handler; by rewrite <- !app_assoc).
    rewrite run_app. fold y. clearbody y. change (run ([call; skip_word] ++ restore_all) y) with (run (skip_word :: restore_all) (call y)).
    destruct (call y) as [c' m']. cbn [fst snd] in *. rewrite run_skip by lia. rewrite R1. replace (esp0 - 72 + 4) with (esp0 - 68) by lia.
    apply restore_regs; cbn [w_esp r_esp r_cs]; [lia|lia|done|done|done|done].
  - intros v. by destruct c.
Qed.

(** ** Exceptions *)

(** [struct exception_registers] at [p]. *)
Definition exc_at (m : mem) (p : Z) : exception_registers :=
  let w k := ld m (p + 4 * k) in
  ExcRegs (w 0) (w 1) (w 2) (w 3) (w 4) (w 5) (w 6) (w 7) (w 8) (w 9) (w 10) (w 11) (w 12) (w 13) (w 14) (w 15).

Section Exception.
Context (call : mach -> mach) (esp0 ss0 h e n : Z) (c : cpu) (m : mem).
Let top := stack_of esp0 c.
Let code := if has_error n then e else 0.
Let frame := cpu_frame c ++ [code; n].
Let all := frame ++ gprs (w_esp (top - 4 * len frame) c) ++ [r_ds c].

(** Taking exception [n], up to the call of the C handler. *)
Definition exception_entry : mach :=
  run ((if has_error n then [push n] else [push 0; push n]) ++ [pusha; push_r r_ds] ++ kernel_data ++ [push_r r_esp])
    (interrupt esp0 ss0 h (if has_error n then [e] else []) (c, m)).

Lemma exc_len : len all = (if ring0 c then 3 else 5) + 11.
Proof. unfold all, frame, cpu_frame. by destruct (ring0 c). Qed.
Lemma exception_pushes : 72 <= top < 2 ^ 32 ->
  run (if has_error n then [push n] else [push 0; push n]) (interrupt esp0 ss0 h (if has_error n then [e] else []) (c, m)) =
  (w_eflags (gate_flags (r_eflags c)) (w_cs KERNEL_CODE_SEGMENT (w_eip h (w_ss (if ring0 c then r_ss c else ss0) (w_esp (top - 4 * len frame) c)))),
   push_all m top frame).
Proof.
  intros Ht. pose proof (frame_len c) as Hl. assert (len frame = len (cpu_frame c) + 2) as Hf by (unfold frame; rewrite length_app; cbn [length]; lia).
  unfold frame, code in Hf |- *. destruct (has_error n).
  - rewrite interrupt_spec; fold top; [|rewrite length_app; cbn [length]; destruct (ring0 c); lia]. change [push n] with (push <$> [n]).
    rewrite run_values; cbn [w_eflags w_cs w_eip w_ss w_esp r_esp]; [|rewrite length_app; cbn [length]; destruct (ring0 c); lia].
    rewrite <- push_all_app, <- app_assoc. cbn [app].
    replace (top - 4 * len (cpu_frame c ++ [e]) - 4 * len [n]) with (top - 4 * len (cpu_frame c ++ [e; n])) by (rewrite !length_app; cbn [length]; lia).
    by destruct c.
  - rewrite interrupt_spec; rewrite app_nil_r; fold top; [|destruct (ring0 c); lia]. change [push 0; push n] with (push <$> [0; n]).
    rewrite run_values; cbn [w_eflags w_cs w_eip w_ss w_esp r_esp]; [|cbn [length]; destruct (ring0 c); lia].
    rewrite <- push_all_app.
    replace (top - 4 * len (cpu_frame c) - 4 * len [0; n]) with (top - 4 * len (cpu_frame c ++ [0; n])) by (rewrite !length_app; cbn [length]; lia).
    by destruct c.
Qed.
Lemma exception_call : 72 <= top < 2 ^ 32 -> exists c1,
  exception_entry = (w_esp (top - 4 * len all - 4) c1, st (push_all m top all) (top - 4 * len all - 4) (top - 4 * len all)) /\
  r_cs c1 = KERNEL_CODE_SEGMENT /\ r_ss c1 = (if ring0 c then r_ss c else ss0) /\
  (r_ds c1, r_es c1, r_fs c1, r_gs c1) = (KERNEL_DATA_SEGMENT, KERNEL_DATA_SEGMENT, KERNEL_DATA_SEGMENT, KERNEL_DATA_SEGMENT).
Proof.
  intros Ht. pose proof exc_len as Hl. unfold exception_entry. rewrite run_app, exception_pushes by done.
  assert (len frame = (if ring0 c then 3 else 5) + 2) as Hf by (unfold frame, cpu_frame; by destruct (ring0 c)).
  set (c0 := w_eflags _ _). assert (r_esp c0 = top - 4 * len frame) as E0 by done.
  change ([pusha; push_r r_ds] ++ kernel_data ++ [push_r r_esp]) with ([pusha] ++ (push_r <$> [r_ds]) ++ kernel_data ++ [push_r r_esp]). rewrite !run_app. change (run [pusha] ?x) with (pusha x).
  rewrite pusha_spec by (rewrite E0; destruct (ring0 c); lia). rewrite run_pushes; [|cbn [w_esp r_esp length]; rewrite E0; destruct (ring0 c); lia|repeat constructor].
  rewrite <- run_app. change (kernel_data ++ ?l) with (kernel_data ++ l). rewrite kernel_data_spec. change (run [push_r r_esp] ?z) with (push_r r_esp z). unfold push_r, push. cbn [fst snd].
  cbn [w_data w_eax w_esp r_esp length fmap list_fmap]. rewrite E0. rewrite u32_small by (destruct (ring0 c); wsolve).
  replace (top - 4 * len frame - 32 - 4 * Z.of_nat 1) with (top - 4 * len all) by lia.
  assert (push_all (push_all (push_all m top frame) (top - 4 * len frame) (gprs c0)) (top - 4 * len frame - 32) [r_ds (w_esp (top - 4 * len frame - 32) c0)] = push_all m top all) as ->.
  { unfold all. rewrite !push_all_app. reflexivity. }
  eexists. split; [reflexivity|]. split; [reflexivity|]. split; reflexivity.
Qed.

(** Reading the frame. *)
Lemma exception_regs p : 72 <= top < 2 ^ 32 -> p = top - 4 * len all ->
  exc_at (push_all m top all) p =
  ExcRegs (r_ds c) (r_edi c) (r_esi c) (r_ebp c) (top - 4 * len frame) (r_ebx c) (r_edx c) (r_ecx c) (r_eax c) n code (r_eip c) (r_cs c) (r_eflags c)
    (if ring0 c then ld m top else r_esp c) (if ring0 c then ld m (top + 4) else r_ss c).
Proof.
  intros Ht ->. pose proof exc_len as Hl.
  assert (forall k v, 0 <= k -> reverse all !! Z.to_nat k = Some v -> ld (push_all m top all) (top - 4 * len all + 4 * k) = v) as W by (intros k v Hk Hv; by apply push_all_word).
  assert (ring0 c = true -> forall k, 0 <= k -> ld (push_all m top all) (top - 4 * len all + 4 * (14 + k)) = ld m (top + 4 * k)) as O.
  { intros E k Hk. rewrite push_all_out by (rewrite Hl, E; lia). f_equal. rewrite Hl, E. lia. }
  assert (all = (if ring0 c then [] else [r_ss c; r_esp c]) ++ [r_eflags c; r_cs c; r_eip c; code; n] ++ gprs (w_esp (top - 4 * len frame) c) ++ [r_ds c]) as Ea.
  { unfold all, frame, cpu_frame. by rewrite <- !app_assoc. }
  unfold exc_at. set (B := top - 4 * len all) in *. set (M := push_all m top all) in *. clearbody B M. rewrite Ea in W. clear Ea Hl. clearbody frame all.
  destruct (ring0 c); cbn [app] in W.
  - rewrite (W 0 _ ltac:(lia) eq_refl), (W 1 _ ltac:(lia) eq_refl), (W 2 _ ltac:(lia) eq_refl), (W 3 _ ltac:(lia) eq_refl), (W 4 _ ltac:(lia) eq_refl), (W 5 _ ltac:(lia) eq_refl), (W 6 _ ltac:(lia) eq_refl), (W 7 _ ltac:(lia) eq_refl), (W 8 _ ltac:(lia) eq_refl), (W 9 _ ltac:(lia) eq_refl), (W 10 _ ltac:(lia) eq_refl), (W 11 _ ltac:(lia) eq_refl), (W 12 _ ltac:(lia) eq_refl), (W 13 _ ltac:(lia) eq_refl), (O eq_refl 0 ltac:(lia) : ld M (B + 4 * 14) = _), (O eq_refl 1 ltac:(lia) : ld M (B + 4 * 15) = _).
    by rewrite Z.mul_0_r, Z.add_0_r.
  - by rewrite (W 0 _ ltac:(lia) eq_refl), (W 1 _ ltac:(lia) eq_refl), (W 2 _ ltac:(lia) eq_refl), (W 3 _ ltac:(lia) eq_refl), (W 4 _ ltac:(lia) eq_refl), (W 5 _ ltac:(lia) eq_refl), (W 6 _ ltac:(lia) eq_refl), (W 7 _ ltac:(lia) eq_refl), (W 8 _ ltac:(lia) eq_refl), (W 9 _ ltac:(lia) eq_refl), (W 10 _ ltac:(lia) eq_refl), (W 11 _ ltac:(lia) eq_refl), (W 12 _ ltac:(lia) eq_refl), (W 13 _ ltac:(lia) eq_refl), (W 14 _ ltac:(lia) eq_refl), (W 15 _ ltac:(lia) eq_refl).
Qed.
End Exception.

(** The tail of [exception_common], on the frame it finds. *)
Lemma exception_out c' m' B : 4 <= B -> B + 64 < 2 ^ 32 -> r_esp c' = B - 4 -> r_cs c' = KERNEL_CODE_SEGMENT ->
  run (skip_word :: pop (seg w_ds) :: popa ++ [skip_word; skip_word; iret]) (c', m') =
  let R := exc_at m' B in
  let c := Cpu (x_eax R) (x_ecx R) (x_edx R) (x_ebx R) (B + 56) (x_ebp R) (x_esi R) (x_edi R) (x_eip R) (x_eflags R) (u16 (x_cs R)) (r_ss c')
    (u16 (x_ds R)) (r_es c') (r_fs c') (r_gs c') in
  if Z.land (u16 (x_cs R)) 3 =? 0 then (c, m') else (w_ss (u16 (x_ss R)) (w_esp (useresp R) c), m').
Proof.
  intros H1 H2 H3 H4. destruct c' as [eax ecx edx ebx esp ebp esi edi eip fl cs ss ds es fs gs]. cbn [r_esp r_cs] in *. subst cs. subst esp. cbn [r_ss r_es r_fs r_gs].
  unfold popa. cbn [app]. do 12 pop1. change (run [iret] ?x) with (iret x). rewrite iret_spec by lia.
  change (Z.land KERNEL_CODE_SEGMENT 3) with 0. cbv zeta. cbn [exc_at x_eax x_ecx x_edx x_ebx x_ebp x_esi x_edi x_eip x_eflags x_cs x_ss x_ds useresp].
  rewrite Z.sub_add. rewrite <- !Z.add_assoc. simpl Z.add. simpl Z.mul. rewrite !Z.add_0_r. reflexivity.
Qed.


(** ** Boot *)

(** The header is one a boot loader accepts, and [kmain] is entered with interrupts off,
    on the kernel's stack, with the address of the boot information as its argument. *)
Theorem start_correct stack_top kmain ret c m : 8 <= stack_top < 2 ^ 32 ->
  u32 (foldr Z.add 0 multiboot_header) = 0 /\
  let x := run (start stack_top kmain ret) (c, m) in
  r_eip (fst x) = kmain /\ Z.testbit (r_eflags (fst x)) 9 = false /\ r_esp (fst x) = stack_top - 8 /\
  ld (snd x) (r_esp (fst x)) = ret /\ ld (snd x) (r_esp (fst x) + 4) = r_ebx c.
Proof.
  intros H. split; [reflexivity|]. cbv zeta. unfold start. cbn [run].
  unfold push_r, push. cbn [fst snd w_esp w_eflags w_eip r_esp r_eip r_eflags r_ebx]. rewrite (u32_small (stack_top - 4)), (u32_small (stack_top - 4 - 4)) by wsolve.
  split; [done|]. split; [rewrite Z.land_spec, Z.lnot_spec by lia; by rewrite andb_false_r|]. split; [lia|].
  replace (stack_top - 4 - 4) with (stack_top - 8) by lia. split; [apply ld_st_eq|].
  replace (stack_top - 8 + 4) with (stack_top - 4) by lia. rewrite ld_st_ne by lia. apply ld_st_eq.
Qed.

(** ** Witnesses *)

(** A user program, and a handler that writes elsewhere. *)
Definition user1 : cpu := Cpu 1 2 3 4 0x500000 5 6 7 0x400000 0x202 0x1B 0x23 0x23 0x23 0x23 0x23.
Definition quiet (x : mach) : mach := (w_ecx 99 (fst x), st (snd x) 0x100 7).
Lemma quiet_returned n x : 0x100 < r_esp (fst x) -> returned n x (quiet x).
Proof. intros H. destruct x as [c m]. cbn [fst] in H. repeat split. intros a Ha. cbn [quiet snd fst] in *. apply ld_st_ne. lia. Qed.

Lemma irq_transparent_witness : exists m', run (irq0_handler quiet) (interrupt 0x9000 0x10 0x110200 [] (user1, ∅)) = (user1, m').
Proof.
  destruct (irq_transparent quiet 0x9000 0x10 0x110200 user1 ∅) as (E & _).
  - vm_compute. repeat split; congruence.
  - vm_compute. congruence.
  - vm_compute. reflexivity.
  - apply quiet_returned. vm_compute. reflexivity.
  - eexists. exact E.
Defined.

(** A dispatcher that answers 42. *)
Definition answers (x : mach) : mach := (fst x, st (snd x) (0x9000 - 68 + 44) 42).
Lemma answers_returned x : returned 0 x (answers x).
Proof. destruct x as [c m]. split; [done|]. split; [done|]. split; [done|]. intros a Ha. lia. Qed.
Lemma int80_correct_witness : fst (run (int80_handler answers) (interrupt 0x9000 0x10 0x110280 [] (user1, ∅))) = w_eax 42 user1.
Proof.
  destruct (int80_correct answers 0x9000 0x10 0x110280 user1 ∅ (set_eax 42 (regs_of 0x9000 user1))) as (_ & _ & E & _).
  - vm_compute. repeat split; congruence.
  - reflexivity.
  - lia.
  - lia.
  - rewrite E; [reflexivity| | | |].
    + apply answers_returned.
    + vm_compute. reflexivity.
    + vm_compute. repeat split; congruence.
    + reflexivity.
Defined.


Lemma start_correct_witness : r_eip (fst (run (start 0x108000 0x101000 0x100020) (user1, ∅))) = 0x101000.
Proof.
  destruct (start_correct 0x108000 0x101000 0x100020 user1 ∅) as (_ & E & _).
  - lia.
  - exact E.
Defined.
