(* ===== verification/Boot.v ===== *)
(** * Bringing the system up (kernel/kernel.c)

    The steps of [kmain] that join components: the pages the heap is built on, the
    first process and its first run, and the loop of the shell. The frame allocator is
    any that keeps the promises of [FrameAllocator]. *)
From Stdlib Require Import String.
From S2P Require Import Prelude Mem Frames Pmm Vmm Heap Proc Sched Process CString Devices Console Keyboard Shell.
Local Close Scope string_scope.

(** ** The heap *)

Definition HEAP_PAGES : nat := 1024.

Section Heap.
Context {S : Type} {FA : FrameAllocator S}.

(** The loop of [kmain] with [n] pages to go. *)
Fixpoint heap_run (n : nat) (heap_prev : Z) (got : nat) (p : S) : nat * S :=
  match n with
  | O => (got, p)
  | Datatypes.S n =>
      let '(a, p) := fa_alloc p in
      if (a =? 0) || negb (a =? u32 (heap_prev + 0x1000))
      then (got, if negb (a =? 0) then fa_free a p else p)
      else heap_run n a (Datatypes.S got) p
  end.
(** [dummy] is where the heap's variables are. *)
Definition boot_heap (dummy : Z) (p : S) (h : heap) : S * heap :=
  let '(heap_start, p) := fa_alloc p in
  let got := if negb (heap_start =? 0) then 1%nat else 0%nat in
  let '(got, p) := heap_run (HEAP_PAGES - got) heap_start got p in
  if negb (heap_start =? 0) && (0 <? got)%nat then (p, heap_init dummy heap_start (Z.of_nat got * 0x1000) h) else (p, h).

(** The frames of a run. *)
Definition run (start : Z) (got : nat) (b : Z) : Prop := exists i, 0 <= i < Z.of_nat got /\ b = start + 4096 * i.

(** What the allocator has left: of the frames of [p0] those outside the run. *)
Record left (p0 p : S) (start : Z) (got : nat) : Prop := {
  lf_inv : fa_inv p;
  lf_avail : forall b, is_frame b -> fa_avail p b <-> fa_avail p0 b /\ ~ run start got b;
  lf_run : forall b, run start got b -> is_frame b /\ fa_avail p0 b;
}.
Lemma run_snoc start got b : run start (Datatypes.S got) b <-> run start got b \/ b = start + 4096 * Z.of_nat got.
Proof.
  split.
  - intros (i & Hi & ->). destruct (decide (i = Z.of_nat got)) as [->|]; [by right|left]. exists i. split; [lia|done].
  - intros [(i & Hi & ->) | ->]; [exists i|exists (Z.of_nat got)]; (split; [lia|done]).
Qed.
Lemma left_take p0 p start got : left p0 p start got -> fst (fa_alloc p) <> 0 -> fst (fa_alloc p) = start + 4096 * Z.of_nat got ->
  left p0 (snd (fa_alloc p)) start (Datatypes.S got).
Proof.
  intros [H1 H2 H3] Hnz E. destruct (fa_alloc_frame p H1 Hnz) as [Hf Ha]. constructor; [by apply fa_alloc_inv|..].
  - intros b Hb. rewrite fa_alloc_avail, H2, run_snoc, E by done. tauto.
  - intros b Hb. apply run_snoc in Hb as [Hb|Hb]; [by apply H3|]. subst b. rewrite <- E. split; [done|]. by apply (H2 _ Hf).
Qed.
Lemma left_back p0 p start got : left p0 p start got -> fst (fa_alloc p) <> 0 -> left p0 (fa_free (fst (fa_alloc p)) (snd (fa_alloc p))) start got.
Proof.
  intros [H1 H2 H3] Hnz. destruct (fa_alloc_frame p H1 Hnz) as [Hf Ha]. pose proof (fa_alloc_inv p H1) as Hi.
  assert (fa_managed (snd (fa_alloc p)) (fst (fa_alloc p))) as Hm by (apply fa_alloc_managed; auto with openos).
  constructor; [by apply fa_free_inv| |done]. intros b Hb. rewrite fa_free_avail, fa_alloc_avail, H2 by done.
  destruct (decide (b = fst (fa_alloc p))) as [->|]; [|tauto]. split; [intros _; by apply H2|tauto].
Qed.

(** The loop stops at 1024 pages or where the allocator has another page or none. *)
Lemma heap_run_spec n : forall prev got p0 p start, left p0 p start got -> (0 < got)%nat -> prev = start + 4096 * (Z.of_nat got - 1) ->
  is_frame start -> ~ fa_avail p0 top_frame ->
  exists got' p', heap_run n prev got p = (got', p') /\ (got <= got' <= got + n)%nat /\ left p0 p' start got' /\
    ((got' < got + n)%nat -> exists q, left p0 q start got' /\ fst (fa_alloc q) <> start + 4096 * Z.of_nat got').
Proof.
  induction n as [|n IH]; intros prev got p0 p start Hl Hg Hp Hs Htop; cbn [heap_run].
  { exists got, p. split; [done|]. split; [lia|]. split; [done|lia]. }
  assert (run start got prev) as Hr by (exists (Z.of_nat got - 1); split; [lia|done]). destruct (lf_run _ _ _ _ Hl prev Hr) as [[Hp1 Hp2] Hpa].
  assert (prev <> top_frame) as Hpt by congruence. assert (u32 (prev + 0x1000) = start + 4096 * Z.of_nat got) as Hu.
  { rewrite u32_small; [lia|]. unfold is_u32, top_frame in *. dlia. }
  destruct (fa_alloc p) as [a p1] eqn:Ea. rewrite Hu. destruct (Z.eqb_spec a 0) as [Hz|Hz]; cbn [orb negb].
  - exists got, p1. pose proof (fa_alloc_null p (lf_inv _ _ _ _ Hl)) as Hnull. rewrite Ea in Hnull. cbn [fst snd] in Hnull. rewrite (Hnull Hz).
    split; [done|]. split; [lia|]. split; [done|]. intros _. exists p. split; [done|]. rewrite Ea. cbn [fst]. destruct Hs as [Hs1 Hs2]. unfold is_u32 in *. lia.
  - assert (fst (fa_alloc p) <> 0) as Hnz by (by rewrite Ea). destruct (Z.eqb_spec a (start + 4096 * Z.of_nat got)) as [E|E]; cbn [negb].
    + pose proof (left_take p0 p start got Hl Hnz) as Hl'. rewrite Ea in Hl'. specialize (Hl' E).
      destruct (IH a (Datatypes.S got) p0 p1 start Hl') as (got' & p' & Er & Hgot & Hl2 & Hmax); [lia|rewrite E; lia|done|done|].
      exists got', p'. split; [done|]. split; [lia|]. split; [done|]. intros H. apply Hmax. lia.
    + pose proof (left_back p0 p start got Hl Hnz) as Hl'. rewrite Ea in Hl'. exists got, (fa_free a p1). split; [done|]. split; [lia|].
      split; [exact Hl'|]. intros _. exists p. split; [done|]. by rewrite Ea.
Qed.

(** What [boot_heap] leaves: no page and no heap, or the heap on a run of pages. *)
Record heap_on (p0 p : S) (start : Z) (got : nat) (dummy : Z) (h h' : heap) : Prop := {
  ho_got : (1 <= got <= HEAP_PAGES)%nat;
  ho_left : left p0 p start got;
  ho_heap : h' = heap_init dummy start (Z.of_nat got * 0x1000) h;
  ho_region : good_region start (Z.of_nat got * 0x1000);
  ho_most : (got < HEAP_PAGES)%nat -> exists q, left p0 q start got /\ fst (fa_alloc q) <> start + 4096 * Z.of_nat got;
}.
Lemma boot_heap_spec dummy p0 h : fa_inv p0 -> ~ fa_avail p0 top_frame ->
  exists p' h', boot_heap dummy p0 h = (p', h') /\
  if fst (fa_alloc p0) =? 0 then p' = p0 /\ h' = h else exists got, heap_on p0 p' (fst (fa_alloc p0)) got dummy h h'.
Proof.
  intros Hi Htop. unfold boot_heap. pose proof (fa_alloc_null p0 Hi) as Hnull. destruct (fa_alloc p0) as [start p1] eqn:Ea. cbn [fst snd] in *.
  destruct (Z.eqb_spec start 0) as [Hz|Hz]; cbn [negb].
  { assert (heap_run (HEAP_PAGES - 0) start 0 p1 = (0%nat, p0)) as ->.
    { rewrite (Hnull Hz). change (HEAP_PAGES - 0)%nat with (Datatypes.S 1023). cbn [heap_run]. rewrite Ea, (Hnull Hz), Hz. reflexivity. }
    exists p0, h. done. }
  assert (fst (fa_alloc p0) <> 0) as Hnz by (by rewrite Ea). destruct (fa_alloc_frame p0 Hi Hnz) as [Hf Ha]. rewrite Ea in Hf, Ha. cbn [fst] in Hf, Ha.
  assert (left p0 p0 start 0) as H0.
  { constructor; [done|..]; [|intros b (i & Hi' & _); lia]. intros b _. split; [intros H; split; [done|intros (i & Hi' & _); lia]|tauto]. }
  pose proof (left_take p0 p0 start 0 H0 Hnz) as H1. rewrite Ea in H1. specialize (H1 ltac:(cbn [fst]; lia)). cbn [snd] in H1.
  destruct (heap_run_spec (HEAP_PAGES - 1) start 1 p0 p1 start H1) as (got & p' & -> & Hgot & Hl & Hmax); [lia|lia|done|done|].
  rewrite (proj2 (Nat.ltb_lt 0 got)) by lia. cbn [andb]. eexists p', _. split; [reflexivity|]. exists got.
  unfold HEAP_PAGES in *. constructor; [unfold HEAP_PAGES; lia|done|done| |intros H; apply Hmax; unfold HEAP_PAGES in H; lia].
  assert (run start got (start + 4096 * (Z.of_nat got - 1))) as Hr by (exists (Z.of_nat got - 1); split; [lia|done]).
  destruct (lf_run _ _ _ _ Hl _ Hr) as [[Hb1 Hb2] Hba]. assert (start + 4096 * (Z.of_nat got - 1) <> top_frame) as Hne by congruence.
  destruct Hf as [Hf1 Hf2]. unfold good_region, is_u32, top_frame in *. change (2 ^ 32) with 4294967296 in *. change 0xFFFFF000 with 4294963200 in *.
  clear -Hf1 Hf2 Hz Hb1 Hb2 Hne Hgot. split; [dlia|]. split; [lia|]. dlia.
Qed.

(** Setting up paging only takes frames, so the frames that are governed stay so. *)
Definition governs (p0 p : S) : Prop := fa_inv p /\ forall a, fa_managed p a <-> fa_managed p0 a.
Lemma governs_alloc p0 p : governs p0 p -> governs p0 (snd (fa_alloc p)).
Proof. intros [H1 H2]. split; [by apply fa_alloc_inv|]. intros a. by rewrite fa_alloc_managed, H2. Qed.
Lemma map_page_governs p0 dir virt phys flags (s : vmm S) : governs p0 (vm_pmm s) -> governs p0 (vm_pmm (snd (vmm_map_page dir virt phys flags s))).
Proof.
  intros H. unfold vmm_map_page, get_page_table. pose proof (governs_alloc p0 _ H) as Ha. destruct (fa_alloc (vm_pmm s)) as [a p].
  destruct (negb _); cbv iota; [by destruct (_ =? 0)|]. destruct (a =? 0) eqn:E; [exact Ha|]. rewrite E. exact Ha.
Qed.
Lemma map_loop_governs p0 fuel : forall dir virt phys last flags (s s' : vmm S), governs p0 (vm_pmm s) ->
  map_loop fuel dir virt phys last flags s = Some s' -> governs p0 (vm_pmm s').
Proof.
  induction fuel as [|fuel IH]; intros dir virt phys last flags s s' H; cbn [map_loop]; [done|]. destruct (virt <? last); [|by intros [= <-]].
  pose proof (map_page_governs p0 dir virt phys flags s H) as Hm. destruct (vmm_map_page dir virt phys flags s) as [r s1]. by apply IH.
Qed.
Lemma vmm_init_governs (s s' : vmm S) : fa_inv (vm_pmm s) -> fst (fa_alloc (vm_pmm s)) <> top_frame ->
  vmm_init s = Some s' -> governs (vm_pmm s) (vm_pmm s').
Proof.
  intros Hi Ht. unfold vmm_init. pose proof (alloc_dir_pages_spec (vm_pmm s) Hi Ht) as H.
  destruct (alloc_dir_pages (vm_pmm s)) as [[d|] p]; [|intros [= <-]; split; apply H]. cbv zeta.
  match goal with |- context [vmm_identity_map_region ?a ?b ?c ?d ?x] => destruct (vmm_identity_map_region a b c d x) as [s2|] eqn:E end; [|done].
  apply (map_loop_governs (vm_pmm s)) in E; [|split; apply H].
  unfold vmm_switch_directory. destruct (_ =? 0); intros [= <-]; exact E.
Qed.

(** The memory the kernel starts with. On an allocator that does not govern the last
    frame of the address space, [vmm_init] followed by taking the pages of the heap
    always ends. If no page is left there is no heap and nothing changes. Otherwise the
    heap is in order on a run of whole pages, of 1024 pages or as many as the allocator
    gives in a row; the allocator has exactly the other pages left; no page of the heap is
    a page of the page tables; and every address of the heap below the top of the mapped
    memory is mapped to itself. *)
Theorem boot_memory_correct (s : vmm S) dummy h :
  fa_inv (vm_pmm s) -> ~ fa_managed (vm_pmm s) top_frame ->
  exists s' p' h', vmm_init s = Some s' /\ boot_heap dummy (vm_pmm s') h = (p', h') /\
  let start := fst (fa_alloc (vm_pmm s')) in
  if start =? 0 then p' = vm_pmm s' /\ h' = h
  else exists got, let size := Z.of_nat got * 0x1000 in
    heap_on (vm_pmm s') p' start got dummy h h' /\ heap_inv start size h' ∅ [Block (size - 16) true] /\
    match alloc_dir_pages (vm_pmm s) with
    | (Some d, p) => kernel_directory s' = d /\ (forall a, owns (vm_mem s') d a -> ~ run start got a) /\
        forall v, start <= v < start + size -> v < init_ram_end p -> vmm_get_physical 0 v s' = v
    | (None, _) => True
    end.
Proof.
  intros Hi Hm. assert (fst (fa_alloc (vm_pmm s)) <> top_frame) as Ht.
  { intros E. destruct (fa_alloc_frame (vm_pmm s) Hi) as [_ Ha]; [by rewrite E|]. apply Hm. rewrite <- E. auto with openos. }
  destruct (vmm_init_spec s Hi Ht) as (s' & E & H). destruct (vmm_init_governs s s' Hi Ht E) as [Hi' Hm'].
  assert (~ fa_avail (vm_pmm s') top_frame) as Htop by (intros Ha; apply Hm, Hm'; auto with openos).
  destruct (boot_heap_spec dummy (vm_pmm s') h Hi' Htop) as (p' & h' & Eb & Hh). exists s', p', h'. split; [done|]. split; [done|]. cbv zeta.
  destruct (Z.eqb_spec (fst (fa_alloc (vm_pmm s'))) 0) as [Hz|Hz]; [done|]. destruct Hh as [got Hh]. exists got. split; [done|].
  destruct Hh as [G1 G2 G3 G4 G5]. split; [rewrite G3; by apply heap_init_inv|]. destruct (alloc_dir_pages (vm_pmm s)) as [[d|] p]; [|done].
  destruct H as (Hk & _ & [Hv _ _ _] & Hmap & _). split; [done|]. split.
  - intros a Ho Hr. destruct (vi_taken _ _ Hv d a (proj2 (elem_of_singleton d d) eq_refl) Ho) as [_ Hn]. apply Hn. by apply (lf_run _ _ _ _ G2).
  - intros v Hv1 Hv2. apply Hmap; [done|]. destruct G4 as [G4 _]. lia.
Qed.
End Heap.

(** ** The first process *)

(** [process_create("shell", shell_task, 0, PRIORITY_HIGH); scheduler_start();] with the
    addresses of [thread_exit] and [shell_task]. *)
Definition boot_shell (te shell_task : Z) (s : sys) : option (option nat * sys) :=
  '(p, s) ← process_create te (Some (str "shell")) shell_task 0 PRIORITY_HIGH s;
  Some (p, scheduler_start s).

(** Whether the scheduler runs makes no difference to the creation of a process. *)
Definition start_after (r : option (option nat * sys)) : option (option nat * sys) :=
  match r with Some (p, s) => Some (p, scheduler_start s) | None => None end.
Lemma enqueue_started p s : scheduler_enqueue p (scheduler_start s) = scheduler_start (scheduler_enqueue p s).
Proof.
  destruct p as [i|]; [|done]. unfold scheduler_enqueue. change (proc (scheduler_start s) i) with (proc s i).
  destruct (p_pid (proc s i) =? 0); [done|]. cbv zeta.
  change (upd i (set_wait_ticks 0) (upd i (set_next None) (scheduler_start s))) with (scheduler_start (upd i (set_wait_ticks 0) (upd i (set_next None) s))).
  generalize (upd i (set_wait_ticks 0) (upd i (set_next None) s)) as s1. intros s1.
  change (proc (scheduler_start s1) i) with (proc s1 i). change (tail_of ?q (scheduler_start s1)) with (tail_of q s1).
  by destruct (tail_of _ s1).
Qed.
Lemma create_started te name entry arg prio s :
  process_create te name entry arg prio (scheduler_start s) = start_after (process_create te name entry arg prio s).
Proof.
  unfold process_create. destruct (_ || _); [done|]. change (kheap (scheduler_start s)) with (kheap s).
  destruct (kmalloc PROCESS_KSTACK_SIZE (kheap s)) as [[stack h]|]; [|done].
  change (with_kheap h (scheduler_start s)) with (scheduler_start (with_kheap h s)). generalize (with_kheap h s) as s1. intros s1.
  destruct (stack =? 0); [done|]. unfold alloc_pcb. change (List.find (fun i => is_unused (proc (scheduler_start s1) i)) slots) with (List.find (fun i => is_unused (proc s1 i)) slots).
  destruct (List.find _ slots) as [i|]; [|done]. cbv zeta. cbn [start_after].
  match goal with |- (let '(sp, h) := build_frame te entry arg ?t ?k in _) = start_after (let '(sp1, h1) := build_frame te entry arg ?t' ?k' in _) =>
    change (build_frame te entry arg t k) with (build_frame te entry arg t' k'); destruct (build_frame te entry arg t' k') as [sp2 h2] end.
  unfold start_after. rewrite <- enqueue_started. reflexivity.
Qed.

(** A new heap has room for a stack. *)
Lemma stack_fits d start size h : good_region start size -> 16400 <= size ->
  ~ exists h', kmalloc PROCESS_KSTACK_SIZE (heap_init d start size h) = Some (0, h').
Proof.
  intros Hg Hs (h' & E). destruct (heap_init_rep d start size h Hg) as (Hr & Hb & _). destruct Hg as (Hg & _).
  pose proof (kmalloc_refines _ _ PROCESS_KSTACK_SIZE 8 Hr ltac:(discriminate)) as H. cbn [fit] in H.
  change (want_of PROCESS_KSTACK_SIZE 8) with 16384 in H. unfold fits in H. cbn [b_free b_size andb] in H.
  rewrite (proj2 (Z.leb_le 16384 (size - 16))) in H by lia. destruct H as (h2 & E2 & _). unfold kmalloc in E. rewrite E2, Hb in E.
  injection E. lia.
Qed.

(** The shell is alone in the queues, so the first tick runs it in place of idle. *)
Lemma shell_first s1 qs1 i : extends (push PRIORITY_HIGH i no_queues) qs1 -> preempts (aged_queues s1 qs1) 0 (proc s1 0) = true /\
  snd (tick_view s1 qs1 0) = i.
Proof.
  intros H. destruct (H 0) as [l El]. cbn in El. assert (aged_queues s1 qs1 0 = i :: l ++ List.filter (aged s1) (qs1 1)) as Ea.
  { unfold aged_queues. cbn [Z.eqb]. by rewrite El. }
  assert (preempts (aged_queues s1 qs1) 0 (proc s1 0) = true) as Hp.
  { unfold preempts. rewrite bool_decide_true by done. cbn [existsb levels andb]. unfold nonempty at 2. rewrite Ea. cbn [orb]. by rewrite orb_true_r. }
  split; [done|]. unfold tick_view. rewrite Hp. unfold schedule_view, top_level. cbn [List.find levels]. rewrite Ea. cbn iota. by rewrite Ea.
Qed.

(** [kmain] gets its shell process, or the heap is too small for its stack. *)
Lemma boot_shell_spec d start size h te shell_task : good_region start size -> shell_task <> 0 ->
  exists r s, boot_shell te shell_task (boot_sys (heap_init d start size h)) = Some (r, s) /\
    match r with
    | Some i => created start size ∅ te (Some (str "shell")) shell_task 0 PRIORITY_HIGH (boot_state d start size h) no_queues 0 i s
    | None => proc_inv start size ∅ s no_queues 0 /\ size < 16400
    end.
Proof.
  intros Hg Ht. set (h1 := heap_init d start size h). pose proof (boot_proc_inv d start size h Hg) as Hi.
  destruct (boot_fields h1) as [Bh Bn]. destruct (start_fields (boot_sys h1)) as (Ep & En & Eh & Es).
  destruct (create_proc_spec start size ∅ te (Some (str "shell")) shell_task 0 PRIORITY_HIGH _ _ _ Hi Ht) as (r & s & E & H).
  { unfold level, PRIORITY_HIGH, PRIORITY_LEVELS. lia. }
  { unfold boot_state. fold h1. rewrite En, Bn. lia. }
  exists r, s. split.
  { rewrite <- E. unfold boot_state. fold h1. rewrite create_started. unfold boot_shell.
    generalize (process_create te (Some (str "shell")) shell_task 0 PRIORITY_HIGH (boot_sys h1)) as x. intros [[p s0]|]; reflexivity. }
  destruct r as [i|]; [exact H|]. destruct H as (H & _ & _ & Hm). split; [exact H|]. apply Z.nle_gt. intros Hs. destruct Hm as [Hm|Hm].
  - unfold boot_state in Hm. fold h1 in Hm. rewrite Eh, Bh in Hm. by apply (stack_fits d start size h Hg Hs).
  - apply (Hm 1%nat); [unfold PROCESS_MAX; lia|]. unfold boot_state. fold h1. rewrite Ep. apply boot_unused; [unfold PROCESS_MAX; lia|done].
Qed.

(** The first tick after the shell was created. *)
Lemma shell_runs base size te name entry arg s0 i s :
  created base size ∅ te name entry arg PRIORITY_HIGH s0 no_queues 0 i s ->
  exists s' qs', timer_handler s = Some s' /\ proc_inv base size ∅ s' qs' i /\ current_process s' = Some i /\
    p_state (proc s' i) = RUNNING /\ p_quantum_left (proc s' i) = SCHED_QUANTUM_TICKS.
Proof.
  intros H. pose proof (cr_inv _ _ _ _ _ _ _ _ _ _ _ _ _ H) as Hi'. destruct (tick_inv _ _ _ _ _ _ Hi') as (s' & qs' & c' & E' & Hi2).
  destruct Hi' as [J1 J2 J3 _ _]. destruct (timer_ticked s _ _ J1 J2 J3) as (s2 & s1 & qs1 & s3 & E2 & _ & _ & T).
  assert (s3 = s') as -> by congruence. destruct (shell_first s1 qs1 i (tk_extends _ _ _ _ _ _ T)) as [Hp Ev].
  pose proof (tk_quantum _ _ _ _ _ _ T) as Hq. rewrite Hp, Ev in Hq. pose proof (tk_inv _ _ _ _ _ _ T) as [Hc Hr]. rewrite Ev in Hc, Hr.
  pose proof (co_current _ _ _ Hc) as Hcur. assert (c' = i) as ->.
  { pose proof (co_current _ _ _ (proj1 (pv_sched _ _ _ _ _ _ Hi2))). congruence. }
  exists s', qs'. by split_and!.
Qed.

(** From boot to the shell. On the machine as [process_init] leaves it, with a heap that
    holds one stack, [kmain] gets its shell process: a ready thread of the highest
    priority whose stack enters [shell_task], every invariant of the process table and its
    stacks in order. The first timer tick then switches from idle to the shell, with a
    full quantum, and the invariants hold again. *)
Theorem boot_shell_correct d start size h te shell_task : good_region start size -> 16400 <= size -> shell_task <> 0 ->
  exists i s s' qs', boot_shell te shell_task (boot_sys (heap_init d start size h)) = Some (Some i, s) /\
    created start size ∅ te (Some (str "shell")) shell_task 0 PRIORITY_HIGH (boot_state d start size h) no_queues 0 i s /\
    timer_handler s = Some s' /\ proc_inv start size ∅ s' qs' i /\ current_process s' = Some i /\
    p_state (proc s' i) = RUNNING /\ p_quantum_left (proc s' i) = SCHED_QUANTUM_TICKS.
Proof.
  intros Hg Hs Ht. destruct (boot_shell_spec d start size h te shell_task Hg Ht) as (r & s & E & H).
  destruct r as [i|]; [|lia]. destruct (shell_runs _ _ _ _ _ _ _ _ _ H) as (s' & qs' & Hr). by exists i, s, s', qs'.
Qed.

(** ** The loop of the shell *)

Definition INPUT_SIZE : Z := 256.

(** One round of [shell_task] up to the call of the handler: [batches] are the scan codes
    of the interrupts taken while it waits, [input] the address of its line buffer. *)
Definition shell_turn (fuel : nat) (table : list shell_command_t) (delims input : Z) (batches : list (list Z))
    (x : mem * Z) (k : keyboard) : option (shell_action * (mem * Z) * keyboard) :=
  let k := set_con (console_write (str "OpenOS> ") (con k)) k in
  '(m, k) ← keyboard_get_line input INPUT_SIZE batches (fst x, k);
  '(a, x) ← shell_execute fuel table delims input (m, snd x);
  Some (a, x, match a with Unknown name => set_con (not_found name (con k)) k | _ => k end).

(** The text a round leaves on the screen before a handler runs. *)
Definition answer (a : shell_action) : list Z :=
  match a with
  | Unknown name => str "Command not found: " ++ name ++ [10] ++ str "Type 'help' for a list of available commands." ++ [10]
  | _ => []
  end.

Lemma not_found_answer name c : not_found name c = console_write (answer (Unknown name)) c.
Proof. unfold not_found, answer. by rewrite !write_app. Qed.

(** A page that is the same text, scrolled otherwise. *)
Lemma emit_all_text t : forall p n, finished (foldl emit (Page (finished p) (current p) n) t) = finished (foldl emit p t) /\
  current (foldl emit (Page (finished p) (current p) n) t) = current (foldl emit p t).
Proof.
  induction t as [|c t IH]; intros p n; [done|]. cbn [foldl]. destruct (emit_text p c n) as [E1 E2].
  destruct (IH (emit p c) (top (emit (Page (finished p) (current p) n) c))) as [<- <-].
  rewrite <- E1, <- E2, <- page_eta. done.
Qed.

(** The screen shows the page and then the text, whatever has scrolled off. *)
Definition shows (p : page) (t : list Z) (c : console) : Prop :=
  exists n, displays (Page (finished (foldl emit p t)) (current (foldl emit p t)) n) c.
Lemma shows_write p t u c : shows p t c -> shows p (t ++ u) (console_write u c).
Proof.
  intros [n H]. destruct (console_text_spec u _ _ H) as [Hd _]. unfold shows. rewrite foldl_app.
  destruct (emit_all_text u (foldl emit p t) n) as [<- <-]. eexists. rewrite <- page_eta. exact Hd.
Qed.

(** C24. A round of the shell. From any screen and keyboard state, when what is typed up to
    Enter edits to the line [l] (backspaces applied, 255 characters kept), the round
    returns with exactly what the dispatcher does on [l]: the screen shows the prompt,
    the line, and for an unknown command the two lines that say so; only the line buffer
    is written, so the next round finds its delimiters in place. *)
Theorem shell_turn_correct table delims input batches m old k p pre fuel :
  0 < input -> 0 < delims -> delims + 4 < input \/ input + INPUT_SIZE <= delims -> cstr m delims blanks -> (259 < fuel)%nat ->
  displays p (con k) -> Forall (Forall is_u8) batches ->
  typed (shift_pressed k) (caps_lock k) (concat batches) = pre ++ [10] -> 10 ∉ pre ->
  let l := foldl edit [] pre in let a := dispatch table (take 255 l) in
  exists m' last k', shell_turn fuel table delims input batches (m, old) k = Some (a, (m', last), k') /\
    shows p (str "OpenOS> " ++ l ++ [10] ++ answer a) (con k') /\
    same_out m m' input INPUT_SIZE /\ cstr m' delims blanks.
Proof.
  intros Hi Hd Hdis Hds Hf Hp Hb Ht Hn l a. unfold shell_turn. cbn [fst snd].
  destruct (console_text_spec (str "OpenOS> ") p _ Hp) as [Hp' _]. set (k1 := set_con _ k).
  destruct (get_line_spec (foldl emit p (str "OpenOS> ")) input INPUT_SIZE batches m k1 pre Hp') as (m1 & k2 & E & Hl & He & Ho);
    [lia|unfold INPUT_SIZE; lia|done|exact Ht|done|]. rewrite E. cbn [mbind option_bind]. change (Z.to_nat (INPUT_SIZE - 1)) with 255%nat in Hl. fold l in Hl, He.
  assert (length (take 255 l) <= 255)%nat as Hlen by (rewrite length_take; lia). unfold INPUT_SIZE in *.
  assert (cstr m1 delims blanks) as Hds1.
  { apply (cstr_same m); [|done]. intros b Hbl. apply Ho. change (len blanks) with 4 in Hbl. lia. }
  destruct (execute_spec table m1 old input delims (take 255 l) fuel Hi Hd Hl Hds1) as (m' & last & E' & Ho'); [lia|lia|].
  rewrite E'. cbn [mbind option_bind]. fold a. eexists m', last, _. split; [done|].
  assert (same_out m m' input 256) as Hout. { apply (same_out_trans m m1); [done|]. apply (same_out_sub _ _ input (len (take 255 l) + 1)); [done|lia|lia]. }
  split; [|split; [done|]].
  2:{ apply (cstr_same m); [|done]. intros b Hbl. apply Hout. change (len blanks) with 4 in Hbl. lia. }
  assert (shows p (str "OpenOS> " ++ l ++ [10]) (con k2)) as Hs by (destruct He as (t & _ & Hd2); exists t; rewrite !foldl_app in *; exact Hd2).
  destruct a as [|h argv|name]; cbn [answer]; rewrite ?app_nil_r; [exact Hs|exact Hs|].
  rewrite not_found_answer. replace (str "OpenOS> " ++ l ++ [10] ++ _) with ((str "OpenOS> " ++ l ++ [10]) ++ answer (Unknown name)).
  - cbn [con set_con]. by apply shows_write.
  - by rewrite <- !app_assoc.
Qed.

(** ** Witnesses *)

Lemma boot_memory_correct_witness : exists s' p' h', vmm_init demo_vmm = Some s' /\
  boot_heap 0x8000 (vm_pmm s') (Heap ∅ 0x8000 65536 0) = (p', h').
Proof.
  destruct (boot_memory_correct demo_vmm 0x8000 (Heap ∅ 0x8000 65536 0)) as (s' & p' & h' & E1 & E2 & _).
  - exact demo_pool_inv.
  - apply (bool_decide_unpack (top_frame ∉ pool_all demo_pool)). vm_compute. exact I.
  - exists s', p', h'. exact (conj E1 E2).
Defined.

Lemma boot_shell_correct_witness : exists i s s',
  boot_shell 0x5000 0x6000 (boot_sys (heap_init 0x8000 0x100000 0x20000 (Heap ∅ 0x8000 65536 0))) = Some (Some i, s) /\
  timer_handler s = Some s' /\ p_state (proc s' i) = RUNNING.
Proof.
  destruct (boot_shell_correct 0x8000 0x100000 0x20000 (Heap ∅ 0x8000 65536 0) 0x5000 0x6000) as (i & s & s' & qs' & E1 & _ & E2 & _ & _ & E3 & _).
  - exact small_region.
  - lia.
  - discriminate.
  - exists i, s, s'. exact (conj E1 (conj E2 E3)).
Defined.

(** "Ls", with a slip corrected: no such command. *)
Lemma shell_turn_correct_witness : exists m' last k',
  shell_turn 300 boot_table 500 1000 demo_codes (typed_mem, 0) keyboard0 = Some (Unknown [76; 115], (m', last), k') /\
  shows empty_page (str "OpenOS> Ls" ++ [10] ++ answer (Unknown [76; 115])) (con k').
Proof.
  destruct (shell_turn_correct boot_table 500 1000 demo_codes typed_mem 0 keyboard0 empty_page [76; 115; 120; 8] 300)
    as (m' & last & k' & E & H & _).
  - lia.
  - lia.
  - left. lia.
  - vm_compute. repeat split; discriminate.
  - lia.
  - apply clear_displays.
  - repeat (constructor; [repeat (constructor; [vm_compute; split; congruence|]); constructor|]). constructor.
  - vm_compute. reflexivity.
  - apply (bool_decide_unpack _). vm_compute. exact I.
  - exists m', last, k'. exact (conj E H).
Defined.
