(* ===== verification/Kmain.v ===== *)
(** * The whole of [kmain] (kernel/kernel.c)

    The order in which the kernel brings its components up, on the state each of them has
    when it is loaded. The stages follow the code: devices, file system and memory,
    services, processes. The theorem says that every component starts in the state that
    the theorems about it need, and that the shell is the first thing to run. *)
From Stdlib Require Import String.
From S2P Require Import Prelude Mem Frames Pmm Vmm Heap Proc Sched Process CString Ipc Vfs Devices Console Keyboard Traps Network Smp Gui Script Shell Boot.
Local Close Scope string_scope.

(** One step of a sequence of calls, without computing the others. *)
Lemma bind_some {A B} (f : A -> option B) (x : A) : (Some x ≫= f) = f x.
Proof. done. Qed.
Ltac next := rewrite bind_some; cbv beta iota.

(** A line on the screen. *)
Definition log (t : string) (c : console) : console := console_write (str t ++ [10]) c.

(** What the linker, the boot loader and the processor give. *)
Record platform := Platform {
  gdt_addr : Z; tss_addr : Z; idt_addr : Z;
  exception_stub : Z -> Z; irq0_handler : Z; irq1_handler : Z; int80_handler : Z;
  mboot : multiboot_info; mmap_entry : Z -> multiboot_mmap_entry; kernel_start : Z; kernel_end : Z;
  cpuid_available : bool; cpuid_edx : Z;
  smp_buf : Z; default_heap : Z; thread_exit : Z; shell_task : Z;
}.

(** The console, the descriptor tables and the timer. *)
Record devices := DevState { d_con : console; d_tables : tables; d_idt : idt_state; d_timer : timer }.

Section Kmain.
Context (pf : platform).

(** [1/15] to [6/15]. *)
Definition boot_devices (d : devices) : option devices :=
  let con := console_init (d_con d) in
  let con := log "OpenOS - Advanced Educational Kernel" con in
  let con := log "====================================" con in
  let con := console_write (str "Running in 32-bit protected mode." ++ [10; 10]) con in
  let con := log "[1/15] Installing GDT and TSS..." con in
  let t := gdt_init (gdt_addr pf) (tss_addr pf) (d_tables d) in
  let con := log "[2/15] Initializing IDT..." con in
  let i := idt_init (idt_addr pf) (d_idt d) in
  let con := log "[3/15] Installing exception handlers..." con in
  let i := exceptions_init (exception_stub pf) i in
  let con := log "[4/15] Initializing PIC..." con in
  let con := on_hw pic_init con in
  let con := log "[5/15] Initializing timer..." con in
  '(tm, m) ← timer_init 100 (d_timer d, hw con);
  let con := on_hw (fun _ => m) con in
  let i := idt_set_gate 0x20 (irq0_handler pf) KERNEL_CODE_SEGMENT IDT_FLAGS_KERNEL i in
  let con := log "[6/15] Initializing keyboard..." con in
  let i := idt_set_gate 0x21 (irq1_handler pf) KERNEL_CODE_SEGMENT IDT_FLAGS_KERNEL i in
  let con := on_hw keyboard_init con in
  Some (DevState con t i tm).

(** The walk over the memory map takes at most one step per byte of it. *)
Definition mmap_fuel : nat := Z.to_nat (u32 (mb_mmap_addr (mboot pf) + mb_mmap_length (mboot pf)) - mb_mmap_addr (mboot pf)).

(** [7/15] to [9/15] and the heap: the file system with its current directory, the page
    frames and page tables, and the heap. *)
Record memory := Memory { m_vfs : vfs; m_cwd : option nat; m_vmm : vmm pmm; m_frames : pmm; m_heap : heap }.
Definition boot_memory (p : pmm) (m : vmm pmm) (h : heap) (con : console) : option (memory * console) :=
  let con := log "[7/15] Initializing filesystem..." con in
  fs ← vfs_init vfs_bss;
  let cwd := vfs_root fs in
  let con := log "[8/15] Initializing physical memory manager..." con in
  p ← pmm_init (mmap_entry pf) (kernel_start pf) (kernel_end pf) mmap_fuel (mboot pf) p;
  let con := log "[9/15] Initializing virtual memory manager..." con in
  m ← vmm_init (set_pmm p m);
  let '(p, h) := boot_heap (default_heap pf) (vm_pmm m) h in
  Some (Memory fs cwd m p h, con).

(** [10/15] to [14/15]; the line of [ipc_init] is written here. *)
Record services := Services { v_ipc : ipc; v_smp : smp; v_gui : gui_state; v_net : net; v_script : script }.
Definition boot_services (stack_mem fb : mem) (h : heap) (con : console) : option (services * console) :=
  let con := log "[10/15] Initializing IPC (pipes, message queues)..." con in
  let ipcs := ipc_init ipc_bss in
  let con := log "IPC: Pipes and message queues initialized" con in
  let con := log "[11/15] Initializing multi-core SMP..." con in
  cpus ← smp_init (smp_buf pf) (cpuid_available pf) (cpuid_edx pf) (Smp (SmpInfo 0 0 (replicate 16 zero_cpu)) 0 con stack_mem);
  let con := log "[12/15] Initializing GUI framework..." (Smp.screen cpus) in
  let '(g, con) := gui_init (Gui fb 0 0 0 0 0 h, con) in
  let con := log "[13/15] Initializing networking stack..." con in
  let '(n, con) := net_init (net_bss, con) in
  let con := log "[14/15] Initializing shell scripting..." con in
  let sc := script_init (Script empty_ctx 0 con ipcs) in
  Some (Services ipcs cpus g n sc, Script.screen sc).

(** [15/15] to the end; the lines of [process_init] and [scheduler_start] are written
    here. The result is the process table, the first process and the screen. *)
Definition boot_processes (h : heap) (i : idt_state) (con : console) : option (sys * option nat * idt_state * console) :=
  let con := log "[15/15] Initializing processes, scheduler, syscalls..." con in
  let s := boot_sys h in
  let con := log "Process: table initialized (64 slots), PID 0 = idle" con in
  let '(i, con) := syscall_init (int80_handler pf) (i, con) in
  let con := on_hw (pic_unmask_irq 0) con in
  let con := log "*** System Ready ***" (console_write [10] con) in
  let con := log "- Exception handling: Active" con in
  let con := log "- Timer interrupts: 100 Hz (preemptive, 50 ms quantum)" con in
  let con := log "- Keyboard: Ready" con in
  let con := log "- Filesystem: Ready" con in
  let con := log "- Processes: Multilevel round-robin scheduler" con in
  let con := log "- Syscalls: int 0x80 (exit/write/getpid/fork/...)" con in
  let con := log "- User mode: Ring 3 execution via TSS" con in
  let con := log "- IPC: Pipes and message queues available" con in
  let con := console_write (str "- Network: TCP/IP stack initialized" ++ [10; 10]) con in
  let con := console_write (str "Type 'help' for available commands." ++ [10; 10]) con in
  '(p, s) ← boot_shell (thread_exit pf) (shell_task pf) s;
  let con := log "Scheduler: preemptive round-robin active (quantum 50 ms)" con in
  Some (s, p, i, con).

(** What the kernel runs with. The heap is the one of the process table. *)
Record kernel := Kernel {
  k_devices : devices; k_memory : memory; k_services : services; k_sys : sys; k_shell : option nat;
}.
Definition kmain (d : devices) (p : pmm) (m : vmm pmm) (h : heap) (stack_mem fb : mem) : option kernel :=
  d ← boot_devices d;
  '(mm, con) ← boot_memory p m h (d_con d);
  '(sv, con) ← boot_services stack_mem fb (m_heap mm) con;
  '(s, shell, i, con) ← boot_processes (Gui.kheap (v_gui sv)) (d_idt d) con;
  Some (Kernel (DevState con (d_tables d) i (d_timer d)) mm sv s shell).
End Kmain.

(** ** Devices *)

(** Writing to the screen and the serial line leaves the interrupt lines and the timer. *)
Definition same_irqs (m m' : machine) : Prop := master m' = master m /\ slave m' = slave m /\ pit m' = pit m.
Lemma same_irqs_trans m1 m2 m3 : same_irqs m1 m2 -> same_irqs m2 m3 -> same_irqs m1 m3.
Proof. intros (E1 & E2 & E3) (F1 & F2 & F3). split_and!; congruence. Qed.
Lemma tx_spin_irqs n : forall m m', tx_spin n m = Some m' -> same_irqs m m'.
Proof.
  induction n as [|n IH]; intros m m'; cbn [tx_spin]; [done|]. unfold tx_ready.
  change (inb (SERIAL_COM1_BASE + UART_LINE_STATUS) m) with (let '(v, u) := uart_in UART_LINE_STATUS (com1 m) in (v, on_com1 (fun _ => u) m)).
  destruct (uart_in UART_LINE_STATUS (com1 m)) as [v u]. destruct (negb _).
  - intros [= <-]. by split_and!.
  - intros H. apply IH in H. exact H.
Qed.
Lemma serial_char_irqs c a m : same_irqs m (serial_write_char c a m).
Proof.
  unfold serial_write_char. destruct (negb a); [by split_and!|]. apply (same_irqs_trans m (tx_wait m)).
  - unfold tx_wait. destruct (tx_spin _ m) as [m'|] eqn:E; cbn [default]; [by apply tx_spin_irqs in E|by split_and!].
  - by split_and!.
Qed.
Lemma put_char_irqs c s : same_irqs (hw s) (hw (console_put_char c s)).
Proof.
  apply (same_irqs_trans _ (serial_write_char (u8 c) (serial_available s) (if c =? 10 then serial_write_char 13 (serial_available s) (hw s) else hw s))).
  - apply (same_irqs_trans _ (if c =? 10 then serial_write_char 13 (serial_available s) (hw s) else hw s)); [|apply serial_char_irqs].
    destruct (c =? 10); [apply serial_char_irqs|by split_and!].
  - unfold console_put_char. set (m := serial_write_char _ _ _). destruct (c =? 10); [|destruct (_ <=? _)];
      unfold next_row; try destruct (_ <=? _); by split_and!.
Qed.
Lemma write_irqs t : forall s, same_irqs (hw s) (hw (console_write t s)).
Proof.
  unfold console_write. induction t as [|c t IH]; intros s; [by split_and!|]. cbn [foldl].
  by apply (same_irqs_trans _ _ _ (put_char_irqs c s)), IH.
Qed.

(** The lines as the controllers have them, and what the timer counts. *)
Definition lines_on (on : Z -> bool) (m : machine) : Prop :=
  programmed m /\ forall j, 0 <= j < 16 -> vector m j = 0x20 + j /\ unmasked m j = on j.
Definition ticking (m : machine) : Prop := pit_mode (pit m) = 3 /\ reload (pit m) = PIT_BASE_FREQUENCY / 100.
Lemma lines_same on m m' : same_irqs m m' -> lines_on on m -> lines_on on m'.
Proof.
  intros (E1 & E2 & _) [H1 H2]. split; [unfold programmed in *; by rewrite E1, E2|]. intros j Hj. specialize (H2 j Hj).
  unfold vector, unmasked, chip in *. by rewrite E1, E2.
Qed.
Lemma ticking_same m m' : pit m' = pit m -> ticking m -> ticking m'.
Proof. unfold ticking. by intros ->. Qed.
Lemma vectors m : programmed m -> forall j, 0 <= j < 16 -> vector m j = 0x20 + j.
Proof.
  intros (_ & _ & _ & _ & _ & H6 & H7 & _) j Hj. unfold vector, chip. destruct (Z.ltb_spec j 8); [rewrite H6|rewrite H7]; dlia.
Qed.
Lemma lines_init m : lines_on (fun _ => false) (pic_init m).
Proof. destruct (pic_init_spec m) as (Hp & _ & _ & Hm & _). split; [done|]. intros j Hj. split; [by apply vectors|by apply Hm]. Qed.
Lemma lines_unmask on irq m : 0 <= irq < 16 -> lines_on on m -> lines_on (fun j => (j =? irq) || on j) (pic_unmask_irq irq m).
Proof.
  intros Hi [H1 H2]. destruct (unmask_spec irq m H1 Hi) as [Hp Hu]. split; [done|]. intros j Hj. split; [by apply vectors|].
  rewrite Hu by done. f_equal. by apply H2.
Qed.
Lemma unmask_pit irq m : pit (pic_unmask_irq irq m) = pit m.
Proof. unfold pic_unmask_irq. destruct (irq <? 8); reflexivity. Qed.

(** The screen shows some page, and the lines are as given. *)
Record ready (on : Z -> bool) (c : console) : Prop := { rd_shows : exists p, displays p c; rd_lines : lines_on on (hw c); rd_tick : ticking (hw c) }.
Lemma ready_write on t c : ready on c -> ready on (console_write t c).
Proof.
  intros [[p Hp] Hl Ht]. pose proof (write_irqs t c) as Hw. constructor; [|by apply (lines_same _ (hw c))|by apply (ticking_same (hw c)); [apply Hw|]].
  destruct (console_text_spec t p c Hp) as [H _]. by eexists.
Qed.
Lemma ready_log on t c : ready on c -> ready on (log t c).
Proof. apply ready_write. Qed.
Lemma ready_unmask on irq c : 0 <= irq < 16 -> ready on c -> ready (fun j => (j =? irq) || on j) (on_hw (pic_unmask_irq irq) c).
Proof.
  intros Hi [[p Hp] Hl Ht]. constructor; [exists p; by apply displays_hw|by apply lines_unmask|].
  apply (ticking_same (hw c)); [apply unmask_pit|done].
Qed.
Lemma ready_ext on on' c : (forall j, on j = on' j) -> ready on c -> ready on' c.
Proof. intros E [H1 [H2 H3] H4]. constructor; [done|split; [done|]|done]. intros j Hj. rewrite <- E. by apply H3. Qed.
#[local] Hint Resolve ready_log ready_write : core.

Lemma timer_100 t m : exists m', timer_init 100 (t, m) = Some (Timer 0 100, m') /\ master m' = master m /\ slave m' = slave m /\ ticking m'.
Proof. eexists. split; [reflexivity|]. split; [reflexivity|]. split; [reflexivity|]. split; reflexivity. Qed.

Lemma init_shows c : displays empty_page (console_init c).
Proof. unfold console_init. destruct (serial_init (hw c)) as [a m]. apply clear_displays. Qed.

(** The gates up to the one of the system calls. *)
Definition early_gates (pf : platform) (i : idt_state) : idt_state :=
  idt_set_gate 0x21 (irq1_handler pf) KERNEL_CODE_SEGMENT IDT_FLAGS_KERNEL
    (idt_set_gate 0x20 (irq0_handler pf) KERNEL_CODE_SEGMENT IDT_FLAGS_KERNEL
      (exceptions_init (exception_stub pf) (idt_init (idt_addr pf) i))).

Lemma devices_spec pf d : exists con, boot_devices pf d =
    Some (DevState con (gdt_init (gdt_addr pf) (tss_addr pf) (d_tables d)) (early_gates pf (d_idt d)) (Timer 0 100)) /\
  ready (fun j => j =? 1) con.
Proof.
  unfold boot_devices. cbv zeta. match goal with |- context [on_hw pic_init ?c] => set (c1 := c) end.
  assert (exists p, displays p c1) as [p Hp].
  { unfold c1, log. repeat match goal with |- exists _, displays _ (console_write ?t ?c) =>
      enough (exists q, displays q c) as [? Hq] by (eexists; apply (proj1 (console_text_spec t _ c Hq))) end.
    exists empty_page. apply init_shows. }
  clearbody c1. match goal with |- context [timer_init 100 (d_timer d, hw ?c)] => set (c2 := c) end.
  assert (lines_on (fun _ => false) (hw c2)) as [H1 H2].
  { unfold c2, log. apply (lines_same _ _ _ (write_irqs _ _)). exact (lines_init (hw c1)). }
  assert (exists q, displays q c2) as [q Hq] by (eexists; exact (proj1 (console_text_spec _ _ _ (displays_hw p pic_init c1 Hp)))).
  clearbody c2. clear c1 p Hp. destruct (timer_100 (d_timer d) (hw c2)) as (m' & -> & Em & Es & Ht). cbn [mbind option_bind].
  eexists. split; [reflexivity|]. apply (ready_ext (fun j => (j =? 1) || false)); [intros j; apply orb_false_r|].
  change (on_hw keyboard_init ?c) with (on_hw (pic_unmask_irq 1) c). apply ready_unmask; [lia|]. apply ready_log. constructor.
  - exists q. by apply displays_hw.
  - cbn [hw on_hw]. split; [unfold programmed in *; by rewrite Em, Es|].
    intros j Hj. specialize (H2 j Hj). unfold vector, unmasked, chip in *. by rewrite Em, Es.
  - exact Ht.
Qed.

(** ** Memory *)

Definition memory_ok (pf : platform) : Prop :=
  let mmap := mb_mmap_addr (mboot pf) in let mmap_end := u32 (mmap + mb_mmap_length (mboot pf)) in
  is_u32 mmap /\ is_u32 (kernel_start pf) /\ is_u32 (kernel_end pf) /\
  (forall q, mmap <= q < mmap_end -> 0 <= mmap_size (mmap_entry pf q) < 2 ^ 32 - q - 4) /\
  32 <= default_heap pf /\ default_heap pf + 65536 < 2 ^ 32.

(** The frame allocator governs less than the whole address space. *)
Lemma frames_spec pf p0 : memory_ok pf -> exists p,
  pmm_init (mmap_entry pf) (kernel_start pf) (kernel_end pf) (mmap_fuel pf) (mboot pf) p0 = Some p /\
  (total_pages p < 2 ^ 20 -> fa_inv p /\ ~ fa_managed p top_frame).
Proof.
  intros (Hm & Hs & He & Hsz & _). destruct (mmap_chain_exists _ _ _ Hsz Hm) as (es & Hes & Hlen).
  destruct (pmm_init_ok (mmap_entry pf) (kernel_start pf) (kernel_end pf) (mmap_fuel pf) (mboot pf) es p0) as (p & Hp & Hwf & _ & Hfree);
    [by intros _|unfold mmap_fuel; lia|done|done|].
  exists p. split; [done|]. intros Ht. split.
  - split; [done|]. split; [lia|]. intros [Hr Hb]. rewrite Hfree in Hb by done. done.
  - change (~ top_frame / 4096 < total_pages p). change (top_frame / 4096) with (2 ^ 20 - 1). lia.
Qed.

(** What the memory stage leaves, on the frames [p1] of [pmm_init] and with the heap in
    the region from [base]: the file system is a tree with its root as current directory;
    the heap is the static one, or one on a run of pages that the frame allocator no
    longer has, that are none of the page tables and are mapped to themselves. *)
Record memory_up (pf : platform) (p1 : pmm) (h : heap) (base size : Z) (mm : memory) : Prop := {
  mu_tree : tree (m_vfs mm) 0;
  mu_cwd : m_cwd mm = Some 0%nat;
  mu_region : good_region base size;
  mu_heap :
    (m_heap mm = h /\ base = default_heap pf /\ size = 65536 /\ m_frames mm = vm_pmm (m_vmm mm) /\ fst (fa_alloc (m_frames mm)) = 0) \/
    exists got, size = Z.of_nat got * 0x1000 /\ heap_on (vm_pmm (m_vmm mm)) (m_frames mm) base got (default_heap pf) h (m_heap mm) /\
      match alloc_dir_pages p1 with
      | (Some d, q) => kernel_directory (m_vmm mm) = d /\ (forall a, owns (vm_mem (m_vmm mm)) d a -> ~ run base got a) /\
          forall v, base <= v < base + size -> v < init_ram_end q -> vmm_get_physical 0 v (m_vmm mm) = v
      | (None, _) => True
      end;
}.
Lemma memory_spec pf p m h con on : memory_ok pf -> ready on con ->
  (forall p1, pmm_init (mmap_entry pf) (kernel_start pf) (kernel_end pf) (mmap_fuel pf) (mboot pf) p = Some p1 -> total_pages p1 < 2 ^ 20) ->
  exists mm con' p1 base size, boot_memory pf p m h con = Some (mm, con') /\ ready on con' /\
    pmm_init (mmap_entry pf) (kernel_start pf) (kernel_end pf) (mmap_fuel pf) (mboot pf) p = Some p1 /\ memory_up pf p1 h base size mm.
Proof.
  intros Hok Hr Ht. unfold boot_memory. cbv zeta. pose proof init_tree as Hv. pose proof boot_tree as Hb.
  destruct (vfs_init vfs_bss) as [fs|]; [|done]. specialize (Hb fs eq_refl). clear Hv. pose proof (proj1 (tr_root _ _ Hb)) as Hroot. cbn [mbind option_bind].
  destruct (frames_spec pf p Hok) as (p1 & E & Hp). specialize (Ht p1 E). destruct (Hp Ht) as [Hi Hm]. rewrite E. cbn [mbind option_bind].
  destruct (boot_memory_correct (set_pmm p1 m) (default_heap pf) h Hi Hm) as (m' & p' & h' & Em & Eh & Hmem). rewrite Em. cbn [mbind option_bind]. rewrite Eh.
  destruct Hok as (_ & _ & _ & _ & Hd1 & Hd2). cbv zeta in Hmem. destruct (Z.eqb_spec (fst (fa_alloc (vm_pmm m'))) 0) as [Hz|Hz].
  - destruct Hmem as [-> ->]. eexists _, _, p1, (default_heap pf), 65536. split; [reflexivity|]. split; [auto|]. split; [done|].
    constructor; cbn [m_vfs m_cwd m_heap m_frames m_vmm]; [done|done|unfold good_region; lia|]. left. by split_and!.
  - destruct Hmem as (got & Hon & _ & Htab). eexists _, _, p1, _, _. split; [reflexivity|]. split; [auto|]. split; [done|].
    constructor; cbn [m_vfs m_cwd m_heap m_frames m_vmm]; [done|done|apply (ho_region _ _ _ _ _ _ _ Hon)|]. right. exists got. split; [done|]. split; [exact Hon|exact Htab].
Qed.

(** ** Services *)

Lemma gui_fresh fb h con : exists fb', fst (gui_init (Gui fb 0 0 0 0 0 h, con)) = Gui fb' GUI_WIDTH GUI_HEIGHT 0 1 1 h.
Proof.
  unfold gui_init. cbn [initialized Z.eqb negb fst Gui.kheap framebuffer]. set (g := Gui fb GUI_WIDTH GUI_HEIGHT 0 1 1 h).
  assert (screen_ok g) as Hs by done. rewrite (pt_same _ _ _ _ (clear_screen_spec COLOR_BLACK g Hs)). by eexists.
Qed.
Lemma gui_ready on x : ready on (snd x) -> ready on (snd (gui_init x)).
Proof. destruct x as [g con]. unfold gui_init. destruct (negb _); [done|]. cbn [snd]. auto. Qed.
Lemma net_ready on x : ready on (snd x) -> ready on (snd (net_init x)).
Proof. destruct x as [n con]. unfold net_init. destruct (negb _); [done|]. cbn [snd]. auto. Qed.
Lemma script_ready on s : ready on (Script.screen s) -> ready on (Script.screen (script_init s)).
Proof. unfold script_init. destruct (negb _); [done|]. cbv zeta. cbn [Script.screen Script.say]. auto. Qed.

(** The services after boot, on the heap [h]. *)
Record services_up (pf : platform) (h : heap) (sv : services) : Prop := {
  su_ipc : fifo_inv (v_ipc sv) no_history;
  su_smp : let n := detect_cpu_count (cpuid_available pf) (cpuid_edx pf) in tracks n (state_after n []) (v_smp sv);
  su_gui : exists fb, v_gui sv = Gui fb GUI_WIDTH GUI_HEIGHT 0 1 1 h;
  su_net : net_wf (v_net sv);
  su_script : implements initial_vars (script_ctx (v_script sv));
}.
Lemma services_spec pf sm fb h con on : is_u32 (cpuid_edx pf) -> ready on con ->
  exists sv con', boot_services pf sm fb h con = Some (sv, con') /\ ready on con' /\ services_up pf h sv.
Proof.
  intros He Hr. unfold boot_services. cbv zeta. match goal with |- context [Smp _ 0 ?c sm] => set (c1 := c) end.
  assert (ready on c1) as H1 by (unfold c1; auto 20). clearbody c1.
  destruct (init_tracks (smp_buf pf) (cpuid_available pf) (cpuid_edx pf) (SmpInfo 0 0 (replicate 16 zero_cpu)) c1 sm He) as (l & cpus & -> & _ & Es & Ht).
  cbn [mbind option_bind]. rewrite Es.
  match goal with |- context [gui_init (_, ?c)] => assert (ready on c) as H2 by auto 20; revert H2; generalize c; intros c2 H2 end.
  pose proof (gui_ready on (Gui fb 0 0 0 0 0 h, c2) H2) as H3. destruct (gui_fresh fb h c2) as (fb' & Eg).
  destruct (gui_init (Gui fb 0 0 0 0 0 h, c2)) as [g c3]. cbn [fst snd] in Eg, H3.
  match goal with |- context [net_init (_, ?c)] => assert (ready on c) as H4 by auto; revert H4; generalize c; intros c4 H4 end.
  pose proof (net_ready on (net_bss, c4) H4) as H5. pose proof (init_wf net_bss c4 zero_wf) as Hn.
  destruct (net_init (net_bss, c4)) as [n c5]. cbn [fst snd] in Hn, H5.
  eexists _, _. split; [reflexivity|]. split; [apply script_ready; cbn [Script.screen]; auto|].
  constructor; cbn [v_ipc v_smp v_gui v_net v_script]; [apply init_inv|exact Ht|by exists fb'|exact Hn|by apply init_implements].
Qed.

(** ** Processes *)

(** Until [heap_init] is called the first [kmalloc] builds the list of the static heap. *)
Lemma lazy_create te name entry arg prio (s : sys) : heap_head (Proc.kheap s) = 0 -> heap_base (Proc.kheap s) <> 0 -> entry <> 0 -> prio < PRIORITY_LEVELS ->
  process_create te name entry arg prio s = process_create te name entry arg prio (with_kheap (heap_build_freelist (Proc.kheap s)) s).
Proof.
  intros Hh Hb He Hp. unfold process_create. rewrite (proj2 (Z.eqb_neq entry 0) He), (proj2 (Z.leb_gt PRIORITY_LEVELS prio)) by done. cbn [orb].
  assert (kmalloc PROCESS_KSTACK_SIZE (Proc.kheap s) = kmalloc PROCESS_KSTACK_SIZE (heap_build_freelist (Proc.kheap s))) as ->.
  { unfold kmalloc, kmalloc_aligned. rewrite Hh. cbn [Z.eqb].
    assert ((heap_head (heap_build_freelist (Proc.kheap s)) =? 0) = false) as -> by (by apply Z.eqb_neq). done. }
  change (Proc.kheap (with_kheap ?h ?x)) with h. by destruct (kmalloc PROCESS_KSTACK_SIZE _) as [[stack h]|].
Qed.

(** The process table over the heap the memory stage left. *)
Lemma shell_spec pf h p1 base size mm : heap_head h = 0 -> heap_base h = default_heap pf -> heap_size h = 65536 ->
  memory_ok pf -> shell_task pf <> 0 -> memory_up pf p1 h base size mm ->
  exists r s, boot_shell (thread_exit pf) (shell_task pf) (boot_sys (m_heap mm)) = Some (r, s) /\
    match r with
    | Some i => exists s0, created base size ∅ (thread_exit pf) (Some (str "shell")) (shell_task pf) 0 PRIORITY_HIGH s0 no_queues 0 i s
    | None => proc_inv base size ∅ s no_queues 0 /\ size < 16400
    end.
Proof.
  intros Hh Hb Hsz (_ & _ & _ & _ & Hd1 & Hd2) Hst [_ _ Hg [(Em & -> & -> & _)|(got & -> & Hon & _)]].
  - assert (boot_shell (thread_exit pf) (shell_task pf) (boot_sys h) = boot_shell (thread_exit pf) (shell_task pf) (boot_sys (heap_init (default_heap pf) (default_heap pf) 65536 h))) as E.
    { unfold boot_shell. rewrite (lazy_create _ _ _ _ _ (boot_sys h)); [|done|change (heap_base h <> 0); lia|done|done].
      assert (heap_init (default_heap pf) (default_heap pf) 65536 h = heap_build_freelist h) as ->; [|reflexivity].
      unfold heap_init. rewrite (proj2 (Z.eqb_neq (default_heap pf) 0)) by lia. change (65536 <=? HEADER_SIZE + MIN_PAYLOAD) with false. cbn [orb].
      destruct h as [hm hb hs hh]. cbn in *. by subst. }
    rewrite Em, E. destruct (boot_shell_spec (default_heap pf) (default_heap pf) 65536 h (thread_exit pf) (shell_task pf) Hg Hst) as (r & s & E' & H).
    exists r, s. split; [exact E'|]. destruct r; [by eexists|exact H].
  - rewrite (ho_heap _ _ _ _ _ _ _ Hon).
    destruct (boot_shell_spec (default_heap pf) base (Z.of_nat got * 0x1000) h (thread_exit pf) (shell_task pf) Hg Hst) as (r & s & E' & H).
    exists r, s. split; [exact E'|]. destruct r; [by eexists|exact H].
Qed.
Lemma processes_spec pf h i con r s : ready (fun j => j =? 1) con -> boot_shell (thread_exit pf) (shell_task pf) (boot_sys h) = Some (r, s) ->
  exists con', boot_processes pf h i con = Some (s, r, idt_set_gate 0x80 (int80_handler pf) KERNEL_CODE_SEGMENT IDT_FLAGS_USER i, con') /\
    ready (fun j => (j =? 0) || (j =? 1)) con'.
Proof.
  intros Hr E. unfold boot_processes. cbv zeta. unfold syscall_init. cbv iota beta. rewrite E. cbn [mbind option_bind].
  eexists. split; [reflexivity|]. do 13 apply ready_write. apply (ready_unmask (fun j => j =? 1) 0); [lia|]. auto.
Qed.

Lemma gates_order pf i con : fst (boot_gates (exception_stub pf) (irq0_handler pf) (irq1_handler pf) (int80_handler pf) (idt_addr pf) (i, con)) =
  idt_set_gate 0x80 (int80_handler pf) KERNEL_CODE_SEGMENT IDT_FLAGS_USER (early_gates pf i).
Proof. unfold boot_gates, syscall_init. cbv zeta. cbn [fst]. reflexivity. Qed.

(** ** The kernel *)

(** A running kernel whose heap is in the region of [size] bytes from [base], the frames
    of [pmm_init] being [p1] and the static heap [h]. *)
Record kernel_up (pf : platform) (t : tables) (p1 : pmm) (h : heap) (base size : Z) (k : kernel) : Prop := {
  ku_ready : ready (fun j => (j =? 0) || (j =? 1)) (d_con (k_devices k));
  ku_timer : d_timer (k_devices k) = Timer 0 100;
  ku_tables : d_tables (k_devices k) = gdt_init (gdt_addr pf) (tss_addr pf) t;
  ku_gates : idtr (d_idt (k_devices k)) = TablePtr 2047 (idt_addr pf) /\
    forall v, is_u8 v -> gate_at (d_idt (k_devices k)) v =
      if v <? 32 then Some (Gate GDT_KERNEL_CODE (exception_stub pf v) false)
      else if v =? 0x20 then Some (Gate GDT_KERNEL_CODE (irq0_handler pf) false)
      else if v =? 0x21 then Some (Gate GDT_KERNEL_CODE (irq1_handler pf) false)
      else if v =? 0x80 then Some (Gate GDT_KERNEL_CODE (int80_handler pf) true) else None;
  ku_memory : memory_up pf p1 h base size (k_memory k);
  ku_services : services_up pf (m_heap (k_memory k)) (k_services k);
  ku_windows : exists live, gui_inv base size live [] (with_windows 0 (Proc.kheap (k_sys k)) (v_gui (k_services k)));
  ku_sys : exists qs, proc_inv base size ∅ (k_sys k) qs 0;
  ku_shell : match k_shell k with
    | Some i => (exists s0, created base size ∅ (thread_exit pf) (Some (str "shell")) (shell_task pf) 0 PRIORITY_HIGH s0 no_queues 0 i (k_sys k)) /\
        exists s' qs', timer_handler (k_sys k) = Some s' /\ proc_inv base size ∅ s' qs' i /\ current_process s' = Some i /\
          p_state (proc s' i) = RUNNING /\ p_quantum_left (proc s' i) = SCHED_QUANTUM_TICKS
    | None => size < 16400
    end;
}.

(** What the code the kernel is linked with and the boot loader provide. *)
Record platform_ok (pf : platform) : Prop := {
  po_gates : (forall n, is_u32 (exception_stub pf n)) /\ is_u32 (irq0_handler pf) /\ is_u32 (irq1_handler pf) /\ is_u32 (int80_handler pf);
  po_memory : memory_ok pf;
  po_cpuid : is_u32 (cpuid_edx pf);
  po_shell : shell_task pf <> 0;
}.


(** A small machine: 1664 KiB, one page of kernel, one processor. *)
Definition small_pf : platform := Platform 0x120000 0x121000 0x122000 (fun n => 0x110000 + 16 * (n mod 32)) 0x110200 0x110240 0x110280
  small_mboot demo_rd 0x100000 0x101000 false 0 0x8000 0x130000 0x5000 0x6000.
Definition small_devices : devices :=
  DevState console0 (Tables (replicate 6 (GdtEntry 0 0 0 0 0 0)) (TablePtr 0 0) (Tss 0 0 0 []) (TablePtr 0 0) 0 8 16)
    (Idt (replicate 256 (IdtEntry 0 0 0 0 0)) (TablePtr 0 0) (TablePtr 0 0)) (Timer 0 0).
Lemma small_ok : platform_ok small_pf.
Proof.
  constructor; [|unfold memory_ok; cbn [small_pf mboot small_mboot mb_mmap_addr mb_mmap_length kernel_start kernel_end mmap_entry default_heap]| |].
  - cbn [small_pf exception_stub irq0_handler irq1_handler int80_handler]. split; [|split_and!; wsolve].
    intros n. pose proof (Z.mod_pos_bound n 32 ltac:(lia)). unfold is_u32. change (2 ^ 32) with 4294967296. lia.
  - split_and!; [wsolve|wsolve|wsolve| |lia|lia]. intros q Hq. rewrite u32_small in Hq by wsolve. lia.
  - cbn [small_pf cpuid_edx]. wsolve.
  - discriminate.
Qed.
